(* ===== verification/_CoqProject ===== *)
-Q . S2P
Prelude.v
GoStrings.v
Float64.v
Encoding.v
Canon.v
Json.v
Decimal.v
Shortest.v
FloatText.v
SqlText.v
Sql.v
Model.v
World.v
Concrete.v
Commit.v
Replay.v
Rbac.v
JsonSchema.v
Pack.v
Byok.v
GoJson.v
Records.v
RecordsCorrect.v
Landing.v
Workflow.v
WorkflowCorrect.v
Identities.v
Members.v
MembersMoves.v
MembersCorrect.v
Invitations.v
Retention.v
RetentionCorrect.v
Anchors.v
Checkpoints.v
Ranges.v
CheckpointsCorrect.v
CheckpointChain.v
Auditing.v
AuditCorrect.v
AuditGate.v
Verifier.v
VerifierCorrect.v
BundleCorrect.v
Queries.v
Diffs.v
QueriesCorrect.v
Admin.v
AdminCorrect.v
Standby.v
StandbyCorrect.v
Tokens.v
TokensCorrect.v
Bootstrap.v
BootstrapCorrect.v
Requests.v
PackFile.v
CarRegister.v
Mail.v
Hooks.v
Api.v
Gate.v
Within.v
ApiCorrect.v
GateCorrect.v
Sealed.v
App.v
AppCorrect.v
Startup.v
StartupCorrect.v
Site.v
