(* ===== verification/Prelude.v ===== *)
(** * A verification library for the register

    The register ([src/]) is a Go service that keeps records of classes
    declared in a policy pack. Every change is one governed transaction:
    an envelope (who, when, why), a write set of SQL row operations, and
    one row of the transaction log, landed together as one commit of an
    append-only authenticated ledger. Personal data is sealed under keys
    that can be destroyed; members, invitations and workflows decide who
    may do what; signed checkpoints make the whole history checkable by
    somebody who holds nothing but a public key. Around it stand an HTTP
    interface, a warm standby, an offline verifier, an email sender and a
    webhook dispatcher. This library translates that code into executable
    Rocq definitions and proves what makes each part correct.

    ** How the code is modelled

    - A Go function is a Rocq function of the same name. One that touches
      the store, the clock, randomness, keys or the notifier is in the
      monad [World.M]: [world -> res A * world]. A failed call returns
      [Err] together with the world it left, so what an error path has
      already done is kept, and the rollback of an SQL transaction is a
      step of the program and not of the monad. Pure functions that can
      fail return [Prelude.res].
    - [World.world] holds the committed tables, the tables of an open SQL
      transaction if there is one, the version and root of the ledger, the
      clock and randomness positions, the cache of data keys, the notes
      given to the notifier, the last checkpoint, the key-value backend
      beside the ledger, and the version below which history was pruned.
    - [Api.system] is a whole server: the world, the verifier's key cache,
      the email sender and the server's place in its lifecycle. A request
      is one step of it ([Api.H], the same monad over [system]).
    - SQL is modelled twice. [SqlText] builds the statement text of
      [store.go] and reads it back; [Sql] and [World] run the statements
      themselves over typed tables with primary keys. A statement is the
      value [Sql.stmt] of the text the code builds.
    - JSON is text: [Canon] and [Json] print and parse it as
      [internal/canon] and [encoding/json] do; numbers are literals until
      they are decoded, and decode to binary64 values ([Float64],
      [Decimal]) as Go's [any] does. [GoJson] is [json.Marshal] of the
      structures the register stores.
    - Integers are [Z]. Where the width shows (the conversions between
      [int], [uint64] and [int64], [ParseUint], the length checks of
      [VerifyAnchors]) the wrap-around is written out.
    - Go maps are [gmap]s or association lists in key order; where the code
      ranges over a map and the order could show, it sorts, and so does the
      model.
    - The store's one mutex makes a call of the register one step, so a
      sequence of calls is a sequence of steps; a goroutine that works
      through a queue or a ticker is the sequence of its turns.

    Code that is not in the repository is an argument of the definitions
    that use it, a class with its documented laws: [Sql.SqlEngine] (what
    the engine refuses and converts, the order it scans in, free queries,
    the commit's root),
    [World.Crypto] (SHA-256, HMAC, AES-GCM, ed25519, HKDF),
    [World.Process] (clock, randomness, the engine's roots) and
    [World.Runtime] (all of these), [GoStrings.GoUnicode] (case mapping,
    quoting), [JsonSchema.GoFormats] (regular expressions, addresses,
    dates), [Anchors.Ledger] (the ledger's proofs, its history chain and
    its key-value backend), [Verifier.Host] (files and sorting for the
    offline verifier), [Standby.Replication] (the ledger as a tree of
    leaves, the primary's answers), [Tokens.Provider] (the identity
    provider's answers, signature schemes, the clock), [Mail.Outbox] and
    [Hooks.Subscribers] (the network's answers to mail and webhooks),
    [Sealed.Volume] (a volume whose operations may fail) and
    [Startup.Opener] (opening a data directory). Each has a
    concrete instance beside it ([Concrete.plain_runtime],
    [Anchors.plain_ledger] and so on) in which the witnesses are
    evaluated.

    ** The files

    - [Prelude], [GoStrings], [Float64], [Encoding], [Decimal]: errors and
      results, their tactics and hints; Go's strings, UTF-8 and [fmt] verbs;
      binary64; hex, base64 and base32; printing and reading numbers.
    - [Canon], [Json], [GoJson] ([internal/canon/canon.go]): canonical JSON
      and its round trip.
    - [SqlText], [Sql], [World], [Concrete] ([internal/store/store.go],
      [internal/store/schema.go]): statement text and its lexing, tables and
      statements, the monad of effects, a world to compute with.
    - [Model] ([internal/model/model.go]): envelopes and their validation,
      write operations, transactions, versions, tasks, checkpoints.
    - [Commit], [Replay] ([internal/register/register.go]): the commit
      engine, and what its log is good for.
    - [Rbac], [JsonSchema], [Pack] ([internal/auth/rbac.go],
      [internal/jsonschema/jsonschema.go], [internal/pack/pack.go]): the
      role model, schemas and their validation, packs and theirs.
    - [PackFile], [CarRegister]: decoding a pack document by the Go types
      it is decoded into, and the pack of [packs/car-register], which
      loads.
    - [Byok] ([internal/byok/byok.go]): wrapped data keys.
    - [Records], [RecordsCorrect] ([internal/register/records.go],
      [mutations.go]): building the write sets of records, sealing and
      reading versions.
    - [Landing]: what every governed call does to a world, in one logic:
      the calls that read ([ro]), that keep the store well formed
      ([keeps]), and that move the tables by the effects of one write set
      ([moves]).
    - [Workflow], [WorkflowCorrect] ([internal/register/workflow.go]): the
      states of a task and every move between them.
    - [Identities], [Members], [MembersMoves], [MembersCorrect],
      [Invitations] ([identities.go], [members.go], [invite_mail.go]):
      profiles, grants, invitations; membership refines an abstract
      machine of grants and revocations.
    - [Retention], [RetentionCorrect] ([retention.go]): pruning and
      erasure.
    - [Anchors], [Checkpoints], [Ranges], [CheckpointsCorrect],
      [CheckpointChain] ([internal/checkpoint/checkpoint.go],
      [internal/register/checkpoints.go]): signed checkpoints, how they
      are stored and read back, and the chain.
    - [Auditing], [AuditCorrect], [AuditGate] ([audit.go], [query.go]):
      evidence bundles, the changes of a commit, the audit surface.
    - [Verifier], [VerifierCorrect], [BundleCorrect]
      ([cmd/register-verify/main.go]): the offline verifier, and the way of
      a piece of evidence from the register through JSON to its verdict.
    - [Queries], [QueriesCorrect] ([query.go]): listings, versions,
      history, the log, saved queries.
    - [Admin], [AdminCorrect], [Standby], [StandbyCorrect] ([admin.go],
      [cmd/register/standby.go]): customer keys, subscribers, status;
      export, import and the standby's pull.
    - [Tokens], [TokensCorrect] ([internal/auth/oidc.go]): bearer tokens.
    - [Bootstrap], [BootstrapCorrect] ([bootstrap.go]): bringing the store
      in line with a pack.
    - [Requests], [Api], [Gate], [Within], [ApiCorrect], [GateCorrect]
      ([internal/api/api.go], [handlers.go]): requests and refusals, who is
      calling, one handler per endpoint, the public endpoints and the
      configure call. [Within] is the logic that carries a relation on
      worlds through a whole handler.
    - [Mail], [Hooks], [Sealed] ([internal/mail/mail.go],
      [internal/webhook/webhook.go], [internal/keys/keys.go]): the email
      sender, the webhook dispatcher, the keys on the sealed volume.
    - [App], [AppCorrect] ([internal/config/config.go],
      [internal/platform/manager.go], [cmd/register/main.go],
      [mailing.go]): what the process reads from its environment and
      chooses, and its pass over open invitations.
    - [Startup], [StartupCorrect] ([internal/store/schema.go], [New] of
      [register.go], [configure] of [main.go]): the layout marker, the
      migration, what a new register does before it serves, and the whole
      configure call over the volume and the system together
      ([Startup.P]).
    - [Site] ([internal/api/site.go]): the declaration of an adopter's
      pages and the requests they answer.

    ** What the theorems show

    - Storage: a commit is atomic and keeps the tables typed and keyed
      ([Commit]); the log reproduces the tables, replay converges, a retry
      changes nothing and an id binds its transaction ([Replay]); statement
      text means the values given ([SqlText]); canonical JSON round-trips
      ([Json]).
    - Records: a record written is the record read, by those cleared for it
      ([RecordsCorrect]); personal data reaches only ciphertexts and keyed
      hashes; a history shows each version and what it changed, and what a
      caller types into a saved query reaches the engine as literals of the
      declared types ([QueriesCorrect]).
    - Governance: each move of a task has exactly its guards and lands one
      commit, and a decided task stays decided ([WorkflowCorrect]); a
      tenant keeps an administrator and its duties stay apart
      ([MembersCorrect]); an invitation is redeemed once ([Invitations]).
    - Packs and schemas: a pack document that loads is strict, and gives a
      pack with the properties the register relies on ([PackFile]); validation accepts exactly what conforms
      ([JsonSchema]); a schema that changed becomes the version in force
      ([BootstrapCorrect]); a caller's principal is resolved to one role,
      as the role model says ([Rbac]).
    - Keys and disappearance: what pruning and erasure remove, what they
      leave, and that what is erased stays erased ([RetentionCorrect],
      [Identities]); a customer key enrolled is the one in force
      ([AdminCorrect]); the store is tied to one commitment key
      ([Sealed]), and a register that came up has every base table on a
      volume marked with its layout ([StartupCorrect]).
    - Evidence: bundles and checkpoints verify offline, form one chain, and
      two anchors bind the roots between them; an audit prunes only what it
      has verified, anchored and committed; the verifier's verdict on a
      list of checkpoints or a log is exactly what it should be; a standby
      reaches its primary's leaves, root and version.
    - Access: a token accepted was signed by its issuer for this audience
      ([TokensCorrect]); over HTTP only a known caller changes the
      register, every request keeps the store well formed, no two endpoints
      answer one request ([ApiCorrect]); nothing is served before a
      configure call named the register's people ([GateCorrect]); an
      adopter's pages never answer for the register ([Site]).

    ** Bounds and fuel

    Parsers recurse on fuel equal to the length of their input plus one and
    the binary64 printer searches at most seventeen digits; each file
    proves that its fuel is enough for what it claims. Schemas and write
    sets recurse on their structure. [Checkpoints.scan_pages] recurses on
    one page more than the backend holds records and
    [CheckpointsCorrect.checkpoints_read_back] proves that it always ends;
    a standby's pull takes a bound on its pages, and
    [StandbyCorrect.standby_catches_up] proves that it ends within one. Numbers that
    pass through JSON as floats are bounded by 2^53 where a theorem needs
    them back exactly.

    ** What is not modelled, and why

    Rendering answers as JSON, response headers and the request log, the
    pages of the explorer and the templates and files of an adopter's site
    are output only: answers are typed values. The document a
    self-configuring register writes for itself, signals, tickers, timeouts
    and the closing of what a configure call replaces are the process's. The SQL engine, the
    ledger's Merkle tree, the standard library's templates, regular
    expressions and address grammar, and the answers of the network are
    third-party code and parameters here. The parsing of command-line
    flags is the flag package's. Generated
    identifiers and clock readings are streams of [World.Process]. *)

From stdpp Require Export base gmap sets list strings pretty sorting.
From Stdlib Require Export ZArith Lia.

(** ** Errors

    A Go error is modelled by what distinguishes it to the code that
    receives it: a message (its format and arguments), a wrapped error,
    or one of the error values other code matches on
    ([register.PruneError], [register.ErrInvite], [auth.ErrNoRole]). *)
Inductive error :=
  | Errorf (format : string) (args : list string)
  | Wrapf (format : string) (args : list string) (inner : error)
  | PruneError (object_id : string) (version : Z) (policy : string)
  | ErrInvite
  | ErrNoRole.

#[export] Instance error_eq_dec : EqDecision error.
Proof. solve_decision. Defined.

(** [errors.Is]/[errors.As]: the innermost error of a chain of wraps. *)
Fixpoint root_cause (e : error) : error :=
  match e with Wrapf _ _ inner => root_cause inner | _ => e end.

(** ** Results *)
Inductive res (A : Type) :=
  | Ok (a : A)
  | Err (e : error).
Arguments Ok {_} _.
Arguments Err {_} _.

#[export] Instance res_ret : MRet res := fun _ a => Ok a.
#[export] Instance res_bind : MBind res := fun _ _ k m =>
  match m with Ok a => k a | Err e => Err e end.
#[export] Instance res_fmap : FMap res := fun _ _ f m =>
  match m with Ok a => Ok (f a) | Err e => Err e end.

Definition is_ok {A} (r : res A) : bool :=
  match r with Ok _ => true | Err _ => false end.

(** [if cond { return err }]. *)
Definition refuse_if (c : bool) (e : error) : res unit := if c then Err e else Ok tt.

Definition of_option {A} (o : option A) (e : error) : res A :=
  match o with Some a => Ok a | None => Err e end.

(** The first failure of a list of checks, run in order. *)
Fixpoint check_all {A} (f : A -> res unit) (l : list A) : res unit :=
  match l with
  | [] => Ok tt
  | x :: l => _ ← f x; check_all f l
  end.

Lemma bind_Ok_inv {A B} (m : res A) (k : A -> res B) b :
  (m ≫= k) = Ok b -> exists a, m = Ok a /\ k a = Ok b.
Proof. destruct m; naive_solver. Qed.

Lemma refuse_if_Ok c e u : refuse_if c e = Ok u <-> c = false.
Proof. destruct c, u; naive_solver. Qed.

Lemma refuse_if_Err c e e' : refuse_if c e = Err e' <-> c = true /\ e = e'.
Proof. destruct c; naive_solver. Qed.

Lemma of_option_Ok {A} (o : option A) e a : of_option o e = Ok a <-> o = Some a.
Proof. destruct o; naive_solver. Qed.

Lemma check_all_Ok {A} (f : A -> res unit) l :
  check_all f l = Ok tt <-> Forall (fun x => f x = Ok tt) l.
Proof.
  induction l as [|x l IH]; simpl; [naive_solver|].
  unfold mbind, res_bind; destruct (f x) as [[]|e] eqn:E; split.
  - intros H; constructor; [done|]; by apply IH.
  - intros H; apply IH; by inversion H.
  - done.
  - intros H; inversion H; congruence.
Qed.

(** ** Tactics of the development *)

(** Invert a successful chain of [res] binds. *)
Ltac res_inv_step :=
  match goal with
  | H : Ok _ = Ok _ |- _ => injection H as H; subst
  | H : Err _ = Err _ |- _ => injection H as H; subst
  | H : Ok _ = Err _ |- _ => discriminate H
  | H : Err _ = Ok _ |- _ => discriminate H
  | H : (_ ≫= _) = Ok _ |- _ =>
      apply bind_Ok_inv in H; destruct H as (? & ? & ?)
  | H : refuse_if _ _ = Ok _ |- _ => apply refuse_if_Ok in H
  | H : of_option _ _ = Ok _ |- _ => apply of_option_Ok in H
  | H : mret _ = Ok _ |- _ => unfold mret, res_ret in H
  end.
Ltac res_inv := repeat res_inv_step.

(** Case analysis on the scrutinee of a [match] or [if] in a hypothesis. *)
Ltac case_hyp H :=
  match type of H with
  | context [match ?x with _ => _ end] =>
      lazymatch x with
      | context [match _ with _ => _ end] => fail
      | _ => destruct x eqn:?
      end
  end.

Ltac bool_hyps :=
  repeat match goal with
  | H : _ && _ = true |- _ => apply andb_true_iff in H; destruct H
  | H : _ || _ = false |- _ => apply orb_false_iff in H; destruct H
  | H : negb _ = true |- _ => apply negb_true_iff in H
  | H : negb _ = false |- _ => apply negb_false_iff in H
  | H : bool_decide _ = true |- _ => apply bool_decide_eq_true in H
  | H : bool_decide _ = false |- _ => apply bool_decide_eq_false in H
  | H : String.eqb _ _ = true |- _ => apply String.eqb_eq in H
  | H : String.eqb _ _ = false |- _ => apply String.eqb_neq in H
  | H : Z.eqb _ _ = true |- _ => apply Z.eqb_eq in H
  | H : Z.eqb _ _ = false |- _ => apply Z.eqb_neq in H
  | H : Z.ltb _ _ = true |- _ => apply Z.ltb_lt in H
  | H : Z.ltb _ _ = false |- _ => apply Z.ltb_ge in H
  | H : Z.leb _ _ = true |- _ => apply Z.leb_le in H
  | H : Z.leb _ _ = false |- _ => apply Z.leb_gt in H
  end.

(** The rewriting and resolution hints of the library. *)
Create HintDb register.
#[export] Hint Resolve lookup_insert_eq lookup_delete_eq : register.


(** ** Generic lemmas *)

(** Membership test of Go's [contains]/[containsString] loops. *)
Definition containsString (l : list string) (want : string) : bool :=
  existsb (fun v => String.eqb v want) l.

Lemma containsString_elem l s : containsString l s = true <-> s ∈ l.
Proof.
  unfold containsString. rewrite existsb_exists. setoid_rewrite String.eqb_eq.
  setoid_rewrite list_elem_of_In. naive_solver.
Qed.

Lemma containsString_not_elem l s : containsString l s = false <-> s ∉ l.
Proof. rewrite <- containsString_elem. destruct (containsString l s); naive_solver. Qed.

(** [sort.Strings]: ascending byte order. *)
Definition sort_strings (l : list string) : list string := merge_sort String.le l.

Lemma sort_strings_perm l : sort_strings l ≡ₚ l.
Proof. apply merge_sort_Permutation. Qed.

Lemma elem_of_sort_strings s l : s ∈ sort_strings l <-> s ∈ l.
Proof. by rewrite sort_strings_perm. Qed.

Lemma sort_strings_sorted l : StronglySorted String.le (sort_strings l).
Proof. apply StronglySorted_merge_sort; apply _. Qed.

Lemma sort_strings_nodup l : NoDup l -> NoDup (sort_strings l).
Proof. by rewrite sort_strings_perm. Qed.

(** Two sorted permutations of the same list are equal, so sorting hides
    the iteration order of a Go map. *)
Lemma sort_strings_ext l1 l2 : l1 ≡ₚ l2 -> sort_strings l1 = sort_strings l2.
Proof.
  intros H. apply (StronglySorted_unique String.le); try apply sort_strings_sorted.
  by rewrite !sort_strings_perm.
Qed.

#[export] Hint Resolve sort_strings_sorted sort_strings_nodup : register.
