(* ===== verification/GoStrings.v ===== *)
(** * Go strings

    A Go [string] (and a [[]byte]) is a sequence of bytes: [string] of the
    Standard Library. This file models the functions of [strings],
    [unicode/utf8], [strconv] and the builtin conversions the register
    calls on them, and the register's own string helpers [clip],
    [composeMessage], [orDefault] and [truncateRunes]. *)

From S2P Require Import Prelude.
From Stdlib Require Export Ascii.

Local Open Scope Z_scope.

Definition byte_Z (a : ascii) : Z := Z.of_N (N_of_ascii a).
Definition Z_byte (z : Z) : ascii := ascii_of_N (Z.to_N (z mod 256)).
Definition nl : string := String "010"%char EmptyString.

Fixpoint bytes_of (s : string) : list ascii :=
  match s with EmptyString => [] | String a s => a :: bytes_of s end.
Fixpoint of_bytes (l : list ascii) : string :=
  match l with [] => EmptyString | a :: l => String a (of_bytes l) end.

Lemma of_bytes_of s : of_bytes (bytes_of s) = s.
Proof. induction s; simpl; congruence. Qed.
Lemma bytes_of_of l : bytes_of (of_bytes l) = l.
Proof. induction l; simpl; congruence. Qed.

(** [len(s)]. *)
Definition len (s : string) : Z := Z.of_nat (String.length s).

(** ** Runes

    [for _, r := range s]: UTF-8 decoding in which an invalid byte is one
    [utf8.RuneError] of width one. Each rune is kept with the bytes it was
    decoded from. *)
Definition RuneError : Z := 65533.

Definition is_cont (a : ascii) : bool := (128 <=? byte_Z a) && (byte_Z a <=? 191).
Definition cont_bits (a : ascii) : Z := byte_Z a - 128.

Definition rune2 (a b : ascii) : option Z :=
  let x := byte_Z a in
  if (194 <=? x) && (x <=? 223) && is_cont b
  then Some ((x - 192) * 64 + cont_bits b) else None.

Definition rune3 (a b c : ascii) : option Z :=
  let x := byte_Z a in
  let r := (x - 224) * 4096 + cont_bits b * 64 + cont_bits c in
  if (224 <=? x) && (x <=? 239) && is_cont b && is_cont c
     && (2048 <=? r) && negb ((55296 <=? r) && (r <=? 57343))
  then Some r else None.

Definition rune4 (a b c d : ascii) : option Z :=
  let x := byte_Z a in
  let r := (x - 240) * 262144 + cont_bits b * 4096 + cont_bits c * 64 + cont_bits d in
  if (240 <=? x) && (x <=? 244) && is_cont b && is_cont c && is_cont d
     && (65536 <=? r) && (r <=? 1114111)
  then Some r else None.

Fixpoint segments (s : string) : list (Z * string) :=
  match s with
  | EmptyString => []
  | String a s1 =>
      if byte_Z a <? 128 then (byte_Z a, String a "") :: segments s1 else
      match s1 with
      | EmptyString => [(RuneError, String a "")]
      | String b s2 =>
          match rune2 a b with
          | Some r => (r, String a (String b "")) :: segments s2
          | None =>
              match s2 with
              | EmptyString => (RuneError, String a "") :: segments s1
              | String c s3 =>
                  match rune3 a b c with
                  | Some r => (r, String a (String b (String c ""))) :: segments s3
                  | None =>
                      match s3 with
                      | EmptyString => (RuneError, String a "") :: segments s1
                      | String d s4 =>
                          match rune4 a b c d with
                          | Some r => (r, String a (String b (String c (String d "")))) :: segments s4
                          | None => (RuneError, String a "") :: segments s1
                          end
                      end
                  end
              end
          end
      end
  end.

Definition runes (s : string) : list Z := (segments s).*1.
Definition unsegment (l : list (Z * string)) : string :=
  foldr (fun p acc => p.2 +:+ acc) "" l.

(** [len([]rune(s))]. *)
Definition rune_count (s : string) : Z := Z.of_nat (length (runes s)).

(** [string(r)] / [Buffer.WriteRune]: the UTF-8 encoding of one rune; a
    surrogate or out-of-range value is written as [utf8.RuneError]. *)
Definition encode_rune (r : Z) : string :=
  let r := if (r <? 0) || (1114111 <? r) || ((55296 <=? r) && (r <=? 57343)) then RuneError else r in
  if r <? 128 then String (Z_byte r) ""
  else if r <? 2048 then String (Z_byte (192 + r / 64)) (String (Z_byte (128 + r mod 64)) "")
  else if r <? 65536 then
    String (Z_byte (224 + r / 4096)) (String (Z_byte (128 + (r / 64) mod 64))
      (String (Z_byte (128 + r mod 64)) ""))
  else
    String (Z_byte (240 + r / 262144)) (String (Z_byte (128 + (r / 4096) mod 64))
      (String (Z_byte (128 + (r / 64) mod 64)) (String (Z_byte (128 + r mod 64)) ""))).

(** [unicode.IsSpace]. *)
Definition is_space (r : Z) : bool :=
  ((9 <=? r) && (r <=? 13)) || (r =? 32) || (r =? 133) || (r =? 160) || (r =? 5760)
  || ((8192 <=? r) && (r <=? 8202)) || (r =? 8232) || (r =? 8233) || (r =? 8239)
  || (r =? 8287) || (r =? 12288).

Fixpoint drop_while {A} (p : A -> bool) (l : list A) : list A :=
  match l with
  | [] => []
  | x :: l' => if p x then drop_while p l' else l
  end.

(** [strings.TrimSpace]. *)
Definition TrimSpace (s : string) : string :=
  let sp := fun q : Z * string => is_space q.1 in
  unsegment (reverse (drop_while sp (reverse (drop_while sp (segments s))))).

(** [strings.TrimRight(s, cut)] and [strings.TrimLeft] for a one-byte
    ASCII cut set. *)
Definition TrimRight1 (c : ascii) (s : string) : string :=
  of_bytes (reverse (drop_while (Ascii.eqb c) (reverse (bytes_of s)))).
Definition TrimLeft1 (c : ascii) (s : string) : string :=
  of_bytes (drop_while (Ascii.eqb c) (bytes_of s)).

(** [strings.IndexByte], [None] for [-1]. *)
Fixpoint IndexByte (s : string) (c : ascii) : option nat :=
  match s with
  | EmptyString => None
  | String a s => if Ascii.eqb a c then Some O else S <$> IndexByte s c
  end.

Definition str_take (n : nat) (s : string) : string := String.substring 0 n s.
Definition str_drop (n : nat) (s : string) : string := String.substring n (String.length s - n) s.

Fixpoint HasPrefix (s p : string) {struct p} : bool :=
  match p, s with
  | EmptyString, _ => true
  | String a p, String b s => Ascii.eqb a b && HasPrefix s p
  | _, _ => false
  end.
Definition TrimPrefix (s p : string) : string :=
  if HasPrefix s p then str_drop (String.length p) s else s.
Definition HasSuffix (s p : string) : bool :=
  HasPrefix (of_bytes (reverse (bytes_of s))) (of_bytes (reverse (bytes_of p))).
Fixpoint Contains (s p : string) : bool :=
  HasPrefix s p || match s with EmptyString => false | String _ s => Contains s p end.

(** [strings.Join]. *)
Fixpoint Join (l : list string) (sep : string) : string :=
  match l with
  | [] => ""
  | [x] => x
  | x :: l => x +:+ sep +:+ Join l sep
  end.

(** [strings.Split] on a one-byte separator. *)
Fixpoint split_go (acc : string) (s : string) (c : ascii) : list string :=
  match s with
  | EmptyString => [String.rev acc]
  | String a s => if Ascii.eqb a c then String.rev acc :: split_go "" s c
                  else split_go (String a acc) s c
  end.
Definition Split1 (s : string) (c : ascii) : list string := split_go "" s c.

(** [strings.ReplaceAll] of one byte by a string. *)
Fixpoint ReplaceAll1 (s : string) (c : ascii) (by_ : string) : string :=
  match s with
  | EmptyString => ""
  | String a s => (if Ascii.eqb a c then by_ else String a "") +:+ ReplaceAll1 s c by_
  end.

(** The Unicode tables [strings.ToLower] consults outside ASCII, and
    [strconv.Quote] (the [%q] verb), stay parameters. *)
Class GoUnicode := {
  unicode_ToLower : Z -> Z;
  strconv_Quote : string -> string;
}.

Definition lower_rune `{GoUnicode} (r : Z) : Z :=
  if (65 <=? r) && (r <=? 90) then r + 32
  else if r <? 128 then r else unicode_ToLower r.

(** [strings.ToLower]. *)
Definition ToLower `{GoUnicode} (s : string) : string :=
  foldr (fun r acc => encode_rune (lower_rune r) +:+ acc) "" (runes s).

(** ** Numbers in decimal *)

(** [strconv.FormatInt(n, 10)] and the [%d] verb. *)
Definition itoa (z : Z) : string := pretty z.

Definition digit_val (a : ascii) : option Z :=
  let x := byte_Z a in if (48 <=? x) && (x <=? 57) then Some (x - 48) else None.

Fixpoint parse_digits (acc : Z) (s : string) : option Z :=
  match s with
  | EmptyString => Some acc
  | String a s => match digit_val a with Some d => parse_digits (acc * 10 + d) s | None => None end
  end.

Definition parse_udec (s : string) : option Z :=
  match s with EmptyString => None | _ => parse_digits 0 s end.

Definition int64_min : Z := - 2 ^ 63.
Definition int64_max : Z := 2 ^ 63 - 1.

(** [strconv.ParseInt(s, 10, 64)]: the value with [true], or the value
    Go leaves beside its error (zero for a syntax error, the nearest
    bound when out of range) with [false]. *)
Definition ParseInt64 (s : string) : Z * bool :=
  let '(neg, body) :=
    match s with
    | String "+" r => (false, r)
    | String "-" r => (true, r)
    | _ => (false, s)
    end in
  match parse_udec body with
  | None => (0, false)
  | Some n =>
      let v := if neg then - n else n in
      if v <? int64_min then (int64_min, false)
      else if int64_max <? v then (int64_max, false) else (v, true)
  end.

(** Wrap-around conversions. *)
Definition to_uint64 (z : Z) : Z := z mod 2 ^ 64.
Definition to_int64 (z : Z) : Z := (z + 2 ^ 63) mod 2 ^ 64 - 2 ^ 63.

(** ** Hexadecimal *)
Definition hex_digit (n : Z) : ascii := if n <? 10 then Z_byte (48 + n) else Z_byte (87 + n).

(** [hex.EncodeToString]. *)
Fixpoint hex_encode (s : string) : string :=
  match s with
  | EmptyString => ""
  | String a s => String (hex_digit (byte_Z a / 16)) (String (hex_digit (byte_Z a mod 16)) (hex_encode s))
  end.

Definition hex_val (a : ascii) : option Z :=
  let x := byte_Z a in
  if (48 <=? x) && (x <=? 57) then Some (x - 48)
  else if (97 <=? x) && (x <=? 102) then Some (x - 87)
  else if (65 <=? x) && (x <=? 70) then Some (x - 55) else None.

(** [hex.DecodeString]; [None] for its error. *)
Fixpoint hex_decode (s : string) : option string :=
  match s with
  | EmptyString => Some ""
  | String a (String b s) =>
      match hex_val a, hex_val b, hex_decode s with
      | Some x, Some y, Some r => Some (String (Z_byte (x * 16 + y)) r)
      | _, _, _ => None
      end
  | String _ EmptyString => None
  end.

(** ** The register's own helpers *)

Definition ellipsis : string := encode_rune 8230.

(** [register.clip]: Go's slice [s[:n-1]] is a byte slice. *)
Definition clip (s : string) (n : Z) : string :=
  if len s <=? n then s else str_take (Z.to_nat (n - 1)) s +:+ ellipsis.

(** [register.composeMessage]. *)
Definition composeMessage (summary body : string) : string :=
  let summary := TrimSpace summary in
  let body := TrimSpace body in
  if String.eqb body "" then summary else summary +:+ nl +:+ nl +:+ body.

(** [register.orDefault]. *)
Definition orDefault (v fallback : string) : string :=
  if String.eqb (TrimSpace v) "" then fallback else v.

(** [register.truncateRunes]. The [[]rune] conversion replaces invalid
    bytes by U+FFFD, but only when the string is actually cut. *)
Definition truncateRunes (s : string) (n : Z) : string :=
  if rune_count s <=? n then s
  else foldr (fun r acc => encode_rune r +:+ acc) "" (take (Z.to_nat n) (runes s)).

(** ** Facts *)

Lemma string_app_assoc (a b c : string) : (a +:+ b) +:+ c = a +:+ (b +:+ c).
Proof. induction a; [done|]. change ((String a a0 +:+ b) +:+ c) with (String a ((a0 +:+ b) +:+ c)).
  change (String a a0 +:+ b +:+ c) with (String a (a0 +:+ b +:+ c)). by rewrite IHa. Qed.
Lemma string_app_nil_r (a : string) : a +:+ "" = a.
Proof. induction a as [|c a IH]; [done|]. change (String c a +:+ "") with (String c (a +:+ "")). by rewrite IH. Qed.
Lemma string_app_cons c (a b : string) : String c a +:+ b = String c (a +:+ b).
Proof. done. Qed.

Lemma bytes_of_app a b : bytes_of (a +:+ b) = bytes_of a ++ bytes_of b.
Proof. induction a as [|c a IH]; [done|]. rewrite string_app_cons. simpl. by rewrite IH. Qed.

(** Strong induction on a string, one rune at a time. *)
Lemma string_ind_len (P : string -> Prop) :
  (forall s, (forall t, (String.length t < String.length s)%nat -> P t) -> P s) -> forall s, P s.
Proof.
  intros H s. remember (String.length s) as n eqn:E. revert s E.
  induction n as [n IH] using lt_wf_ind. intros s ->. apply H. intros t Ht. by eapply IH.
Qed.

(** A string is the concatenation of the bytes of its runes: decoding
    loses nothing. *)
Lemma unsegment_segments s : unsegment (segments s) = s.
Proof.
  induction s as [s IH] using string_ind_len.
  destruct s as [|a s1]; [done|].
  assert (H1 : forall t, (String.length t <= String.length s1)%nat -> unsegment (segments t) = t).
  { intros t Ht. apply IH. simpl. lia. }
  assert (Hc : forall r, unsegment ((r, String a "") :: segments s1) = String a s1).
  { intros r. simpl. by rewrite (H1 s1). }
  simpl segments. destruct (byte_Z a <? 128); [apply Hc|].
  destruct s1 as [|b s2]; [done|].
  destruct (rune2 a b); [simpl; rewrite (H1 s2) by (simpl; lia); done|].
  destruct s2 as [|c s3]; [apply Hc|].
  destruct (rune3 a b c); [simpl; rewrite (H1 s3) by (simpl; lia); done|].
  destruct s3 as [|d s4]; [apply Hc|].
  destruct (rune4 a b c d); [simpl; rewrite (H1 s4) by (simpl; lia); done|apply Hc].
Qed.

Lemma rune_count_le s : rune_count s <= len s.
Proof.
  unfold rune_count, runes, len. rewrite length_fmap.
  enough (length (segments s) <= String.length s)%nat by lia.
  induction s as [s IH] using string_ind_len. destruct s as [|a s1]; [done|].
  assert (H1 : forall t, (String.length t <= String.length s1)%nat ->
    (length (segments t) <= String.length t)%nat) by (intros; apply IH; simpl; lia).
  simpl segments. destruct (byte_Z a <? 128).
  { simpl. specialize (H1 s1). lia. }
  destruct s1 as [|b s2]; [simpl; lia|].
  destruct (rune2 a b); [specialize (H1 s2); simpl in *; lia|].
  destruct s2 as [|c s3]; [specialize (H1 (String b "")); simpl in *; lia|].
  destruct (rune3 a b c); [specialize (H1 s3); simpl in *; lia|].
  destruct s3 as [|d s4]; [specialize (H1 (String b (String c ""))); simpl in *; lia|].
  destruct (rune4 a b c d); [specialize (H1 s4); simpl in *; lia|].
  specialize (H1 (String b (String c (String d s4)))). simpl in *. lia.
Qed.

(** An ASCII byte is a rune of its own wherever it stands. *)
Definition is_ascii (s : string) : bool := forallb (fun a => byte_Z a <? 128) (bytes_of s).

Lemma Join_cons x y l sep : Join (x :: y :: l) sep = x +:+ sep +:+ Join (y :: l) sep.
Proof. done. Qed.

Lemma bytes_of_inj a b : bytes_of a = bytes_of b -> a = b.
Proof. intros H. rewrite <- (of_bytes_of a), <- (of_bytes_of b). by rewrite H. Qed.

Lemma byte_Z_range a : 0 <= byte_Z a < 256.
Proof. unfold byte_Z. pose proof (N_ascii_bounded a). lia. Qed.
Lemma Z_byte_byte_Z a : Z_byte (byte_Z a) = a.
Proof.
  unfold Z_byte, byte_Z. rewrite Z.mod_small by (pose proof (byte_Z_range a); unfold byte_Z in *; lia).
  rewrite N2Z.id. apply ascii_N_embedding.
Qed.
Lemma byte_Z_Z_byte z : byte_Z (Z_byte z) = z mod 256.
Proof.
  unfold Z_byte, byte_Z. pose proof (Z.mod_pos_bound z 256).
  rewrite N_ascii_embedding by lia. lia.
Qed.

Lemma hex_val_hex_digit n : 0 <= n < 16 -> hex_val (hex_digit n) = Some n.
Proof.
  intros H. assert (n ∈ seqZ 0 16) as E by (apply elem_of_seqZ; lia).
  repeat (apply elem_of_cons in E as [->|E]; [reflexivity|]). by apply elem_of_nil in E.
Qed.

Lemma byte_hi_range a : 0 <= byte_Z a / 16 < 16.
Proof. pose proof (byte_Z_range a). split; [apply Z.div_pos; lia|]. apply Z.div_lt_upper_bound; lia. Qed.

Lemma hex_roundtrip s : hex_decode (hex_encode s) = Some s.
Proof.
  induction s as [|a s IH]; [done|]. simpl.
  rewrite !hex_val_hex_digit, IH by (apply byte_hi_range || (pose proof (Z.mod_pos_bound (byte_Z a) 16); lia)).
  f_equal. f_equal. rewrite <- (Z_byte_byte_Z a) at 3. f_equal.
  pose proof (Z.div_mod (byte_Z a) 16). lia.
Qed.

Lemma hex_encode_inj a b : hex_encode a = hex_encode b -> a = b.
Proof. intros H. apply (f_equal hex_decode) in H. rewrite !hex_roundtrip in H. congruence. Qed.

Lemma itoa_inj a b : itoa a = itoa b -> a = b.
Proof. apply (inj pretty). Qed.
