(* ===== verification/Float64.v ===== *)
(** * IEEE 754 binary64

    Go's [float64], exactly: a finite value is an integer mantissa times a
    power of two, kept with an odd mantissa so that equal values are equal
    terms. Arithmetic is exact on the ratio and rounded once, to nearest
    even. [ParseFloat] reads the decimal forms JSON has; [FormatFloat]
    with precision [-1] is the shortest decimal that reads back as the
    same value, found by trying one to seventeen digits. *)

From S2P Require Import Prelude GoStrings.
Local Open Scope Z_scope.

Inductive float64 :=
  | FFin (m e : Z)
  | FNegZero
  | FInf (neg : bool)
  | FNaN.

#[export] Instance float64_eq_dec : EqDecision float64.
Proof. solve_decision. Defined.

#[export] Instance float64_countable : Countable float64.
Proof.
  refine (inj_countable'
    (fun f => match f with FFin m e => inl (m, e) | FNegZero => inr None
              | FInf b => inr (Some (Some b)) | FNaN => inr (Some None) end)
    (fun x => match x with inl (m, e) => FFin m e | inr None => FNegZero
              | inr (Some (Some b)) => FInf b | inr (Some None) => FNaN end) _).
  by intros [].
Defined.

Fixpoint strip_pos (p : positive) (e : Z) : positive * Z :=
  match p with xO p => strip_pos p (e + 1) | _ => (p, e) end.

Definition mk (m e : Z) : float64 :=
  match m with
  | 0 => FFin 0 0
  | Zpos p => let '(q, e) := strip_pos p e in FFin (Zpos q) e
  | Zneg p => let '(q, e) := strip_pos p e in FFin (Zneg q) e
  end.

Definition div_even (x y : Z) : Z :=
  let q := x / y in let r := x mod y in
  match 2 * r ?= y with Lt => q | Gt => q + 1 | Eq => if Z.even q then q else q + 1 end.

(** [x * 2^e] as a fraction with positive denominator. *)
Definition scale_num (m e : Z) : Z := m * 2 ^ (Z.max e 0).
Definition scale_den (e : Z) : Z := 2 ^ (Z.max (- e) 0).

Definition round_ratio (n d : Z) : float64 :=
  if n =? 0 then FFin 0 0 else
  let a := Z.abs n in
  let k := Z.log2 a - Z.log2 d in
  let e0 := k - 53 in
  let q0 := scale_num a (- e0) / (d * scale_den (- e0)) in
  let e1 := if 2 ^ 53 <=? q0 then e0 + 1 else e0 in
  let e := Z.max (-1074) e1 in
  let m := div_even (scale_num a (- e)) (d * scale_den (- e)) in
  if 2 ^ 1024 <=? m * 2 ^ (Z.max e 0) then FInf (n <? 0)
  else if (m =? 0) && (n <? 0) then FNegZero
  else mk (if n <? 0 then - m else m) e.

Definition of_Z (z : Z) : float64 := round_ratio z 1.

Definition fcompare (a b : float64) : option comparison :=
  match a, b with
  | FNaN, _ | _, FNaN => None
  | FInf s, FInf t => Some (match s, t with true, false => Lt | false, true => Gt | _, _ => Eq end)
  | FInf true, _ => Some Lt | FInf false, _ => Some Gt
  | _, FInf true => Some Gt | _, FInf false => Some Lt
  | FNegZero, FNegZero => Some Eq
  | FNegZero, FFin m _ => Some (0 ?= m)
  | FFin m _, FNegZero => Some (m ?= 0)
  | FFin m1 e1, FFin m2 e2 =>
      let e := Z.min e1 e2 in Some (m1 * 2 ^ (e1 - e) ?= m2 * 2 ^ (e2 - e))
  end.

Definition flt a b := match fcompare a b with Some Lt => true | _ => false end.
Definition fle a b := match fcompare a b with Some Lt | Some Eq => true | _ => false end.
Definition feq a b := match fcompare a b with Some Eq => true | _ => false end.

(** [math.Trunc] and [math.Round] (half away from zero). *)
Definition ftrunc (f : float64) : float64 :=
  match f with
  | FFin m e => if 0 <=? e then f else
      let q := Z.quot m (2 ^ (- e)) in if (q =? 0) && (m <? 0) then FNegZero else mk q 0
  | _ => f
  end.
Definition fround (f : float64) : float64 :=
  match f with
  | FFin m e => if 0 <=? e then f else
      let d := 2 ^ (- e) in
      let q := (2 * Z.abs m + d) / (2 * d) in
      if (q =? 0) && (m <? 0) then FNegZero else mk (if m <? 0 then - q else q) 0
  | _ => f
  end.

Definition fabs (f : float64) : float64 :=
  match f with FFin m e => FFin (Z.abs m) e | FNegZero => FFin 0 0 | FInf _ => FInf false | FNaN => FNaN end.

Definition fsub (a b : float64) : float64 :=
  match a, b with
  | FFin m1 e1, FFin m2 e2 =>
      let e := Z.min e1 e2 in
      let m := m1 * 2 ^ (e1 - e) - m2 * 2 ^ (e2 - e) in
      round_ratio (scale_num m e) (scale_den e)
  | _, FNegZero => a
  | FNegZero, FFin m e => if m =? 0 then FNegZero else FFin (- m) e
  | FNaN, _ | _, FNaN => FNaN
  | FInf s, FInf t => if Bool.eqb s t then FNaN else FInf s
  | FInf s, _ => FInf s
  | _, FInf t => FInf (negb t)
  end.

(** Division by a finite, strictly positive divisor, the only kind the
    program performs. *)
Definition fdiv_pos (a b : float64) : float64 :=
  match a, b with
  | FFin m1 e1, FFin m2 e2 =>
      if m1 =? 0 then FFin 0 0
      else round_ratio (scale_num m1 e1 * scale_den e2) (scale_den e1 * scale_num m2 e2)
  | FNegZero, FFin _ _ => FNegZero
  | FInf s, FFin _ _ => FInf s
  | FFin m _, FInf _ => if m <? 0 then FNegZero else FFin 0 0
  | _, _ => FNaN
  end.

(** [int64(f)]: truncation; a value outside the range (where Go leaves
    the result to the implementation) is what amd64 produces. *)
Definition int64_of_float (f : float64) : Z :=
  match f with
  | FFin m e =>
      let z := if 0 <=? e then m * 2 ^ e else Z.quot m (2 ^ (- e)) in
      if (int64_min <=? z) && (z <=? int64_max) then z else int64_min
  | FNegZero => 0
  | _ => int64_min
  end.

(** ** Reading decimals *)

Definition of_decimal (neg : bool) (mant exp10 : Z) : float64 :=
  if mant =? 0 then (if neg then FNegZero else FFin 0 0) else
  let f := if 0 <=? exp10 then round_ratio (mant * 10 ^ exp10) 1
           else round_ratio mant (10 ^ (- exp10)) in
  if neg then
    match f with FFin 0 _ => FNegZero | FFin m e => FFin (- m) e | FInf _ => FInf true | _ => f end
  else f.

Fixpoint scan_digits (acc : Z) (cnt : Z) (s : string) : Z * Z * string :=
  match s with
  | String a r => match digit_val a with
                  | Some d => scan_digits (acc * 10 + d) (cnt + 1) r
                  | None => (acc, cnt, s)
                  end
  | EmptyString => (acc, cnt, s)
  end.

Definition scan_exp (s : string) : option (Z * string) :=
  match s with
  | String ("e" | "E") r =>
      let '(neg, r) := match r with String "-" r => (true, r) | String "+" r => (false, r) | _ => (false, r) end in
      let '(e, cnt, r) := scan_digits 0 0 r in
      if cnt =? 0 then None else Some (if neg then - e else e, r)
  | _ => Some (0, s)
  end.

(** A decimal number at the front of [s]: sign, mantissa digits as an
    integer, decimal exponent, and what follows. *)
Definition scan_number (s : string) : option (bool * Z * Z * string) :=
  let '(neg, s) := match s with String "-" r => (true, r) | _ => (false, s) end in
  let '(ip, n1, s) := scan_digits 0 0 s in
  if n1 =? 0 then None else
  match s with
  | String "." r =>
      let '(fp, n2, r) := scan_digits ip 0 r in
      if n2 =? 0 then None else
      match scan_exp r with Some (e, r) => Some (neg, fp, e - n2, r) | None => None end
  | _ => match scan_exp s with Some (e, r) => Some (neg, ip, e, r) | None => None end
  end.

(** [strconv.ParseFloat(s, 64)] on the decimal forms of JSON numbers; the
    flag is false on a syntax error or an overflow. *)
Definition ParseFloat (s : string) : float64 * bool :=
  match scan_number s with
  | Some (neg, m, e, "") =>
      match of_decimal neg m e with FInf b => (FInf b, false) | f => (f, true) end
  | _ => (FFin 0 0, false)
  end.

(** ** Shortest decimals *)

Definition frac (f : float64) : Z * Z :=
  match f with FFin m e => (scale_num (Z.abs m) e, scale_den e) | _ => (0, 1) end.

(** The decimal exponent [x] with [10^x <= n/d < 10^(x+1)], from an
    estimate by binary logarithms corrected by at most two. *)
Definition dec_exp (n d : Z) : Z :=
  let ge x := if 0 <=? x then d * 10 ^ x <=? n else d <=? n * 10 ^ (- x) in
  let x0 := (Z.log2 n - Z.log2 d) * 30103 / 100000 in
  if ge (x0 + 2) then x0 + 2 else if ge (x0 + 1) then x0 + 1 else if ge x0 then x0
  else if ge (x0 - 1) then x0 - 1 else x0 - 2.

Definition digits_at (n d x k : Z) : Z * Z :=
  (* [k] digits: the integer mantissa and its decimal exponent *)
  let s := x - k + 1 in
  let D := if 0 <=? s then div_even n (d * 10 ^ s) else div_even (n * 10 ^ (- s)) d in
  (D, s).

Fixpoint strip10 (fuel : nat) (D s : Z) : Z * Z :=
  match fuel with
  | O => (D, s)
  | S fuel => if (D mod 10 =? 0) && negb (D =? 0) then strip10 fuel (D / 10) (s + 1) else (D, s)
  end.

Fixpoint search_digits (f : float64) (n d x : Z) (k : Z) (fuel : nat) : Z * Z :=
  let '(D, s) := digits_at n d x k in
  match fuel with
  | O => (D, s)
  | S fuel => if decide (of_decimal false D s = f) then (D, s) else search_digits f n d x (k + 1) fuel
  end.

(** Mantissa and exponent of the shortest decimal of a positive value. *)
Definition shortest (f : float64) : Z * Z :=
  let '(n, d) := frac f in
  let '(D, s) := search_digits f n d (dec_exp n d) 1 16 in
  strip10 20 D s.

Definition zeros (n : Z) : string := of_bytes (repeat "0"%char (Z.to_nat n)).

Definition fmt_exp (e2 : bool) (e : Z) : string :=
  let a := Z.abs e in
  "e" +:+ (if e <? 0 then "-" else "+") +:+ (if e2 && (a <? 10) then "0" else "") +:+ itoa a.

(** The [%e] and [%f] layouts of a digit string. *)
Definition layout_e (e2 : bool) (ds : string) (exp : Z) : string :=
  match ds with
  | String a "" => String a (fmt_exp e2 exp)
  | String a r => String a ("." +:+ r +:+ fmt_exp e2 exp)
  | EmptyString => ""
  end.
Definition layout_f (ds : string) (exp : Z) : string :=
  let nd := len ds in
  if exp <? 0 then "0." +:+ zeros (- exp - 1) +:+ ds
  else if nd <=? exp + 1 then ds +:+ zeros (exp + 1 - nd)
  else str_take (Z.to_nat (exp + 1)) ds +:+ "." +:+ str_drop (Z.to_nat (exp + 1)) ds.

(** The value formatted with [%e] outside [lo <= exponent < hi]. *)
Definition format_with (lo hi : Z) (e2 : bool) (f : float64) : string :=
  match f with
  | FNaN => "NaN"
  | FInf neg => if neg then "-Inf" else "+Inf"
  | FNegZero => "-0"
  | FFin m e =>
      if m =? 0 then "0" else
      let '(D, s) := shortest (fabs f) in
      let ds := itoa D in
      let exp := s + len ds - 1 in
      (if m <? 0 then "-" else "") +:+
      (if (exp <? lo) || (hi <=? exp) then layout_e e2 ds exp else layout_f ds exp)
  end.

(** [strconv.FormatFloat(f, 'g', -1, 64)], which is also what the [%v]
    verb prints, and the layout [encoding/json] gives a [float64]. *)
Definition FormatFloat_g : float64 -> string := format_with (-4) 6 true.
Definition json_float (f : float64) : string :=
  let small := flt (fabs f) (of_decimal false 1 (-6)) && negb (feq f (FFin 0 0)) in
  let big := fle (of_decimal false 1 21) (fabs f) in
  if small || big then format_with 1 1 false f else format_with (-7) 22 false f.

Example format_samples :
  (FormatFloat_g (of_Z 42), FormatFloat_g (of_Z 1234567), FormatFloat_g (of_decimal false 1 (-1)),
   json_float (of_decimal true 125 (-3)), json_float (of_decimal false 1 21),
   FormatFloat_g (fst (ParseFloat "5e-324")))
  = ("42", "1.234567e+06", "0.1", "-0.125", "1e+21", "5e-324").
Proof. vm_compute. reflexivity. Qed.

(** ** Integers are exact up to 2^53 *)

Lemma strip_pos_spec p : forall e, exists k, 0 <= k /\ (strip_pos p e).2 = e + k /\ Zpos (strip_pos p e).1 * 2 ^ k = Zpos p.
Proof.
  induction p as [p _|p IH|]; intros e; cbn [strip_pos].
  - exists 0. cbn [fst snd]. rewrite Z.pow_0_r. split_and!; lia.
  - destruct (IH (e + 1)) as (k & Hk & He & Hp). exists (k + 1). split_and!; [lia|lia|].
    rewrite Z.pow_add_r by lia. change (2 ^ 1) with 2. lia.
  - exists 0. cbn [fst snd]. rewrite Z.pow_0_r. split_and!; lia.
Qed.

(** A positive mantissa, and its opposite, normalised. *)
Lemma mk_pos m e : 0 < m -> exists q k, 0 < q /\ 0 <= k /\ q * 2 ^ k = m /\ mk m e = FFin q (e + k) /\ mk (- m) e = FFin (- q) (e + k).
Proof.
  intros Hm. destruct m as [|p|p]; [lia| |lia]. destruct (strip_pos_spec p e) as (k & Hk & He & Hp). change (- Z.pos p) with (Z.neg p). unfold mk.
  destruct (strip_pos p e) as [q e'] eqn:E. cbn [fst snd] in *. subst e'. exists (Zpos q), k. split_and!; [lia|lia|exact Hp|reflexivity|reflexivity].
Qed.

Lemma div_even_1 x : div_even x 1 = x.
Proof. unfold div_even. rewrite Z.div_1_r, Z.mod_1_r. done. Qed.

(** A positive integer below 2^53 is a mantissa scaled to 53 bits. *)
Lemma round_ratio_pos z : 0 < z < 2 ^ 53 -> exists q e, 0 < q /\
  round_ratio z 1 = FFin q e /\ round_ratio (- z) 1 = FFin (- q) e /\
  forall s, 0 <= s -> q * 2 ^ (e + s) = z * 2 ^ s \/ e + s < 0.
Proof.
  intros Hz. set (k := Z.log2 z).
  assert (0 <= k <= 52) as Hk.
  { split; [apply Z.log2_nonneg|]. assert (k < 53); [|lia]. apply Z.log2_lt_pow2; lia. }
  assert (2 ^ k <= z) as Hlo by (apply Z.log2_spec; lia).
  assert (2 ^ 53 <= z * 2 ^ (53 - k)) as Hq.
  { replace 53 with (k + (53 - k)) at 1 by lia. rewrite Z.pow_add_r by lia. apply Z.mul_le_mono_nonneg_r; lia. }
  assert (0 < z * 2 ^ (52 - k)) as Hm by (apply Z.mul_pos_pos; [lia|apply Z.pow_pos_nonneg; lia]).
  assert (z * 2 ^ (52 - k) < 2 ^ 53) as Hhi.
  { assert (z < 2 ^ (k + 1)) by (apply Z.log2_spec; lia).
    replace 53 with ((k + 1) + (52 - k)) by lia. rewrite Z.pow_add_r by lia. apply Z.mul_lt_mono_pos_r; [|lia].
    apply Z.pow_pos_nonneg; lia. }
  destruct (mk_pos (z * 2 ^ (52 - k)) (k - 52) Hm) as (q & j & Hq0 & Hj & Hqj & E1 & E2).
  assert (forall n, Z.abs n = z -> round_ratio n 1 = mk (if n <? 0 then - (z * 2 ^ (52 - k)) else z * 2 ^ (52 - k)) (k - 52)) as HR.
  { intros n Hn. unfold round_ratio. destruct (Z.eqb_spec n 0); [lia|]. rewrite Hn. fold k. change (Z.log2 1) with 0.
    unfold scale_num, scale_den. rewrite Z.sub_0_r, Z.opp_involutive.
    rewrite (Z.max_l (- (k - 53)) 0), (Z.max_r (k - 53) 0) by lia. change (1 * 2 ^ 0) with 1. rewrite Z.div_1_r.
    replace (- (k - 53)) with (53 - k) by lia. destruct (Z.leb_spec (2 ^ 53) (z * 2 ^ (53 - k))); [|lia].
    rewrite (Z.max_r (-1074)) by lia. replace (- (k - 53 + 1)) with (52 - k) by lia.
    rewrite (Z.max_l (52 - k) 0), (Z.max_r (- (52 - k)) 0), (Z.max_r (k - 53 + 1) 0) by lia.
    change (1 * 2 ^ 0) with 1. rewrite div_even_1. change (2 ^ 0) with 1. rewrite Z.mul_1_r.
    destruct (Z.leb_spec (2 ^ 1024) (z * 2 ^ (52 - k))) as [Hc|_].
    { exfalso. assert (2 ^ 53 <= 2 ^ 1024) by (apply Z.pow_le_mono_r; lia). lia. }
    destruct (Z.eqb_spec (z * 2 ^ (52 - k)) 0); [lia|]. cbn [andb]. f_equal. lia. }
  exists q, (k - 52 + j). split; [done|]. split; [|split].
  - rewrite HR by lia. destruct (Z.ltb_spec z 0); [lia|]. done.
  - rewrite HR by lia. destruct (Z.ltb_spec (- z) 0); [|lia]. done.
  - intros s Hs. destruct (Z.lt_ge_cases (k - 52 + j + s) 0) as [|Hge]; [by right|left].
    apply (Z.mul_reg_r _ _ (2 ^ (52 - k))); [apply Z.pow_nonzero; lia|].
    rewrite <- Z.mul_assoc, <- Z.pow_add_r by lia.
    replace (k - 52 + j + s + (52 - k)) with (j + s) by lia. rewrite Z.pow_add_r, Z.mul_assoc, Hqj by lia. lia.
Qed.

Lemma int64_of_scaled z q e : 0 <= z <= int64_max ->
  (forall s, 0 <= s -> q * 2 ^ (e + s) = z * 2 ^ s \/ e + s < 0) ->
  int64_of_float (FFin q e) = z /\ int64_of_float (FFin (- q) e) = - z.
Proof.
  intros Hz Hs. unfold int64_of_float.
  assert ((if 0 <=? e then q * 2 ^ e else Z.quot q (2 ^ (- e))) = z /\
    (if 0 <=? e then - q * 2 ^ e else Z.quot (- q) (2 ^ (- e))) = - z) as [-> ->].
  { destruct (Z.leb_spec 0 e) as [He|He].
    - destruct (Hs 0) as [H|H]; [lia| |lia]. rewrite Z.add_0_r, Z.pow_0_r in H. lia.
    - destruct (Hs (- e)) as [H|H]; [lia| |lia]. rewrite Z.add_opp_diag_r, Z.pow_0_r in H.
      assert (q = z * 2 ^ (- e)) as -> by lia. assert (2 ^ (- e) <> 0) by (apply Z.pow_nonzero; lia).
      rewrite <- Z.mul_opp_l, !Z.quot_mul by done. done. }
  unfold int64_min, int64_max in *. split.
  - destruct (Z.leb_spec (- 2 ^ 63) z), (Z.leb_spec z (2 ^ 63 - 1)); cbn [andb]; lia.
  - destruct (Z.leb_spec (- 2 ^ 63) (- z)), (Z.leb_spec (- z) (2 ^ 63 - 1)); cbn [andb]; lia.
Qed.

(** Below 2^53 in magnitude, integer to float and back is the identity. *)
Lemma of_Z_exact z : Z.abs z < 2 ^ 53 ->
  int64_of_float (of_Z z) = z /\ exists m e, of_Z z = FFin m e /\ of_decimal (z <? 0) (Z.abs z) 0 = FFin m e.
Proof.
  intros Hz. destruct (Z.eq_dec z 0) as [->|Hne]; [split; [reflexivity|exists 0, 0; split; reflexivity]|].
  destruct (round_ratio_pos (Z.abs z)) as (q & e & Hq & E1 & E2 & Hs); [lia|].
  assert (2 ^ 53 <= int64_max) by (unfold int64_max; vm_compute; discriminate).
  destruct (int64_of_scaled (Z.abs z) q e) as [I1 I2]; [lia|done|].
  unfold of_decimal, of_Z. destruct (Z.eqb_spec (Z.abs z) 0); [lia|].
  change (10 ^ 0) with 1. rewrite Z.mul_1_r. cbn [Z.leb Z.compare]. rewrite E1.
  destruct (Z.ltb_spec z 0).
  - replace (- Z.abs z) with z in * by lia. rewrite E2. split; [lia|]. exists (- q), e. split; [done|]. by destruct q.
  - replace (Z.abs z) with z in * by lia. rewrite E1. split; [lia|]. by exists q, e.
Qed.
