(* ===== verification/Encoding.v ===== *)
(** * Base-32 and base-64

    The [encoding/base32] and [encoding/base64] codings the register
    uses, as one regrouping of bits: bytes become bits, most significant
    first, and bits become characters [k] at a time, the last group
    completed with zeros. *)

From S2P Require Import Prelude GoStrings.
Local Open Scope Z_scope.

Definition bits_of_Z (k : nat) (z : Z) : list bool :=
  map (fun i => Z.testbit z (Z.of_nat i)) (rev (List.seq 0 k)).
Definition Z_of_bits (l : list bool) : Z :=
  fold_left (fun acc (b : bool) => 2 * acc + (if b then 1 else 0)) l 0.

Definition bits_of_bytes (l : list ascii) : list bool := l ≫= (fun a => bits_of_Z 8 (byte_Z a)).

Fixpoint groups (fuel : nat) (k : nat) (l : list bool) : list (list bool) :=
  match fuel with
  | O => []
  | S fuel => match l with
              | [] => []
              | _ => (take k (l ++ replicate k false)) :: groups fuel k (drop k l)
              end
  end.

(** Whole groups only. *)
Fixpoint full_groups (fuel : nat) (k : nat) (l : list bool) : list (list bool) :=
  match fuel with
  | O => []
  | S fuel => if (length l <? k)%nat then [] else take k l :: full_groups fuel k (drop k l)
  end.

Definition regroup (k : nat) (s : string) : list Z :=
  let bits := bits_of_bytes (bytes_of s) in Z_of_bits <$> groups (length bits) k bits.

Definition char_at (alphabet : string) (i : Z) : ascii :=
  default "?"%char (String.get (Z.to_nat i) alphabet).

Fixpoint index_of (alphabet : string) (a : ascii) : option Z :=
  match alphabet with
  | EmptyString => None
  | String b r => if Ascii.eqb a b then Some 0 else Z.succ <$> index_of r a
  end.

Definition encode_raw (k : nat) (alphabet s : string) : string :=
  of_bytes (char_at alphabet <$> regroup k s).

Definition decode_raw (k : nat) (alphabet s : string) : option string :=
  idx ← mapM (index_of alphabet) (bytes_of s);
  let bits := idx ≫= bits_of_Z k in
  Some (of_bytes ((fun g => Z_byte (Z_of_bits g)) <$> full_groups (length bits) 8 bits)).

Definition base64_std : string := "ABCDEFGHIJKLMNOPQRSTUVWXYZabcdefghijklmnopqrstuvwxyz0123456789+/".
Definition base64_url : string := "ABCDEFGHIJKLMNOPQRSTUVWXYZabcdefghijklmnopqrstuvwxyz0123456789-_".

(** [register.idAlphabet]. *)
Definition idAlphabet : string := "0123456789abcdefghjkmnpqrstvwxyz".

(** [base64.StdEncoding.EncodeToString]. *)
Definition base64_encode (s : string) : string :=
  let raw := encode_raw 6 base64_std s in
  raw +:+ of_bytes (replicate (Z.to_nat ((- len raw) mod 4)) "="%char).

Definition is_newline (a : ascii) : bool := Ascii.eqb a "010" || Ascii.eqb a "013".

(** [base64.StdEncoding.DecodeString]; [None] for its error. *)
Definition base64_decode (s : string) : option string :=
  let bs := List.filter (fun a => negb (is_newline a)) (bytes_of s) in
  if negb (Z.of_nat (length bs) mod 4 =? 0) then None else
  let data := reverse (drop_while (Ascii.eqb "=") (reverse bs)) in
  if (2 <? length bs - length data)%nat then None else decode_raw 6 base64_std (of_bytes data).

(** [base64.RawURLEncoding.EncodeToString] and the register's base-32. *)
Definition base64_rawurl (s : string) : string := encode_raw 6 base64_url s.
Definition base32_id (s : string) : string := encode_raw 5 idAlphabet s.

(** ** Round trip *)

Lemma length_bits_of_Z k z : length (bits_of_Z k z) = k.
Proof. unfold bits_of_Z. by rewrite length_map, length_rev, length_seq. Qed.

Lemma bits_of_Z_succ k z : bits_of_Z (S k) z = Z.testbit z (Z.of_nat k) :: bits_of_Z k z.
Proof. unfold bits_of_Z. rewrite seq_S, rev_app_distr. reflexivity. Qed.

Lemma Z_of_bits_acc l acc :
  fold_left (fun acc (b : bool) => 2 * acc + (if b then 1 else 0)) l acc
  = acc * 2 ^ Z.of_nat (length l) + Z_of_bits l.
Proof.
  unfold Z_of_bits. revert acc. induction l as [|b l IH]; intros acc; simpl fold_left.
  - change (Z.of_nat (length [])) with 0. lia.
  - rewrite IH, (IH (2 * 0 + _)). cbn [length]. rewrite Nat2Z.inj_succ, Z.pow_succ_r by lia. lia.
Qed.

Lemma Z_of_bits_cons b l : Z_of_bits (b :: l) = (if b then 1 else 0) * 2 ^ Z.of_nat (length l) + Z_of_bits l.
Proof. unfold Z_of_bits at 1. simpl fold_left. rewrite Z_of_bits_acc. destruct b; lia. Qed.

Lemma Z_of_bits_bits_of_Z k z : Z_of_bits (bits_of_Z k z) = z mod 2 ^ Z.of_nat k.
Proof.
  induction k as [|k IH]; [by rewrite Z.mod_1_r|].
  rewrite bits_of_Z_succ, Z_of_bits_cons, IH, length_bits_of_Z.
  rewrite Nat2Z.inj_succ, Z.pow_succ_r, (Z.mul_comm 2), Z.rem_mul_r by lia.
  rewrite Z.testbit_eqb by lia. pose proof (Z.mod_pos_bound (z / 2 ^ Z.of_nat k) 2).
  destruct (Z.eqb_spec ((z / 2 ^ Z.of_nat k) mod 2) 1) as [->|]; [lia|].
  replace ((z / 2 ^ Z.of_nat k) mod 2) with 0 by lia. lia.
Qed.

Lemma Z_of_bits_range l : 0 <= Z_of_bits l < 2 ^ Z.of_nat (length l).
Proof.
  induction l as [|b l IH]; [done|]. rewrite Z_of_bits_cons. cbn [length].
  rewrite Nat2Z.inj_succ, Z.pow_succ_r by lia. destruct b; lia.
Qed.

Lemma bits_of_Z_of_bits l : bits_of_Z (length l) (Z_of_bits l) = l.
Proof.
  induction l as [|b l IH]; [done|].
  cbn [length]. rewrite bits_of_Z_succ, Z_of_bits_cons.
  pose proof (Z_of_bits_range l) as R. f_equal.
  - rewrite Z.testbit_eqb, Z.div_add_l, (Z.div_small (Z_of_bits l)) by lia.
    by destruct b.
  - transitivity (bits_of_Z (length l) (Z_of_bits l)); [|exact IH].
    unfold bits_of_Z. apply map_ext_in. intros i Hi.
    rewrite <- in_rev, in_seq in Hi.
    rewrite <- (Z.mod_pow2_bits_low _ (Z.of_nat (length l))) by lia.
    rewrite Z.add_comm, Z.mod_add, Z.mod_small by lia. done.
Qed.

Lemma mjoin_cons {A} (a : list A) l : mjoin (a :: l) = a ++ mjoin l.
Proof. done. Qed.

(** The groups, ungrouped, are the bits followed by the zeros that
    complete the last group. *)
Lemma groups_concat fuel k l :
  (0 < k)%nat -> (length l <= fuel)%nat ->
  exists p, mjoin (groups fuel k l) = l ++ replicate p false /\ (p < k)%nat
            /\ Forall (fun g => length g = k) (groups fuel k l).
Proof.
  intros Hk. revert l. induction fuel as [|fuel IH]; intros l Hl.
  { destruct l; [|simpl in Hl; lia]. exists 0%nat. repeat split; [lia|constructor]. }
  destruct l as [|b l]; [exists 0%nat; repeat split; [lia|constructor]|].
  cbn [groups]. remember (b :: l) as bl.
  assert (0 < length bl)%nat as H0 by (subst; simpl; lia).
  assert (length (drop k bl) <= fuel)%nat as Hd by (rewrite length_drop; lia).
  destruct (IH _ Hd) as (p & E & Hp & F).
  assert (length (take k (bl ++ replicate k false)) = k) as Ht.
  { rewrite length_take, length_app, length_replicate. lia. }
  rewrite mjoin_cons, E.
  destruct (decide (length bl < k)%nat).
  - exists (k - length bl)%nat. repeat split; [|lia|by constructor].
    rewrite drop_ge in * by lia.
    assert (p = 0)%nat as -> by (destruct fuel; simpl in E; destruct p; naive_solver).
    rewrite take_app_ge, take_replicate, !app_nil_r by lia.
    replace ((k - length bl) `min` k)%nat with (k - length bl)%nat by lia. done.
  - exists p. repeat split; [|done|by constructor].
    rewrite take_app_le, app_assoc, take_drop by lia. done.
Qed.

Lemma full_groups_app gs rest fuel k :
  (0 < k)%nat -> Forall (fun g => length g = k) gs -> (length rest < k)%nat ->
  (length (mjoin gs ++ rest) <= fuel)%nat -> full_groups fuel k (mjoin gs ++ rest) = gs.
Proof.
  intros Hk. revert fuel. induction gs as [|g gs IH]; intros fuel F Hr Hf.
  { simpl in *. destruct fuel; [done|]. cbn [full_groups].
    destruct (Nat.ltb_spec (length rest) k); [done|lia]. }
  inversion F as [|? ? Hg F']; subst. rewrite mjoin_cons, <- app_assoc in *. rewrite length_app in Hf.
  destruct fuel; [lia|]. cbn [full_groups].
  destruct (Nat.ltb_spec (length (g ++ mjoin gs ++ rest)) (length g)) as [Hc|_];
    [rewrite length_app in Hc; lia|].
  rewrite take_app_length, drop_app_length. f_equal. apply IH; [done|done|lia].
Qed.

Lemma index_of_char_at alphabet n :
  forallb (fun i => bool_decide (index_of alphabet (char_at alphabet i) = Some i)) (seqZ 0 n) = true ->
  forall i, 0 <= i < n -> index_of alphabet (char_at alphabet i) = Some i.
Proof.
  intros H i Hi. rewrite forallb_forall in H.
  specialize (H i). rewrite <- list_elem_of_In, elem_of_seqZ, bool_decide_eq_true in H. apply H. lia.
Qed.

Lemma bits_of_bytes_join l : bits_of_bytes l = mjoin ((fun a => bits_of_Z 8 (byte_Z a)) <$> l).
Proof. unfold bits_of_bytes. induction l as [|a l IH]; [done|].
  rewrite fmap_cons, mjoin_cons, bind_cons. by rewrite IH. Qed.

Lemma bits_roundtrip k (gs : list (list bool)) :
  Forall (fun g => length g = k) gs -> (Z_of_bits <$> gs) ≫= bits_of_Z k = mjoin gs.
Proof.
  induction 1 as [|g gs Hg _ IH]; [done|]. rewrite fmap_cons, bind_cons, IH, mjoin_cons.
  by rewrite <- Hg, bits_of_Z_of_bits.
Qed.

Lemma bytes_roundtrip (l : list ascii) :
  (fun g => Z_byte (Z_of_bits g)) <$> ((fun a => bits_of_Z 8 (byte_Z a)) <$> l) = l.
Proof.
  induction l as [|a l IH]; [done|]. cbn [fmap list_fmap]. rewrite IH. f_equal.
  rewrite Z_of_bits_bits_of_Z, Z.mod_small by (apply (byte_Z_range a)). apply Z_byte_byte_Z.
Qed.

Lemma mapM_index_of alphabet n (l : list Z) :
  (forall i, 0 <= i < n -> index_of alphabet (char_at alphabet i) = Some i) ->
  Forall (fun i => 0 <= i < n) l ->
  mapM (index_of alphabet) (char_at alphabet <$> l) = Some l.
Proof.
  intros H. induction 1 as [|i l Hi _ IH]; [done|]. cbn. by rewrite H, IH.
Qed.

(** Decoding undoes encoding, for every alphabet whose [2^k] characters
    are distinct and every group width below a byte. *)
Lemma decode_encode_raw k alphabet s :
  (0 < k <= 8)%nat ->
  forallb (fun i => bool_decide (index_of alphabet (char_at alphabet i) = Some i)) (seqZ 0 (2 ^ Z.of_nat k)) = true ->
  decode_raw k alphabet (encode_raw k alphabet s) = Some s.
Proof.
  intros Hk Ha. unfold decode_raw, encode_raw, regroup. rewrite bytes_of_of.
  set (bits := bits_of_bytes (bytes_of s)).
  destruct (groups_concat (length bits) k bits) as (p & E & Hp & F); [lia|lia|].
  rewrite (mapM_index_of alphabet (2 ^ Z.of_nat k)).
  - unfold mbind, option_bind. rewrite bits_roundtrip, E by done.
    unfold bits at 2. rewrite bits_of_bytes_join.
    rewrite (full_groups_app _ _ _ 8); [by rewrite bytes_roundtrip, of_bytes_of|lia| | |].
    + apply Forall_fmap, Forall_true. intros a. apply (length_bits_of_Z 8).
    + rewrite length_replicate. lia.
    + unfold bits. rewrite bits_of_bytes_join. done.
  - by apply index_of_char_at.
  - apply Forall_fmap. eapply Forall_impl; [exact F|]. intros g <-. simpl. apply Z_of_bits_range.
Qed.

(** A property of the characters of an alphabet holds of its texts. *)
Lemma encode_raw_chars (P : ascii -> Prop) s :
  Forall (fun i => P (char_at base64_std i)) (seqZ 0 64) -> Forall P (bytes_of (encode_raw 6 base64_std s)).
Proof.
  intros HP. unfold encode_raw. rewrite bytes_of_of. apply Forall_fmap. unfold regroup.
  set (bits := bits_of_bytes _).
  destruct (groups_concat (length bits) 6 bits) as (p & _ & _ & F); [lia|lia|].
  apply Forall_fmap. eapply Forall_impl; [exact F|]. intros g Hg. simpl.
  pose proof (Z_of_bits_range g) as R. rewrite Hg in R. rewrite Forall_forall in HP. apply HP, elem_of_seqZ.
  change (2 ^ Z.of_nat 6) with 64 in R. lia.
Qed.

Lemma encode_raw_plain s :
  Forall (fun a => Ascii.eqb "=" a = false /\ is_newline a = false) (bytes_of (encode_raw 6 base64_std s)).
Proof. apply encode_raw_chars. vm_compute. repeat constructor. Qed.

Lemma base64_ascii s : is_ascii (base64_encode s) = true.
Proof.
  unfold is_ascii, base64_encode. rewrite bytes_of_app, bytes_of_of, forallb_app. apply andb_true_iff. split.
  - apply forallb_forall. intros a Ha. apply list_elem_of_In in Ha.
    revert a Ha. apply Forall_forall, encode_raw_chars. vm_compute. repeat constructor.
  - apply forallb_forall. intros a Ha. apply list_elem_of_In, elem_of_replicate in Ha as [-> _]. done.
Qed.

(** Base-64 leaves at most two characters in the last quantum. *)
Lemma encode_raw_len_mod s : exists q r, Z.of_nat (length (bytes_of (encode_raw 6 base64_std s))) = 4 * q + r
  /\ (r = 0 \/ r = 2 \/ r = 3).
Proof.
  unfold encode_raw. rewrite bytes_of_of, length_fmap. unfold regroup. rewrite length_fmap.
  set (bits := bits_of_bytes (bytes_of s)).
  destruct (groups_concat (length bits) 6 bits) as (p & E & Hp & F); [lia|lia|].
  assert (length (mjoin (groups (length bits) 6 bits)) = 6 * length (groups (length bits) 6 bits))%nat as L.
  { clear E. induction F as [|g gs Hg _ IH]; [done|].
    rewrite mjoin_cons, length_app, IH, Hg. cbn [length]. lia. }
  rewrite E, length_app, length_replicate in L.
  assert (length bits = 8 * length (bytes_of s))%nat as L8.
  { unfold bits. rewrite bits_of_bytes_join. generalize (bytes_of s). clear. intros l.
    induction l as [|a l IH]; [done|]. rewrite fmap_cons, mjoin_cons, length_app, length_bits_of_Z, IH. cbn [length]. lia. }
  set (n := length (groups (length bits) 6 bits)) in *.
  exists (Z.of_nat n / 4), (Z.of_nat n mod 4).
  split; [apply Z.div_mod; lia|].
  pose proof (Z.mod_pos_bound (Z.of_nat n) 4). pose proof (Z.div_mod (Z.of_nat n) 4). lia.
Qed.

Lemma drop_while_replicate_app {A} (p : A -> bool) n x (l : list A) :
  p x = true -> match l with [] => True | y :: _ => p y = false end ->
  drop_while p (replicate n x ++ l) = l.
Proof.
  intros Hx Hl. induction n as [|n IH]; simpl; [|by rewrite Hx].
  destruct l as [|y l]; [done|]. simpl. by rewrite Hl.
Qed.

Lemma base64_roundtrip s : base64_decode (base64_encode s) = Some s.
Proof.
  unfold base64_decode, base64_encode. rewrite bytes_of_app, bytes_of_of.
  set (raw := encode_raw 6 base64_std s).
  pose proof (encode_raw_plain s) as P. fold raw in P.
  destruct (encode_raw_len_mod s) as (q & r & Hq & Hr). fold raw in Hq.
  assert (len raw = Z.of_nat (length (bytes_of raw))) as Hlen.
  { unfold len. f_equal. clear. induction raw; simpl; congruence. }
  set (pad := Z.to_nat ((- len raw) mod 4)).
  assert (Z.of_nat pad = (4 - r) mod 4) as Hpad.
  { unfold pad. rewrite Z2Nat.id by (apply Z.mod_pos_bound; lia).
    rewrite Hlen, Hq. replace (- (4 * q + r)) with ((4 - r) + (- q - 1) * 4) by lia.
    apply Z.mod_add. lia. }
  assert (List.filter (fun a => negb (is_newline a)) (bytes_of raw ++ replicate pad "="%char)
    = bytes_of raw ++ replicate pad "="%char) as ->.
  { rewrite List.filter_app. f_equal.
    - clear -P. induction P as [|a l [_ Ha] _ IH]; [done|]. simpl. rewrite Ha. simpl. by rewrite IH.
    - clear. induction pad as [|n IH]; [done|]. simpl. by rewrite IH. }
  rewrite length_app, length_replicate, Nat2Z.inj_add, Hq, Hpad.
  replace (4 * q + r + (4 - r) mod 4) with ((q + (if r =? 0 then 0 else 1)) * 4)
    by (destruct Hr as [-> | [-> | ->]]; [change ((4 - 0) mod 4) with 0|change ((4 - 2) mod 4) with 2
        |change ((4 - 3) mod 4) with 1]; cbn [Z.eqb]; lia).
  rewrite Z.mod_mul by lia. cbn [Z.eqb negb].
  rewrite reverse_app, reverse_replicate, drop_while_replicate_app, reverse_involutive.
  - destruct (Nat.ltb_spec 2 (length (bytes_of raw) + pad - length (bytes_of raw))) as [Hc|_].
    { exfalso. destruct Hr as [-> | [-> | ->]];
      [change ((4 - 0) mod 4) with 0 in Hpad|change ((4 - 2) mod 4) with 2 in Hpad
      |change ((4 - 3) mod 4) with 1 in Hpad]; lia. }
    rewrite of_bytes_of. apply decode_encode_raw; [lia|]. vm_compute. reflexivity.
  - done.
  - destruct (reverse (bytes_of raw)) as [|y l] eqn:E; [done|].
    assert (y ∈ bytes_of raw) as Hy by (rewrite <- elem_of_reverse, E; left).
    rewrite Forall_forall in P. by apply P.
Qed.

Lemma base64_encode_inj a b : base64_encode a = base64_encode b -> a = b.
Proof. intros H. apply (f_equal base64_decode) in H. rewrite !base64_roundtrip in H. congruence. Qed.

(** Object and task identifiers determine the entropy they were minted from. *)
Lemma base32_id_inj a b : base32_id a = base32_id b -> a = b.
Proof.
  intros H. apply (f_equal (decode_raw 5 idAlphabet)) in H. unfold base32_id in H.
  rewrite !decode_encode_raw in H by (lia || (vm_compute; reflexivity)). congruence.
Qed.
