(* ===== verification/Canon.v ===== *)
(** * Values and canonical JSON ([internal/canon])

    [value] is Go's [any] as the register meets it: the types
    [encoding/json] decodes to, the integer and byte types of write sets,
    and [model.Binary]. [Marshal] is [canon.Marshal]: normalisation
    through [encoding/json], then the canonical printer. *)

From S2P Require Import Prelude GoStrings Float64 Encoding.
Local Open Scope Z_scope.

Inductive value :=
  | VNull
  | VBool (b : bool)
  | VInt (z : Z)              (* int, int64, uint64 *)
  | VFloat (f : float64)
  | VNumber (s : string)      (* json.Number *)
  | VStr (s : string)
  | VBinary (s : string)      (* model.Binary *)
  | VBytes (s : string)       (* []byte *)
  | VArr (l : list value)
  | VObj (m : list (string * value)).

(** A [map[string]any], by its members. *)
Abbreviation object := (list (string * value)).

Section value_ind.
Variable P : value -> Prop.
Hypothesis HNull : P VNull.
Hypothesis HBool : forall b, P (VBool b).
Hypothesis HInt : forall z, P (VInt z).
Hypothesis HFloat : forall f, P (VFloat f).
Hypothesis HNumber : forall s, P (VNumber s).
Hypothesis HStr : forall s, P (VStr s).
Hypothesis HBinary : forall s, P (VBinary s).
Hypothesis HBytes : forall s, P (VBytes s).
Hypothesis HArr : forall l, Forall P l -> P (VArr l).
Hypothesis HObj : forall m, Forall (fun kv => P kv.2) m -> P (VObj m).

(** Induction under the lists of arrays and objects. *)
Fixpoint value_ind' (v : value) : P v :=
  match v with
  | VNull => HNull | VBool b => HBool b | VInt z => HInt z | VFloat f => HFloat f
  | VNumber s => HNumber s | VStr s => HStr s | VBinary s => HBinary s | VBytes s => HBytes s
  | VArr l => HArr l ((fix go l : Forall P l :=
      match l with [] => Forall_nil_2 _ | x :: l => Forall_cons_2 _ _ _ (value_ind' x) (go l) end) l)
  | VObj m => HObj m ((fix go m : Forall (fun kv => P kv.2) m :=
      match m with [] => Forall_nil_2 _ | x :: m => Forall_cons_2 _ _ _ (value_ind' x.2) (go m) end) m)
  end.
End value_ind.

#[export] Instance value_eq_dec : EqDecision value.
Proof.
  unfold EqDecision, Decision. fix go 1. intros x y.
  decide equality; try first [apply bool_dec|apply Z.eq_dec|apply float64_eq_dec|apply String.eq_dec].
  - apply (List.list_eq_dec go).
  - apply List.list_eq_dec. intros [k v] [k' v'].
    destruct (String.eq_dec k k'); [|right; congruence].
    destruct (go v v'); [left|right]; congruence.
Defined.

(** ** Objects *)

Fixpoint obj_get (k : string) (m : object) : option value :=
  match m with
  | [] => None
  | (k', v) :: m => if String.eqb k k' then Some v else obj_get k m
  end.

(** [m[k] = v]. *)
Fixpoint obj_set (k : string) (v : value) (m : object) : object :=
  match m with
  | [] => [(k, v)]
  | (k', v') :: m => if String.eqb k k' then (k, v) :: m else (k', v') :: obj_set k v m
  end.

Definition obj_keys (m : object) : list string := m.*1.

(** A Go map has each key once. *)
Fixpoint nodup_strings (l : list string) : bool :=
  match l with [] => true | x :: l => negb (containsString l x) && nodup_strings l end.

Fixpoint wf_value (v : value) : bool :=
  match v with
  | VArr l => forallb wf_value l
  | VObj m => nodup_strings (map fst m) && forallb (fun kv => wf_value kv.2) m
  | _ => true
  end.

(** ** Normalisation through [encoding/json] *)

Definition to_valid (s : string) : string :=
  foldr (fun r acc => encode_rune r +:+ acc) "" (runes s).
(** [utf8.ValidString]. *)
Definition valid_utf8 (s : string) : bool :=
  forallb (fun p => String.eqb (encode_rune p.1) p.2) (segments s).

(** All the results of a list, or the first failure. *)
Fixpoint collect {A} (l : list (res A)) : res (list A) :=
  match l with
  | [] => Ok []
  | r :: l => x ← r; xs ← collect l; Ok (x :: xs)
  end.

Definition valid_number (s : string) : bool :=
  match scan_number s with Some (_, _, _, "") => true | _ => false end.

(** Ascending key order, the order [encoding/json] and the canonical
    printer visit a map in. *)
Definition key_le {B} (a b : string * B) : Prop := String.le a.1 b.1.
#[export] Instance key_le_dec {B} : RelDecision (@key_le B).
Proof. intros a b. unfold key_le. apply _. Defined.

Fixpoint normalise (v : value) : res value :=
  match v with
  | VNull => Ok VNull
  | VBool b => Ok (VBool b)
  | VInt z => Ok (VNumber (itoa z))
  | VFloat f =>
      match f with
      | FInf _ | FNaN => Err (Errorf "json: unsupported value: %v" [FormatFloat_g f])
      | _ => Ok (VNumber (json_float f))
      end
  | VNumber s =>
      if String.eqb s "" then Ok (VNumber "0")
      else if valid_number s then Ok (VNumber s)
      else Err (Errorf "json: invalid number literal %q" [s])
  | VStr s => Ok (VStr (to_valid s))
  | VBinary s => Ok (VObj [("$bytes", VStr (base64_encode s))])
  | VBytes s => Ok (VStr (base64_encode s))
  | VArr l => xs ← collect (map normalise l); Ok (VArr xs)
  | VObj m =>
      let parts := merge_sort key_le (map (fun kv => (kv.1, normalise kv.2)) m) in
      xs ← collect (map (fun p => y ← p.2; Ok (to_valid p.1, y)) parts);
      Ok (VObj (fold_left (fun acc kv => obj_set kv.1 kv.2 acc) xs []))
  end.

(** ** The canonical printer *)

Definition hexDigits : string := "0123456789abcdef".
Definition quote_char : ascii := "034".
Definition backslash : ascii := "092".

(** The bytes [writeString] emits for one rune. *)
Definition write_rune (r : Z) : string :=
  if r =? 34 then String backslash (String quote_char "")
  else if r =? 92 then String backslash (String backslash "")
  else if r =? 8 then String backslash "b"
  else if r =? 12 then String backslash "f"
  else if r =? 10 then String backslash "n"
  else if r =? 13 then String backslash "r"
  else if r =? 9 then String backslash "t"
  else if r <? 32 then
    String backslash ("u00" +:+ String (char_at hexDigits (Z.land (Z.shiftr r 4) 15))
      (String (char_at hexDigits (Z.land r 15)) ""))
  else if r =? RuneError then String backslash "ufffd"
  else encode_rune r.

Definition write_runes (l : list Z) : string := foldr (fun r acc => write_rune r +:+ acc) "" l.

Definition writeString (s : string) : string :=
  String quote_char (write_runes (runes s) +:+ String quote_char "").

Definition writeNumber (n : string) : res string :=
  match ParseInt64 n with
  | (i, true) => Ok (itoa i)
  | _ =>
      match ParseFloat n with
      | (f, true) =>
          match f with
          | FNaN | FInf _ => Err (Errorf "canon: number %v has no JSON form" [FormatFloat_g f])
          | _ => Ok (FormatFloat_g f)
          end
      | _ => Err (Errorf "canon: bad number %q" [n])
      end
  end.

Definition write_object (parts : list (string * res string)) : res string :=
  xs ← collect (map (fun p => x ← p.2; Ok (writeString p.1 +:+ ":" +:+ x)) (merge_sort key_le parts));
  Ok ("{" +:+ Join xs "," +:+ "}").

Fixpoint write (v : value) : res string :=
  match v with
  | VNull => Ok "null"
  | VBool b => Ok (if b then "true" else "false")
  | VStr s => Ok (writeString s)
  | VNumber n => writeNumber n
  | VFloat f => writeNumber (FormatFloat_g f)
  | VArr l =>
      xs ← collect (map write l);
      Ok ("[" +:+ Join xs "," +:+ "]")
  | VObj m => write_object (map (fun kv => (kv.1, write kv.2)) m)
  | VInt _ | VBinary _ | VBytes _ => Err (Errorf "canon: unsupported type %T" [])
  end.

(** [canon.Marshal]. *)
Definition Marshal (v : value) : res string := n ← normalise v; write n.

(** ** [encoding/json] decoding *)

Definition is_ws (a : ascii) : bool :=
  Ascii.eqb a " " || Ascii.eqb a "009" || Ascii.eqb a "010" || Ascii.eqb a "013".
Fixpoint skip_ws (s : string) : string :=
  match s with String a r => if is_ws a then skip_ws r else s | _ => s end.

Definition hex4 (a b c d : ascii) : option Z :=
  match hex_val a, hex_val b, hex_val c, hex_val d with
  | Some x, Some y, Some z, Some w => Some (x * 4096 + y * 256 + z * 16 + w)
  | _, _, _, _ => None
  end.

Definition simple_escape (a : ascii) : option ascii :=
  if Ascii.eqb a quote_char then Some quote_char
  else if Ascii.eqb a backslash then Some backslash
  else if Ascii.eqb a "/" then Some "/"%char
  else if Ascii.eqb a "b" then Some "008"%char
  else if Ascii.eqb a "f" then Some "012"%char
  else if Ascii.eqb a "n" then Some "010"%char
  else if Ascii.eqb a "r" then Some "013"%char
  else if Ascii.eqb a "t" then Some "009"%char
  else None.

Definition prepend (p : string) (r : option (string * string)) : option (string * string) :=
  match r with Some (x, rest) => Some (p +:+ x, rest) | None => None end.

(** The characters of a string literal after its opening quote, and what
    follows the closing one. *)
Fixpoint parse_chars (s : string) : option (string * string) :=
  match s with
  | EmptyString => None
  | String a r =>
      if Ascii.eqb a quote_char then Some ("", r)
      else if Ascii.eqb a backslash then
        match r with
        | String "u" (String h1 (String h2 (String h3 (String h4 r2)))) =>
            match hex4 h1 h2 h3 h4 with
            | None => None
            | Some u =>
                if (55296 <=? u) && (u <=? 57343) then
                  match r2 with
                  | String "\" (String "u" (String l1 (String l2 (String l3 (String l4 r3))))) =>
                      match hex4 l1 l2 l3 l4 with
                      | Some w =>
                          if (u <=? 56319) && (56320 <=? w) && (w <=? 57343)
                          then prepend (encode_rune (65536 + (u - 55296) * 1024 + (w - 56320))) (parse_chars r3)
                          else prepend (encode_rune RuneError) (parse_chars r2)
                      | None => None
                      end
                  | _ => prepend (encode_rune RuneError) (parse_chars r2)
                  end
                else prepend (encode_rune u) (parse_chars r2)
            end
        | String e r2 =>
            match simple_escape e with
            | Some c => prepend (String c "") (parse_chars r2)
            | None => None
            end
        | EmptyString => None
        end
      else if byte_Z a <? 32 then None
      else prepend (String a "") (parse_chars r)
  end.

Definition parse_string (s : string) : option (string * string) :=
  match s with
  | String a r => if Ascii.eqb a quote_char
                  then match parse_chars r with Some (x, rest) => Some (to_valid x, rest) | None => None end
                  else None
  | EmptyString => None
  end.

(** [json.Unmarshal] rejects a leading zero, which [scan_number] does not. *)
Definition leading_zero (s : string) : bool :=
  match (match s with String "-" r => r | _ => s end) with
  | String "0" (String a _) => match digit_val a with Some _ => true | None => false end
  | _ => false
  end.

Definition expect (c : ascii) (s : string) : option string :=
  match skip_ws s with String a r => if Ascii.eqb a c then Some r else None | _ => None end.

Fixpoint parse_value (fuel : nat) (s : string) : option (value * string) :=
  match fuel with
  | O => None
  | S fuel =>
      let s := skip_ws s in
      if HasPrefix s "null" then Some (VNull, str_drop 4 s)
      else if HasPrefix s "true" then Some (VBool true, str_drop 4 s)
      else if HasPrefix s "false" then Some (VBool false, str_drop 5 s)
      else match s with
      | EmptyString => None
      | String a r =>
          if Ascii.eqb a quote_char then
            match parse_string s with Some (x, rest) => Some (VStr x, rest) | None => None end
          else if Ascii.eqb a "[" then
            match skip_ws r with
            | String "]" rest => Some (VArr [], rest)
            | _ => parse_elements fuel [] r
            end
          else if Ascii.eqb a "{" then
            match skip_ws r with
            | String "}" rest => Some (VObj [], rest)
            | _ => parse_members fuel [] r
            end
          else if leading_zero s then None
          else match scan_number s with
               | Some (_, _, _, rest) =>
                   Some (VNumber (str_take (String.length s - String.length rest) s), rest)
               | None => None
               end
      end
  end
with parse_elements (fuel : nat) (acc : list value) (s : string) : option (value * string) :=
  match fuel with
  | O => None
  | S fuel =>
      match parse_value fuel s with
      | None => None
      | Some (v, r) =>
          match skip_ws r with
          | String "," r => parse_elements fuel (acc ++ [v]) r
          | String "]" r => Some (VArr (acc ++ [v]), r)
          | _ => None
          end
      end
  end
with parse_members (fuel : nat) (acc : object) (s : string) : option (value * string) :=
  match fuel with
  | O => None
  | S fuel =>
      match parse_string (skip_ws s) with
      | None => None
      | Some (k, r) =>
          match expect ":" r with
          | None => None
          | Some r =>
              match parse_value fuel r with
              | None => None
              | Some (v, r) =>
                  match skip_ws r with
                  | String "," r => parse_members fuel (obj_set k v acc) r
                  | String "}" r => Some (VObj (obj_set k v acc), r)
                  | _ => None
                  end
              end
          end
      end
  end.

(** The JSON document [s], its numbers kept as literals
    ([Decoder.UseNumber]). Every level of the grammar consumes a byte, so
    twice the length (and two more) is fuel enough. *)
Definition parse_raw (s : string) : res value :=
  match parse_value (2 * String.length s + 2) s with
  | Some (v, rest) => if String.eqb (skip_ws rest) "" then Ok v else Err (Errorf "invalid character after top-level value" [])
  | None => Err (Errorf "json: syntax error" [])
  end.

(** A literal decoded into [any] becomes a [float64]. *)
Fixpoint floatify (v : value) : res value :=
  match v with
  | VNumber s =>
      match ParseFloat s with
      | (f, true) => Ok (VFloat f)
      | _ => Err (Errorf "json: cannot unmarshal number %s into Go value of type float64" [s])
      end
  | VArr l => xs ← collect (map floatify l); Ok (VArr xs)
  | VObj m =>
      xs ← collect (map (fun p => y ← p.2; Ok (p.1, y)) (map (fun kv => (kv.1, floatify kv.2)) m));
      Ok (VObj xs)
  | _ => Ok v
  end.

(** [json.Unmarshal] into [any]. *)
Definition Unmarshal (s : string) : res value := v ← parse_raw s; floatify v.

(** ** [fmt.Sprint] of a value *)
Fixpoint Sprint (v : value) : string :=
  match v with
  | VNull => "<nil>"
  | VBool b => if b then "true" else "false"
  | VInt z => itoa z
  | VFloat f => FormatFloat_g f
  | VNumber s | VStr s => s
  | VBinary s | VBytes s => "[" +:+ Join (map (fun a => itoa (byte_Z a)) (bytes_of s)) " " +:+ "]"
  | VArr l => "[" +:+ Join (map Sprint l) " " +:+ "]"
  | VObj m =>
      let parts := map (fun kv => (kv.1, Ok (Sprint kv.2))) m in
      "map[" +:+ Join (map (fun p => p.1 +:+ ":" +:+ match p.2 with Ok s => s | Err _ => "" end)
                           (merge_sort key_le parts)) " " +:+ "]"
  end.

Example canon_sample :
  Marshal (VObj [("b", VArr [VInt 1; VFloat (of_decimal false 25 (-1))]); ("a", VStr ("x" +:+ nl))])
  = Ok ("{" +:+ writeString "a" +:+ ":" +:+ writeString ("x" +:+ nl) +:+ "," +:+ writeString "b" +:+ ":[1,2.5]}").
Proof. vm_compute. reflexivity. Qed.

Example unmarshal_sample :
  (s ← Marshal (VObj [("b", VArr [VInt 1; VFloat (of_decimal false 25 (-1))]); ("a", VStr "x"); ("c", VBinary "hi")]);
   Unmarshal s)
  = Ok (VObj [("a", VStr "x"); ("b", VArr [VFloat (of_Z 1); VFloat (of_decimal false 25 (-1))]);
              ("c", VObj [("$bytes", VStr "aGk=")])]).
Proof. vm_compute. reflexivity. Qed.

(** ** The string literal reads back *)

Lemma parse_chars_plain a t :
  128 <= byte_Z a -> parse_chars (String a t) = prepend (String a "") (parse_chars t).
Proof.
  intros H. cbn [parse_chars].
  destruct (Ascii.eqb_spec a quote_char) as [->|_]; [done|].
  destruct (Ascii.eqb_spec a backslash) as [->|_]; [done|].
  destruct (Z.ltb_spec (byte_Z a) 32); [lia|done].
Qed.

Lemma prepend_app p q r : prepend p (prepend q r) = prepend (p +:+ q) r.
Proof. destruct r as [[x t]|]; simpl; [|done]. by rewrite string_app_assoc. Qed.

Lemma parse_chars_high s t :
  Forall (fun a => 128 <= byte_Z a) (bytes_of s) ->
  parse_chars (s +:+ t) = prepend s (parse_chars t).
Proof.
  induction s as [|a s IH]; intros F; simpl in F.
  - change ("" +:+ t) with t. by destruct (parse_chars t) as [[]|].
  - inversion F; subst. rewrite string_app_cons, parse_chars_plain, IH, prepend_app by done.
    by rewrite string_app_cons.
Qed.

Lemma encode_rune_high r : 128 <= r -> Forall (fun a => 128 <= byte_Z a) (bytes_of (encode_rune r)).
Proof.
  intros H. unfold encode_rune.
  set (r' := if (r <? 0) || _ || _ then RuneError else r).
  assert (128 <= r' <= 1114111) as R.
  { unfold r', RuneError. destruct (_ || _) eqn:E; [lia|]. bool_hyps. lia. }
  clearbody r'. clear H.
  destruct (Z.ltb_spec r' 128); [lia|].
  destruct (Z.ltb_spec r' 2048); [|destruct (Z.ltb_spec r' 65536)];
    simpl; repeat constructor; rewrite byte_Z_Z_byte; Z.to_euclidean_division_equations; lia.
Qed.

Lemma write_rune_ascii r t :
  0 <= r < 128 -> parse_chars (write_rune r +:+ t) = prepend (encode_rune r) (parse_chars t).
Proof.
  intros H. assert (r ∈ seqZ 0 128) as E by (apply elem_of_seqZ; lia).
  revert r H E. enough (Forall (fun r => parse_chars (write_rune r +:+ t) = prepend (encode_rune r) (parse_chars t))
    (seqZ 0 128)) as F by (intros r _ E; exact (proj1 (Forall_forall _ _) F r E)).
  let l := eval vm_compute in (seqZ 0 128) in change (seqZ 0 128) with l.
  repeat (apply Forall_cons_2; [reflexivity|]). apply Forall_nil_2.
Qed.

Lemma parse_write_rune r t :
  0 <= r -> parse_chars (write_rune r +:+ t) = prepend (encode_rune r) (parse_chars t).
Proof.
  intros H0. destruct (Z.ltb_spec r 128) as [H|H]; [by apply write_rune_ascii|].
  destruct (Z.eq_dec r RuneError) as [->|Hr]; [reflexivity|].
  rewrite <- parse_chars_high by (by apply encode_rune_high). f_equal. f_equal.
  unfold write_rune.
  do 7 (match goal with |- context [?a =? ?b] => destruct (Z.eqb_spec a b); [lia|] end).
  destruct (Z.ltb_spec r 32); [lia|]. by destruct (Z.eqb_spec r RuneError).
Qed.

Lemma is_cont_range a : is_cont a = true -> 128 <= byte_Z a <= 191.
Proof. unfold is_cont. intros. bool_hyps. lia. Qed.

Lemma rune2_nonneg a b r : rune2 a b = Some r -> 0 <= r.
Proof.
  unfold rune2. destruct (_ && _) eqn:E; [|done]. intros [= <-]. bool_hyps.
  match goal with H : is_cont _ = true |- _ => apply is_cont_range in H end.
  unfold cont_bits. lia.
Qed.
Lemma rune3_nonneg a b c r : rune3 a b c = Some r -> 0 <= r.
Proof. unfold rune3. destruct (_ && _) eqn:E; [|done]. intros [= <-]. bool_hyps. lia. Qed.
Lemma rune4_nonneg a b c d r : rune4 a b c d = Some r -> 0 <= r.
Proof. unfold rune4. destruct (_ && _) eqn:E; [|done]. intros [= <-]. bool_hyps. lia. Qed.

Lemma segments_nonneg s : Forall (fun p => 0 <= p.1) (segments s).
Proof.
  induction s as [s IH] using string_ind_len. destruct s as [|a s1]; [constructor|].
  assert (forall t, (String.length t <= String.length s1)%nat -> Forall (fun p => 0 <= p.1) (segments t)) as H1.
  { intros t Ht. apply IH. simpl. lia. }
  assert (Forall (fun p => 0 <= p.1) ((RuneError, String a "") :: segments s1)) as He.
  { constructor; [done|]. by apply H1. }
  simpl segments. destruct (byte_Z a <? 128).
  { constructor; [apply (byte_Z_range a)|]. by apply H1. }
  destruct s1 as [|b s2]; [by repeat constructor|].
  destruct (rune2 a b) eqn:E2.
  { constructor; [by eapply rune2_nonneg|]. apply H1. simpl. lia. }
  destruct s2 as [|c s3]; [done|]. destruct (rune3 a b c) eqn:E3.
  { constructor; [by eapply rune3_nonneg|]. apply H1. simpl. lia. }
  destruct s3 as [|d s4]; [done|]. destruct (rune4 a b c d) eqn:E4; [|done].
  constructor; [by eapply rune4_nonneg|]. apply H1. simpl. lia.
Qed.

Lemma parse_write_runes l t :
  Forall (fun r => 0 <= r) l ->
  parse_chars (write_runes l +:+ t) = prepend (foldr (fun r acc => encode_rune r +:+ acc) "" l) (parse_chars t).
Proof.
  induction 1 as [|r l Hr _ IH]; simpl.
  - change ("" +:+ t) with t. by destruct (parse_chars t) as [[]|].
  - by rewrite string_app_assoc, parse_write_rune, IH, prepend_app.
Qed.

Lemma to_valid_id s : valid_utf8 s = true -> to_valid s = s.
Proof.
  intros H. rewrite <- (unsegment_segments s) at 2. unfold to_valid, runes, unsegment, valid_utf8 in *.
  induction (segments s) as [|[r b] l IH]; [done|].
  cbn [forallb fst snd] in H. bool_hyps. cbn [fmap list_fmap foldr fst snd].
  rewrite IH by done. by f_equal.
Qed.

(** A canonical string literal reads back as the string, whatever follows. *)
Lemma parse_writeString s t :
  valid_utf8 s = true -> parse_string (writeString s +:+ t) = Some (s, t).
Proof.
  intros H. unfold parse_string, writeString. rewrite string_app_cons, Ascii.eqb_refl.
  rewrite string_app_assoc. rewrite parse_write_runes.
  2:{ unfold runes. apply Forall_fmap. apply segments_nonneg. }
  change (foldr _ "" (runes s)) with (to_valid s). rewrite string_app_cons.
  change (parse_chars (String quote_char ("" +:+ t))) with (Some ("", t)).
  cbn [prepend]. by rewrite string_app_nil_r, !to_valid_id by (rewrite ?to_valid_id; done).
Qed.

Lemma writeString_inj s1 s2 :
  valid_utf8 s1 = true -> valid_utf8 s2 = true -> writeString s1 = writeString s2 -> s1 = s2.
Proof.
  intros H1 H2 E. apply (parse_writeString _ "") in H1. apply (parse_writeString _ "") in H2.
  rewrite E in H1. congruence.
Qed.

(** ** Values equal up to the order of members *)

Inductive veq : value -> value -> Prop :=
  | veq_refl v : veq v v
  | veq_arr l1 l2 : Forall2 veq l1 l2 -> veq (VArr l1) (VArr l2)
  | veq_obj m1 m m2 :
      NoDup (m1.*1) -> m1 ≡ₚ m ->
      Forall2 (fun a b => a.1 = b.1 /\ veq a.2 b.2) m m2 ->
      veq (VObj m1) (VObj m2).

Lemma merge_sort_key_perm {B} (l1 l2 : list (string * B)) :
  NoDup (l1.*1) -> l1 ≡ₚ l2 -> merge_sort key_le l1 = merge_sort key_le l2.
Proof.
  intros Hn Hp.
  assert (Transitive (@key_le B)) by (intros a b c; unfold key_le; apply String.le_po).
  assert (Total (@key_le B)) by (intros a b; unfold key_le; apply String.le_total).
  apply (StronglySorted_unique_strong key_le); try (apply (StronglySorted_merge_sort _)).
  - intros [k1 v1] [k2 v2] H1 H2 L1 L2. rewrite merge_sort_Permutation in H1, H2.
    rewrite <- Hp in H2. assert (k1 = k2) as -> by (apply (anti_symm String.le); done).
    f_equal. clear -Hn H1 H2. induction l1 as [|[k v] l IH]; [by apply elem_of_nil in H1|].
    apply NoDup_cons in Hn as [Hk Hn].
    assert (forall v', (k, v') ∉ l) as Hout.
    { intros v' Hv. apply Hk. apply (list_elem_of_fmap_2 fst) in Hv. done. }
    apply elem_of_cons in H1 as [H1|H1]; apply elem_of_cons in H2 as [H2|H2].
    + congruence.
    + injection H1 as -> ->. by apply Hout in H2.
    + injection H2 as -> ->. by apply Hout in H1.
    + by apply IH.
  - by rewrite !merge_sort_Permutation.
Qed.

Fixpoint veq_normalise v1 v2 (H : veq v1 v2) {struct H} : normalise v1 = normalise v2.
Proof.
  destruct H as [v|l1 l2 F|m1 m m2 Hn Hp F]; [done| |]; cbn [normalise].
  - enough (map normalise l1 = map normalise l2) as -> by done.
    induction F as [|x y l1 l2 Hxy _ IH]; [done|]. cbn [map]. rewrite IH. f_equal. by apply veq_normalise.
  - assert (map (fun kv => (kv.1, normalise kv.2)) m = map (fun kv => (kv.1, normalise kv.2)) m2) as E.
    { clear Hn Hp. induction F as [|[k x] [k' y] l1 l2 [Hk Hxy] _ IH]; [done|].
      cbn [map]. rewrite IH. simpl in Hk. subst. do 2 f_equal. by apply veq_normalise. }
    rewrite <- E. rewrite (merge_sort_key_perm _ (map (fun kv => (kv.1, normalise kv.2)) m)); [done| |].
    + rewrite <- list_fmap_compose. exact Hn.
    + by apply fmap_Permutation.
Qed.

#[export] Instance Marshal_proper : Proper (veq ==> eq) Marshal.
Proof. intros v1 v2 H. unfold Marshal. by rewrite (veq_normalise _ _ H). Qed.
