(* ===== verification/Json.v ===== *)
(** * The JSON round trip

    A write set is stored as canonical JSON and read back by
    [encoding/json]. This file proves that the two agree: the decimal
    form of an integer reads back as the integer, and the document
    [canon.write] prints for a canonical value parses to that value. *)

From S2P Require Import Prelude GoStrings Float64 Encoding Canon.
Local Open Scope Z_scope.

(** ** Integers in decimal *)

Lemma digit_val_char x : (x < 10)%N -> digit_val (pretty_N_char x) = Some (Z.of_N x).
Proof.
  intros H. assert (x ∈ [0;1;2;3;4;5;6;7;8;9]%N) as E by (rewrite !elem_of_cons; lia).
  repeat (apply elem_of_cons in E as [->|E]; [reflexivity|]). by apply elem_of_nil in E.
Qed.

Lemma N_ind_div10 (P : N -> Prop) :
  P 0%N -> (forall x, (0 < x)%N -> P (x `div` 10)%N -> P x) -> forall x, P x.
Proof.
  intros H0 Hs x. induction (N.lt_wf_0 x) as [x _ IH].
  destruct (decide (x = 0)%N) as [->|]; [done|]. apply Hs; [lia|]. apply IH, N.div_lt; lia.
Qed.

Lemma digit_step x : Z.of_N (x `div` 10) * 10 + Z.of_N (x `mod` 10) = Z.of_N x.
Proof. rewrite N2Z.inj_div, N2Z.inj_mod. pose proof (Z.div_mod (Z.of_N x) 10). lia. Qed.

Lemma parse_digits_go x : forall s, parse_digits 0 (pretty_N_go x s) = parse_digits (Z.of_N x) s.
Proof.
  induction x as [|x Hx IH] using N_ind_div10; intros s; [done|].
  rewrite pretty_N_go_step, IH by done. cbn [parse_digits].
  rewrite digit_val_char by (by apply N.mod_lt). by rewrite digit_step.
Qed.

Lemma scan_digits_go x : forall s, exists k, 0 <= k /\ (x <> 0%N -> 0 < k) /\
  scan_digits 0 0 (pretty_N_go x s) = scan_digits (Z.of_N x) k s.
Proof.
  induction x as [|x Hx IH] using N_ind_div10; intros s; [by exists 0|].
  rewrite pretty_N_go_step by done.
  destruct (IH (String (pretty_N_char (x `mod` 10)) s)) as (k & Hk & _ & ->).
  exists (k + 1). split; [lia|]. split; [lia|]. cbn [scan_digits].
  rewrite digit_val_char by (by apply N.mod_lt). by rewrite digit_step.
Qed.

(** A positive integer starts with a digit that is not zero. *)
Lemma pretty_N_go_first x : forall s, (0 < x)%N -> exists d r,
  (0 < d < 10)%N /\ pretty_N_go x s = String (pretty_N_char d) r.
Proof.
  induction x as [|x Hx IH] using N_ind_div10; intros s H; [lia|].
  rewrite pretty_N_go_step by done.
  destruct (decide (x < 10)%N) as [Hl|Hl].
  - rewrite N.div_small, N.mod_small by done. rewrite pretty_N_go_0. exists x, s. split; [lia|done].
  - apply IH. apply N.div_str_pos. lia.
Qed.

Lemma pretty_N_go_app x : forall s t, pretty_N_go x s +:+ t = pretty_N_go x (s +:+ t).
Proof.
  induction x as [|x Hx IH] using N_ind_div10; intros s t; [done|].
  by rewrite !(pretty_N_go_step x), IH by done.
Qed.

Lemma itoa_nonneg z : 0 < z -> itoa z = pretty_N_go (Z.to_N z) "".
Proof. destruct z; try lia. intros _. done. Qed.
Lemma itoa_neg z : z < 0 -> itoa z = String "-" (pretty_N_go (Z.to_N (- z)) "").
Proof. destruct z; try lia. intros _. done. Qed.

(** What an integer literal starts with. *)
Inductive int_head : string -> Prop :=
  | head_zero s : int_head (String "0" s)
  | head_digit d s : (0 < d < 10)%N -> int_head (String (pretty_N_char d) s)
  | head_minus d s : (0 < d < 10)%N -> int_head (String "-" (String (pretty_N_char d) s)).

Lemma itoa_head z t : int_head (itoa z +:+ t).
Proof.
  destruct (Z.lt_trichotomy z 0) as [H|[->|H]].
  - rewrite itoa_neg by done. destruct (pretty_N_go_first (Z.to_N (- z)) "") as (d & r & Hd & ->); [lia|].
    by constructor.
  - constructor.
  - rewrite itoa_nonneg by done. destruct (pretty_N_go_first (Z.to_N z) "") as (d & r & Hd & ->); [lia|].
    by constructor.
Qed.

Lemma pretty_char_cases d (P : ascii -> Prop) :
  (0 < d < 10)%N ->
  P "1"%char -> P "2"%char -> P "3"%char -> P "4"%char -> P "5"%char ->
  P "6"%char -> P "7"%char -> P "8"%char -> P "9"%char -> P (pretty_N_char d).
Proof.
  intros H ?????????. assert (d ∈ [1;2;3;4;5;6;7;8;9]%N) as E by (rewrite !elem_of_cons; lia).
  repeat (apply elem_of_cons in E as [->|E]; [done|]). by apply elem_of_nil in E.
Qed.

(** [strconv.ParseInt] undoes [strconv.FormatInt]. *)
Lemma ParseInt64_itoa z : int64_min <= z <= int64_max -> ParseInt64 (itoa z) = (z, true).
Proof.
  intros R. unfold ParseInt64.
  assert (forall v, v = z -> (if v <? int64_min then (int64_min, false)
    else if int64_max <? v then (int64_max, false) else (v, true)) = (z, true)) as Hb.
  { intros v ->. destruct (Z.ltb_spec z int64_min); [lia|]. by destruct (Z.ltb_spec int64_max z); [lia|]. }
  destruct (Z.lt_trichotomy z 0) as [H|[->|H]]; [|reflexivity|].
  - rewrite itoa_neg by done. unfold parse_udec.
    pose proof (parse_digits_go (Z.to_N (- z)) "") as E.
    destruct (pretty_N_go_first (Z.to_N (- z)) "") as (d & r & Hd & Hr); [lia|].
    rewrite Hr in *. rewrite E. cbn [parse_digits]. apply Hb. lia.
  - rewrite itoa_nonneg by done. unfold parse_udec.
    pose proof (parse_digits_go (Z.to_N z) "") as E.
    destruct (pretty_N_go_first (Z.to_N z) "") as (d & r & Hd & Hr); [lia|].
    rewrite Hr in *. clear Hr. revert E. revert d Hd.
    intros d Hd. apply (pretty_char_cases d); try done; intros ->; cbn [parse_digits]; apply Hb; lia.
Qed.

(** A text that does not continue a number it follows. *)
Definition stops (t : string) : bool :=
  match t with
  | EmptyString => true
  | String a _ => match digit_val a with Some _ => false | None => negb (Ascii.eqb a "." || Ascii.eqb a "e" || Ascii.eqb a "E") end
  end.

Lemma scan_stop x k t : stops t = true -> scan_digits x k t = (x, k, t).
Proof. destruct t as [|a t]; [done|]. unfold stops. cbn [scan_digits]. by destruct (digit_val a). Qed.

Lemma scan_exp_stop t : stops t = true -> scan_exp t = Some (0, t).
Proof. destruct t as [|[[] [] [] [] [] [] [] []] t]; done. Qed.

Lemma scan_frac_stop ip t (neg : bool) :
  stops t = true ->
  match t with
  | String "." r =>
      let '(fp, n2, r) := scan_digits ip 0 r in
      if n2 =? 0 then None else
      match scan_exp r with Some (e, r) => Some (neg, fp, e - n2, r) | None => None end
  | _ => match scan_exp t with Some (e, r) => Some (neg, ip, e, r) | None => None end
  end = Some (neg, ip, 0, t).
Proof.
  intros H. rewrite scan_exp_stop by done. destruct t as [|[[] [] [] [] [] [] [] []] t]; done.
Qed.

Lemma scan_number_itoa z t :
  stops t = true -> scan_number (itoa z +:+ t) = Some (z <? 0, Z.abs z, 0, t).
Proof.
  intros Ht. unfold scan_number.
  destruct (Z.lt_trichotomy z 0) as [H|[->|H]].
  - rewrite itoa_neg by done. rewrite string_app_cons, pretty_N_go_app.
    change ("" +:+ t) with t. destruct (scan_digits_go (Z.to_N (- z)) t) as (k & _ & Hk & ->).
    rewrite scan_stop by done. specialize (Hk ltac:(lia)).
    destruct (Z.eqb_spec k 0); [lia|]. rewrite scan_frac_stop by done.
    destruct (Z.ltb_spec z 0); [|lia]. by replace (Z.of_N (Z.to_N (- z))) with (Z.abs z) by lia.
  - change (itoa 0 +:+ t) with (String "0" t). cbn [scan_digits]. change (digit_val "0") with (Some 0).
    cbn match. rewrite scan_stop by done. change (0 + 1 =? 0) with false. cbn match.
    change (0 * 10 + 0) with 0. by rewrite scan_frac_stop.
  - rewrite itoa_nonneg by done. rewrite pretty_N_go_app. change ("" +:+ t) with t.
    destruct (scan_digits_go (Z.to_N z) t) as (k & _ & Hk & E). rewrite (scan_stop _ _ t Ht) in E.
    specialize (Hk ltac:(lia)).
    destruct (pretty_N_go_first (Z.to_N z) t) as (d & r & Hd & Hr); [lia|]. rewrite Hr in *. clear Hr.
    revert E. apply (pretty_char_cases d); try done; intros ->;
      (destruct (Z.eqb_spec k 0); [lia|]); rewrite scan_frac_stop by done;
      (destruct (Z.ltb_spec z 0); [lia|]); by replace (Z.of_N (Z.to_N z)) with (Z.abs z) by lia.
Qed.

(** ** Canonical values *)

(** What [canon.Marshal] hands to [write] when every number is an
    [int64]: strings are valid UTF-8, members are sorted and distinct. *)
Inductive canonical : value -> Prop :=
  | can_null : canonical VNull
  | can_bool b : canonical (VBool b)
  | can_int z : int64_min <= z <= int64_max -> canonical (VNumber (itoa z))
  | can_str s : valid_utf8 s = true -> canonical (VStr s)
  | can_arr l : Forall canonical l -> canonical (VArr l)
  | can_obj m :
      Forall (fun kv => valid_utf8 kv.1 = true) m -> Forall (fun kv => canonical kv.2) m ->
      NoDup (m.*1) -> StronglySorted key_le m -> canonical (VObj m).

Lemma writeNumber_itoa z : int64_min <= z <= int64_max -> writeNumber (itoa z) = Ok (itoa z).
Proof. intros H. unfold writeNumber. by rewrite ParseInt64_itoa. Qed.

Lemma str_take_app a t : str_take (String.length (a +:+ t) - String.length t) (a +:+ t) = a.
Proof.
  unfold str_take. assert (String.length (a +:+ t) = String.length a + String.length t)%nat as ->.
  { induction a as [|c a IH]; [done|]. rewrite string_app_cons. simpl. by rewrite IH. }
  replace (_ + _ - _)%nat with (String.length a) by lia.
  induction a as [|c a IH]; [by destruct t|]. rewrite string_app_cons. simpl. by rewrite IH.
Qed.

Lemma str_take_all t : str_take (String.length t) t = t.
Proof. unfold str_take. induction t as [|c t IH]; [done|]. simpl. by rewrite IH. Qed.

Lemma str_drop_app a t : str_drop (String.length a) (a +:+ t) = t.
Proof.
  unfold str_drop. induction a as [|c a IH]; [|exact IH].
  change (str_take (String.length t - 0) t = t). rewrite Nat.sub_0_r. apply str_take_all.
Qed.

(** The byte a value's text starts with. *)
Definition value_heads : list ascii :=
  [quote_char; "["; "{"; "n"; "t"; "f"; "-"; "0"; "1"; "2"; "3"; "4"; "5"; "6"; "7"; "8"; "9"]%char.
Definition value_head (s : string) : Prop := exists a r, s = String a r /\ a ∈ value_heads.

Lemma value_head_intro a r : existsb (Ascii.eqb a) value_heads = true -> value_head (String a r).
Proof.
  intros H. exists a, r. split; [done|]. apply existsb_exists in H as (b & Hb & E).
  apply Ascii.eqb_eq in E as ->. by apply list_elem_of_In.
Qed.

Lemma value_head_app s t : value_head s -> value_head (s +:+ t).
Proof. intros (a & r & -> & H). by exists a, (r +:+ t). Qed.

Lemma int_head_value s : int_head s -> value_head s.
Proof.
  assert (forall d, (0 < d < 10)%N -> pretty_N_char d ∈ value_heads) as Hd.
  { intros d H. by apply (pretty_char_cases d (fun a => a ∈ value_heads)); [done|repeat constructor..]. }
  intros [r|d r H|d r H]; [exists "0"%char, r|exists (pretty_N_char d), r|eexists "-"%char, _];
    split; try done; [repeat constructor|by apply Hd|repeat constructor].
Qed.

Lemma value_head_ws s : value_head s -> skip_ws s = s.
Proof.
  intros (a & r & -> & H). unfold value_heads in H.
  repeat (apply elem_of_cons in H as [->|H]; [reflexivity|]). by apply elem_of_nil in H.
Qed.

Lemma value_head_not_close {A} s (f : string -> A) (y : A) :
  value_head s -> match skip_ws s with String "]" rest => f rest | _ => y end = y.
Proof.
  intros H. rewrite value_head_ws by done. destruct H as (a & r & -> & H). unfold value_heads in H.
  repeat (apply elem_of_cons in H as [->|H]; [reflexivity|]). by apply elem_of_nil in H.
Qed.

(** [s] is the text of [v]: whatever follows, parsing gives [v] back. *)
Definition text_of (v : value) (s : string) : Prop :=
  value_head s /\
  forall t fuel, stops t = true -> (String.length s <= fuel)%nat -> parse_value fuel (s +:+ t) = Some (v, t).

Lemma parse_value_int z fuel t :
  stops t = true -> parse_value (S fuel) (itoa z +:+ t) = Some (VNumber (itoa z), t).
Proof.
  intros Ht. pose proof (itoa_head z t) as Hh. pose proof (scan_number_itoa z t Ht) as Hs.
  pose proof (str_take_app (itoa z) t) as Hk.
  cbn [parse_value]. rewrite (value_head_ws (itoa z +:+ t)) by (by apply int_head_value).
  assert (forall s, int_head s -> HasPrefix s "null" = false /\ HasPrefix s "true" = false /\ HasPrefix s "false" = false) as Hp.
  { intros s [r|d r Hd|d r Hd]; [done| |done]. by apply (pretty_char_cases d). }
  destruct (Hp _ Hh) as (-> & -> & ->). clear Hp.
  assert (Hl : leading_zero (itoa z +:+ t) = false).
  { destruct (Z.lt_trichotomy z 0) as [H|[->|H]].
    - rewrite itoa_neg by done. destruct (pretty_N_go_first (Z.to_N (- z)) "") as (d & r & Hd & ->); [lia|].
      rewrite !string_app_cons. by apply (pretty_char_cases d).
    - change (itoa 0 +:+ t) with (String "0" t). destruct t as [|a t]; [done|]. cbn in *. by destruct (digit_val a).
    - rewrite itoa_nonneg by done. destruct (pretty_N_go_first (Z.to_N z) "") as (d & r & Hd & ->); [lia|].
      rewrite !string_app_cons. by apply (pretty_char_cases d). }
  remember (itoa z +:+ t) as s eqn:Es. clear Es.
  destruct Hh as [r|d r Hd|d r Hd].
  - cbn -[leading_zero scan_number str_take String.length]. by rewrite Hl, Hs, Hk.
  - revert Hl Hs Hk. apply (pretty_char_cases d); try done; intros Hl Hs Hk; 
      cbn -[leading_zero scan_number str_take String.length]; by rewrite Hl, Hs, Hk.
  - cbn -[leading_zero scan_number str_take String.length]. by rewrite Hl, Hs, Hk.
Qed.

Lemma string_length_app a b : String.length (a +:+ b) = (String.length a + String.length b)%nat.
Proof. induction a as [|c a IH]; [done|]. rewrite string_app_cons. simpl. by rewrite IH. Qed.

(** A document of [parse_elements]: the texts of the elements, separated. *)
Lemma parse_elements_text l xs :
  Forall2 text_of l xs -> l <> [] -> forall acc t fuel,
  (String.length (Join xs ",") + 1 <= fuel)%nat ->
  parse_elements fuel acc (Join xs "," +:+ String "]" t) = Some (VArr (acc ++ l), t).
Proof.
  induction 1 as [|v s l xs [Hh Hv] F IH]; [done|]. intros _ acc t fuel Hf.
  destruct fuel as [|fuel]; [lia|]. cbn [parse_elements].
  destruct F as [|v2 s2 l2 xs2 Hv2 F2].
  - cbn [Join] in *. by rewrite Hv by (done || lia).
  - rewrite Join_cons, !string_app_assoc in *. rewrite !string_length_app in Hf.
    change ("," +:+ Join (s2 :: xs2) "," +:+ String "]" t)
      with (String "," (Join (s2 :: xs2) "," +:+ String "]" t)).
    rewrite Hv by (done || lia). change (String.length ",") with 1%nat in Hf.
    change (parse_elements fuel (acc ++ [v]) (Join (s2 :: xs2) "," +:+ String "]" t)
      = Some (VArr (acc ++ v :: v2 :: l2), t)).
    rewrite IH by (done || lia). by rewrite <- app_assoc.
Qed.

Definition member_text (p : string * value) (s : string) : Prop :=
  exists x, text_of p.2 x /\ valid_utf8 p.1 = true /\ s = writeString p.1 +:+ ":" +:+ x.

Lemma obj_set_fresh k v m : k ∉ m.*1 -> obj_set k v m = m ++ [(k, v)].
Proof.
  induction m as [|[k' v'] m IH]; [done|]. cbn. intros H. apply not_elem_of_cons in H as [Hk H].
  destruct (String.eqb_spec k k'); [done|]. by rewrite IH.
Qed.

Lemma writeString_length s : (2 <= String.length (writeString s))%nat.
Proof. unfold writeString. simpl. rewrite string_length_app. simpl. lia. Qed.

Lemma parse_members_text m xs :
  Forall2 member_text m xs -> m <> [] -> forall acc t fuel,
  NoDup ((acc ++ m).*1) ->
  (String.length (Join xs ",") + 1 <= fuel)%nat ->
  parse_members fuel acc (Join xs "," +:+ String "}" t) = Some (VObj (acc ++ m), t).
Proof.
  induction 1 as [|[k v] s m xs (x & [Hh Hv] & Hk & ->) F IH]; [done|]. intros _ acc t fuel Hn Hf.
  cbn [fst snd] in *. destruct fuel as [|fuel]; [lia|]. cbn [parse_members].
  assert (Hfresh : k ∉ acc.*1).
  { rewrite fmap_app in Hn. apply NoDup_app in Hn as (_ & Hn & _).
    intros Hin. apply (Hn k Hin). rewrite fmap_cons. apply list_elem_of_here. }
  assert (E : forall r, skip_ws (writeString k +:+ r) = writeString k +:+ r) by done.
  destruct F as [|p2 s2 m2 xs2 Hv2 F2].
  - cbn [Join] in *. rewrite !string_app_assoc, E, parse_writeString by done.
    change (expect ":" (":" +:+ ?r)) with (Some r). cbn match.
    rewrite !string_length_app in Hf. rewrite Hv by (done || lia). by rewrite obj_set_fresh.
  - rewrite Join_cons, !string_app_assoc in *. rewrite !string_length_app in Hf.
    rewrite E, parse_writeString by done. change (expect ":" (":" +:+ ?r)) with (Some r). cbn match.
    change ("," +:+ Join (s2 :: xs2) "," +:+ String "}" t)
      with (String "," (Join (s2 :: xs2) "," +:+ String "}" t)).
    rewrite Hv by (done || lia). change (String.length ",") with 1%nat in Hf.
    rewrite obj_set_fresh by done.
    change (parse_members fuel (acc ++ [(k, v)]) (Join (s2 :: xs2) "," +:+ String "}" t)
      = Some (VObj (acc ++ (k, v) :: p2 :: m2), t)).
    rewrite IH; [by rewrite <- app_assoc|done|by rewrite <- app_assoc|lia].
Qed.

Lemma collect_Forall2 {A} (l : list (res A)) xs : Forall2 (fun r x => r = Ok x) l xs -> collect l = Ok xs.
Proof. induction 1 as [|r x l xs -> _ IH]; [done|]. simpl. by rewrite IH. Qed.

Lemma merge_sort_sorted {B} (l : list (string * B)) :
  NoDup (l.*1) -> StronglySorted key_le l -> merge_sort key_le l = l.
Proof.
  intros Hn Hs. assert (Transitive (@key_le B)) by (intros a b c; unfold key_le; apply String.le_po).
  assert (Total (@key_le B)) by (intros a b; unfold key_le; apply String.le_total).
  apply (StronglySorted_unique_strong key_le); [|by apply StronglySorted_merge_sort|done|apply merge_sort_Permutation].
  intros [k1 v1] [k2 v2] H1 H2 L1 L2. rewrite merge_sort_Permutation in H1.
  assert (k1 = k2) as <- by (apply (anti_symm String.le); done). f_equal.
  apply list_elem_of_lookup in H1 as [i Hi], H2 as [j Hj].
  assert (i = j) as <-; [|congruence].
  eapply (NoDup_lookup (l.*1)); [done|by rewrite list_lookup_fmap, Hi|by rewrite list_lookup_fmap, Hj].
Qed.

Lemma Join_head x l sep : value_head x -> value_head (Join (x :: l) sep).
Proof. intros H. destruct l; [done|]. rewrite Join_cons. by apply value_head_app. Qed.

Lemma parse_value_arr l xs t fuel :
  Forall2 text_of l xs -> (String.length (Join xs ",") + 2 <= fuel)%nat ->
  parse_value fuel ("[" +:+ Join xs "," +:+ "]" +:+ t) = Some (VArr l, t).
Proof.
  intros F Hf. destruct fuel as [|fuel]; [lia|].
  destruct F as [|v s l xs Hv F]; [reflexivity|].
  change ("[" +:+ Join (s :: xs) "," +:+ "]" +:+ t) with (String "[" (Join (s :: xs) "," +:+ String "]" t)).
  change (match skip_ws (Join (s :: xs) "," +:+ String "]" t) with
          | String "]" rest => Some (VArr [], rest)
          | _ => parse_elements fuel [] (Join (s :: xs) "," +:+ String "]" t) end = Some (VArr (v :: l), t)).
  rewrite value_head_not_close by (by apply value_head_app, Join_head, Hv).
  apply (parse_elements_text (v :: l)); [by constructor|done|lia].
Qed.

Lemma parse_value_obj m xs t fuel :
  Forall2 member_text m xs -> NoDup (m.*1) -> (String.length (Join xs ",") + 2 <= fuel)%nat ->
  parse_value fuel ("{" +:+ Join xs "," +:+ "}" +:+ t) = Some (VObj m, t).
Proof.
  intros F Hn Hf. destruct fuel as [|fuel]; [lia|].
  destruct F as [|v s m xs Hv F]; [reflexivity|].
  change ("{" +:+ Join (s :: xs) "," +:+ "}" +:+ t) with (String "{" (Join (s :: xs) "," +:+ String "}" t)).
  change (match skip_ws (Join (s :: xs) "," +:+ String "}" t) with
          | String "}" rest => Some (VObj [], rest)
          | _ => parse_members fuel [] (Join (s :: xs) "," +:+ String "}" t) end = Some (VObj (v :: m), t)).
  destruct Hv as (x & Hx & Hk & E).
  replace (match skip_ws _ with String "}" rest => _ | _ => _ end)
    with (parse_members fuel [] (Join (s :: xs) "," +:+ String "}" t)).
  { apply (parse_members_text (v :: m)); [|done|done|lia]. constructor; [by exists x|done]. }
  rewrite E. by destruct xs.
Qed.

(** The text [write] prints for a canonical value is that value's text. *)
Lemma write_text v : canonical v -> exists s, write v = Ok s /\ text_of v s.
Proof.
  induction v as [|b|z|f|s|s|s|s|l IH|m IH] using value_ind'; intros C; inversion C; subst; cbn [write].
  - exists "null". split; [done|]. split; [by apply value_head_intro|].
    intros t [|fuel] _ Hf; [simpl in Hf; lia|].
    change (Some (VNull, str_drop (String.length "null") ("null" +:+ t)) = Some (VNull, t)). by rewrite str_drop_app.
  - exists (if b then "true" else "false"). split; [done|]. split.
    + destruct b; by apply value_head_intro.
    + intros t [|fuel] _ Hf; [destruct b; simpl in Hf; lia|]. destruct b.
      * change (Some (VBool true, str_drop (String.length "true") ("true" +:+ t)) = Some (VBool true, t)).
        by rewrite str_drop_app.
      * change (Some (VBool false, str_drop (String.length "false") ("false" +:+ t)) = Some (VBool false, t)).
        by rewrite str_drop_app.
  - exists (itoa z). split; [by apply writeNumber_itoa|].
    assert (value_head (itoa z)) as Hh.
    { apply int_head_value. rewrite <- (string_app_nil_r (itoa z)). apply itoa_head. }
    split; [done|]. intros t [|fuel] Ht Hf.
    + destruct Hh as (a & r & E & _). rewrite E in Hf. simpl in Hf. lia.
    + by apply parse_value_int.
  - exists (writeString s). split; [done|]. split; [by apply value_head_intro|].
    intros t [|fuel] _ Hf; [pose proof (writeString_length s); lia|].
    change (match parse_string (writeString s +:+ t) with Some (x, rest) => Some (VStr x, rest) | None => None end
      = Some (VStr s, t)). by rewrite parse_writeString.
  - assert (exists xs, Forall2 (fun r x => r = Ok x) (map write l) xs /\ Forall2 text_of l xs) as (xs & F1 & F2).
    { match goal with H : Forall canonical l |- _ => revert H end. clear C.
      induction IH as [|v l Hv _ IHl]; intros Hc; [by exists []|]. inversion Hc; subst.
      destruct Hv as (x & ? & ?); [done|]. destruct IHl as (xs & ? & ?); [done|].
      exists (x :: xs). split; by constructor. }
    rewrite (collect_Forall2 _ _ F1). eexists. split; [reflexivity|]. split; [by apply value_head_intro|].
    intros t fuel _ Hf. rewrite !string_app_assoc. apply parse_value_arr; [done|].
    rewrite !string_length_app in Hf. simpl in Hf. lia.
  - unfold write_object. rewrite merge_sort_sorted.
    2:{ rewrite <- list_fmap_compose. match goal with H : NoDup _ |- _ => exact H end. }
    2:{ match goal with H : StronglySorted _ m |- _ => revert H end. clear. induction 1; constructor; [done|].
        by apply Forall_fmap. }
    assert (exists xs, Forall2 (fun r x => r = Ok x)
      (map (fun p => x ← p.2; Ok (writeString p.1 +:+ ":" +:+ x)) (map (fun kv => (kv.1, write kv.2)) m)) xs
      /\ Forall2 member_text m xs) as (xs & F1 & F2).
    { match goal with H1 : Forall (fun kv => valid_utf8 _ = true) m, H2 : Forall (fun kv => canonical kv.2) m |- _ =>
        revert H1 H2 end. clear -IH.
      induction IH as [|[k v] m Hv _ IHm]; intros Hk Hc; [by exists []|].
      repeat match goal with H : Forall _ (_ :: _) |- _ => apply Forall_cons in H as [? ?] end.
      destruct Hv as (x & Hw & ?); [done|]. destruct IHm as (xs & ? & ?); [done..|]. cbn [fst snd] in *.
      exists ((writeString k +:+ ":" +:+ x) :: xs). cbn [map fst snd]. rewrite Hw. split; constructor; try done.
      by exists x. }
    rewrite (collect_Forall2 _ _ F1). eexists. split; [reflexivity|]. split; [by apply value_head_intro|].
    intros t fuel _ Hf. rewrite !string_app_assoc. apply parse_value_obj; [done|done|].
    rewrite !string_length_app in Hf. simpl in Hf. lia.
Qed.

(** Reading what was written gives the value back. *)
Lemma parse_raw_write v : canonical v -> exists s, write v = Ok s /\ parse_raw s = Ok v.
Proof.
  intros C. destruct (write_text v C) as (s & Hw & _ & Hp). exists s. split; [done|].
  unfold parse_raw. specialize (Hp "" (2 * String.length s + 2)%nat eq_refl ltac:(lia)).
  rewrite string_app_nil_r in Hp. by rewrite Hp.
Qed.

(** C37. Canonical JSON round trips. The text printed for a canonical value
    (numbers in the signed 64-bit range, strings in UTF-8, members sorted
    and distinct, at any depth) parses back to that value, so no two
    canonical values share a text. *)
Theorem canonical_roundtrip (v1 v2 : value) :
  canonical v1 -> canonical v2 ->
  exists s1 s2, write v1 = Ok s1 /\ write v2 = Ok s2 /\ parse_raw s1 = Ok v1 /\ (s1 = s2 -> v1 = v2).
Proof.
  intros C1 C2. destruct (parse_raw_write v1 C1) as (s1 & W1 & P1), (parse_raw_write v2 C2) as (s2 & W2 & P2).
  exists s1, s2. split_and!; try done. intros ->. congruence.
Qed.

Lemma canonical_roundtrip_witness :
  canonical (VObj [("a", VNumber (itoa (-12))); ("b", VArr [VStr "x"; VNull])]) /\
  exists s1 s2, write (VObj [("a", VNumber (itoa (-12))); ("b", VArr [VStr "x"; VNull])]) = Ok s1 /\ write VNull = Ok s2 /\
    parse_raw s1 = Ok (VObj [("a", VNumber (itoa (-12))); ("b", VArr [VStr "x"; VNull])]) /\
    (s1 = s2 -> VObj [("a", VNumber (itoa (-12))); ("b", VArr [VStr "x"; VNull])] = VNull).
Proof.
  assert (canonical (VObj [("a", VNumber (itoa (-12))); ("b", VArr [VStr "x"; VNull])])) as C.
  { constructor.
    - repeat constructor.
    - repeat constructor; unfold int64_min, int64_max; lia.
    - apply (bool_decide_unpack _); vm_compute; exact I.
    - repeat constructor; unfold key_le; cbn; apply (bool_decide_unpack _); vm_compute; exact I. }
  split; [exact C|]. exact (canonical_roundtrip _ VNull C can_null).
Defined.
