(* ===== verification/Decimal.v ===== *)
(** * Integers printed as floats

    [encoding/json] decodes a number into [any] as a [float64] and prints
    a [float64] with the fewest digits that read back. A counter that
    makes the round trip is printed as the integer it was, up to 10^15:
    a checkpoint read back from the store keeps the bytes it was signed
    over. *)

From S2P Require Import Prelude GoStrings Float64 Encoding Canon Json.
Local Open Scope Z_scope.

(** ** The float of an integer *)

Lemma strip_pos_odd p : forall e, Z.odd (Zpos (strip_pos p e).1) = true.
Proof. induction p as [p _|p IH|]; intros e; cbn [strip_pos]; [done|apply IH|done]. Qed.

Lemma mk_odd m e q e' : m <> 0 -> mk m e = FFin q e' -> Z.odd q = true.
Proof.
  destruct m as [|p|p]; [done|intros _|intros _]; unfold mk; pose proof (strip_pos_odd p e) as Ho;
    destruct (strip_pos p e) as [q0 e0]; intros [= <- <-]; exact Ho.
Qed.

Lemma round_ratio_odd n d q e : n <> 0 -> round_ratio n d = FFin q e -> q = 0 \/ Z.odd q = true.
Proof.
  intros Hn. unfold round_ratio. destruct (Z.eqb_spec n 0); [done|].
  match goal with |- context [mk (if _ then - ?m else ?m) _] => set (M := m) end.
  destruct (2 ^ 1024 <=? _); [done|]. destruct (Z.eqb_spec M 0) as [HM|HM].
  - destruct (n <? 0); [done|]. cbn [andb]. rewrite HM. intros [= <- _]. by left.
  - cbn [andb]. intros E. right. eapply mk_odd; [|exact E]. destruct (n <? 0); lia.
Qed.

(** The float of a small positive integer is that integer. *)
Lemma of_Z_int z : 0 < z < 2 ^ 53 -> exists q e, of_Z z = FFin q e /\ 0 < q /\ 0 <= e /\ q * 2 ^ e = z.
Proof.
  intros Hz. destruct (round_ratio_pos z Hz) as (q & e & Hq & E & _ & Hs). exists q, e.
  assert (0 <= e) as He.
  { destruct (Z.le_gt_cases 0 e) as [|Hneg]; [done|exfalso].
    destruct (Hs (- e)) as [H|H]; [lia| |lia]. rewrite Z.add_opp_diag_r, Z.pow_0_r, Z.mul_1_r in H.
    destruct (round_ratio_odd z 1 q e ltac:(lia) E) as [->|Ho]; [lia|]. rewrite H in Ho.
    rewrite <- (Z.succ_pred (- e)), Z.pow_succ_r, Z.odd_mul, Z.odd_mul in Ho by lia. cbn in Ho. by rewrite andb_false_r in Ho. }
  split_and!; try done. destruct (Hs 0) as [H|H]; [lia| |lia]. by rewrite Z.add_0_r, Z.pow_0_r, Z.mul_1_r in H.
Qed.

Lemma of_Z_inj a b : Z.abs a < 2 ^ 53 -> Z.abs b < 2 ^ 53 -> of_Z a = of_Z b -> a = b.
Proof. intros Ha Hb E. rewrite <- (proj1 (of_Z_exact a Ha)), <- (proj1 (of_Z_exact b Hb)). by rewrite E. Qed.

(** ** Its decimal digits *)

(** The estimate of the decimal exponent is right or one too low. *)
Lemma dec_exp_estimate k : 0 <= k < 50 ->
  0 <= k * 30103 / 100000 /\ 10 ^ (k * 30103 / 100000) <= 2 ^ k /\ 2 ^ (k + 1) <= 10 ^ (k * 30103 / 100000 + 2).
Proof.
  intros Hk. assert (k ∈ seqZ 0 50) as E by (apply elem_of_seqZ; lia). clear Hk.
  assert (forallb (fun k => (0 <=? k * 30103 / 100000) && (10 ^ (k * 30103 / 100000) <=? 2 ^ k)
    && (2 ^ (k + 1) <=? 10 ^ (k * 30103 / 100000 + 2))) (seqZ 0 50) = true) as F by (vm_compute; reflexivity).
  rewrite forallb_forall in F. apply list_elem_of_In in E. apply F in E. bool_hyps. lia.
Qed.

Lemma dec_exp_spec n : 0 < n < 10 ^ 15 -> 0 <= dec_exp n 1 <= 14 /\ 10 ^ dec_exp n 1 <= n < 10 ^ (dec_exp n 1 + 1).
Proof.
  intros Hn. assert (2 ^ Z.log2 n <= n < 2 ^ (Z.log2 n + 1)) as Hl by (apply Z.log2_spec; lia).
  assert (0 <= Z.log2 n < 50) as Hk.
  { split; [apply Z.log2_nonneg|]. apply Z.log2_lt_pow2; [lia|]. assert (10 ^ 15 < 2 ^ 50) by (vm_compute; done). lia. }
  destruct (dec_exp_estimate _ Hk) as (H0 & H1 & H2).
  assert (0 <= dec_exp n 1 /\ 10 ^ dec_exp n 1 <= n < 10 ^ (dec_exp n 1 + 1)) as (Hx & Hlo & Hhi).
  { unfold dec_exp. change (Z.log2 1) with 0. rewrite Z.sub_0_r. set (x0 := Z.log2 n * 30103 / 100000) in *.
    destruct (Z.leb_spec 0 (x0 + 2)), (Z.leb_spec 0 (x0 + 1)), (Z.leb_spec 0 x0); try lia.
    destruct (Z.leb_spec (1 * 10 ^ (x0 + 2)) n); [lia|].
    destruct (Z.leb_spec (1 * 10 ^ (x0 + 1)) n); [replace (x0 + 1 + 1) with (x0 + 2) by lia; lia|].
    destruct (Z.leb_spec (1 * 10 ^ x0) n); lia. }
  split; [|done]. split; [done|]. destruct (Z.le_gt_cases (dec_exp n 1) 14); [done|exfalso].
  assert (10 ^ 15 <= 10 ^ dec_exp n 1) by (apply Z.pow_le_mono_r; lia). lia.
Qed.

(** [D] rounds [n] to the digits above 10^s. *)
Lemma div_even_bounds n d : 0 < d <= n -> 1 <= div_even n d /\ div_even n d * d <= n + d.
Proof.
  intros Hd. unfold div_even. pose proof (Z.div_mod n d ltac:(lia)) as E. pose proof (Z.mod_pos_bound n d ltac:(lia)).
  assert (1 <= n / d) by (apply Z.div_le_lower_bound; lia).
  destruct (2 * (n mod d) ?= d); [destruct (Z.even _)| |]; nia.
Qed.

Lemma search_exact n x : 0 < n < 10 ^ 15 -> 0 <= x <= 14 -> 10 ^ x <= n < 10 ^ (x + 1) ->
  forall fuel k, 1 <= k <= x + 1 -> x + 1 - k <= Z.of_nat fuel ->
  exists D s, search_digits (of_Z n) n 1 x k fuel = (D, s) /\ D * 10 ^ s = n /\ 0 <= s /\ 0 < D.
Proof.
  intros Hn Hx Hb. assert (forall k, 1 <= k <= x + 1 ->
    exists D, digits_at n 1 x k = (D, x - k + 1) /\ 1 <= D /\ D * 10 ^ (x - k + 1) <= 2 * n) as Hd.
  { intros k Hk. unfold digits_at. destruct (Z.leb_spec 0 (x - k + 1)); [|lia]. rewrite Z.mul_1_l.
    eexists. split; [done|]. assert (0 < 10 ^ (x - k + 1) <= n) as Hp.
    { split; [apply Z.pow_pos_nonneg; lia|]. etrans; [apply (Z.pow_le_mono_r 10 _ x); lia|lia]. }
    pose proof (div_even_bounds _ _ Hp). lia. }
  assert (digits_at n 1 x (x + 1) = (n, 0)) as Hlast.
  { unfold digits_at. cbv zeta. assert (x - (x + 1) + 1 = 0) as -> by lia. cbn [Z.leb Z.compare]. change (1 * 10 ^ 0) with 1. by rewrite div_even_1. }
  assert (10 ^ 15 * 2 < 2 ^ 53) as H53 by (vm_compute; done).
  induction fuel as [|fuel IH]; intros k Hk Hf; cbn [search_digits].
  - assert (k = x + 1) as -> by lia. rewrite Hlast. exists n, 0. rewrite Z.pow_0_r. split_and!; [done|lia|lia|lia].
  - destruct (Hd k Hk) as (D & ED & HD & Hle). destruct (digits_at n 1 x k) as [D' s'] eqn:E. injection ED as -> ->.
    assert (of_decimal false D (x - k + 1) = of_Z (D * 10 ^ (x - k + 1))) as Ef.
    { unfold of_decimal. destruct (Z.eqb_spec D 0); [lia|]. destruct (Z.leb_spec 0 (x - k + 1)); [done|lia]. }
    destruct (decide (of_decimal false D (x - k + 1) = of_Z n)) as [Heq|Hne].
    + rewrite Ef in Heq. assert (0 < 10 ^ (x - k + 1)) by (apply Z.pow_pos_nonneg; lia).
      apply of_Z_inj in Heq; [|nia|lia]. exists D, (x - k + 1). split_and!; [done|done|lia|lia].
    + destruct (decide (k = x + 1)) as [->|Hlt]; [|apply IH; lia].
      exfalso. rewrite Hlast in E. injection E as En Es. apply Hne. rewrite <- En, <- Es. unfold of_decimal. destruct (Z.eqb_spec n 0); [lia|].
      cbn [Z.leb Z.compare]. change (10 ^ 0) with 1. by rewrite Z.mul_1_r.
Qed.

Lemma strip10_exact fuel : forall D s n, D * 10 ^ s = n -> 0 <= s -> 0 < D ->
  exists D' s', strip10 fuel D s = (D', s') /\ D' * 10 ^ s' = n /\ 0 <= s' /\ 0 < D'.
Proof.
  induction fuel as [|fuel IH]; intros D s n E Hs HD; cbn [strip10]; [by exists D, s|].
  destruct (Z.eqb_spec (D mod 10) 0) as [Hm|]; [|by exists D, s]. destruct (Z.eqb_spec D 0); [by exists D, s|]. cbn [andb negb].
  pose proof (Z.div_mod D 10 ltac:(lia)) as Ed. apply IH; [|lia|lia].
  rewrite Z.pow_add_r by lia. change (10 ^ 1) with 10. rewrite <- E. rewrite Ed at 2. rewrite Hm. lia.
Qed.

(** ** Its text *)

Lemma zeros_succ n : 0 <= n -> zeros (n + 1) = String "0" (zeros n).
Proof. intros H. unfold zeros. replace (Z.to_nat (n + 1)) with (S (Z.to_nat n)) by lia. done. Qed.

Lemma pretty_N_go_pow (k : nat) : forall x t, (0 < x)%N ->
  pretty_N_go (x * 10 ^ N.of_nat k) t = pretty_N_go x (zeros (Z.of_nat k) +:+ t).
Proof.
  induction k as [|k IH]; intros x t Hx; [by rewrite N.mul_1_r|].
  rewrite Nat2N.inj_succ, N.pow_succ_r', N.mul_assoc, (N.mul_comm _ 10), <- N.mul_assoc.
  replace (10 * (x * 10 ^ N.of_nat k))%N with ((x * 10) * 10 ^ N.of_nat k)%N by lia.
  rewrite IH by lia. rewrite (pretty_N_go_step (x * 10)) by lia. rewrite N.div_mul, N.Div0.mod_mul by done.
  f_equal. rewrite Nat2Z.inj_succ, <- Z.add_1_r, zeros_succ by lia. done.
Qed.

Lemma itoa_pow10 D s : 0 < D -> 0 <= s -> itoa (D * 10 ^ s) = itoa D +:+ zeros s.
Proof.
  intros HD Hs. assert (0 < 10 ^ s) by (apply Z.pow_pos_nonneg; lia). rewrite !itoa_nonneg by nia.
  rewrite pretty_N_go_app. change ("" +:+ zeros s) with (zeros s).
  replace (Z.to_N (D * 10 ^ s)) with (Z.to_N D * 10 ^ N.of_nat (Z.to_nat s))%N.
  - rewrite pretty_N_go_pow, Z2Nat.id, string_app_nil_r by lia. done.
  - rewrite Z2N.inj_mul by lia. f_equal. rewrite <- (Z2Nat.id s) at 2 by lia. rewrite <- (nat_N_Z (Z.to_nat s)).
    change 10 with (Z.of_N 10) at 1. rewrite <- N2Z.inj_pow. by rewrite N2Z.id.
Qed.

Lemma pretty_N_go_length (k : nat) : forall x t, (x < 10 ^ N.of_nat k)%N ->
  (String.length (pretty_N_go x t) <= k + String.length t)%nat.
Proof.
  induction k as [|k IH]; intros x t Hx.
  - assert (x = 0)%N as -> by (change (10 ^ N.of_nat 0)%N with 1%N in Hx; lia). rewrite pretty_N_go_0. lia.
  - destruct (decide (x = 0)%N) as [->|Hne]; [rewrite pretty_N_go_0; lia|]. rewrite pretty_N_go_step by lia.
    etrans; [apply IH|cbn [String.length]; lia]. rewrite Nat2N.inj_succ, N.pow_succ_r' in Hx. apply N.Div0.div_lt_upper_bound. lia.
Qed.

Lemma itoa_length z k : 0 < z < 10 ^ k -> 0 <= k -> 1 <= len (itoa z) <= k.
Proof.
  intros Hz Hk. unfold len. split.
  - rewrite itoa_nonneg by lia. destruct (pretty_N_go_first (Z.to_N z) "") as (d & r & _ & ->); [lia|]. cbn [String.length]. lia.
  - rewrite itoa_nonneg by lia. pose proof (pretty_N_go_length (Z.to_nat k) (Z.to_N z) "") as H. cbn [String.length] in H.
    enough (Z.to_N z < 10 ^ N.of_nat (Z.to_nat k))%N by lia.
    apply N2Z.inj_lt. rewrite Z2N.id, N2Z.inj_pow, nat_N_Z, Z2Nat.id by lia. apply Hz.
Qed.

(** A counter prints the same as an integer and as a float. *)
Lemma json_float_int z : 0 <= z < 10 ^ 15 -> json_float (of_Z z) = itoa z.
Proof.
  intros Hz. destruct (Z.eq_dec z 0) as [->|Hne]; [vm_compute; reflexivity|].
  assert (10 ^ 15 < 2 ^ 53) as H53 by (vm_compute; done).
  destruct (of_Z_int z) as (q & e & Ef & Hq & He & Ez); [lia|].
  unfold json_float. rewrite Ef. change (fabs (FFin q e)) with (FFin (Z.abs q) e). rewrite Z.abs_eq by lia.
  assert (flt (FFin q e) (of_decimal false 1 (-6)) = false) as ->.
  { let v := eval vm_compute in (of_decimal false 1 (-6)) in change (of_decimal false 1 (-6)) with v.
    unfold flt, fcompare. rewrite Z.min_r, Z.sub_diag, Z.pow_0_r, Z.mul_1_r by lia.
    replace (e - -72) with (e + 72) by lia. rewrite Z.pow_add_r, Z.mul_assoc, Ez by lia.
    let v := eval vm_compute in (2 ^ 72) in change (2 ^ 72) with v. by destruct (Z.compare_spec (z * 4722366482869645213696) 4722366482869645) as [?|?|?]; try lia. }
  assert (fle (of_decimal false 1 21) (FFin q e) = false) as ->.
  { let v := eval vm_compute in (of_decimal false 1 21) in change (of_decimal false 1 21) with v.
    unfold fle, fcompare. match goal with |- context [Z.min ?a e] => set (m := Z.min a e) end.
    assert (z < 476837158203125 * 2 ^ 21) as Hbig by (assert (10 ^ 15 < 476837158203125 * 2 ^ 21) by (vm_compute; done); lia).
    assert (q * 2 ^ (e - m) < 476837158203125 * 2 ^ (21 - m)) as Hlt.
    { apply (Z.mul_lt_mono_pos_r (2 ^ m)); [apply Z.pow_pos_nonneg; lia|].
      rewrite <- !Z.mul_assoc, <- !Z.pow_add_r, !Z.sub_add by lia. lia. }
    by destruct (Z.compare_spec (476837158203125 * 2 ^ (21 - m)) (q * 2 ^ (e - m))) as [?|?|?]; try lia. }
  cbn [andb orb]. unfold format_with. destruct (Z.eqb_spec q 0); [lia|]. destruct (Z.ltb_spec q 0); [lia|].
  change (fabs (FFin q e)) with (FFin (Z.abs q) e). rewrite Z.abs_eq by lia. unfold shortest, frac.
  unfold scale_num, scale_den. rewrite Z.max_l, Z.max_r, Z.abs_eq, Ez by lia. change (2 ^ 0) with 1.
  destruct (dec_exp_spec z ltac:(lia)) as [Hx Hb]. rewrite <- Ef.
  destruct (search_exact z (dec_exp z 1) ltac:(lia) Hx Hb 16 1) as (D0 & s0 & -> & E0 & Hs0 & HD0); [lia|lia|].
  destruct (strip10_exact 20 D0 s0 z E0 Hs0 HD0) as (D & s & -> & E1 & Hs & HD).
  assert (s < 15) as Hs15.
  { destruct (Z.lt_ge_cases s 15) as [|Hge]; [done|exfalso]. assert (10 ^ 15 <= 10 ^ s) by (apply Z.pow_le_mono_r; lia). nia. }
  assert (1 <= len (itoa D) <= 15 - s) as Hl.
  { apply itoa_length; [|lia]. split; [done|]. assert (10 ^ 15 = 10 ^ (15 - s) * 10 ^ s) by (rewrite <- Z.pow_add_r by lia; f_equal; lia).
    assert (0 < 10 ^ s) by (apply Z.pow_pos_nonneg; lia). nia. }
  destruct (Z.ltb_spec (s + len (itoa D) - 1) (-7)); [lia|]. destruct (Z.leb_spec 22 (s + len (itoa D) - 1)); [lia|].
  cbn [orb]. unfold layout_f. destruct (Z.ltb_spec (s + len (itoa D) - 1) 0); [lia|].
  destruct (Z.leb_spec (len (itoa D)) (s + len (itoa D) - 1 + 1)); [|lia].
  replace (s + len (itoa D) - 1 + 1 - len (itoa D)) with s by lia. rewrite <- E1, itoa_pow10 by lia. done.
Qed.

(** Its text reads back as that float. *)
Lemma ParseFloat_itoa z : Z.abs z < 2 ^ 53 -> ParseFloat (itoa z) = (of_Z z, true).
Proof.
  intros Hz. unfold ParseFloat. pose proof (scan_number_itoa z "" eq_refl) as Es. rewrite string_app_nil_r in Es. rewrite Es.
  destruct (of_Z_exact z Hz) as (_ & m & e & E1 & E2). rewrite E2, E1. done.
Qed.
