(* ===== verification/Shortest.v ===== *)
(** * The shortest decimal reads back

    [strconv.FormatFloat] with precision [-1] promises the fewest digits
    that [ParseFloat] reads back as the same value. Float64.v finds them by
    trying one to seventeen digits and checks all but the last; here is why
    the last needs no check: seventeen digits determine a [float64]. *)

From Stdlib Require Import QArith Qpower Lqa.
From S2P Require Import Prelude GoStrings Float64 Encoding Canon Json Decimal.
Local Open Scope Z_scope.

(** ** Powers of two as rationals *)

Definition pw (e : Z) : Q := Qpower (2#1) e.

Lemma pw_pos e : (0 < pw e)%Q.
Proof. apply Qpower_0_lt. reflexivity. Qed.
Lemma pw_add a b : (pw (a + b) == pw a * pw b)%Q.
Proof. apply Qpower_plus. discriminate. Qed.
Lemma pw_succ e : (pw (e + 1) == 2 * pw e)%Q.
Proof. rewrite pw_add. change (pw 1) with (2#1)%Q. lra. Qed.
Lemma pw_pred e : (2 * pw (e - 1) == pw e)%Q.
Proof. rewrite <- pw_succ. by rewrite Z.sub_add. Qed.
Lemma pw_opp e : (pw e * pw (- e) == 1)%Q.
Proof. rewrite <- pw_add, Z.add_opp_diag_r. reflexivity. Qed.
Lemma pw_Z k : 0 <= k -> (pw k == inject_Z (2 ^ k))%Q.
Proof. intros Hk. unfold pw. symmetry. by apply (Zpower_Qpower 2 k). Qed.
Lemma pw_le a b : a <= b -> (pw a <= pw b)%Q.
Proof.
  intros H. replace b with (a + (b - a)) by lia. rewrite pw_add, (pw_Z (b - a)) by lia.
  assert (1 <= inject_Z (2 ^ (b - a)))%Q by (change 1%Q with (inject_Z 1); rewrite <- Zle_Qle; pose proof (Z.pow_pos_nonneg 2 (b - a)); lia).
  pose proof (pw_pos a). nra.
Qed.
Lemma pw_lt_inv a b : (pw a < pw b)%Q -> a < b.
Proof. intros H. destruct (Z.lt_ge_cases a b) as [|Hge]; [done|]. apply pw_le in Hge. lra. Qed.
Lemma pw_lt a b : a < b -> (pw a < pw b)%Q.
Proof. intros H. pose proof (pw_le (a + 1) b ltac:(lia)). pose proof (pw_succ a). pose proof (pw_pos a). lra. Qed.

(** The ratio of two integers. *)
Definition ratio (n d : Z) : Q := inject_Z n / inject_Z d.
Lemma inject_pos n : 0 < n -> (0 < inject_Z n)%Q.
Proof. intros H. change 0%Q with (inject_Z 0). by rewrite <- Zlt_Qlt. Qed.
Lemma ratio_spec n d : 0 < d -> (ratio n d * inject_Z d == inject_Z n)%Q.
Proof. intros Hd%inject_pos. unfold ratio. field. lra. Qed.
Lemma ratio_unique n d q : 0 < d -> (q * inject_Z d == inject_Z n)%Q -> (q == ratio n d)%Q.
Proof. intros Hd%inject_pos E. unfold ratio. rewrite <- E. field. lra. Qed.
Lemma ratio_pos n d : 0 < n -> 0 < d -> (0 < ratio n d)%Q.
Proof. intros Hn%inject_pos Hd. pose proof (ratio_spec n d Hd). apply inject_pos in Hd. nra. Qed.

(** [n * 2^e / d], in integers. *)
Lemma ratio_scale n d e : 0 < d -> (ratio (scale_num n e) (d * scale_den e) == ratio n d * pw e)%Q.
Proof.
  intros Hd. assert (0 < scale_den e) as He by (apply Z.pow_pos_nonneg; lia). symmetry. apply ratio_unique; [lia|].
  unfold scale_num, scale_den. rewrite !inject_Z_mult, <- !pw_Z by lia.
  replace (Z.max e 0) with (e + Z.max (- e) 0) by lia. rewrite pw_add, <- (ratio_spec n d Hd). lra.
Qed.

(** Rounding to an integer that is less than a half away. *)
Lemma div_even_near a b M : 0 < b -> (ratio a b - inject_Z M < 1#2)%Q -> (inject_Z M - ratio a b < 1#2)%Q -> div_even a b = M.
Proof.
  intros Hb H1 H2. pose proof (ratio_spec a b Hb) as E. pose proof (inject_pos b Hb) as Hb'.
  assert (2 * (a - M * b) < b /\ 2 * (M * b - a) < b) as [G1 G2].
  { split; rewrite Zlt_Qlt, inject_Z_mult; unfold Zminus; rewrite inject_Z_plus, inject_Z_opp, inject_Z_mult, <- E; change (inject_Z 2) with (2#1)%Q; nra. }
  unfold div_even. pose proof (Z.div_mod a b ltac:(lia)) as Ed. pose proof (Z.mod_pos_bound a b Hb).
  assert (a / b = M \/ a / b = M - 1) as [Hq|Hq] by nia; rewrite Hq in *.
  - destruct (Z.compare_spec (2 * (a mod b)) b); [lia|lia|lia].
  - destruct (Z.compare_spec (2 * (a mod b)) b); [lia|lia|lia].
Qed.

(** ** Rounding a ratio *)

(** The exponent [round_ratio] gives the last bit of its mantissa, short of
    subnormal numbers: the one that makes it 53 bits long. *)
Definition top_exp (n d : Z) : Z :=
  let k := Z.log2 n - Z.log2 d in
  if 2 ^ 53 <=? scale_num n (- (k - 53)) / (d * scale_den (- (k - 53))) then k - 53 + 1 else k - 53.

Lemma log2_pw n : 0 < n -> (pw (Z.log2 n) <= inject_Z n)%Q /\ (inject_Z n < pw (Z.log2 n + 1))%Q.
Proof.
  intros Hn. pose proof (Z.log2_nonneg n). pose proof (Z.log2_spec n Hn) as [H1 H2].
  rewrite !pw_Z by lia. by rewrite <- Zle_Qle, <- Zlt_Qlt.
Qed.
Lemma top_exp_spec n d : 0 < n -> 0 < d -> (pw (52 + top_exp n d) <= ratio n d)%Q /\ (ratio n d < pw (53 + top_exp n d))%Q.
Proof.
  intros Hn Hd. unfold top_exp. cbv zeta. set (k := Z.log2 n - Z.log2 d).
  destruct (log2_pw n Hn) as [Hn1 Hn2], (log2_pw d Hd) as [Hd1 Hd2]. pose proof (ratio_spec n d Hd) as E. pose proof (ratio_pos n d Hn Hd) as Hx.
  pose proof (inject_pos d Hd) as Hd'. set (x := ratio n d) in *.
  assert (pw (Z.log2 n) == pw k * pw (Z.log2 d))%Q as El by (rewrite <- pw_add; unfold k; by rewrite Z.sub_add).
  rewrite pw_succ in Hn2, Hd2. pose proof (pw_pos (Z.log2 d)) as HL. pose proof (pw_pos k) as Hk.
  assert (pw k < 2 * x)%Q as Hlo by nra. assert (x < 2 * pw k)%Q as Hhi by nra.
  assert (0 < d * scale_den (- (k - 53))) as Hb by (apply Z.mul_pos_pos; [done|apply Z.pow_pos_nonneg; lia]).
  pose proof (ratio_scale n d (- (k - 53)) Hd) as Er. fold x in Er. set (a := scale_num n _) in *. set (b := d * _) in *.
  pose proof (ratio_spec a b Hb) as Ea. rewrite Er in Ea. pose proof (inject_pos b Hb) as Hb'.
  replace (- (k - 53)) with (53 + - k) in Ea by lia. rewrite pw_add in Ea. pose proof (pw_opp k) as Ek. pose proof (pw_pos (- k)) as Hk'.
  change (pw 53) with (9007199254740992#1)%Q in Ea.
  destruct (Z.leb_spec (2 ^ 53) (a / b)) as [Hq|Hq].
  - replace (52 + (k - 53 + 1)) with k by lia. replace (53 + (k - 53 + 1)) with (k + 1) by lia. rewrite pw_succ. split; [|lra].
    assert (2 ^ 53 * b <= a) as Hab by (pose proof (Z.mul_div_le a b Hb); nia).
    rewrite Zle_Qle, inject_Z_mult, <- Ea in Hab. change (inject_Z (2 ^ 53)) with (9007199254740992#1)%Q in Hab.
    assert (1 <= x * pw (- k))%Q by nra. nra.
  - replace (53 + (k - 53)) with k by lia. replace (52 + (k - 53)) with (k - 1) by lia. pose proof (pw_pred k). split; [lra|].
    assert (a < 2 ^ 53 * b) as Hab by (pose proof (Z.mod_pos_bound a b Hb); pose proof (Z.div_mod a b ltac:(lia)); nia).
    rewrite Zlt_Qlt, inject_Z_mult, <- Ea in Hab. change (inject_Z (2 ^ 53)) with (9007199254740992#1)%Q in Hab.
    assert (x * pw (- k) < 1)%Q by nra. nra.
Qed.

(** The values a [float64] takes, in the one form Float64.v gives each. *)
Definition is_float64 (f : float64) : bool :=
  match f with
  | FFin m e => if m =? 0 then e =? 0 else Z.odd m && (Z.abs m <? 2 ^ 53) && (-1074 <=? e) && (Z.log2 (Z.abs m) + e <=? 1023)
  | _ => true
  end.

Lemma round_ratio_top n d : 0 < n -> 0 < d ->
  round_ratio n d =
    let e := Z.max (-1074) (top_exp n d) in
    let m := div_even (scale_num n (- e)) (d * scale_den (- e)) in
    if 2 ^ 1024 <=? m * 2 ^ (Z.max e 0) then FInf false else mk m e.
Proof.
  intros Hn Hd. unfold round_ratio, top_exp. destruct (Z.eqb_spec n 0); [lia|]. rewrite (Z.abs_eq n) by lia.
  destruct (Z.ltb_spec n 0); [lia|]. cbv zeta. by rewrite andb_false_r.
Qed.

Lemma top_exp_unique n d e : 0 < n -> 0 < d -> (pw (52 + e) <= ratio n d)%Q -> (ratio n d < pw (53 + e))%Q -> top_exp n d = e.
Proof.
  intros Hn Hd H1 H2. destruct (top_exp_spec n d Hn Hd) as [H3 H4].
  assert (52 + e < 53 + top_exp n d) by (apply pw_lt_inv; lra). assert (52 + top_exp n d < 53 + e) by (apply pw_lt_inv; lra). lia.
Qed.

(** It depends on the ratio only. *)
Lemma div_even_scale a b c : 0 < b -> 0 < c -> div_even (a * c) (b * c) = div_even a b.
Proof.
  intros Hb Hc. unfold div_even. rewrite Z.div_mul_cancel_r, Z.mul_mod_distr_r by lia.
  rewrite Z.mul_assoc. by rewrite <- (Zmult_compare_compat_r _ _ c) by lia.
Qed.
Lemma round_ratio_scale n d c : 0 < n -> 0 < d -> 0 < c -> round_ratio (n * c) (d * c) = round_ratio n d.
Proof.
  intros Hn Hd Hc. rewrite !round_ratio_top by nia.
  assert (ratio (n * c) (d * c) == ratio n d)%Q as Er.
  { symmetry. apply ratio_unique; [nia|]. rewrite !inject_Z_mult, <- (ratio_spec n d Hd). lra. }
  rewrite (top_exp_unique (n * c) (d * c) (top_exp n d)); [|nia|nia|rewrite Er; by apply top_exp_spec|rewrite Er; by apply top_exp_spec].
  cbv zeta. set (e := Z.max _ _). assert (0 < scale_den (- e)) by (apply Z.pow_pos_nonneg; lia).
  replace (scale_num (n * c) (- e)) with (scale_num n (- e) * c) by (unfold scale_num; lia).
  replace (d * c * scale_den (- e)) with (d * scale_den (- e) * c) by lia. by rewrite div_even_scale by nia.
Qed.

Lemma strip_pos_mul p k : forall e, Z.odd (Zpos p) = true -> strip_pos (p * 2 ^ k) e = (p, e + Zpos k).
Proof.
  induction k as [|k IH] using Pos.peano_ind; intros e Ho.
  - replace (p * 2 ^ 1)%positive with (xO p) by lia. cbn [strip_pos]. destruct p; done.
  - rewrite Pos.pow_succ_r. replace (p * (2 * 2 ^ k))%positive with (xO (p * 2 ^ k)) by lia. cbn [strip_pos]. rewrite IH by done. f_equal. lia.
Qed.
Lemma mk_odd_pow m k e : 0 < m -> Z.odd m = true -> 0 <= k -> mk (m * 2 ^ k) e = FFin m (e + k).
Proof.
  intros Hm Ho Hk. destruct m as [|p|p]; try lia. destruct k as [|k|k]; [|..|lia].
  - rewrite Z.mul_1_r. cbn [mk]. destruct p; cbn [strip_pos]; try done; by rewrite Z.add_0_r.
  - replace (Z.pos p * 2 ^ Z.pos k) with (Z.pos (p * 2 ^ k)) by (rewrite Pos2Z.inj_mul, Pos2Z.inj_pow; lia). unfold mk. by rewrite strip_pos_mul.
Qed.

(** A ratio near enough to a value rounds to it: half of one part in 10^16
    is less than half the distance to the next value on either side. *)
Lemma round_ratio_mantissa n d m e e1 M :
  0 < n -> 0 < d -> 0 < m -> Z.odd m = true -> Z.log2 m + e <= 1023 ->
  Z.max (-1074) (top_exp n d) = e1 -> e1 <= e -> M = m * 2 ^ (e - e1) -> M < 2 ^ 60 ->
  (2 * (ratio n d - inject_Z M * pw e1) < pw e1)%Q -> (2 * (inject_Z M * pw e1 - ratio n d) < pw e1)%Q ->
  round_ratio n d = FFin m e.
Proof.
  intros Hn Hd Hm Ho Hmax He1 He HM Hbig H1 H2. rewrite round_ratio_top by done. cbv zeta. rewrite He1.
  assert (0 < d * scale_den (- e1)) as Hb by (apply Z.mul_pos_pos; [done|apply Z.pow_pos_nonneg; lia]).
  pose proof (pw_opp e1) as Ep. pose proof (pw_pos e1). pose proof (pw_pos (- e1)).
  assert (ratio n d == ratio n d * pw (- e1) * pw e1)%Q as Ey by (rewrite <- Qmult_assoc, (Qmult_comm (pw (- e1))), Ep; lra).
  rewrite Ey in H1, H2. pose proof (ratio_scale n d (- e1) Hd) as Es. set (y := (ratio n d * pw (- e1))%Q) in *.
  rewrite (div_even_near _ _ M Hb); [|rewrite Es; nra..].
  destruct (Z.leb_spec (2 ^ 1024) (M * 2 ^ Z.max e1 0)) as [Hc|_].
  - exfalso. assert (M * 2 ^ Z.max e1 0 < 2 ^ 1024); [|lia].
    destruct (Z.le_gt_cases e1 0) as [Hneg|Hpos].
    + rewrite Z.max_r by lia. rewrite Z.mul_1_r. assert (2 ^ 60 <= 2 ^ 1024) by (apply Z.pow_le_mono_r; lia). lia.
    + rewrite Z.max_l by lia. rewrite HM, <- Z.mul_assoc, <- Z.pow_add_r by lia. replace (e - e1 + e1) with e by lia.
      pose proof (Z.log2_nonneg m). assert (m < 2 ^ (Z.log2 m + 1)) as Hl by (apply Z.log2_spec; lia).
      apply Z.lt_le_trans with (2 ^ (Z.log2 m + 1) * 2 ^ e); [apply Z.mul_lt_mono_pos_r; [apply Z.pow_pos_nonneg; lia|done]|].
      rewrite <- Z.pow_add_r by lia. apply Z.pow_le_mono_r; lia.
  - rewrite HM. replace e with (e1 + (e - e1)) at 2 by lia. apply mk_odd_pow; [done|done|lia].
Qed.

Lemma round_nearest n d m e :
  0 < n -> 0 < d -> 0 < m -> is_float64 (FFin m e) = true ->
  (20000000000000000 * (ratio n d - inject_Z m * pw e) <= inject_Z m * pw e)%Q ->
  (20000000000000000 * (inject_Z m * pw e - ratio n d) <= inject_Z m * pw e)%Q ->
  round_ratio n d = FFin m e.
Proof.
  intros Hn Hd Hm Hf H1 H2. cbn [is_float64] in Hf. destruct (Z.eqb_spec m 0); [lia|]. rewrite Z.abs_eq in Hf by lia.
  bool_hyps. rename H into Ho. 
  set (v := (inject_Z m * pw e)%Q) in *. set (x := ratio n d) in *.
  (* the exponent of [m]'s last place, 53 bits long or at the least one *)
  set (E := Z.max (-1074) (Z.log2 m + e - 52)).
  pose proof (Z.log2_nonneg m). assert (Z.log2 m < 53) by (apply Z.log2_lt_pow2; lia).
  assert (E <= e) as HE by lia. set (M := m * 2 ^ (e - E)).
  assert (v == inject_Z M * pw E)%Q as Hv.
  { unfold v, M. rewrite inject_Z_mult, <- pw_Z by lia. replace e with (e - E + E) at 1 by lia. rewrite pw_add. lra. }
  assert (v < pw (53 + E))%Q as Htop.
  { apply Qlt_le_trans with (pw (Z.log2 m + 1 + e)); [|apply pw_le; lia]. rewrite pw_add. unfold v. pose proof (pw_pos e). destruct (log2_pw m Hm). nra. }
  assert (M < 2 ^ 53) as HM.
  { rewrite Hv, pw_add in Htop. rewrite Zlt_Qlt. change (inject_Z (2 ^ 53)) with (pw 53). pose proof (pw_pos E). nra. }
  pose proof (pw_pos E) as HpE. destruct (top_exp_spec n d Hn Hd) as [T1 T2]. fold x in T1, T2.
  assert (inject_Z M <= 9007199254740991#1)%Q as HMq by (change (9007199254740991#1)%Q with (inject_Z (2 ^ 53 - 1)); rewrite <- Zle_Qle; lia).
  assert (pw (53 + E) == (9007199254740992#1) * pw E)%Q as P53 by (rewrite pw_add; reflexivity).
  assert (pw (52 + E) == (4503599627370496#1) * pw E)%Q as P52 by (rewrite pw_add; reflexivity).
  assert (top_exp n d <= E) as HtE.
  { assert (52 + top_exp n d < 53 + E); [|lia]. apply pw_lt_inv. rewrite P53. nra. }
  destruct (Qlt_le_dec x (pw (52 + E))) as [Hlow|Hhigh].
  - destruct (Z.eq_dec E (-1074)) as [Hmin|Hnmin].
    + apply (round_ratio_mantissa n d m e E M); try done; try lia; fold x; nra.
    + assert (E = Z.log2 m + e - 52) as HE' by lia.
      assert (pw (52 + E) <= v)%Q as Hbot.
      { rewrite HE'. replace (52 + (Z.log2 m + e - 52)) with (Z.log2 m + e) by lia. rewrite pw_add. unfold v. pose proof (pw_pos e). destruct (log2_pw m Hm). nra. }
      assert (top_exp n d = E - 1) as Ht.
      { apply top_exp_unique; try done; fold x.
        - replace (52 + (E - 1)) with (51 + E) by lia. assert (pw (51 + E) == (2251799813685248#1) * pw E)%Q as -> by (rewrite pw_add; reflexivity). nra.
        - by replace (53 + (E - 1)) with (52 + E) by lia. }
      assert (M = 2 ^ 52) as HM52.
      { assert (2 ^ 52 <= M) by (rewrite Zle_Qle; change (inject_Z (2 ^ 52)) with (4503599627370496#1)%Q; nra).
        assert (M < 2 ^ 52 + 1); [|lia]. rewrite Zlt_Qlt. change (inject_Z (2 ^ 52 + 1)) with (4503599627370497#1)%Q. nra. }
      pose proof (pw_pred E) as Pp. rewrite HM52 in Hv. change (inject_Z (2 ^ 52)) with (4503599627370496#1)%Q in Hv.
      apply (round_ratio_mantissa n d m e (E - 1) (2 ^ 53)); try done; try lia.
      * unfold M in HM52. replace (e - (E - 1)) with (e - E + 1) by lia. rewrite Z.pow_add_r by lia. lia.
      * fold x. change (inject_Z (2 ^ 53)) with (9007199254740992#1)%Q. nra.
      * fold x. change (inject_Z (2 ^ 53)) with (9007199254740992#1)%Q. nra.
  - assert (top_exp n d = E) as Ht.
    { assert (52 + E < 53 + top_exp n d); [|lia]. apply pw_lt_inv. lra. }
    apply (round_ratio_mantissa n d m e E M); try done; try lia; fold x; nra.
Qed.

(** ** Powers of ten *)

Definition pt (s : Z) : Q := Qpower (10#1) s.
Lemma pt_pos s : (0 < pt s)%Q.
Proof. apply Qpower_0_lt. reflexivity. Qed.
Lemma pt_add a b : (pt (a + b) == pt a * pt b)%Q.
Proof. apply Qpower_plus. discriminate. Qed.
Lemma pt_Z k : 0 <= k -> (pt k == inject_Z (10 ^ k))%Q.
Proof. intros Hk. unfold pt. symmetry. by apply (Zpower_Qpower 10 k). Qed.
Lemma pt_opp_Z k : 0 <= k -> (pt (- k) * inject_Z (10 ^ k) == 1)%Q.
Proof. intros Hk. rewrite <- pt_Z, <- pt_add, Z.add_opp_diag_l by done. reflexivity. Qed.

(** [n * 10^s / d], in integers, as [of_decimal] and [digits_at] form it. *)
Definition dec_num (n s : Z) : Z := if 0 <=? s then n * 10 ^ s else n.
Definition dec_den (d s : Z) : Z := if 0 <=? s then d else d * 10 ^ (- s).
Lemma dec_pos n d s : 0 < n -> 0 < d -> 0 < dec_num n s /\ 0 < dec_den d s.
Proof. intros Hn Hd. unfold dec_num, dec_den. destruct (Z.leb_spec 0 s); split; try done; apply Z.mul_pos_pos; try done; apply Z.pow_pos_nonneg; lia. Qed.
Lemma ratio_dec n d s : 0 < d -> (ratio (dec_num n s) (dec_den d s) == ratio n d * pt s)%Q.
Proof.
  intros Hd. symmetry. pose proof (ratio_spec n d Hd) as E. unfold dec_num, dec_den. destruct (Z.leb_spec 0 s) as [Hs|Hs].
  - apply ratio_unique; [done|]. rewrite inject_Z_mult, <- pt_Z, <- E by done. lra.
  - apply ratio_unique; [apply Z.mul_pos_pos; [done|apply Z.pow_pos_nonneg; lia]|]. rewrite inject_Z_mult, <- E.
    pose proof (pt_opp_Z (- s) ltac:(lia)) as Ep. rewrite Z.opp_involutive in Ep.
    assert (forall a b c e : Q, b * e == 1 -> a * b * (c * e) == a * c)%Q as Hq by (intros a b c e He; transitivity (a * c * (b * e))%Q; [ring|rewrite He; ring]).
    by apply Hq.
Qed.

(** A decimal mantissa and exponent, read. *)
Lemma of_decimal_ratio D s : 0 < D -> of_decimal false D s = round_ratio (dec_num D s) (dec_den 1 s).
Proof. intros HD. unfold of_decimal, dec_num, dec_den. destruct (Z.eqb_spec D 0); [lia|]. destruct (0 <=? s); [done|]. by rewrite Z.mul_1_l. Qed.

(** A trailing zero is worth nothing. *)
Lemma of_decimal_tenth D s : 0 < D -> of_decimal false (D * 10) s = of_decimal false D (s + 1).
Proof.
  intros HD. rewrite !of_decimal_ratio by lia. unfold dec_num, dec_den.
  destruct (Z.leb_spec 0 s), (Z.leb_spec 0 (s + 1)); try lia.
  - f_equal. rewrite Z.pow_add_r by lia. lia.
  - assert (s = -1) as -> by lia. change (-1 + 1) with 0. change (10 ^ 0) with 1. change (1 * 10 ^ (- (-1))) with (1 * 10). rewrite Z.mul_1_r. apply round_ratio_scale; lia.
  - replace (- s) with (- (s + 1) + 1) by lia. rewrite Z.pow_add_r by lia. change (10 ^ 1) with 10.
    rewrite Z.mul_assoc. apply round_ratio_scale; [done| |done]. rewrite Z.mul_1_l. apply Z.pow_pos_nonneg; lia.
Qed.
Lemma strip10_reads fuel : forall D s, 0 < D ->
  0 < (strip10 fuel D s).1 /\ of_decimal false (strip10 fuel D s).1 (strip10 fuel D s).2 = of_decimal false D s.
Proof.
  induction fuel as [|fuel IH]; intros D s HD; cbn [strip10]; [done|].
  destruct (Z.eqb_spec (D mod 10) 0) as [Hm|]; [|done]. destruct (Z.eqb_spec D 0); [done|]. cbn [andb negb].
  pose proof (Z.div_mod D 10 ltac:(lia)) as Ed. assert (0 < D / 10) as Hq by lia. destruct (IH (D / 10) (s + 1) Hq) as [H1 ->]. split; [done|].
  rewrite <- of_decimal_tenth by done. f_equal. lia.
Qed.

(** ** Seventeen digits *)

(** The estimate of the decimal exponent is at most two too high. *)
Definition estimate_ok (k : Z) : bool :=
  let x := k * 30103 / 100000 - 2 in
  if 0 <=? x then 10 ^ x <=? 2 ^ (k - 1) else 2 ^ (Z.max (1 - k) 0) <=? 10 ^ (- x) * 2 ^ (Z.max (k - 1) 0).
Lemma estimate_all : forallb estimate_ok (seqZ (-1074) 2098) = true.
Proof. vm_compute. reflexivity. Qed.
Lemma estimate_low k : -1074 <= k <= 1023 -> (pt (k * 30103 / 100000 - 2) <= pw (k - 1))%Q.
Proof.
  intros Hk. assert (estimate_ok k = true) as E.
  { pose proof estimate_all as F. rewrite forallb_forall in F. apply F. apply list_elem_of_In, elem_of_seqZ. lia. }
  unfold estimate_ok in E. cbv zeta in E. set (x := k * 30103 / 100000 - 2) in *. destruct (Z.leb_spec 0 x) as [Hx|Hx].
  - apply Z.leb_le in E. assert (0 <= k - 1) by (pose proof (Z.mul_div_le (k * 30103) 100000 ltac:(lia)); unfold x in Hx; lia). by rewrite pt_Z, pw_Z, <- Zle_Qle by done.
  - apply Z.leb_le in E. rewrite Zle_Qle, inject_Z_mult, <- !pw_Z in E by lia.
    pose proof (pt_opp_Z (- x) ltac:(lia)) as Ep. rewrite Z.opp_involutive in Ep. pose proof (pt_pos x) as Hp.
    assert (pw (Z.max (k - 1) 0) == pw (k - 1) * pw (Z.max (1 - k) 0))%Q as Em by (rewrite <- pw_add; f_equiv; lia).
    pose proof (pw_pos (Z.max (1 - k) 0)) as Hm. pose proof (pw_pos (k - 1)). rewrite Em in E.
    set (A := pw (Z.max _ 0)) in *. set (T := inject_Z (10 ^ (- x))) in *.
    assert (1 <= T * pw (k - 1))%Q as H1 by nra.
    assert (pt x * (T * pw (k - 1)) == pw (k - 1))%Q as H2 by (rewrite Qmult_assoc, Ep; ring). rewrite <- H2. nra.
Qed.

Lemma dec_exp_low n d : 0 < n -> 0 < d -> -1074 <= Z.log2 n - Z.log2 d <= 1023 -> (pt (dec_exp n d) <= ratio n d)%Q.
Proof.
  intros Hn Hd Hk. pose proof (ratio_spec n d Hd) as E. pose proof (inject_pos d Hd) as Hd'.
  assert (forall x, (if 0 <=? x then d * 10 ^ x <=? n else d <=? n * 10 ^ (- x)) = true -> (pt x <= ratio n d)%Q) as Hge.
  { intros x. destruct (Z.leb_spec 0 x) as [Hx|Hx]; intros Hc%Z.leb_le; rewrite Zle_Qle, inject_Z_mult, <- E in Hc.
    - rewrite pt_Z by done. nra.
    - pose proof (pt_opp_Z (- x) ltac:(lia)) as Ep. rewrite Z.opp_involutive in Ep. pose proof (pt_pos x).
      set (T := inject_Z (10 ^ (- x))) in *. assert (1 <= ratio n d * T)%Q by nra. nra. }
  unfold dec_exp. cbv zeta. set (x0 := _ * 30103 / 100000).
  repeat match goal with |- context [if ?b then _ else _] => lazymatch b with (if _ then _ else _) => destruct b eqn:?; [by apply Hge|] end end.
  pose proof (estimate_low _ Hk) as Hl. fold x0 in Hl. destruct (log2_pw n Hn) as [Hn1 _], (log2_pw d Hd) as [_ Hd2].
  rewrite pw_succ in Hd2. pose proof (pw_pred (Z.log2 n - Z.log2 d)) as Hp.
  assert (pw (Z.log2 n) == pw (Z.log2 n - Z.log2 d) * pw (Z.log2 d))%Q as El by (rewrite <- pw_add; by rewrite Z.sub_add).
  pose proof (pw_pos (Z.log2 d)). pose proof (pw_pos (Z.log2 n - Z.log2 d - 1)). nra.
Qed.

Lemma div_even_half a b : 0 < b -> (2 * (ratio a b - inject_Z (div_even a b)) <= 1)%Q /\ (2 * (inject_Z (div_even a b) - ratio a b) <= 1)%Q.
Proof.
  intros Hb. pose proof (ratio_spec a b Hb) as E. pose proof (inject_pos b Hb) as Hb'.
  assert (2 * (a - div_even a b * b) <= b /\ 2 * (div_even a b * b - a) <= b) as [G1 G2].
  { unfold div_even. pose proof (Z.div_mod a b ltac:(lia)). pose proof (Z.mod_pos_bound a b Hb).
    destruct (Z.compare_spec (2 * (a mod b)) b); [destruct (Z.even _)| |]; nia. }
  rewrite Zle_Qle, inject_Z_mult in G1, G2. unfold Zminus in G1, G2. rewrite inject_Z_plus, inject_Z_opp, inject_Z_mult, <- E in G1, G2.
  change (inject_Z 2) with (2#1)%Q in *. split; nra.
Qed.

Lemma search_reads f n d x fuel : forall k, exists k',
  search_digits f n d x k fuel = digits_at n d x k' /\
  (of_decimal false (digits_at n d x k').1 (digits_at n d x k').2 = f \/ k' = k + Z.of_nat fuel).
Proof.
  induction fuel as [|fuel IH]; intros k; cbn [search_digits].
  - exists k. split; [by destruct (digits_at n d x k)|right; lia].
  - destruct (digits_at n d x k) as [D s] eqn:E. destruct (decide (of_decimal false D s = f)) as [He|He].
    + exists k. rewrite E. by split; [|left].
    + destruct (IH (k + 1)) as (k' & E' & H). exists k'. split; [done|]. destruct H; [by left|right; lia].
Qed.

(** The digits of a positive value. *)
Lemma shortest_reads m e : 0 < m -> is_float64 (FFin m e) = true ->
  0 < (shortest (FFin m e)).1 /\ of_decimal false (shortest (FFin m e)).1 (shortest (FFin m e)).2 = FFin m e.
Proof.
  intros Hm Hf. unfold shortest, frac. rewrite Z.abs_eq by lia.
  assert (0 < scale_num m e) as Hn by (apply Z.mul_pos_pos; [done|apply Z.pow_pos_nonneg; lia]).
  assert (0 < scale_den e) as Hd by (apply Z.pow_pos_nonneg; lia).
  assert (ratio (scale_num m e) (scale_den e) == inject_Z m * pw e)%Q as Ev.
  { pose proof (ratio_scale m 1 e ltac:(lia)) as Er. rewrite Z.mul_1_l in Er. rewrite Er. unfold ratio. field. }
  assert (-1074 <= Z.log2 (scale_num m e) - Z.log2 (scale_den e) <= 1023) as Hk.
  { cbn [is_float64] in Hf. destruct (Z.eqb_spec m 0); [lia|]. rewrite Z.abs_eq in Hf by lia. bool_hyps. unfold scale_num, scale_den.
    rewrite Z.log2_mul_pow2, Z.log2_pow2 by lia. pose proof (Z.log2_nonneg m). lia. }
  pose proof (dec_exp_low _ _ Hn Hd Hk) as Hx. set (n := scale_num m e) in *. set (d := scale_den e) in *. set (x := dec_exp n d) in *.
  destruct (search_reads (FFin m e) n d x 16 1) as (k & -> & Hread). destruct (digits_at n d x k) as [D s] eqn:Ed.
  assert (0 <= D) as HD0.
  { unfold digits_at in Ed. cbv zeta in Ed. injection Ed as HD _. rewrite <- HD. 
    assert (forall a b, 0 < a -> 0 < b -> 0 <= div_even a b) as Hpos.
    { intros a b Ha Hb. unfold div_even. assert (0 <= a / b) by (apply Z.div_pos; lia). destruct (_ ?= b); [destruct (Z.even _)| |]; lia. }
    destruct (Z.leb_spec 0 (x - k + 1)); apply Hpos; try done; apply Z.mul_pos_pos; try done; apply Z.pow_pos_nonneg; lia. }
  cbn [fst snd] in Hread.
  assert (0 < D /\ of_decimal false D s = FFin m e) as [HD Hof].
  { destruct Hread as [Hread| ->].
    - split; [|done]. destruct (Z.eq_dec D 0) as [->|]; [|lia]. unfold of_decimal in Hread. injection Hread as <- _. lia.
    - change (1 + Z.of_nat 16) with 17 in Ed. unfold digits_at in Ed. cbv zeta in Ed. replace (x - 17 + 1) with (x - 16) in Ed by lia.
      assert (D = div_even (dec_num n (- s)) (dec_den d (- s)) /\ s = x - 16) as [HDe Hs].
      { injection Ed as HD <-. split; [|done]. rewrite <- HD. unfold dec_num, dec_den.
        destruct (Z.leb_spec 0 (x - 16)), (Z.leb_spec 0 (- (x - 16))); try lia; [|by rewrite ?Z.opp_involutive].
        assert (x - 16 = 0) as -> by lia. change (10 ^ 0) with 1. change (10 ^ (- 0)) with 1. by rewrite !Z.mul_1_r. }
      destruct (dec_pos n d (- s) Hn Hd) as [Hn' Hd']. destruct (div_even_half (dec_num n (- s)) _ Hd') as [H1 H2].
      rewrite <- HDe, ratio_dec in H1, H2 by done. set (v := ratio n d) in *.
      assert (pt s * pt (- s) == 1)%Q as Ep by (rewrite <- pt_add, Z.add_opp_diag_r; reflexivity).
      assert (pt x == pt s * (10000000000000000#1))%Q as Ex by (replace x with (s + 16) by lia; rewrite pt_add; reflexivity).
      pose proof (pt_pos s) as Hps. rewrite Ex in Hx. set (y := (v * pt (- s))%Q) in *.
      assert (v == y * pt s)%Q as Ey by (unfold y; rewrite <- Qmult_assoc, (Qmult_comm (pt (- s))), Ep; lra).
      assert (0 < D) as HD.
      { rewrite Zlt_Qlt. change (inject_Z 0) with 0%Q. rewrite Ey in Hx. assert (10000000000000000 <= y)%Q by nra. lra. }
      split; [done|]. rewrite of_decimal_ratio by done. destruct (dec_pos D 1 s HD ltac:(lia)) as [HDn HDd].
      assert (ratio (dec_num D s) (dec_den 1 s) == inject_Z D * pt s)%Q as Er by (rewrite ratio_dec by lia; unfold ratio; field).
      apply round_nearest; try done; rewrite Er, <- Ev, Ey; rewrite Ey in Hx; nra. }
  destruct (strip10_reads 20 D s HD) as [H1 H2]. split; [done|]. by rewrite H2.
Qed.
