(* ===== verification/FloatText.v ===== *)
(** * What a formatted float reads back as

    [strconv.FormatFloat(f, 'g', -1, 64)] lays the shortest decimal of [f]
    out with or without an exponent. Whatever the layout, scanning the text
    finds the decimal again, so that [ParseFloat] gives back every finite
    [f]: the text of a float that a statement holds is the float. *)

From S2P Require Import Prelude GoStrings Float64 Encoding Canon Json Decimal Shortest.
Local Open Scope Z_scope.

(** ** Runs of digits *)

Fixpoint digits (s : string) : bool :=
  match s with String a s => match digit_val a with Some _ => digits s | None => false end | EmptyString => true end.
Fixpoint run (acc : Z) (s : string) : Z :=
  match s with String a s => match digit_val a with Some d => run (acc * 10 + d) s | None => acc end | EmptyString => acc end.

Lemma len_cons a s : len (String a s) = 1 + len s.
Proof. unfold len. cbn [String.length]. lia. Qed.
Lemma len_app a b : len (a +:+ b) = len a + len b.
Proof. unfold len. rewrite string_length_app. lia. Qed.
Lemma scan_run ds t : forall acc cnt, digits ds = true -> scan_digits acc cnt (ds +:+ t) = scan_digits (run acc ds) (cnt + len ds) t.
Proof.
  induction ds as [|a ds IH]; intros acc cnt Hd; [by rewrite Z.add_0_r|]. rewrite string_app_cons, len_cons. cbn [digits run scan_digits] in *.
  destruct (digit_val a) as [d|]; [|done]. rewrite IH by done. f_equal. lia.
Qed.
Lemma digits_app a b : digits (a +:+ b) = digits a && digits b.
Proof. induction a as [|c a IH]; [done|]. rewrite string_app_cons. cbn [digits]. by destruct (digit_val c). Qed.
Lemma run_app a b : forall acc, digits a = true -> run acc (a +:+ b) = run (run acc a) b.
Proof. induction a as [|c a IH]; intros acc Hd; [done|]. rewrite string_app_cons. cbn [digits run] in *. destruct (digit_val c); [by apply IH|done]. Qed.
Lemma digits_zeros n : digits (zeros n) = true.
Proof. unfold zeros. by induction (Z.to_nat n). Qed.
Lemma run_zeros n : run 0 (zeros n) = 0.
Proof. unfold zeros. by induction (Z.to_nat n). Qed.
Lemma len_zeros n : 0 <= n -> len (zeros n) = n.
Proof.
  intros Hn. unfold zeros, len. assert (forall k, String.length (of_bytes (repeat "0"%char k)) = k) as H.
  { intros k. induction k as [|k IH]; [done|]. change (S (String.length (of_bytes (repeat "0"%char k))) = S k). by rewrite IH. }
  rewrite H. lia.
Qed.
Lemma pretty_digits x : forall s, digits (pretty_N_go x s) = digits s.
Proof.
  induction x as [|x Hx IH] using N_ind_div10; intros s; [done|]. rewrite pretty_N_go_step, IH by done. cbn [digits].
  by rewrite digit_val_char by (by apply N.mod_lt).
Qed.
Lemma itoa_digits z : 0 < z -> digits (itoa z) = true /\ run 0 (itoa z) = z /\ 0 < len (itoa z).
Proof.
  intros Hz. rewrite itoa_nonneg by done. split; [apply pretty_digits|].
  destruct (scan_digits_go (Z.to_N z) "") as (k & _ & Hk & E). pose proof (scan_run (pretty_N_go (Z.to_N z) "") "" 0 0 (pretty_digits _ _)) as R.
  rewrite string_app_nil_r, E in R. cbn [scan_digits] in R. injection R as H1 H2. split; lia.
Qed.
Lemma take_drop p s : 0 <= p <= len s -> s = str_take (Z.to_nat p) s +:+ str_drop (Z.to_nat p) s /\ len (str_take (Z.to_nat p) s) = p.
Proof.
  intros Hp. assert (forall n s, (n <= String.length s)%nat -> s = str_take n s +:+ str_drop n s /\ String.length (str_take n s) = n) as H.
  { clear. intros n. induction n as [|n IH]; intros s Hn.
    - split; [|by destruct s]. change (str_drop 0 s) with (str_take (String.length s - 0) s). rewrite Nat.sub_0_r, str_take_all. by destruct s.
    - destruct s as [|a s]; [cbn in Hn; lia|]. cbn in Hn. destruct (IH s ltac:(lia)) as [H1 H2]. 
      change (str_take (S n) (String a s)) with (String a (str_take n s)). change (str_drop (S n) (String a s)) with (str_drop n s).
      rewrite string_app_cons, <- H1. cbn. by rewrite H2. }
  unfold len in *. destruct (H (Z.to_nat p) s ltac:(lia)) as [H1 H2]. split; [done|lia].
Qed.

(** ** The layouts, scanned *)

(** What [scan_number] does after the sign. *)
Definition scan_rest (neg : bool) (s : string) : option (bool * Z * Z * string) :=
  let '(ip, n1, s) := scan_digits 0 0 s in
  if n1 =? 0 then None else
  match s with
  | String "." r =>
      let '(fp, n2, r) := scan_digits ip 0 r in
      if n2 =? 0 then None else
      match scan_exp r with Some (e, r) => Some (neg, fp, e - n2, r) | None => None end
  | _ => match scan_exp s with Some (e, r) => Some (neg, ip, e, r) | None => None end
  end.
Definition sign (neg : bool) : string := if neg then "-" else "".

Lemma digit_cases a (P : Prop) : digit_val a <> None -> (forall d, (d < 10)%N -> a = pretty_N_char d -> P) -> P.
Proof.
  intros Ha HP. unfold digit_val in Ha. destruct (_ && _) eqn:E; [|done]. bool_hyps.
  apply (HP (Z.to_N (byte_Z a - 48))); [lia|]. rewrite <- (Z_byte_byte_Z a) at 1.
  assert (Z.to_N (byte_Z a - 48) ∈ [0;1;2;3;4;5;6;7;8;9]%N) as El by (rewrite !elem_of_cons; lia).
  assert (byte_Z a = 48 + Z.of_N (Z.to_N (byte_Z a - 48))) as -> by lia. rewrite Z2N.id by lia.
  replace (48 + (byte_Z a - 48) - 48) with (byte_Z a - 48) by lia.
  replace (48 + (byte_Z a - 48)) with (48 + Z.of_N (Z.to_N (byte_Z a - 48))) by lia.
  revert El. generalize (Z.to_N (byte_Z a - 48)) as d. intros d El.
  repeat (apply elem_of_cons in El as [->|El]; [reflexivity|]). by apply elem_of_nil in El.
Qed.
Lemma scan_signed neg ds t : digits ds = true -> 0 < len ds -> scan_number (sign neg +:+ ds +:+ t) = scan_rest neg (ds +:+ t).
Proof.
  intros Hd Hl. destruct neg; [done|]. destruct ds as [|a ds]; [by cbn in Hl|]. cbn [digits] in Hd.
  assert (digit_val a <> None) as Ha by (by destruct (digit_val a)). change (sign false +:+ ?x) with x. rewrite string_app_cons.
  unfold scan_number. destruct a as [[] [] [] [] [] [] [] []]; try reflexivity. by cbn in Ha.
Qed.

(** An exponent, as printed. *)
Lemma scan_fmt_exp e2 x t : stops t = true -> scan_exp (fmt_exp e2 x +:+ t) = Some (x, t).
Proof.
  intros Ht. unfold fmt_exp. rewrite !string_app_assoc. 
  assert (exists ds, (if e2 && (Z.abs x <? 10) then "0" else "") +:+ itoa (Z.abs x) = ds /\ digits ds = true /\ run 0 ds = Z.abs x /\ 0 < len ds) as (ds & Eds & Hd & Hr & Hl).
  { eexists. split; [reflexivity|]. destruct (Z.eq_dec x 0) as [->|Hx]; [by destruct e2|].
    destruct (itoa_digits (Z.abs x)) as (H1 & H2 & H3); [lia|]. destruct (e2 && _); [|done]. 
    change ("0" +:+ ?y) with (String "0" y). rewrite len_cons. split_and!; [done|done|lia]. }
  rewrite <- (string_app_assoc _ _ t), Eds.
  change ("e" +:+ ?y) with (String "e" y). unfold scan_exp.
  assert (scan_digits 0 0 (ds +:+ t) = (Z.abs x, len ds, t)) as E by (by rewrite scan_run, Hr, scan_stop).
  destruct (Z.ltb_spec x 0).
  - change ("-" +:+ ?y) with (String "-" y). cbn match. rewrite E. destruct (Z.eqb_spec (len ds) 0); [lia|]. repeat f_equal. lia.
  - change ("+" +:+ ?y) with (String "+" y). cbn match. rewrite E. destruct (Z.eqb_spec (len ds) 0); [lia|]. repeat f_equal. lia.
Qed.
Lemma scan_fmt_stop e2 x t acc cnt : scan_digits acc cnt (fmt_exp e2 x +:+ t) = (acc, cnt, fmt_exp e2 x +:+ t).
Proof. done. Qed.

Lemma Contains_mid a c b : Contains (a +:+ String c b) (String c "") = true.
Proof.
  induction a as [|x a IH]; [|rewrite string_app_cons; cbn [Contains]; rewrite IH; apply orb_true_r].
  change ("" +:+ ?y) with y. cbn [Contains HasPrefix]. rewrite Ascii.eqb_refl. by destruct b.
Qed.

Definition has_point (s : string) : bool := Contains s "." || Contains s "e".

(** Digits, a point, digits and what ends the number. *)
Lemma scan_pointed neg a b rest e t : digits a = true -> digits b = true -> 0 < len a -> 0 < len b ->
  (forall acc cnt, scan_digits acc cnt rest = (acc, cnt, rest)) -> scan_exp rest = Some (e, t) ->
  scan_number (sign neg +:+ (a +:+ String "." (b +:+ rest))) = Some (neg, run (run 0 a) b, e - len b, t).
Proof.
  intros Ha Hb La Lb Hs He. rewrite scan_signed by done. unfold scan_rest. rewrite scan_run by done. cbn [scan_digits]. change (digit_val ".") with (@None Z). cbn match.
  destruct (Z.eqb_spec (0 + len a) 0); [lia|]. rewrite scan_run, Hs by done. destruct (Z.eqb_spec (0 + len b) 0); [lia|]. rewrite He. repeat f_equal. 
Qed.

Lemma scan_layout_e neg D x t : 0 < D -> stops t = true ->
  scan_number (sign neg +:+ layout_e true (itoa D) x +:+ t) = Some (neg, D, x - (len (itoa D) - 1), t) /\
  has_point (layout_e true (itoa D) x) = true.
Proof.
  intros HD Ht. destruct (itoa_digits D HD) as (Hd & Hr & Hl). destruct (itoa D) as [|a r] eqn:Ei; [by cbn in Hl|]. clear Ei.
  pose proof (scan_fmt_exp true x t Ht) as He. destruct r as [|b r].
  - change (layout_e true (String a "") x) with (String a "" +:+ fmt_exp true x). split.
    + rewrite string_app_assoc. rewrite scan_signed by done. unfold scan_rest. rewrite scan_run by done. rewrite scan_fmt_stop. change (0 + len (String a "") =? 0) with false. cbn match.
      rewrite Hr. revert He. unfold fmt_exp. rewrite !string_app_assoc. change ("e" +:+ ?y) with (String "e" y). intros He. rewrite He. repeat f_equal. change (len (String a "")) with 1. lia.
    + unfold has_point. assert (forall y, "e" +:+ y = String "e" y) as Hy by done. unfold fmt_exp. rewrite Hy, Contains_mid. apply orb_true_r.
  - change (layout_e true (String a (String b r)) x) with (String a "" +:+ String "." (String b r +:+ fmt_exp true x)).
    change (String a (String b r)) with (String a "" +:+ String b r) in Hd, Hr. rewrite digits_app in Hd. apply andb_true_iff in Hd as [Hd1 Hd2]. rewrite run_app in Hr by done. split.
    + rewrite string_app_assoc, (string_app_cons "."), (string_app_assoc (String b r)).
      rewrite (scan_pointed neg (String a "") (String b r) (fmt_exp true x +:+ t) x t); [|done|done|done|rewrite len_cons; unfold len; lia|done|done].
      rewrite Hr. repeat f_equal. rewrite (len_cons a). lia.
    + unfold has_point. by rewrite Contains_mid.
Qed.

Lemma scan_layout_f neg D s : 0 < D ->
  exists M E, (forall t, stops t = true -> scan_number (sign neg +:+ layout_f (itoa D) (s + len (itoa D) - 1) +:+ t) = Some (neg, M, E, t)) /\
    0 < M /\ of_decimal false M E = of_decimal false D s /\ (E = 0 \/ has_point (layout_f (itoa D) (s + len (itoa D) - 1)) = true).
Proof.
  intros HD. destruct (itoa_digits D HD) as (Hd & Hr & Hl). set (ds := itoa D) in *. set (x := s + len ds - 1).
  unfold layout_f. destruct (Z.ltb_spec x 0); [|destruct (Z.leb_spec (len ds) (x + 1))].
  - exists D, s. change ("0." +:+ ?y) with ("0" +:+ String "." y). split_and!; [|done|done|right; unfold has_point; by rewrite Contains_mid].
    intros t Ht. rewrite string_app_assoc, (string_app_cons ".").
    rewrite (scan_pointed neg "0" (zeros (- x - 1) +:+ ds) t 0 t); [|done|by rewrite digits_app, digits_zeros|done|rewrite len_app, len_zeros; lia|intros; by apply scan_stop|by apply scan_exp_stop].
    rewrite run_app by apply digits_zeros. change (run 0 "0") with 0. rewrite run_zeros, Hr, len_app, len_zeros by lia. repeat f_equal. lia.
  - assert (0 <= s) as Hs0 by lia. exists (D * 10 ^ s), 0. replace (x + 1 - len ds) with s by lia.
    assert (0 < D * 10 ^ s) as HM by (apply Z.mul_pos_pos; [done|apply Z.pow_pos_nonneg; lia]).
    split_and!; [|done| |by left].
    + intros t Ht. unfold ds. rewrite <- itoa_pow10 by done. destruct (itoa_digits _ HM) as (H1 & H2 & H3). rewrite scan_signed by done. unfold scan_rest. rewrite scan_run, (scan_stop _ _ t Ht) by done.
      destruct (Z.eqb_spec (0 + len (itoa (D * 10 ^ s))) 0); [lia|]. rewrite H2. apply (scan_frac_stop _ _ _ Ht).
    + rewrite !of_decimal_ratio by done. unfold dec_num, dec_den. destruct (Z.leb_spec 0 s); [|lia]. change (0 <=? 0) with true. cbn match. by rewrite Z.mul_1_r.
  - destruct (take_drop (x + 1) ds) as [Hsplit Hlen]; [lia|]. set (a := str_take _ ds) in *. set (b := str_drop _ ds) in *.
    assert (len ds = len a + len b) as Hab by (by rewrite Hsplit, len_app). rewrite Hsplit, digits_app in Hd. apply andb_true_iff in Hd as [Hda Hdb].
    rewrite Hsplit, run_app in Hr by done. exists D, s. change ("." +:+ b) with (String "." b). split_and!; [|done|done|right; unfold has_point; by rewrite Contains_mid].
    intros t Ht. rewrite string_app_assoc, (string_app_cons "."). rewrite (scan_pointed neg a b t 0 t); [|done|done|lia|lia|intros; by apply scan_stop|by apply scan_exp_stop].
    rewrite Hr. repeat f_equal. lia.
Qed.

(** The text of a positive value, under either sign. *)
Lemma scan_format (neg : bool) m e : 0 < m -> is_float64 (FFin m e) = true ->
  exists body M E, FormatFloat_g (FFin (if neg then - m else m) e) = sign neg +:+ body /\
    (forall t, stops t = true -> scan_number (sign neg +:+ body +:+ t) = Some (neg, M, E, t)) /\
    0 < M /\ of_decimal false M E = FFin m e /\ (E = 0 \/ has_point body = true).
Proof.
  intros Hm Hf. destruct (shortest_reads m e Hm Hf) as [HD Hof].
  assert (Z.abs (if neg then - m else m) = m) as Habs by (destruct neg; lia).
  unfold FormatFloat_g, format_with. change (fabs (FFin (if neg then - m else m) e)) with (FFin (Z.abs (if neg then - m else m)) e). rewrite Habs.
  destruct (Z.eqb_spec (if neg then - m else m) 0); [destruct neg; lia|]. destruct (shortest (FFin m e)) as [D s]. cbn [fst snd] in *.
  assert ((if (if neg then - m else m) <? 0 then "-" else "") = sign neg) as -> by (destruct neg; cbn; [destruct (Z.ltb_spec (- m) 0); [done|lia]|destruct (Z.ltb_spec m 0); [lia|done]]).
  destruct (_ || _).
  - eexists _, D, s. split; [reflexivity|]. split_and!; [|done|done|right; by apply (scan_layout_e neg D _ "")].
    intros t Ht. destruct (scan_layout_e neg D (s + len (itoa D) - 1) t HD Ht) as [-> _]. repeat f_equal. lia.
  - destruct (scan_layout_f neg D s HD) as (M & E & H1 & H2 & H3 & H4). eexists _, M, E. split; [reflexivity|]. split_and!; [done|done|congruence|done].
Qed.

(** ** Reading it back *)

Lemma round_ratio_opp n d m e : 0 < n -> 0 < m -> round_ratio n d = FFin m e -> round_ratio (- n) d = FFin (- m) e.
Proof.
  intros Hn Hm. unfold round_ratio. destruct (Z.eqb_spec n 0); [lia|]. destruct (Z.eqb_spec (- n) 0); [lia|]. rewrite Z.abs_opp.
  destruct (Z.ltb_spec n 0); [lia|]. destruct (Z.ltb_spec (- n) 0); [|lia]. rewrite andb_false_r, andb_true_r.
  set (x := Z.max _ _). set (M := div_even _ _). destruct (2 ^ 1024 <=? _); [done|].
  destruct M as [|p|p]; [intros [= <- _]; lia|change (- Z.pos p) with (Z.neg p)|change (- Z.neg p) with (Z.pos p)];
    cbn [Z.eqb mk]; destruct (strip_pos p x) as [q y]; by intros [= <- <-].
Qed.
Lemma of_decimal_sign (neg : bool) M E m e : 0 < m -> of_decimal false M E = FFin m e -> of_decimal neg M E = FFin (if neg then - m else m) e.
Proof.
  intros Hm Ho. destruct neg; [|done]. unfold of_decimal in *. destruct (M =? 0); [injection Ho as <- _; lia|]. rewrite Ho. by destruct m.
Qed.
Lemma feq_fin m e : feq (FFin m e) (FFin m e) = true.
Proof. unfold feq, fcompare. by rewrite Z.compare_refl. Qed.

(** A float that is a number: not an infinity, not NaN. *)
Definition finite (f : float64) : bool := match f with FFin _ _ | FNegZero => is_float64 f | _ => false end.

(** What the text of a finite value scans as: a decimal that is the value,
    or, when it has neither point nor exponent, an integer that is. *)
Lemma format_reads_back f : finite f = true ->
  exists (neg : bool) M E, (forall t, stops t = true -> scan_number (FormatFloat_g f +:+ t) = Some (neg, M, E, t)) /\
    feq (of_decimal neg M E) f = true /\ (f <> FNegZero -> of_decimal neg M E = f) /\
    (has_point (FormatFloat_g f) = false -> feq (of_Z (if neg then - M else M)) f = true).
Proof.
  intros Hf. destruct f as [m e| | |]; try done.
  - destruct (Z.eq_dec m 0) as [->|Hm0].
    { cbn in Hf. apply Z.eqb_eq in Hf as ->. exists false, 0, 0. change (FormatFloat_g (FFin 0 0)) with (itoa 0). split; [|done]. intros t Ht. by rewrite scan_number_itoa. }
    assert (exists (neg : bool) n, 0 < n /\ m = (if neg then - n else n) :> Z) as (neg & n & Hn & ->).
    { destruct (Z.lt_ge_cases m 0); [exists true, (- m)|exists false, m]; lia. }
    assert (is_float64 (FFin n e) = true) as Hf'.
    { destruct neg; [|done]. cbn [finite is_float64] in *. destruct (Z.eqb_spec (- n) 0); [lia|]. destruct (Z.eqb_spec n 0); [lia|]. by rewrite Z.odd_opp, Z.abs_opp in Hf. }
    destruct (scan_format neg n e Hn Hf') as (body & M & E & Hb & Hs & HM & Ho & HE). rewrite Hb. exists neg, M, E.
    pose proof (of_decimal_sign neg M E n e Hn Ho) as Ho'. split_and!; [intros t Ht; rewrite string_app_assoc; by apply Hs|by rewrite Ho', feq_fin|by rewrite Ho'|].
    intros Hp. destruct HE as [->|HE].
    + rewrite of_decimal_ratio in Ho by done. unfold dec_num, dec_den in Ho. change (0 <=? 0) with true in Ho. cbn match in Ho. rewrite Z.mul_1_r in Ho.
      unfold of_Z. destruct neg; [rewrite (round_ratio_opp M 1 n e HM Hn Ho)|rewrite Ho]; apply feq_fin.
    + exfalso. unfold has_point in *. assert (forall a s, Ascii.eqb a "-" = false -> Contains (sign neg +:+ s) (String a "") = Contains s (String a "")) as Hc.
      { intros a s Ha. destruct neg; [|done]. change (sign true +:+ s) with (String "-" s). cbn [Contains HasPrefix]. by rewrite Ha. }
      rewrite !Hc in Hp by done. congruence.
  - exists true, 0, 0. split_and!; try done. intros t Ht. change (FormatFloat_g FNegZero +:+ t) with (String "-" (itoa 0 +:+ t)).
    change (scan_number (sign true +:+ (itoa 0 +:+ t)) = Some (true, 0, 0, t)). rewrite scan_signed by done.
    change (itoa 0 +:+ t) with ("0" +:+ t). unfold scan_rest. rewrite scan_run, scan_stop by done. cbn match. by apply scan_frac_stop.
Qed.

(** [ParseFloat] undoes [FormatFloat] on finite values. *)
Lemma ParseFloat_FormatFloat m e : is_float64 (FFin m e) = true -> ParseFloat (FormatFloat_g (FFin m e)) = (FFin m e, true).
Proof.
  intros Hf. destruct (format_reads_back (FFin m e) Hf) as (neg & M & E & Hs & _ & Ho & _). specialize (Hs "" eq_refl). rewrite string_app_nil_r in Hs.
  unfold ParseFloat. by rewrite Hs, Ho.
Qed.
