(* ===== verification/SqlText.v ===== *)
(** * SQL text ([internal/store], statement construction)

    The embedded engine takes statements as text. This file models the
    builders of [store.go] ([Ident], [Lit], [quote], [Insert], [Update])
    and, to say what they promise, a reader of the MySQL lexical grammar
    for the statements they build: reading a built statement gives back
    the identifiers and the values it was built from, whatever bytes they
    hold. *)

From S2P Require Import Prelude GoStrings Float64 Encoding Canon Json Decimal Shortest FloatText.
Local Open Scope Z_scope.

(** A SQL value. Text and byte columns carry the same byte sequences and
    every reader of the register accepts either, so they are one case. *)
Inductive sqlval :=
  | SNull
  | SInt (z : Z)
  | SFloat (f : float64)
  | SStr (s : string).

#[export] Instance sqlval_eq_dec : EqDecision sqlval.
Proof. solve_decision. Defined.
#[export] Instance sqlval_countable : Countable sqlval.
Proof.
  refine (inj_countable'
    (fun v => match v with SNull => inl (inl tt) | SInt z => inl (inr z) | SFloat f => inr (inl f) | SStr s => inr (inr s) end)
    (fun x => match x with inl (inl _) => SNull | inl (inr z) => SInt z | inr (inl f) => SFloat f | inr (inr s) => SStr s end) _).
  by intros [].
Defined.

(** ** The builders *)

Definition backtick : ascii := "`".
Definition apos : ascii := "039".
Definition backq (s : string) : string := String backtick (s +:+ String backtick "").

(** [store.Ident]. *)
Definition Ident (name : string) : string := backq (ReplaceAll1 name backtick "``").

(** The bytes [quote] writes for one byte of the string. *)
Definition quote_byte (c : ascii) : string :=
  if Ascii.eqb c "000" then String backslash "0"
  else if Ascii.eqb c apos then String backslash (String apos "")
  else if Ascii.eqb c quote_char then String backslash (String quote_char "")
  else if Ascii.eqb c backslash then String backslash (String backslash "")
  else if Ascii.eqb c "010" then String backslash "n"
  else if Ascii.eqb c "013" then String backslash "r"
  else if Ascii.eqb c "026" then String backslash "Z"
  else String c "".

Fixpoint quote_bytes (s : string) : string :=
  match s with EmptyString => "" | String c s => quote_byte c +:+ quote_bytes s end.

(** [store.quote]. *)
Definition quote (s : string) : string := String apos (quote_bytes s +:+ String apos "").

(** [store.Lit]. It panics on a value of another type; here, as everywhere
    in this development, a panic is an error of its own that nothing
    catches, and whoever builds a statement from such a value ends with it.
    A [model.Binary] and a [json.Number] are named types its type switch
    does not list. *)
Definition lit_panic : error := Errorf "panic: store: no SQL literal for %T" [].
Definition Lit (v : value) : res string :=
  match v with
  | VNull => Ok "NULL"
  | VBool b => Ok (if b then "TRUE" else "FALSE")
  | VStr s => Ok (quote s)
  | VBytes s => Ok (if String.eqb s "" then "''" else "X'" +:+ hex_encode s +:+ "'")
  | VInt z => Ok (itoa z)
  | VFloat f => Ok (FormatFloat_g f)
  | VNumber _ | VBinary _ | VArr _ | VObj _ => Err lit_panic
  end.
(** The literal of a text, on which it does not panic. *)
Definition lit_str (s : string) : string := quote s.
Lemma Lit_str s : Lit (VStr s) = Ok (lit_str s).
Proof. done. Qed.

(** The value a literal denotes: BOOLEAN is a small integer. *)
Definition lit_val (v : value) : option sqlval :=
  match v with
  | VNull => Some SNull
  | VBool b => Some (SInt (if b then 1 else 0))
  | VStr s | VBytes s => Some (SStr s)
  | VInt z => Some (SInt z)
  | VFloat f => Some (SFloat f)
  | VNumber _ | VBinary _ | VArr _ | VObj _ => None
  end.

Lemma lit_val_Lit v : lit_val v = None <-> Lit v = Err lit_panic.
Proof. destruct v; split; done. Qed.

(** [store.columnsAndValues]. *)
Fixpoint columnsAndValues_sorted (l : object) : res (list string * list string) :=
  match l with
  | [] => Ok ([], [])
  | (name, v) :: l => x ← Lit v; rest ← columnsAndValues_sorted l; Ok (Ident name :: rest.1, x :: rest.2)
  end.
Definition columnsAndValues (values : object) : res (list string * list string) :=
  columnsAndValues_sorted (merge_sort key_le values).

(** [store.Insert]. *)
Definition Insert (table : string) (values : object) : res string :=
  cv ← columnsAndValues values;
  Ok ("INSERT INTO " +:+ Ident table +:+ " (" +:+ Join cv.1 ", " +:+ ") VALUES (" +:+ Join cv.2 ", " +:+ ")").

(** [store.Update]. *)
Definition Update (table : string) (values : object) (where_ : string) : res string :=
  cv ← columnsAndValues values;
  Ok ("UPDATE " +:+ Ident table +:+ " SET " +:+
      Join (zip_with (fun c v => c +:+ " = " +:+ v) cv.1 cv.2) ", " +:+ " WHERE " +:+ where_).

(** [store.truncate]. *)
Definition truncate (s : string) (n : Z) : string :=
  if len s <=? n then s else str_take (Z.to_nat n) s +:+ ellipsis.

(** ** Reading the text

    The MySQL lexical grammar of quoted identifiers and literals. *)

Fixpoint read_ident (s : string) : option (string * string) :=
  match s with
  | EmptyString => None
  | String c r =>
      if Ascii.eqb c backtick then
        match r with
        | String c' r' => if Ascii.eqb c' backtick then prepend (String backtick "") (read_ident r') else Some ("", r)
        | EmptyString => Some ("", r)
        end
      else prepend (String c "") (read_ident r)
  end.

Definition unescape (e : ascii) : ascii :=
  if Ascii.eqb e "0" then "000"%char
  else if Ascii.eqb e "b" then "008"%char
  else if Ascii.eqb e "n" then "010"%char
  else if Ascii.eqb e "r" then "013"%char
  else if Ascii.eqb e "t" then "009"%char
  else if Ascii.eqb e "Z" then "026"%char
  else e.

Fixpoint read_quoted (s : string) : option (string * string) :=
  match s with
  | EmptyString => None
  | String c r =>
      if Ascii.eqb c apos then
        match r with
        | String c' r' => if Ascii.eqb c' apos then prepend (String apos "") (read_quoted r') else Some ("", r)
        | EmptyString => Some ("", r)
        end
      else if Ascii.eqb c backslash then
        match r with
        | String e r' => prepend (String (unescape e) "") (read_quoted r')
        | EmptyString => None
        end
      else prepend (String c "") (read_quoted r)
  end.

Fixpoint read_hex (s : string) : option (string * string) :=
  match s with
  | String c r =>
      if Ascii.eqb c apos then Some ("", r)
      else match r with
           | String d r => match hex_val c, hex_val d with
                           | Some x, Some y => prepend (String (Z_byte (x * 16 + y)) "") (read_hex r)
                           | _, _ => None
                           end
           | EmptyString => None
           end
  | EmptyString => None
  end.

Definition read_number (s : string) : option (sqlval * string) :=
  match scan_number s with
  | Some (neg, m, e, rest) =>
      let lit := str_take (String.length s - String.length rest) s in
      if Contains lit "." || Contains lit "e" then Some (SFloat (of_decimal neg m e), rest)
      else Some (SInt (if neg then - m else m), rest)
  | None => None
  end.

Definition read_literal (s : string) : option (sqlval * string) :=
  if HasPrefix s "NULL" then Some (SNull, str_drop 4 s)
  else if HasPrefix s "TRUE" then Some (SInt 1, str_drop 4 s)
  else if HasPrefix s "FALSE" then Some (SInt 0, str_drop 5 s)
  else if HasPrefix s "X'" then
    match read_hex (str_drop 2 s) with Some (x, r) => Some (SStr x, r) | None => None end
  else match s with
       | String c r => if Ascii.eqb c apos
                       then match read_quoted r with Some (x, r) => Some (SStr x, r) | None => None end
                       else read_number s
       | EmptyString => None
       end.

Definition strip (p s : string) : option string :=
  if HasPrefix s p then Some (str_drop (String.length p) s) else None.

Definition read_backq (s : string) : option (string * string) :=
  match s with String c r => if Ascii.eqb c backtick then read_ident r else None | EmptyString => None end.

(** A list of items separated by a comma and a blank, closed by a
    parenthesis. *)
Fixpoint read_list {A} (item : string -> option (A * string)) (fuel : nat) (s : string) : option (list A * string) :=
  match fuel with
  | O => None
  | S fuel =>
      match item s with
      | None => None
      | Some (x, r) =>
          match strip ", " r, strip ")" r with
          | Some r, _ => match read_list item fuel r with Some (l, r) => Some (x :: l, r) | None => None end
          | None, Some r => Some ([x], r)
          | None, None => None
          end
      end
  end.

Definition read_insert (s : string) : option (string * list string * list sqlval) :=
  match strip "INSERT INTO " s with
  | None => None
  | Some r =>
  match read_backq r with
  | None => None
  | Some (t, r) =>
  match strip " (" r with
  | None => None
  | Some r =>
  match read_list read_backq (S (String.length r)) r with
  | None => None
  | Some (cols, r) =>
  match strip " VALUES (" r with
  | None => None
  | Some r =>
  match read_list read_literal (S (String.length r)) r with
  | Some (vals, EmptyString) => Some (t, cols, vals)
  | _ => None
  end end end end end end.

Example insert_sample :
  (Insert "objects" [("status", VStr "it's odd; -- `x`"); ("id", VStr "a\"); ("erased", VBool false); ("v", VInt (-3)); ("p", VBytes "hi")]
   ≫= (fun text => of_option (read_insert text) lit_panic))
  = Ok ("objects", ["erased"; "id"; "p"; "status"; "v"],
          [SInt 0; SStr "a\"; SStr "hi"; SStr "it's odd; -- `x`"; SInt (-3)]).
Proof. vm_compute. reflexivity. Qed.

(** ** Reading back what was built *)

(** The text cannot be continued by what follows a value in a statement. *)
Definition sep_head (t : string) : Prop := exists r, t = String "," r \/ t = String ")" r.

Lemma sep_head_stops t : sep_head t -> stops t = true.
Proof. by intros (r & [-> | ->]). Qed.

Lemma prepend_Some p x r : prepend p (Some (x, r)) = Some (p +:+ x, r).
Proof. done. Qed.

(** Not continued by another backquote, as in a doubled one. *)
Definition not_head (a : ascii) (t : string) : Prop :=
  match t with String c _ => Ascii.eqb c a = false | EmptyString => True end.

Lemma sep_not_head a t : sep_head t -> Ascii.eqb "," a = false -> Ascii.eqb ")" a = false -> not_head a t.
Proof. intros (r & [-> | ->]); done. Qed.

Lemma read_ident_quoted name t :
  not_head backtick t -> read_ident (ReplaceAll1 name backtick "``" +:+ String backtick t) = Some (name, t).
Proof.
  intros Ht. induction name as [|c name IH].
  - change (read_ident (String backtick t) = Some ("", t)). destruct t as [|c t]; [done|].
    cbn [read_ident]. rewrite Ascii.eqb_refl. simpl in Ht. by rewrite Ht.
  - cbn [ReplaceAll1]. destruct (Ascii.eqb_spec c backtick) as [->|Hc].
    + change (prepend (String backtick "") (read_ident (ReplaceAll1 name backtick "``" +:+ String backtick t))
        = Some (String backtick name, t)). by rewrite IH.
    + rewrite !string_app_cons. cbn [read_ident]. destruct (Ascii.eqb_spec c backtick); [done|].
      change ("" +:+ ?x) with x. change ("" +:+ ReplaceAll1 name backtick "``" +:+ String backtick t)
        with (ReplaceAll1 name backtick "``" +:+ String backtick t). by rewrite IH.
Qed.

Lemma read_backq_Ident name t : not_head backtick t -> read_backq (Ident name +:+ t) = Some (name, t).
Proof.
  intros Ht. unfold Ident, backq, read_backq. rewrite string_app_cons, Ascii.eqb_refl, string_app_assoc.
  by apply read_ident_quoted.
Qed.

Lemma read_quoted_byte c r :
  read_quoted (quote_byte c +:+ r) = prepend (String c "") (read_quoted r).
Proof.
  unfold quote_byte.
  repeat match goal with |- context [Ascii.eqb c ?d] =>
    destruct (Ascii.eqb_spec c d) as [->|?]; [reflexivity|] end.
  rewrite string_app_cons. cbn [read_quoted].
  destruct (Ascii.eqb_spec c apos); [done|]. by destruct (Ascii.eqb_spec c backslash).
Qed.

Lemma read_quoted_quote s t : not_head apos t -> read_quoted (quote_bytes s +:+ String apos t) = Some (s, t).
Proof.
  intros Ht. induction s as [|c s IH]; cbn [quote_bytes].
  - change (read_quoted (String apos t) = Some ("", t)). destruct t as [|c t]; [done|].
    cbn [read_quoted]. rewrite Ascii.eqb_refl. simpl in Ht. by rewrite Ht.
  - by rewrite string_app_assoc, read_quoted_byte, IH.
Qed.

Lemma read_hex_encode s t : read_hex (hex_encode s +:+ String apos t) = Some (s, t).
Proof.
  induction s as [|a s IH]; [done|]. cbn [hex_encode]. rewrite !string_app_cons. cbn [read_hex].
  assert (forall n, 0 <= n < 16 -> Ascii.eqb (hex_digit n) apos = false) as Hd.
  { intros n H. assert (n ∈ seqZ 0 16) as E by (apply elem_of_seqZ; lia).
    repeat (apply elem_of_cons in E as [->|E]; [reflexivity|]). by apply elem_of_nil in E. }
  pose proof (byte_hi_range a). pose proof (Z.mod_pos_bound (byte_Z a) 16 eq_refl).
  rewrite Hd, !hex_val_hex_digit, IH, prepend_Some by done.
  change (String ?c "" +:+ s) with (String c s). repeat f_equal.
  replace (byte_Z a / 16 * 16 + byte_Z a mod 16) with (byte_Z a); [apply Z_byte_byte_Z|].
  pose proof (Z.div_mod (byte_Z a) 16). lia.
Qed.

Lemma Contains_digit_cons p c s :
  HasPrefix (String c s) p = false -> Contains (String c s) p = Contains s p.
Proof. intros H. cbn [Contains]. by rewrite H. Qed.

Lemma Contains_itoa z a : a = "."%char \/ a = "e"%char -> Contains (itoa z) (String a "") = false.
Proof.
  intros Ha.
  assert (forall x s, Contains (pretty_N_go x s) (String a "") = Contains s (String a "")) as H.
  { induction x as [|x Hx IH] using N_ind_div10; intros s; [done|]. rewrite pretty_N_go_step, IH by done.
    apply Contains_digit_cons.
    assert ((x `mod` 10)%N ∈ [0;1;2;3;4;5;6;7;8;9]%N) as E.
    { pose proof (N.mod_lt x 10%N ltac:(done)) as Hm. revert Hm. generalize (x `mod` 10)%N as y. intros y Hm.
      rewrite !elem_of_cons. lia. }
    repeat (apply elem_of_cons in E as [->|E]; [by destruct Ha as [-> | ->]|]). by apply elem_of_nil in E. }
  destruct (Z.lt_trichotomy z 0) as [Hz|[->|Hz]].
  - rewrite itoa_neg, Contains_digit_cons, H by (done || by destruct Ha as [-> | ->]). by destruct Ha as [-> | ->].
  - by destruct Ha as [-> | ->].
  - rewrite itoa_nonneg, H by done. by destruct Ha as [-> | ->].
Qed.

Lemma read_number_itoa z t : stops t = true -> read_number (itoa z +:+ t) = Some (SInt z, t).
Proof.
  intros Ht. unfold read_number. rewrite scan_number_itoa, str_take_app by done.
  rewrite !Contains_itoa by tauto. cbn [orb]. repeat f_equal. destruct (Z.ltb_spec z 0); lia.
Qed.

Lemma read_literal_int z t : stops t = true -> read_literal (itoa z +:+ t) = Some (SInt z, t).
Proof.
  intros Ht. rewrite <- read_number_itoa by done. pose proof (itoa_head z t) as Hh.
  destruct Hh as [r|d r Hd|d r Hd]; [done| |done]. by apply (pretty_char_cases d).
Qed.

(** What a literal must read back as: the value itself, where BOOLEAN is a
    small integer; and for a float the number it is, as the server types
    it, which of a text with neither point nor exponent is an integer. *)
Definition same_number (w : sqlval) (f : float64) : Prop :=
  match w with SFloat g => feq g f = true /\ (f <> FNegZero -> g = f) | SInt z => feq (of_Z z) f = true | _ => False end.
Definition denotes (v : value) (w : sqlval) : Prop :=
  match v with VFloat f => same_number w f | _ => lit_val v = Some w end.

Lemma scan_number_head c r x : scan_number (String c r) = Some x -> c = "-"%char \/ digit_val c <> None.
Proof.
  destruct (digit_val c) as [d|] eqn:Ed; [by right|]. intros E. left. unfold scan_number in E.
  assert (c = "-"%char \/ c <> "-"%char) as [->|Hc] by (destruct (Ascii.eqb_spec c "-"); auto); [done|exfalso].
  assert (scan_digits 0 0 (String c r) = (0, 0, String c r)) as Es by (cbn [scan_digits]; by rewrite Ed).
  destruct c as [[] [] [] [] [] [] [] []]; try done; rewrite Es in E; done.
Qed.
Lemma read_literal_number s x : scan_number s = Some x -> read_literal s = read_number s.
Proof.
  destruct s as [|c r]; [done|]. intros [->|Hd]%scan_number_head; [done|].
  apply (digit_cases c _ Hd). intros d Hlt ->. clear Hd. assert (d ∈ [0;1;2;3;4;5;6;7;8;9]%N) as El by (rewrite !elem_of_cons; lia).
  repeat (apply elem_of_cons in El as [->|El]; [reflexivity|]). by apply elem_of_nil in El.
Qed.
Lemma read_literal_float f : finite f = true ->
  exists w, same_number w f /\ forall t, stops t = true -> read_literal (FormatFloat_g f +:+ t) = Some (w, t).
Proof.
  intros (neg & M & E & Hs & Hq & He & Hi)%format_reads_back.
  assert (forall t, stops t = true -> read_literal (FormatFloat_g f +:+ t) =
    Some (if has_point (FormatFloat_g f) then SFloat (of_decimal neg M E) else SInt (if neg then - M else M), t)) as Hr.
  { intros t Ht. rewrite (read_literal_number _ _ (Hs t Ht)). unfold read_number. rewrite (Hs t Ht), str_take_app.
    change (Contains ?x "." || Contains ?x "e") with (has_point x). by destruct (has_point _). }
  eexists. split; [|exact Hr]. destruct (has_point _); [by split|by apply Hi].
Qed.

Lemma read_literal_Lit v x : (forall f, v = VFloat f -> finite f = true) -> Lit v = Ok x ->
  exists w, denotes v w /\ forall t, sep_head t -> read_literal (x +:+ t) = Some (w, t).
Proof.
  intros He Hx. destruct v as [|b|z|f| |s| |s| |]; try discriminate Hx; injection Hx as <-.
  - exists SNull. split; [done|]. intros t Ht. change (Some (SNull, str_drop (String.length "NULL") ("NULL" +:+ t)) = Some (SNull, t)).
    by rewrite str_drop_app.
  - exists (SInt (if b then 1 else 0)). split; [done|]. intros t Ht. destruct b.
    + change (Some (SInt 1, str_drop (String.length "TRUE") ("TRUE" +:+ t)) = Some (SInt 1, t)). by rewrite str_drop_app.
    + change (Some (SInt 0, str_drop (String.length "FALSE") ("FALSE" +:+ t)) = Some (SInt 0, t)). by rewrite str_drop_app.
  - exists (SInt z). split; [done|]. intros t Ht. by apply read_literal_int, sep_head_stops.
  - destruct (read_literal_float f) as (w & Hw & Hr); [by apply He|]. exists w. split; [done|]. intros t Ht. by apply Hr, sep_head_stops.
  - exists (SStr s). split; [done|]. intros t Ht. unfold quote. rewrite string_app_cons, string_app_assoc.
    change (match read_quoted (quote_bytes s +:+ String apos t) with Some (x, r) => Some (SStr x, r) | None => None end
      = Some (SStr s, t)). by rewrite read_quoted_quote by (by apply sep_not_head).
  - exists (SStr s). split; [done|]. intros t Ht. destruct (String.eqb_spec s "") as [->|Hs].
    + destruct Ht as (r & [-> | ->]); reflexivity.
    + rewrite !string_app_assoc.
      change (match read_hex (str_drop (String.length "X'") ("X'" +:+ hex_encode s +:+ String apos t)) with
        Some (x, r) => Some (SStr x, r) | None => None end = Some (SStr s, t)).
      by rewrite str_drop_app, read_hex_encode.
Qed.

Lemma read_list_items {A} (item : string -> option (A * string)) xs vs t :
  Forall2 (fun x v => forall t, sep_head t -> item (x +:+ t) = Some (v, t)) xs vs -> xs <> [] ->
  forall fuel, (length xs <= fuel)%nat ->
  read_list item fuel (Join xs ", " +:+ ")" +:+ t) = Some (vs, t).
Proof.
  induction 1 as [|x v xs vs Hx F IH]; [done|]. intros _ fuel Hf. destruct fuel as [|fuel]; [simpl in Hf; lia|].
  cbn [read_list]. destruct F as [|x2 v2 xs2 vs2 H2 F2].
  - cbn [Join]. rewrite Hx by (exists t; by right). change (strip ", " (")" +:+ t)) with (@None string).
    change (strip ")" (")" +:+ t)) with (Some (str_drop (String.length ")") (")" +:+ t))). by rewrite str_drop_app.
  - rewrite Join_cons, !string_app_assoc. rewrite Hx by (eexists; by left).
    change (strip ", " (", " +:+ ?r)) with (Some (str_drop (String.length ", ") (", " +:+ r))).
    unfold strip at 1. change (HasPrefix (", " +:+ _) ", ") with true. cbn match. rewrite str_drop_app, IH; [done|done|].
    simpl in *. lia.
Qed.

Lemma columnsAndValues_spec l cols vals :
  columnsAndValues_sorted l = Ok (cols, vals) ->
  cols = Ident <$> (l.*1) /\ Forall2 (fun v x => Lit v = Ok x) (l.*2) vals.
Proof.
  revert cols vals. induction l as [|[k v] l IH]; intros cols vals H; cbn in *.
  - injection H as <- <-. by split; [|constructor].
  - destruct (Lit v) as [x|] eqn:E; [|done]. destruct (columnsAndValues_sorted l) as [[c vs]|]; [|done].
    cbn in H. injection H as <- <-. destruct (IH c vs eq_refl) as [-> F]. by split; [|constructor].
Qed.

Lemma strip_app p t : (forall t, HasPrefix (p +:+ t) p = true) -> strip p (p +:+ t) = Some t.
Proof. intros H. unfold strip. by rewrite H, str_drop_app. Qed.

Lemma length_items xs t : (length xs <= S (String.length (Join xs ", " +:+ t)))%nat.
Proof.
  induction xs as [|x xs IH]; [simpl; lia|]. destruct xs as [|y xs]; [simpl; lia|].
  rewrite Join_cons, !string_app_assoc, !string_length_app in *.
  change (String.length ", ") with 2%nat. cbn [length] in *. lia.
Qed.

Lemma read_literals (l : object) xs :
  (forall k f, (k, VFloat f) ∈ l -> finite f = true) -> Forall2 (fun v x => Lit v = Ok x) (l.*2) xs ->
  exists vals, Forall2 (fun kv w => denotes kv.2 w) l vals /\
    Forall2 (fun x w => forall t, sep_head t -> read_literal (x +:+ t) = Some (w, t)) xs vals.
Proof.
  revert xs. induction l as [|[k v] l IH]; intros xs Hf F; cbn in F; inversion F as [|? x ? xs' Hx F']; subst; [by exists []|].
  destruct (IH xs') as (vals & F1 & F2); [intros k' f Hin; apply (Hf k'); by right|done|].
  destruct (read_literal_Lit v x) as (w & Hw & Hr); [intros f ->; apply (Hf k); by left|done|]. exists (w :: vals). by split; constructor.
Qed.

(** C36. No value escapes its literal. The text of an INSERT, read with the
    server's own lexical rules for identifiers, strings, hexadecimal
    literals and numbers, is one statement: it names the table asked for,
    the columns given in key order and, under each column, the very value
    given, whatever quotes, backslashes or control characters any of them
    holds. A float reads back as the number it is, however many digits and
    whichever layout that takes; the floats that are no numbers, NaN and
    the infinities, are excluded, since their text is no literal (see
    [nan_is_no_literal] below). *)
Theorem insert_text_exact (t : string) (values : object) (text : string) :
  values <> [] -> (forall k f, (k, VFloat f) ∈ values -> finite f = true) -> Insert t values = Ok text ->
  exists vals, Forall2 (fun kv w => denotes kv.2 w) (merge_sort key_le values) vals /\
    read_insert text = Some (t, (merge_sort key_le values).*1, vals).
Proof.
  intros Hne Hf H. unfold Insert, columnsAndValues in H. pose proof (merge_sort_Permutation key_le values) as Hp.
  assert (forall k f, (k, VFloat f) ∈ merge_sort key_le values -> finite f = true) as Hf' by (intros k f; rewrite Hp; apply Hf).
  assert (merge_sort key_le values <> []) as Hne' by (intros E; rewrite E in Hp; by apply Permutation_nil_l in Hp).
  revert H Hf' Hne'. generalize (merge_sort key_le values) as l. intros l H Hf' Hne'.
  destruct (columnsAndValues_sorted l) as [[cols xs]|] eqn:E; [|done]. injection H as <-.
  apply columnsAndValues_spec in E as [-> F]. destruct (read_literals l xs Hf' F) as (vals & F1 & F2).
  exists vals. split; [done|]. unfold read_insert. cbn [fst snd].
  rewrite !strip_app by done. rewrite read_backq_Ident by done. rewrite strip_app by done.
  assert (forall r, ") VALUES (" +:+ r = ")" +:+ " VALUES (" +:+ r) as -> by done.
  rewrite (read_list_items read_backq (Ident <$> l.*1) (l.*1)).
  - rewrite strip_app by done. rewrite <- (string_app_nil_r (Join xs ", " +:+ ")")), string_app_assoc.
    rewrite (read_list_items read_literal xs vals); [done|done| |].
    + apply Forall2_length in F1, F2. destruct xs, l; try done; simpl in *; lia.
    + apply length_items.
  - clear. induction (l.*1) as [|k ks IH]; constructor; [|done]. intros t' Ht'.
    apply read_backq_Ident. by apply sep_not_head.
  - by destruct l.
  - apply length_items.
Qed.

Definition hostile_row : object :=
  [("na`me", VStr ("x', 0); DROP TABLE objects; -- " +:+ String backslash (String apos "")));
   ("blob", VBytes (String "000" "b")); ("n", VInt (-7)); ("ok", VBool true); ("gone", VNull);
   ("tenth", VFloat (FFin (-3602879701896397) (-55)))].

Lemma insert_text_exact_witness : exists text vals,
  Insert "ob`jects" hostile_row = Ok text /\
  read_insert text = Some ("ob`jects", (merge_sort key_le hostile_row).*1, vals).
Proof.
  destruct (Insert "ob`jects" hostile_row) as [text|e] eqn:E; [|vm_compute in E; discriminate E].
  assert (forall k f, (k, VFloat f) ∈ hostile_row -> finite f = true) as Hf.
  { intros k f Hin. repeat (apply elem_of_cons in Hin as [Hin|Hin]; [first [discriminate Hin|injection Hin as -> ->; vm_compute; reflexivity]|]).
    by apply elem_of_nil in Hin. }
  destruct (insert_text_exact "ob`jects" hostile_row text ltac:(discriminate) Hf E) as (vals & _ & H).
  exists text, vals. split; [reflexivity|exact H].
Defined.

(** What [Lit] makes of a float that is no number is an identifier. *)
Example nan_is_no_literal :
  Lit (VFloat FNaN) = Ok "NaN" /\ read_literal "NaN" = None /\ Lit (VFloat (FInf false)) = Ok "+Inf" /\ read_literal "+Inf" = None.
Proof. split_and!; vm_compute; reflexivity. Qed.
