(* ===== verification/Sql.v ===== *)
(** * The relational store ([internal/store])

    The register's state is rows in tables. This file models rows and
    their typed readers ([store.Row]), the table layout of [schema.go]
    (primary keys and unique indexes), and the meaning of the statements
    the register builds. The SQL engine and the ledger under it are not
    part of the repository: what depends on them is the parameter
    [SqlEngine], which may refuse any statement, decides in which order a
    scan returns rows, numbers an [AUTO_INCREMENT] column, answers the
    SELECTs a pack declares and computes the root a commit moves to. *)

From S2P Require Import Prelude GoStrings Float64 Encoding Canon Json SqlText.
Local Open Scope Z_scope.

Abbreviation Row := (gmap string sqlval).
Abbreviation table := (gmap (list sqlval) Row).
Abbreviation tables := (gmap string table).

(** ** Readers *)

Definition cell (r : Row) (col : string) : sqlval := default SNull (r !! col).

(** [Row.Str]. *)
Definition Str (r : Row) (col : string) : string :=
  match cell r col with
  | SStr s => s
  | SNull => ""
  | SInt z => itoa z
  | SFloat f => FormatFloat_g f
  end.

(** [Row.Bytes]. *)
Definition Bytes (r : Row) (col : string) : string :=
  match cell r col with SStr s => s | _ => "" end.

(** [AsInt]: a [uint64] past the signed range wraps. *)
Definition AsInt (v : sqlval) : Z :=
  match v with
  | SInt z => to_int64 z
  | SFloat f => int64_of_float f
  | SStr s => fst (ParseInt64 s)
  | SNull => 0
  end.

(** [Row.Int], [Row.Uint], [Row.Bool], [Row.Has]. *)
Definition Int (r : Row) (col : string) : Z := AsInt (cell r col).
Definition Uint (r : Row) (col : string) : Z :=
  match cell r col with
  | SInt z => if z <? 0 then 0 else z
  | v => Z.max 0 (AsInt v)
  end.
Definition Bool (r : Row) (col : string) : bool := negb (AsInt (cell r col) =? 0).
Definition Has (r : Row) (col : string) : bool :=
  match cell r col with SNull => false | _ => true end.

(** ** Layout *)

(** Column types: characters, bytes, integers of a width. BOOLEAN is a
    one-byte integer, BLOBs are byte columns. *)
Inductive coltype :=
  | CText (n : Z)
  | CBytes (n : Z)
  | CInt (bits : Z) (signed : bool).

Record table_ddl := mkDDL {
  ddl_pk : list string;
  ddl_unique : list (list string);
  ddl_columns : list (string * coltype);
}.

(** The base tables of [schema.go], in the order [Migrate] creates them.
    No column is nullable and none has a default. *)
Definition baseTables : list (string * table_ddl) := [
  ("transactions", mkDDL ["seq"] [["txid"]] [
     ("seq", CInt 64 false); ("txid", CText 64); ("tenant", CText 64); ("kind", CText 48);
     ("class", CText 64); ("object_id", CText 96); ("author_sub", CText 160); ("author_display", CText 160);
     ("author_role", CText 64); ("summary", CText 255); ("created_at", CInt 64 true); ("state", CText 16);
     ("root_before", CText 64); ("version_before", CInt 64 false); ("version_after", CInt 64 false); ("envelope", CBytes 16777215);
     ("write_set", CBytes 16777215)]);
  ("tx_refs", mkDDL ["txid"; "idx"] [] [
     ("txid", CText 64); ("idx", CInt 32 false); ("ref_type", CText 24); ("target", CText 160)]);
  ("objects", mkDDL ["id"] [["tenant"; "class"; "natural_key"]] [
     ("id", CText 96); ("tenant", CText 64); ("class", CText 64); ("natural_key", CText 191);
     ("head_version", CInt 64 false); ("status", CText 32); ("created_at", CInt 64 true); ("updated_at", CInt 64 true);
     ("created_tx", CText 64); ("updated_tx", CText 64); ("erased", CInt 8 true)]);
  ("natural_keys", mkDDL ["tenant"; "class"; "natural_key"] [] [
     ("tenant", CText 64); ("class", CText 64); ("natural_key", CText 191); ("object_id", CText 96);
     ("updated_at", CInt 64 true)]);
  ("record_versions", mkDDL ["object_id"; "version"] [] [
     ("object_id", CText 96); ("version", CInt 64 false); ("txid", CText 64); ("schema_id", CText 128);
     ("created_at", CInt 64 true); ("status", CText 32); ("payload_hash", CText 96); ("payload", CBytes 16777215);
     ("enc_scope", CText 191); ("pruned", CInt 8 true); ("prune_policy", CText 64)]);
  ("schemas", mkDDL ["id"] [] [
     ("id", CText 128); ("class", CText 64); ("version", CInt 32 false); ("active", CInt 8 true);
     ("doc", CBytes 16777215); ("created_at", CInt 64 true); ("txid", CText 64)]);
  ("policies", mkDDL ["id"] [] [
     ("id", CText 64); ("kind", CText 32); ("tenant", CText 64); ("class", CText 64);
     ("version", CInt 32 false); ("active", CInt 8 true); ("doc", CBytes 16777215); ("created_at", CInt 64 true);
     ("txid", CText 64)]);
  ("tasks", mkDDL ["id"] [] [
     ("id", CText 96); ("tenant", CText 64); ("workflow", CText 64); ("class", CText 64);
     ("object_id", CText 96); ("state", CText 24); ("proposer_sub", CText 160); ("proposer_role", CText 64);
     ("counterparty", CText 160); ("counterparty_state", CText 24); ("payload", CBytes 16777215); ("evidence", CBytes 16777215);
     ("message", CText 255); ("created_at", CInt 64 true); ("updated_at", CInt 64 true); ("decided_by", CText 160);
     ("decided_at", CInt 64 true); ("decision_reason", CText 255); ("txid", CText 64)]);
  ("keks", mkDDL ["id"] [] [
     ("id", CText 96); ("tenant", CText 64); ("algo", CText 24); ("public_key", CBytes 1024);
     ("enrolled_at", CInt 64 true); ("active", CInt 8 true); ("txid", CText 64)]);
  ("dek_keys", mkDDL ["scope"] [] [
     ("scope", CText 191); ("tenant", CText 64); ("kind", CText 32); ("subject", CText 96);
     ("op_wrap", CBytes 512); ("rec_wrap", CBytes 2048); ("kek_id", CText 96); ("created_at", CInt 64 true);
     ("destroyed_at", CInt 64 true); ("txid", CText 64)]);
  ("prune_marks", mkDDL ["txid"; "idx"] [] [
     ("txid", CText 64); ("idx", CInt 32 false); ("object_id", CText 96); ("from_version", CInt 64 false);
     ("to_version", CInt 64 false); ("policy_id", CText 64); ("reason", CText 64); ("created_at", CInt 64 true)]);
  ("webhooks", mkDDL ["id"] [] [
     ("id", CText 64); ("tenant", CText 64); ("url", CText 255); ("secret", CBytes 128);
     ("events", CText 255); ("txid", CText 64); ("active", CInt 8 true); ("created_at", CInt 64 true)]);
  ("members", mkDDL ["id"] [] [
     ("id", CText 400); ("tenant", CText 64); ("sub", CText 256); ("role", CText 64);
     ("display", CText 128); ("granted_by", CText 256); ("granted_at", CInt 64 true); ("txid", CText 64)]);
  ("profiles", mkDDL ["sub"] [] [
     ("sub", CText 256); ("scope", CText 191); ("sealed", CBytes 2048); ("first_seen", CInt 64 true);
     ("updated_at", CInt 64 true)]);
  ("invite_recipients", mkDDL ["id"] [] [
     ("id", CText 32); ("tenant", CText 64); ("scope", CText 191); ("sealed", CBytes 4096);
     ("reminded_at", CInt 64 true)]);
  ("invites", mkDDL ["id"] [] [
     ("id", CText 32); ("tenant", CText 64); ("role", CText 64); ("label", CText 128);
     ("secret_hash", CBytes 32); ("created_by", CText 256); ("created_at", CInt 64 true); ("expires_at", CInt 64 true);
     ("used_by", CText 256); ("used_at", CInt 64 true); ("revoked", CInt 8 true); ("txid", CText 64)]);
  ("registry", mkDDL ["k"] [] [
     ("k", CText 96); ("v", CBytes 4096); ("updated_at", CInt 64 true)])].

(** A query table [q_<class>] is keyed by the object it projects; the
    columns its class projects come from the pack. *)
Definition query_ddl : table_ddl :=
  mkDDL ["object_id"] [] [("object_id", CText 96); ("tenant", CText 64); ("status", CText 32); ("updated_at", CInt 64 true)].

Fixpoint assoc {A} (k : string) (l : list (string * A)) : option A :=
  match l with [] => None | (k', x) :: l => if String.eqb k k' then Some x else assoc k l end.

Definition ddl_of (t : string) : table_ddl := default query_ddl (assoc t baseTables).
Definition primary_key (t : string) : list string := ddl_pk (ddl_of t).
Definition unique_indexes (t : string) : list (list string) := ddl_unique (ddl_of t).
Definition column_type (t col : string) : option coltype := assoc col (ddl_columns (ddl_of t)).

Definition int_min (bits : Z) (signed : bool) : Z := if signed then - 2 ^ (bits - 1) else 0.
Definition int_max (bits : Z) (signed : bool) : Z := if signed then 2 ^ (bits - 1) - 1 else 2 ^ bits - 1.

Definition has_type (ty : coltype) (v : sqlval) : Prop :=
  match ty, v with
  | CText n, SStr s => rune_count s <= n
  | CBytes n, SStr s => len s <= n
  | CInt bits signed, SInt z => int_min bits signed <= z <= int_max bits signed
  | _, _ => False
  end.

#[export] Instance has_type_dec ty v : Decision (has_type ty v).
Proof. destruct ty, v; cbn; apply _. Defined.

(** A value of a column's kind, whatever its size. *)
Definition kind_ok (ty : coltype) (v : sqlval) : Prop :=
  match ty, v with
  | (CText _ | CBytes _), SStr _ | CInt _ _, SInt _ => True
  | _, _ => False
  end.

(** ** Statements *)

Inductive cmp := OEq | ONe | OLt | OLe | OGt | OGe.
Record cond := mkCond { c_col : string; c_op : cmp; c_val : value }.
Abbreviation where_ := (list cond).
Definition is_ (col : string) (v : value) : cond := mkCond col OEq v.

Record order := mkOrder { o_col : string; o_desc : bool }.

(** [SELECT l.* FROM left AS l JOIN right AS r ON r.c' = l.c WHERE ...]:
    [j_cross] compares a column of the left row with one of the right. *)
Record join := mkJoin {
  j_left : string;
  j_right : string;
  j_on : string * string;
  j_left_where : list cond;
  j_right_where : list cond;
  j_cross : list (string * cmp * string);
  j_orders : list order;
  j_limit : option nat;
}.

Inductive stmt :=
  | SBegin | SCommit | SRollback
  | SInsert (t : string) (values : object)
  | SUpdate (t : string) (values : object) (w : where_)
  | SDelete (t : string) (w : where_)
  | SSelect (t : string) (w : where_) (o : option order) (limit : option nat)
  | SQuery (text : string)
  | SJoin (j : join)
  | SCreateTable (t : string)
  | SDropTable (t : string).

(** The third-party engine. [sql_refuses] is its answer to a statement it
    does not accept, [sql_convert] its conversion of a value to a column's
    type ([None] when it has none). The laws are the documented behaviour
    the register relies on: what is stored has the column's type, and a
    value of the column's kind is stored as it is or refused (strict
    mode); a scan returns every row once; an automatic number fits its
    column. *)
Class SqlEngine := {
  sql_refuses : tables -> stmt -> option string;
  sql_convert : coltype -> sqlval -> option sqlval;
  sql_scan : list Row -> list Row;
  sql_mixed : string -> sqlval -> option comparison;
  sql_next_seq : tables -> Z;
  sql_query : tables -> string -> list Row;
  ledger_commit : tables -> tables -> Z -> string -> Z * string;
  sql_convert_typed : forall ty v w, sql_convert ty v = Some w -> has_type ty w;
  sql_convert_id : forall ty v w, kind_ok ty v -> sql_convert ty v = Some w -> w = v;
  sql_next_seq_type : forall db, has_type (CInt 64 false) (SInt (sql_next_seq db));
  sql_scan_perm : forall l, sql_scan l ≡ₚ l;
}.

Section statements.
Context `{SqlEngine}.

Definition sql_compare (a b : sqlval) : option comparison :=
  match a, b with
  | SNull, _ | _, SNull => None
  | SInt x, SInt y => Some (x ?= y)
  | SStr x, SStr y => Some (String.compare x y)
  | SInt x, SFloat y => fcompare (of_Z x) y
  | SFloat x, SInt y => fcompare x (of_Z y)
  | SFloat x, SFloat y => fcompare x y
  | SStr x, _ => sql_mixed x b
  | _, SStr y => CompOpp <$> sql_mixed y a
  end.

Definition cmp_holds (o : cmp) (c : option comparison) : bool :=
  match c with
  | None => false
  | Some c =>
      match o, c with
      | OEq, Eq | ONe, (Lt | Gt) | OLt, Lt | OLe, (Lt | Eq) | OGt, Gt | OGe, (Gt | Eq) => true
      | _, _ => false
      end
  end.

(** A literal the builder panics on never reaches the engine; see [panics]. *)
Definition lit (v : value) : sqlval := default SNull (lit_val v).

Definition cond_holds (r : Row) (c : cond) : bool :=
  cmp_holds (c_op c) (sql_compare (cell r (c_col c)) (lit (c_val c))).
Definition matches (w : where_) (r : Row) : bool := forallb (cond_holds r) w.

(** The values of a statement, as its columns store them. *)
Definition convert (t col : string) (v : sqlval) : res sqlval :=
  match column_type t col with
  | None => Ok v
  | Some ty => of_option (sql_convert ty v) (Errorf "sql: column %s cannot hold the value" [col])
  end.
Definition row_of (t : string) (values : object) : res Row :=
  l ← collect (map (fun kv => v ← convert t kv.1 (lit kv.2); Ok (kv.1, v)) values);
  Ok (list_to_map l).

Definition pk_of (t : string) (r : Row) : list sqlval := cell r <$> primary_key t.

Definition rows (m : table) : list Row := (map_to_list m).*2.

Definition uniques_ok (t : string) (m : table) : bool :=
  forallb (fun idx => bool_decide (NoDup ((fun r => cell r <$> idx) <$> rows m))) (unique_indexes t).

Definition duplicate (t : string) : error := Errorf "sql: duplicate entry in %s" [t].

Definition checked (t : string) (m : table) : res table :=
  if uniques_ok t m then Ok m else Err (duplicate t).

(** There are no column defaults: an INSERT names every column. *)
Definition complete (t : string) (r : Row) : bool :=
  forallb (fun c => match r !! c.1 with Some _ => true | None => false end) (ddl_columns (ddl_of t)).

Definition insert_row (t : string) (r : Row) (m : table) : res table :=
  _ ← refuse_if (negb (complete t r)) (Errorf "sql: a column of %s has no default" [t]);
  match m !! pk_of t r with
  | Some _ => Err (duplicate t)
  | None => checked t (<[pk_of t r := r]> m)
  end.

(** The table holding exactly [l], unless two rows share a primary key. *)
Definition reindex (t : string) (l : list Row) : res table :=
  if decide (NoDup (pk_of t <$> l)) then Ok (list_to_map ((fun r => (pk_of t r, r)) <$> l))
  else Err (duplicate t).

Definition update_rows (t : string) (values : Row) (p : Row -> bool) (m : table) : res table :=
  m' ← reindex t ((fun r => if p r then values ∪ r else r) <$> rows m);
  checked t m'.

Definition delete_rows (p : Row -> bool) (m : table) : table := filter (fun kr => p kr.2 = false) m.

(** [ORDER BY]: ties keep the scan's order, and NULL comes first. *)
Definition order_le (o : order) (a b : Row) : Prop :=
  let c := sql_compare (cell a (o_col o)) (cell b (o_col o)) in
  if o_desc o then c <> Some Lt else c <> Some Gt.
#[global] Instance order_le_dec o : RelDecision (order_le o).
Proof. intros a b. unfold order_le. destruct (o_desc o); apply _. Defined.

Definition select_rows (w : where_) (o : option order) (limit : option nat) (m : table) : list Row :=
  let l := filter (fun r => matches w r = true) (sql_scan (rows m)) in
  let l := match o with Some o => merge_sort (order_le o) l | None => l end in
  match limit with Some n => take n l | None => l end.

(** A pair of rows a join keeps. *)
Definition joins (j : join) (l r : Row) : bool :=
  cmp_holds OEq (sql_compare (cell r (j_on j).2) (cell l (j_on j).1))
  && matches (j_left_where j) l && matches (j_right_where j) r
  && forallb (fun x => cmp_holds x.1.2 (sql_compare (cell l x.1.1) (cell r x.2))) (j_cross j).

(** [ORDER BY] several columns, the first most significant. *)
Fixpoint orders_le (os : list order) (a b : Row) : Prop :=
  match os with
  | [] => True
  | o :: os => order_le o a b /\ (order_le o b a -> orders_le os a b)
  end.
#[global] Instance orders_le_dec os : RelDecision (orders_le os).
Proof. intros a b. induction os as [|o os IH]; cbn [orders_le]; apply _. Defined.

(** The left row of every pair kept. *)
Definition join_rows (j : join) (left right : table) : list Row :=
  let l := sql_scan (rows left ≫= (fun a => (fun _ => a) <$> filter (fun b => joins j a b = true) (rows right))) in
  let l := match j_orders j with [] => l | os => merge_sort (orders_le os) l end in
  match j_limit j with Some n => take n l | None => l end.

(** The builders panic on a value without a literal form. *)
Definition panics (s : stmt) : bool :=
  let bad v := match lit_val v with None => true | Some _ => false end in
  let bad_vals (values : object) := existsb (fun kv => bad kv.2) values in
  let bad_conds (w : where_) := existsb (fun c => bad (c_val c)) w in
  match s with
  | SInsert _ values => bad_vals values
  | SUpdate _ values w => bad_vals values || bad_conds w
  | SDelete _ w | SSelect _ w _ _ => bad_conds w
  | SJoin j => bad_conds (j_left_where j) || bad_conds (j_right_where j)
  | _ => false
  end.

Definition no_table (t : string) : error := Errorf "sql: table not found: %s" [t].

Definition on_table (db : tables) (t : string) (f : table -> res table) : res (list Row * tables) :=
  m ← of_option (db !! t) (no_table t); m' ← f m; Ok ([], <[t := m']> db).

(** The row of an INSERT: an AUTO_INCREMENT column left out is numbered. *)
Definition completed (db : tables) (t : string) (r : Row) : Row :=
  if String.eqb t "transactions" then
    match r !! "seq" with Some _ => r | None => <["seq" := SInt (sql_next_seq db)]> r end
  else r.

(** What a statement returns and leaves behind. *)
Definition run_stmt (db : tables) (s : stmt) : res (list Row * tables) :=
  if panics s then Err lit_panic else
  match sql_refuses db s with
  | Some m => Err (Errorf "sql: %w (%s)" [m])
  | None =>
      match s with
      | SBegin | SCommit | SRollback => Ok ([], db)
      | SInsert t values => r ← row_of t values; on_table db t (insert_row t (completed db t r))
      | SUpdate t values w => r ← row_of t values; on_table db t (update_rows t r (matches w))
      | SDelete t w => on_table db t (fun m => Ok (delete_rows (matches w) m))
      | SSelect t w o limit => m ← of_option (db !! t) (no_table t); Ok (select_rows w o limit m, db)
      | SQuery text => Ok (sql_query db text, db)
      | SJoin j =>
          left ← of_option (db !! j_left j) (no_table (j_left j));
          right ← of_option (db !! j_right j) (no_table (j_right j));
          Ok (join_rows j left right, db)
      | SCreateTable t =>
          match db !! t with
          | Some _ => Err (Errorf "sql: table already exists: %s" [t])
          | None => Ok ([], <[t := ∅]> db)
          end
      | SDropTable t =>
          _ ← of_option (db !! t) (no_table t); Ok ([], delete t db)
      end
  end.
End statements.

(** ** Well-formed tables

    Every row is filed under its primary key, and the key columns hold
    values of their types. *)

(** Get past the checks every statement meets first. *)
Ltac run_inv E :=
  unfold run_stmt in E; destruct (panics _); [discriminate E|]; destruct (sql_refuses _ _); [discriminate E|].

Section facts.
Context `{SqlEngine}.
Implicit Types (t c : string) (r : Row) (m : table) (db : tables).

Definition typed_cell t r c : Prop := exists ty, column_type t c = Some ty /\ has_type ty (cell r c).
Definition wf_row t r : Prop := Forall (typed_cell t r) (primary_key t).
Definition wf_table t m : Prop := forall k r, m !! k = Some r -> k = pk_of t r /\ wf_row t r.
Definition wf_db db : Prop := forall t m, db !! t = Some m -> wf_table t m.

Lemma wf_table_empty t : wf_table t ∅.
Proof. intros k r. by rewrite lookup_empty. Qed.

Lemma wf_db_empty : wf_db ∅.
Proof. intros t m. by rewrite lookup_empty. Qed.

Lemma wf_db_insert t m db : wf_db db -> wf_table t m -> wf_db (<[t:=m]> db).
Proof. intros W Wm t' m'. rewrite lookup_insert_Some. intros [[<- <-]|[_ ?]]; [done|]. by apply W. Qed.

Lemma assoc_elem {A} k (l : list (string * A)) x : assoc k l = Some x -> (k, x) ∈ l.
Proof.
  induction l as [|[k' y] l IH]; [done|]. cbn. destruct (String.eqb_spec k k') as [->|]; intros E.
  - injection E as ->. apply list_elem_of_here.
  - apply list_elem_of_further. auto.
Qed.

Definition ddl_keys_declared (d : table_ddl) : bool :=
  forallb (fun c => match assoc c (ddl_columns d) with Some _ => true | None => false end) (ddl_pk d).

Lemma pk_declared t c : c ∈ primary_key t -> exists ty, column_type t c = Some ty /\ (c, ty) ∈ ddl_columns (ddl_of t).
Proof.
  unfold primary_key, column_type.
  assert (ddl_keys_declared (ddl_of t) = true) as Hd.
  { unfold ddl_of. destruct (assoc t baseTables) as [d|] eqn:E; [|reflexivity].
    apply assoc_elem, (list_elem_of_fmap_2 snd) in E.
    assert (forallb ddl_keys_declared baseTables.*2 = true) as Ha by reflexivity.
    rewrite forallb_forall in Ha. apply Ha. by apply list_elem_of_In. }
  intros Hc. unfold ddl_keys_declared in Hd. rewrite forallb_forall in Hd.
  specialize (Hd c). rewrite <- list_elem_of_In in Hd. specialize (Hd Hc).
  destruct (assoc c _) as [ty|] eqn:E; [|done]. exists ty. split; [done|]. by apply assoc_elem.
Qed.

(** What a statement stores has its column's type. *)
Lemma row_of_typed t values r : row_of t values = Ok r ->
  forall c ty v, column_type t c = Some ty -> r !! c = Some v -> has_type ty v.
Proof.
  unfold row_of. intros E c ty v Hc Hv. res_inv.
  match goal with H : collect _ = Ok ?l |- _ => revert H Hv; generalize l as ps end.
  induction values as [|[k y] values IH]; intros ps E Hv; cbn in E; res_inv; cbn in Hv.
  - by rewrite lookup_empty in Hv.
  - unfold mret in *. rewrite lookup_insert_Some in Hv. destruct Hv as [[<- <-]|[_ Hv]]; [|by eapply IH].
    unfold convert in *. cbn in *. rewrite Hc in *. res_inv. by eapply sql_convert_typed.
Qed.

Lemma completed_typed db t r :
  (forall c ty v, column_type t c = Some ty -> r !! c = Some v -> has_type ty v) ->
  forall c ty v, column_type t c = Some ty -> completed db t r !! c = Some v -> has_type ty v.
Proof.
  unfold completed. intros Hr c ty v Hc Hv. destruct (String.eqb_spec t "transactions") as [->|]; [|by eapply Hr].
  destruct (r !! "seq") eqn:E; [by eapply Hr|]. rewrite lookup_insert_Some in Hv.
  destruct Hv as [[<- <-]|[_ Hv]]; [|by eapply Hr]. injection Hc as <-. apply sql_next_seq_type.
Qed.

Lemma complete_wf t r :
  (forall c ty v, column_type t c = Some ty -> r !! c = Some v -> has_type ty v) ->
  complete t r = true -> wf_row t r.
Proof.
  intros Ht Hc. apply Forall_forall. intros c Hin. apply pk_declared in Hin as (ty & Hty & Hin).
  exists ty. split; [done|]. unfold complete in Hc. rewrite forallb_forall in Hc.
  apply list_elem_of_In in Hin. specialize (Hc _ Hin). cbn in Hc. unfold cell.
  destruct (r !! c) eqn:E; [|done]. by eapply Ht.
Qed.

Lemma checked_Ok t m m' : checked t m = Ok m' <-> uniques_ok t m = true /\ m' = m.
Proof. unfold checked. destruct (uniques_ok t m); naive_solver. Qed.

Lemma insert_row_wf t r m m' :
  wf_table t m -> (forall c ty v, column_type t c = Some ty -> r !! c = Some v -> has_type ty v) ->
  insert_row t r m = Ok m' -> wf_table t m'.
Proof.
  intros W Ht E. unfold insert_row in E. res_inv. bool_hyps. destruct (m !! pk_of t r); [done|].
  match goal with H : checked _ _ = Ok _ |- _ => apply checked_Ok in H as [_ ->] end.
  intros k' r'. rewrite lookup_insert_Some. intros [[<- <-]|[_ ?]]; [|by apply W].
  split; [done|]. by apply complete_wf.
Qed.

Lemma rows_elem m r : r ∈ rows m <-> exists k, m !! k = Some r.
Proof.
  unfold rows. rewrite list_elem_of_fmap. split.
  - intros ([k x] & -> & Hx). exists k. by apply elem_of_map_to_list in Hx.
  - intros [k Hk]. exists (k, r). split; [done|]. by apply elem_of_map_to_list.
Qed.

Lemma reindex_Ok t l m k r : reindex t l = Ok m -> m !! k = Some r <-> r ∈ l /\ k = pk_of t r.
Proof.
  unfold reindex. destruct (decide _) as [Hn|]; [|done]. intros [= <-].
  rewrite <- elem_of_list_to_map.
  - rewrite list_elem_of_fmap. naive_solver.
  - by rewrite <- list_fmap_compose.
Qed.

Lemma update_rows_wf t values p m m' :
  wf_table t m -> (forall c ty v, column_type t c = Some ty -> values !! c = Some v -> has_type ty v) ->
  update_rows t values p m = Ok m' -> wf_table t m'.
Proof.
  intros W Hv E. unfold update_rows in E. res_inv.
  match goal with H : checked _ _ = Ok _ |- _ => apply checked_Ok in H as [_ ->] end.
  intros k r Hk. eapply reindex_Ok in Hk; [|done]. destruct Hk as [Hin ->]. split; [done|].
  apply list_elem_of_fmap in Hin as (r0 & -> & Hin). apply rows_elem in Hin as [k0 Hk0].
  apply W in Hk0 as [_ Hr]. destruct (p r0); [|done].
  apply Forall_forall. intros c Hc. unfold wf_row in Hr. rewrite Forall_forall in Hr.
  destruct (Hr c Hc) as (ty & Hty & Ht). exists ty. split; [done|].
  unfold cell in *. rewrite lookup_union. destruct (values !! c) eqn:E; [|by rewrite (left_id_L None _)].
  rewrite union_Some_l. cbn. by eapply Hv.
Qed.

Lemma delete_rows_wf t p m : wf_table t m -> wf_table t (delete_rows p m).
Proof. intros W k r Hk. apply map_lookup_filter_Some in Hk as [Hk _]. by apply W. Qed.

(** Every statement preserves the layout. *)
Lemma run_stmt_wf db s l db' : wf_db db -> run_stmt db s = Ok (l, db') -> wf_db db'.
Proof.
  intros W E. unfold run_stmt in E. destruct (panics s), (sql_refuses db s); try done.
  destruct s as [| | |t vs|t vs w|t w|t w o n|text|j|t|t]; unfold on_table in E; res_inv; try done.
  - apply wf_db_insert; [done|]. eapply insert_row_wf; [by apply W| |done].
    apply completed_typed. by eapply row_of_typed.
  - apply wf_db_insert; [done|]. eapply update_rows_wf; [by apply W| |done]. by eapply row_of_typed.
  - apply wf_db_insert; [done|]. apply delete_rows_wf. by apply W.
  - destruct (db !! t); [done|]. res_inv. apply wf_db_insert; [done|]. apply wf_table_empty.
  - intros t' m' Hm. apply W with (t := t'). apply lookup_delete_Some in Hm. tauto.
Qed.

(** *** Statements that name a primary key *)

Definition key_where t (key : list value) : where_ := zip_with is_ (primary_key t) key.

Definition key_ok t (key : list value) : Prop :=
  Forall2 (fun c v => exists ty, column_type t c = Some ty /\ kind_ok ty (lit v)) (primary_key t) key.

Lemma string_compare_refl s : String.compare s s = Eq.
Proof. pose proof (String.compare_antisym s s) as E. by destruct (String.compare s s). Qed.

Lemma string_compare_eqb s1 s2 :
  cmp_holds OEq (Some (String.compare s1 s2)) = bool_decide (SStr s1 = SStr s2).
Proof.
  destruct (String.compare s1 s2) eqn:E; symmetry; cbn.
  - apply bool_decide_eq_true. apply String.compare_eq_iff in E. congruence.
  - apply bool_decide_eq_false. intros [= ->]. by rewrite string_compare_refl in E.
  - apply bool_decide_eq_false. intros [= ->]. by rewrite string_compare_refl in E.
Qed.

Lemma compare_kind ty a b :
  has_type ty a -> kind_ok ty b -> cmp_holds OEq (sql_compare a b) = bool_decide (a = b).
Proof.
  intros Ha Hb. destruct ty, a, b; try done; cbn [sql_compare]; try apply string_compare_eqb. cbn.
  destruct (Z.compare_spec z z0) as [->|Hlt|Hgt]; symmetry.
  - by apply bool_decide_eq_true.
  - apply bool_decide_eq_false. intros [= ->]. lia.
  - apply bool_decide_eq_false. intros [= ->]. lia.
Qed.

Lemma matches_key t key r :
  wf_row t r -> key_ok t key -> matches (key_where t key) r = bool_decide (pk_of t r = lit <$> key).
Proof.
  unfold wf_row, key_ok, key_where, pk_of, matches. intros W K.
  induction K as [|c v cs vs (ty & Hty & Hk) _ IH]; [done|]. inversion W as [|? ? (ty' & Hty' & Ht) W']; subst.
  cbn. rewrite IH by done. unfold cond_holds. cbn. assert (ty' = ty) as -> by congruence.
  rewrite (compare_kind ty) by done. rewrite <- bool_decide_and. apply bool_decide_ext.
  split; [by intros [-> ->]|intros E; by injection E].
Qed.

Lemma rows_filter_key t key m :
  wf_table t m -> key_ok t key ->
  filter (fun r => matches (key_where t key) r = true) (rows m) = option_list (m !! (lit <$> key)).
Proof.
  intros W K.
  assert (NoDup (rows m)) as Hn.
  { unfold rows. apply NoDup_fmap_2_strong; [|apply NoDup_map_to_list].
    intros [k1 r1] [k2 r2] H1 H2. cbn. intros ->. apply elem_of_map_to_list in H1, H2.
    apply W in H1 as [-> _], H2 as [-> _]. done. }
  assert (forall r, r ∈ filter (fun r => matches (key_where t key) r = true) (rows m) <-> m !! (lit <$> key) = Some r) as He.
  { intros r. rewrite list_elem_of_filter, rows_elem. split.
    - intros (Hm & k & Hk). destruct (W _ _ Hk) as [-> Hw]. rewrite matches_key in Hm by done.
      apply bool_decide_eq_true in Hm. by rewrite <- Hm.
    - intros Hk. destruct (W _ _ Hk) as [E Hw]. split; [|by exists (lit <$> key)].
      rewrite matches_key by done. by apply bool_decide_eq_true. }
  assert (NoDup (filter (fun r => matches (key_where t key) r = true) (rows m))) as Hf by (by apply NoDup_filter).
  revert He Hf. generalize (filter (fun r => matches (key_where t key) r = true) (rows m)) as l.
  intros l He Hf. destruct (m !! (lit <$> key)) as [r|]; cbn.
  - destruct l as [|x l]; [exfalso; by apply (not_elem_of_nil r), He|].
    assert (x = r) as -> by (enough (Some r = Some x) by congruence; apply He, list_elem_of_here).
    destruct l as [|y l]; [done|]. exfalso.
    assert (y = r) as -> by (enough (Some r = Some y) by congruence; apply He; apply list_elem_of_further, list_elem_of_here).
    apply NoDup_cons in Hf as [Hf _]. apply Hf, list_elem_of_here.
  - destruct l as [|x l]; [done|]. exfalso. assert (None = Some x) by (apply He, list_elem_of_here). done.
Qed.

Lemma Permutation_option_list {A} (l : list A) o : l ≡ₚ option_list o -> l = option_list o.
Proof. destruct o; cbn; [apply Permutation_singleton_r|apply Permutation_nil_r]. Qed.

(** A SELECT by primary key finds the row filed under the key. *)
Lemma select_key t key m :
  wf_table t m -> key_ok t key ->
  select_rows (key_where t key) None None m = option_list (m !! (lit <$> key)).
Proof.
  intros W K. unfold select_rows. apply Permutation_option_list.
  rewrite <- (rows_filter_key t key m) by done. by rewrite sql_scan_perm.
Qed.

Lemma delete_key t key m :
  wf_table t m -> key_ok t key -> delete_rows (matches (key_where t key)) m = delete (lit <$> key) m.
Proof.
  intros W K. apply map_eq. intros k. apply option_eq. intros r. unfold delete_rows.
  rewrite map_lookup_filter_Some, lookup_delete_Some. cbn. split.
  - intros [Hk Hm]. split; [|done]. destruct (W _ _ Hk) as [-> Hw]. rewrite matches_key in Hm by done.
    apply bool_decide_eq_false in Hm. congruence.
  - intros [Hne Hk]. split; [done|]. destruct (W _ _ Hk) as [-> Hw]. rewrite matches_key by done.
    apply bool_decide_eq_false. congruence.
Qed.

(** An UPDATE that leaves the key columns alone changes the row in place. *)
Lemma reindex_fmap t (f : Row -> Row) m :
  wf_table t m -> (forall r, pk_of t (f r) = pk_of t r) -> reindex t (f <$> rows m) = Ok (f <$> m).
Proof.
  intros W Hf. unfold reindex.
  assert (pk_of t <$> (f <$> rows m) = (map_to_list m).*1) as E.
  { unfold rows. rewrite <- !list_fmap_compose. apply list_fmap_ext. intros i [k r] Hi. cbn.
    rewrite Hf. symmetry. apply W. apply elem_of_map_to_list. by eapply list_elem_of_lookup_2. }
  destruct (decide _) as [Hn|Hn]; [|exfalso; apply Hn; rewrite E; apply NoDup_fst_map_to_list].
  f_equal. apply map_eq. intros k. apply option_eq. intros r.
  rewrite <- elem_of_list_to_map by (by rewrite <- list_fmap_compose).
  rewrite lookup_fmap_Some, list_elem_of_fmap. split.
  - intros (r1 & [= -> ->] & Hin). apply list_elem_of_fmap in Hin as (r0 & -> & Hin).
    apply rows_elem in Hin as [k0 Hk0]. exists r0. split; [done|]. rewrite Hf. by destruct (W _ _ Hk0) as [-> _].
  - intros (r0 & <- & Hk). exists (f r0). destruct (W _ _ Hk) as [-> _]. split; [by rewrite Hf|].
    apply list_elem_of_fmap. exists r0. split; [done|]. apply rows_elem. eauto.
Qed.

Definition leaves_key t (values : Row) : Prop := forall c, c ∈ primary_key t -> values !! c = None.

Lemma pk_of_union t values r : leaves_key t values -> pk_of t (values ∪ r) = pk_of t r.
Proof.
  intros Hv. unfold pk_of. apply list_fmap_ext. intros i c Hc. unfold cell. f_equal.
  rewrite lookup_union, (Hv c) by (by eapply list_elem_of_lookup_2). by rewrite (left_id_L None _).
Qed.

Lemma update_key t key values m :
  wf_table t m -> key_ok t key -> leaves_key t values ->
  update_rows t values (matches (key_where t key)) m = checked t (alter (union values) (lit <$> key) m).
Proof.
  intros W K Hv. unfold update_rows.
  rewrite (reindex_fmap t (fun r => if matches (key_where t key) r then values ∪ r else r)); [|done|].
  - cbn. f_equal. apply map_eq. intros k. rewrite lookup_fmap.
    destruct (decide (k = lit <$> key)) as [->|Hne].
    + rewrite lookup_alter_eq. destruct (m !! (lit <$> key)) as [r|] eqn:E; [|done]. cbn.
      destruct (W _ _ E) as [Hk Hw]. rewrite matches_key by done. by rewrite bool_decide_eq_true_2.
    + rewrite lookup_alter_ne by done. destruct (m !! k) as [r|] eqn:E; [|done]. cbn.
      destruct (W _ _ E) as [-> Hw]. rewrite matches_key by done. by rewrite bool_decide_eq_false_2.
  - intros r. destruct (matches _ r); [|done]. by apply pk_of_union.
Qed.
End facts.
