(* ===== verification/Model.v ===== *)
(** * Wire and storage types ([internal/model])

    The commit envelope and its validation, the write set and its tagged
    byte values, and the records of transactions, objects, versions,
    tasks and checkpoints, each with the JSON value [encoding/json] gives
    it (struct tags and [omitempty] included) and, where the register
    reads it back, the decoder. *)

From S2P Require Import Prelude GoStrings Float64 Encoding Canon.
Local Open Scope Z_scope.

(** ** Constants *)

Definition RefCorrects := "corrects".
Definition RefSupersedes := "supersedes".
Definition RefApproves := "approves".
Definition RefRelates := "relates".

Definition KindSchemaRegister := "schema.register".
Definition KindPolicySet := "policy.set".
Definition KindRecordCreate := "record.create".
Definition KindRecordUpdate := "record.update".
Definition KindRecordStatus := "record.status".
Definition KindRecordCorrect := "record.correct".
Definition KindTaskPropose := "workflow.propose".
Definition KindTaskAccept := "workflow.accept".
Definition KindTaskApprove := "workflow.approve".
Definition KindTaskReject := "workflow.reject".
Definition KindTaskWithdraw := "workflow.withdraw".
Definition KindRetentionPrune := "retention.prune".
Definition KindErasure := "erasure.execute".
Definition KindProfileRecord := "profile.record".
Definition KindKeyEnrol := "key.enrol".
Definition KindAudit := "audit.close".
Definition KindWebhookSet := "webhook.set".
Definition KindMemberGrant := "member.grant".
Definition KindMemberRevoke := "member.revoke".
Definition KindInviteCreate := "invite.create".
Definition KindInviteRedeem := "invite.redeem".
Definition KindInviteRevoke := "invite.revoke".
Definition KindInviteRemind := "invite.remind".
Definition KindInviteExpire := "invite.expire".
Definition KindPackSeed := "pack.seed".

(** ** The commit envelope *)

Record Ref := mkRef { ref_Type : string; ref_Target : string }.

Record Author := mkAuthor { au_Sub : string; au_Display : string; au_Role : string }.

Record Envelope := mkEnvelope {
  Kind : string;
  Tenant : string;
  env_Class : string;
  SchemaID : string;
  ObjectIDs : list string;
  env_Author : Author;
  Timestamp : Z;
  Message : string;
  Refs : list Ref;
}.

Definition with_Message (e : Envelope) (m : string) : Envelope :=
  mkEnvelope (Kind e) (Tenant e) (env_Class e) (SchemaID e) (ObjectIDs e) (env_Author e) (Timestamp e) m (Refs e).

(** [Envelope.Summary]: the first line of the message. *)
Definition Summary (e : Envelope) : string :=
  match IndexByte (Message e) "010" with
  | Some i => str_take i (Message e)
  | None => Message e
  end.

(** [Envelope.Body]. *)
Definition Body (e : Envelope) : string :=
  match IndexByte (Message e) "010" with
  | None => ""
  | Some i => TrimLeft1 "010" (str_drop (S i) (Message e))
  end.

Definition MaxSummary : Z := 72.

Definition refTypes (t : string) : bool :=
  containsString [RefCorrects; RefSupersedes; RefApproves; RefRelates] t.

Definition validate_ref (r : Ref) : res unit :=
  _ ← refuse_if (negb (refTypes (ref_Type r))) (Errorf "envelope: unknown ref type %q" [ref_Type r]);
  refuse_if (String.eqb (ref_Target r) "") (Errorf "envelope: ref %q has no target" [ref_Type r]).

(** The summary and body rules of [Envelope.Validate]: [msg] has no
    trailing newline, so the byte after its first newline exists. *)
Definition split_message (msg : string) : res string :=
  match IndexByte msg "010" with
  | None => Ok msg
  | Some i =>
      let rest := str_drop (S i) msg in
      _ ← refuse_if (negb (HasPrefix rest nl) && negb (String.eqb (TrimSpace rest) ""))
            (Errorf "envelope: message body must be separated from the summary by a blank line" []);
      Ok (str_take i msg)
  end.

Definition validate_message (message : string) : res string :=
  let msg := TrimRight1 "010" message in
  _ ← refuse_if (String.eqb (TrimSpace msg) "") (Errorf "envelope: message is required (a transaction must say why)" []);
  summary ← split_message msg;
  _ ← refuse_if (String.eqb (TrimSpace summary) "") (Errorf "envelope: message summary is empty" []);
  _ ← refuse_if (MaxSummary <? rune_count summary)
        (Errorf "envelope: message summary is %d characters, the limit is %d" [itoa (rune_count summary); itoa MaxSummary]);
  _ ← refuse_if (HasSuffix (TrimSpace summary) ".") (Errorf "envelope: message summary must not end with a full stop" []);
  Ok msg.

(** [Envelope.Validate]; it returns the envelope it leaves behind, whose
    message has lost its trailing newlines. *)
Definition Validate (e : Envelope) : res Envelope :=
  _ ← refuse_if (String.eqb (Kind e) "") (Errorf "envelope: kind is required" []);
  _ ← refuse_if (String.eqb (Tenant e) "") (Errorf "envelope: tenant is required" []);
  _ ← refuse_if (String.eqb (au_Sub (env_Author e)) "") (Errorf "envelope: author.sub is required" []);
  _ ← refuse_if (String.eqb (au_Role (env_Author e)) "") (Errorf "envelope: author.role is required" []);
  msg ← validate_message (Message e);
  _ ← check_all validate_ref (Refs e);
  Ok (with_Message e msg).

(** ** JSON of structs *)

Definition omit_str (k s : string) : object := if String.eqb s "" then [] else [(k, VStr s)].
Definition omit_list (k : string) (l : list value) : object := match l with [] => [] | _ => [(k, VArr l)] end.
Definition omit_int (k : string) (z : Z) : object := if z =? 0 then [] else [(k, VInt z)].

Definition ref_value (r : Ref) : value := VObj [("type", VStr (ref_Type r)); ("target", VStr (ref_Target r))].
Definition author_value (a : Author) : value :=
  VObj ([("sub", VStr (au_Sub a))] ++ omit_str "display" (au_Display a) ++ [("role", VStr (au_Role a))]).
Definition env_value (e : Envelope) : value :=
  VObj ([("kind", VStr (Kind e)); ("tenant", VStr (Tenant e))]
    ++ omit_str "class" (env_Class e) ++ omit_str "schema_id" (SchemaID e)
    ++ omit_list "object_ids" (VStr <$> ObjectIDs e)
    ++ [("author", author_value (env_Author e)); ("timestamp", VInt (Timestamp e)); ("message", VStr (Message e))]
    ++ omit_list "refs" (ref_value <$> Refs e)).

(** ** Decoding structs

    [json.Unmarshal] of a document into a struct. A member goes to the
    field of its name and, failing that, to the field of its name folded;
    [fold_name] folds the letters the field names here are made of. The
    members of one field are taken in the order of the document, each over
    what the field holds: [null] leaves a text, a number, a boolean or a
    struct alone and empties a slice, a map or a pointer; an object adds to
    what a struct, a map or a pointer holds; a value of another type is an
    error. A field no member names keeps its zero value.

    Two things are left out, both of documents that name a field more than
    once: a name spelt twice in the same way counts as its last member
    ([parse_raw]), and the elements of a slice that is filled twice start
    from their zero value each time. *)
Definition type_error (k : string) : error := Errorf "json: cannot unmarshal value into Go struct field %s" [k].

Definition fold_byte (a : ascii) : ascii :=
  let c := byte_Z a in if (65 <=? c) && (c <=? 90) then Z_byte (c + 32) else a.
Fixpoint fold_name (s : string) : string :=
  match s with
  | EmptyString => ""
  | String a s =>
      match a, s with
      | "226"%char, String "132"%char (String "170"%char s) => String "k" (fold_name s)
      | "197"%char, String "191"%char s => String "s" (fold_name s)
      | _, _ => String (fold_byte a) (fold_name s)
      end
  end.
Definition all_named (k : string) (m : object) : list value :=
  map snd (List.filter (fun kv => String.eqb (fold_name kv.1) k) m).
Fixpoint take_members {A} (step : A -> value -> option A) (k : string) (vs : list value) (held : A) : res A :=
  match vs with
  | [] => Ok held
  | v :: vs => held ← of_option (step held v) (type_error k); take_members step k vs held
  end.
Definition read_field {A} (step : A -> value -> option A) (zero : A) (k : string) (m : object) : res A :=
  take_members step k (all_named k m) zero.

Definition step_str (held : string) (v : value) : option string :=
  match v with VStr s => Some s | VNull => Some held | _ => None end.
Definition step_int (held : Z) (v : value) : option Z :=
  match v with VNumber s => match ParseInt64 s with (i, true) => Some i | _ => None end | VNull => Some held | _ => None end.
Definition step_bool (held : bool) (v : value) : option bool :=
  match v with VBool b => Some b | VNull => Some held | _ => None end.
Definition step_list (held : list value) (v : value) : option (list value) :=
  match v with VArr l => Some l | VNull => Some [] | _ => None end.
(** A map; the members of the first object are its own. *)
Definition step_map (held : object) (v : value) : option object :=
  match v with
  | VObj o => Some (match held with [] => o | _ => fold_left (fun acc kv => obj_set kv.1 kv.2 acc) o held end)
  | VNull => Some []
  | _ => None
  end.
(** A struct, and a pointer to one: the members to fill it with. *)
Definition step_struct (held : object) (v : value) : option object :=
  match v with VObj o => Some (held ++ o) | VNull => Some held | _ => None end.
Definition step_pointer (held : option object) (v : value) : option (option object) :=
  match v with VObj o => Some (Some (default [] held ++ o)) | VNull => Some None | _ => None end.

Definition get_str : string -> object -> res string := read_field step_str "".
Definition get_int : string -> object -> res Z := read_field step_int 0.
Definition get_bool : string -> object -> res bool := read_field step_bool false.
Definition get_list : string -> object -> res (list value) := read_field step_list [].
Definition get_map : string -> object -> res object := read_field step_map [].
Definition get_struct : string -> object -> res object := read_field step_struct [].
Definition get_pointer : string -> object -> res (option object) := read_field step_pointer None.
Definition as_obj (v : value) : res object :=
  match v with VObj m => Ok m | VNull => Ok [] | _ => Err (type_error "") end.
Definition as_str (v : value) : res string :=
  match v with VStr s => Ok s | VNull => Ok "" | _ => Err (type_error "") end.

Definition decode_ref (v : value) : res Ref :=
  m ← as_obj v; t ← get_str "type" m; x ← get_str "target" m; Ok (mkRef t x).
Definition decode_author (m : object) : res Author :=
  s ← get_str "sub" m; d ← get_str "display" m; r ← get_str "role" m; Ok (mkAuthor s d r).
Definition decode_env (v : value) : res Envelope :=
  m ← as_obj v;
  kind ← get_str "kind" m; tenant ← get_str "tenant" m; class ← get_str "class" m;
  schema ← get_str "schema_id" m; ids ← get_list "object_ids" m; ids ← collect (map as_str ids);
  author ← get_struct "author" m; author ← decode_author author;
  ts ← get_int "timestamp" m; message ← get_str "message" m;
  refs ← get_list "refs" m; refs ← collect (map decode_ref refs);
  Ok (mkEnvelope kind tenant class schema ids author ts message refs).

(** ** Write sets *)

Record WriteOp := mkWriteOp {
  Table : string;
  Key : object;
  Values : object;
  Delete : bool;
}.

Definition TxIDPlaceholder := "$txid".
Definition binaryTag := "$bytes".

Definition upsert (t : string) (k v : object) : WriteOp := mkWriteOp t k v false.
Definition remove (t : string) (k : object) : WriteOp := mkWriteOp t k [] true.

Definition op_value (o : WriteOp) : value :=
  VObj ([("table", VStr (Table o)); ("key", VObj (Key o))]
    ++ (match Values o with [] => [] | vs => [("values", VObj vs)] end)
    ++ (if Delete o then [("delete", VBool true)] else [])).

(** [[]WriteOp]; the empty write set is the nil slice. *)
Definition ops_value (ops : list WriteOp) : value :=
  match ops with [] => VNull | _ => VArr (op_value <$> ops) end.

(** [model.DecodeBinary]. *)
Definition DecodeBinary (v : value) : option string :=
  match v with
  | VObj [(k, VStr s)] => if String.eqb k binaryTag then base64_decode s else None
  | _ => None
  end.

(** A JSON value decoded into [any]. *)
Definition floatify_obj (m : object) : res object :=
  match floatify (VObj m) with Ok (VObj m) => Ok m | Ok _ => Ok [] | Err e => Err e end.

Definition decode_op (v : value) : res WriteOp :=
  m ← as_obj v;
  t ← get_str "table" m; k ← get_map "key" m; k ← floatify_obj k;
  vs ← get_map "values" m; vs ← floatify_obj vs; d ← get_bool "delete" m;
  Ok (mkWriteOp t k vs d).

Definition decode_ops (v : value) : res (list WriteOp) :=
  match v with
  | VArr l => collect (map decode_op l)
  | VNull => Ok []
  | _ => Err (type_error "write_set")
  end.

Definition TxPending := "pending".
Definition TxApplied := "applied".

Record Transaction := mkTransaction {
  tx_Seq : Z;
  tx_TxID : string;
  tx_Envelope : Envelope;
  tx_WriteSet : list WriteOp;
  tx_State : string;
  tx_RootBefore : string;
  tx_VersionBefore : Z;
  tx_VersionAfter : Z;
}.

(** ** Objects, versions and tasks *)

Record RecordVersion := mkRecordVersion {
  rv_ObjectID : string;
  rv_Version : Z;
  rv_TxID : string;
  rv_SchemaID : string;
  rv_CreatedAt : Z;
  rv_Status : string;
  rv_PayloadHash : string;
  rv_Payload : object;
  rv_EncScope : string;
  rv_Pruned : bool;
  rv_PrunePolicy : string;
  rv_Redacted : list string;
  rv_Erased : bool;
}.

Record Task := mkTask {
  tk_ID : string;
  tk_Tenant : string;
  tk_Workflow : string;
  tk_Class : string;
  tk_ObjectID : string;
  tk_State : string;
  tk_ProposerSub : string;
  tk_ProposerRole : string;
  tk_Counterparty : string;
  tk_CounterpartyState : string;
  tk_Payload : object;
  tk_Evidence : object;
  tk_Message : string;
  tk_CreatedAt : Z;
  tk_UpdatedAt : Z;
  tk_DecidedBy : string;
  tk_DecidedAt : Z;
  tk_DecisionReason : string;
  tk_Blockers : list string;
  tk_Redacted : bool;
  tk_TxID : string;
}.

Definition TaskProposed := "proposed".
Definition TaskAwaitingCounterparty := "awaiting_counterparty".
Definition TaskAwaitingReview := "awaiting_review".
Definition TaskApproved := "approved".
Definition TaskRejected := "rejected".
Definition TaskWithdrawn := "withdrawn".

(** ** Checkpoints *)

Record CheckpointRef := mkCheckpointRef { cr_Version : Z; cr_Root : string }.

Record Checkpoint := mkCheckpoint {
  cp_Register : string;
  cp_Version : Z;
  cp_Root : string;
  cp_Head : string;
  cp_IssuedAt : Z;
  cp_Reason : string;
  cp_ImageDigest : string;
  cp_TxSeq : Z;
  cp_Summary : object;
  cp_Previous : option CheckpointRef;
}.

Record SignedCheckpoint := mkSigned {
  sc_Checkpoint : Checkpoint;
  sc_KeyID : string;
  sc_Algorithm : string;
  sc_Signature : string;
}.

Definition checkpoint_ref_value (c : CheckpointRef) : value :=
  VObj [("version", VInt (cr_Version c)); ("root", VStr (cr_Root c))].

Definition checkpoint_value (c : Checkpoint) : value :=
  VObj ([("register", VStr (cp_Register c)); ("version", VInt (cp_Version c)); ("root", VStr (cp_Root c))]
    ++ omit_str "head" (cp_Head c)
    ++ [("issued_at", VInt (cp_IssuedAt c)); ("reason", VStr (cp_Reason c))]
    ++ omit_str "image_digest" (cp_ImageDigest c)
    ++ [("tx_seq", VInt (cp_TxSeq c))]
    ++ (match cp_Summary c with [] => [] | m => [("summary", VObj m)] end)
    ++ (match cp_Previous c with Some r => [("previous", checkpoint_ref_value r)] | None => [] end)).

Record EvidenceBundle := mkBundle {
  eb_Register : string;
  eb_Statement : string;
  eb_Table : string;
  eb_PrimaryKey : list value;
  eb_Present : bool;
  eb_Row : object;
  eb_LedgerKey : string;
  eb_LedgerValue : string;
  eb_Path : string;
  eb_Proof : string;
  eb_Root : string;
  eb_Version : Z;
  eb_IssuedAt : Z;
  eb_Checkpoint : option SignedCheckpoint;
  eb_KeyID : string;
  eb_Algorithm : string;
  eb_Signature : string;
}.

Definition signed_value (s : SignedCheckpoint) : value :=
  VObj [("checkpoint", checkpoint_value (sc_Checkpoint s)); ("key_id", VStr (sc_KeyID s));
        ("alg", VStr (sc_Algorithm s)); ("signature", VStr (sc_Signature s))].

(** The nil slice of [primary_key] prints as null. *)
Definition bundle_value (b : EvidenceBundle) : value :=
  VObj ([("register", VStr (eb_Register b)); ("statement", VStr (eb_Statement b)); ("table", VStr (eb_Table b));
         ("primary_key", match eb_PrimaryKey b with [] => VNull | l => VArr l end); ("present", VBool (eb_Present b))]
    ++ (match eb_Row b with [] => [] | m => [("row", VObj m)] end)
    ++ [("ledger_key", VStr (eb_LedgerKey b))] ++ omit_str "ledger_value" (eb_LedgerValue b)
    ++ [("path", VStr (eb_Path b)); ("proof", VStr (eb_Proof b)); ("root", VStr (eb_Root b));
        ("version", VInt (eb_Version b)); ("issued_at", VInt (eb_IssuedAt b))]
    ++ (match eb_Checkpoint b with Some s => [("checkpoint", signed_value s)] | None => [] end)
    ++ [("key_id", VStr (eb_KeyID b)); ("alg", VStr (eb_Algorithm b)); ("signature", VStr (eb_Signature b))]).

(** ** Facts about envelopes *)

Lemma drop_while_idem {A} (p : A -> bool) l : drop_while p (drop_while p l) = drop_while p l.
Proof. induction l as [|x l IH]; [done|]. simpl. destruct (p x) eqn:E; [done|]. simpl. by rewrite E. Qed.

Lemma TrimRight1_idem c s : TrimRight1 c (TrimRight1 c s) = TrimRight1 c s.
Proof. unfold TrimRight1. rewrite bytes_of_of, reverse_involutive. by rewrite drop_while_idem. Qed.

Lemma str_take_0 s : str_take 0 s = "".
Proof. by destruct s. Qed.
Lemma str_take_S n a s : str_take (S n) (String a s) = String a (str_take n s).
Proof. done. Qed.
Lemma str_drop_S n a s : str_drop (S n) (String a s) = str_drop n s.
Proof. done. Qed.
Lemma substring_all s : String.substring 0 (String.length s) s = s.
Proof. induction s as [|a s IH]; [done|]. simpl. by rewrite IH. Qed.
Lemma str_drop_0 s : str_drop 0 s = s.
Proof. unfold str_drop. rewrite Nat.sub_0_r. apply substring_all. Qed.

(** A string cut at the first occurrence of a byte. *)
Lemma IndexByte_Some s c i :
  IndexByte s c = Some i <->
  s = str_take i s +:+ String c (str_drop (S i) s) /\ c ∉ bytes_of (str_take i s).
Proof.
  revert i. induction s as [|a s IH]; intros i.
  - cbn. split; [done|]. intros [E _]. by destruct i.
  - cbn [IndexByte]. destruct (Ascii.eqb_spec a c) as [->|Hne].
    + split.
      * intros [= <-]. rewrite str_take_0, str_drop_S, str_drop_0. split; [done|]. apply not_elem_of_nil.
      * intros [_ H]. destruct i as [|i]; [done|]. exfalso. apply H. rewrite str_take_S. apply list_elem_of_here.
    + rewrite fmap_Some. split.
      * intros (j & H & ->). apply IH in H as [H1 H2]. rewrite str_take_S, str_drop_S. split.
        { rewrite string_app_cons. by f_equal. }
        { cbn [bytes_of]. rewrite not_elem_of_cons. split; congruence. }
      * intros [E H]. destruct i as [|j].
        { rewrite str_take_0, str_drop_S, str_drop_0 in E. injection E. congruence. }
        exists j. split; [|done]. apply IH. rewrite str_take_S in *. rewrite str_drop_S, string_app_cons in E.
        injection E as E. split; [done|]. cbn [bytes_of] in H. apply not_elem_of_cons in H. tauto.
Qed.

Lemma IndexByte_None s c : IndexByte s c = None <-> c ∉ bytes_of s.
Proof.
  induction s as [|a s IH]; cbn; [split; [intros _; apply not_elem_of_nil|done]|].
  destruct (Ascii.eqb_spec a c) as [->|Hne].
  - split; [done|]. intros []. apply list_elem_of_here.
  - rewrite fmap_None, IH, not_elem_of_cons. naive_solver.
Qed.

Lemma IndexByte_app x c r : c ∉ bytes_of x -> IndexByte (x +:+ String c r) c = Some (String.length x).
Proof.
  induction x as [|a x IH]; intros H.
  - change (IndexByte (String c r) c = Some O). cbn [IndexByte]. by rewrite Ascii.eqb_refl.
  - rewrite string_app_cons. cbn [IndexByte String.length bytes_of] in *. apply not_elem_of_cons in H as [Ha H].
    destruct (Ascii.eqb_spec a c); [congruence|]. by rewrite IH.
Qed.

Lemma str_take_app_l x r : str_take (String.length x) (x +:+ r) = x.
Proof.
  induction x as [|c x IH]; [apply str_take_0|]. rewrite string_app_cons. cbn [String.length].
  by rewrite str_take_S, IH.
Qed.

Lemma str_drop_app_l x r : str_drop (String.length x) (x +:+ r) = r.
Proof.
  induction x as [|c x IH]; [apply str_drop_0|]. rewrite string_app_cons. cbn [String.length].
  by rewrite str_drop_S.
Qed.

(** The summary of a message: its only line, or its first one, when the
    next line is blank or nothing but blanks follows. *)
Inductive summary_of : string -> string -> Prop :=
  | one_line msg : "010"%char ∉ bytes_of msg -> summary_of msg msg
  | with_body summary rest :
      "010"%char ∉ bytes_of summary ->
      HasPrefix rest nl = true \/ TrimSpace rest = "" ->
      summary_of (summary +:+ String "010" rest) summary.

Lemma split_message_spec msg summary : split_message msg = Ok summary <-> summary_of msg summary.
Proof.
  unfold split_message. split.
  - destruct (IndexByte msg "010") as [i|] eqn:E.
    + apply IndexByte_Some in E as [E Hn]. intros H. res_inv. rewrite E at 1.
      constructor; [done|]. match goal with H : _ && _ = false |- _ => apply andb_false_iff in H as [H|H] end; bool_hyps; tauto.
    + apply IndexByte_None in E. intros [= <-]. by constructor.
  - destruct 1 as [msg Hn|x r Hn Hr].
    + by apply IndexByte_None in Hn as ->.
    + rewrite IndexByte_app by done.
      assert (str_drop (S (String.length x)) (x +:+ String "010" r) = r) as ->.
      { change (String "010" r) with (String "010" "" +:+ r). rewrite <- string_app_assoc.
        replace (S (String.length x)) with (String.length (x +:+ String "010" "")).
        { apply str_drop_app_l. }
        induction x as [|c x IH]; [done|]. rewrite string_app_cons. simpl. rewrite IH; [done|].
        cbn [bytes_of] in Hn. apply not_elem_of_cons in Hn. tauto. }
      rewrite str_take_app_l. destruct Hr as [-> | ->]; [done|].
      change (String.eqb "" "") with true. by rewrite andb_false_r.
Qed.

(** What a well-formed envelope is. *)
Definition summary_ok (s : string) : Prop :=
  TrimSpace s <> "" /\ rune_count s <= MaxSummary /\ HasSuffix (TrimSpace s) "." = false.
Definition message_ok (msg : string) : Prop :=
  TrimSpace msg <> "" /\ exists summary, summary_of msg summary /\ summary_ok summary.
Definition valid_envelope (e : Envelope) : Prop :=
  Kind e <> "" /\ Tenant e <> "" /\ au_Sub (env_Author e) <> "" /\ au_Role (env_Author e) <> "" /\
  message_ok (TrimRight1 "010" (Message e)) /\
  Forall (fun r => refTypes (ref_Type r) = true /\ ref_Target r <> "") (Refs e).

Lemma validate_message_spec raw msg :
  validate_message raw = Ok msg <-> msg = TrimRight1 "010" raw /\ message_ok msg.
Proof.
  unfold validate_message, message_ok, summary_ok. split.
  - intros H. res_inv. bool_hyps.
    match goal with H : split_message _ = Ok _ |- _ => apply split_message_spec in H end.
    split; [done|]. eauto 10.
  - intros (-> & Ht & s & Hs & Hb & Hr & Hd). apply split_message_spec in Hs.
    apply String.eqb_neq in Ht, Hb. apply Z.ltb_ge in Hr.
    unfold mbind, res_bind, refuse_if. by rewrite Ht, Hs, Hb, Hr, Hd.
Qed.

Lemma validate_ref_spec r : validate_ref r = Ok tt <-> refTypes (ref_Type r) = true /\ ref_Target r <> "".
Proof.
  unfold validate_ref, mbind, res_bind, refuse_if. rewrite <- String.eqb_neq.
  destruct (refTypes _), (String.eqb _ _); naive_solver.
Qed.

(** [Envelope.Validate] accepts exactly the well-formed envelopes, and
    changes nothing but the trailing newlines of the message. *)
Lemma Validate_iff e e' :
  Validate e = Ok e' <-> valid_envelope e /\ e' = with_Message e (TrimRight1 "010" (Message e)).
Proof.
  assert (forall l, check_all validate_ref l = Ok tt <-> Forall (fun r => refTypes (ref_Type r) = true /\ ref_Target r <> "") l) as Hr.
  { intros l. rewrite check_all_Ok. apply Forall_iff. apply validate_ref_spec. }
  unfold Validate, valid_envelope. split.
  - intros H. res_inv. bool_hyps.
    match goal with H : check_all _ _ = Ok ?u |- _ => destruct u; apply Hr in H end.
    match goal with H : validate_message _ = Ok _ |- _ => apply validate_message_spec in H as [-> H] end. eauto 10.
  - intros ((Hk & Ht & Hs & Hro & Hm & Hf) & ->). apply String.eqb_neq in Hk, Ht, Hs, Hro.
    apply Hr in Hf. pose proof (proj2 (validate_message_spec (Message e) _) (conj eq_refl Hm)) as Hv.
    unfold mbind, res_bind, refuse_if. by rewrite Hk, Ht, Hs, Hro, Hv, Hf.
Qed.

Lemma Validate_idem e e' : Validate e = Ok e' -> Validate e' = Ok e'.
Proof.
  rewrite !Validate_iff. intros (H & ->). unfold valid_envelope in *.
  cbn [with_Message Kind Tenant env_Author Message Refs]. by rewrite TrimRight1_idem.
Qed.

(** An envelope is accepted exactly when it names a kind, a tenant, an
    author and a role, its references are of known types with a target,
    and its message has a summary of at most 72 characters that does not
    end in a full stop, on its own or followed by a blank line; validation
    changes nothing but trailing newlines and is idempotent. *)
Lemma envelope_validation (e e' : Envelope) :
  Validate e = Ok e' <->
  valid_envelope e /\ e' = with_Message e (TrimRight1 "010" (Message e)) /\ Validate e' = Ok e'.
Proof.
  split.
  - intros H. pose proof (Validate_idem _ _ H). by apply Validate_iff in H as [? ?].
  - intros (H & E & _). by apply Validate_iff.
Qed.
