(* ===== verification/World.v ===== *)
(** * The running register: state and effects

    One [world] holds what a running process has: the ledger (committed
    tables, version and root), the SQL transaction a session has open,
    the keyring's cache, the last checkpoint issued, the position in the
    clock and entropy streams, what the notifier was told, the backend's
    records outside the ledger and the version before which the ledger's
    history is pruned. An
    operation is a function of the world that returns a result and the
    world it leaves; an error does not undo what happened before it. The
    store's mutex makes every operation of the register one such step. *)

From S2P Require Import Prelude GoStrings Float64 Encoding Canon Json SqlText Sql Model.
Local Open Scope Z_scope.

(** ** What is outside the program *)

(** The cryptographic primitives, with the law each round trip needs. *)
Class Crypto := {
  sha256 : string -> string;
  hmac_sha256 : string -> string -> string;
  hkdf : string -> string -> string;                                   (* secret, info: 32 bytes *)
  gcm_seal : string -> string -> string -> string -> string;           (* key, nonce, plaintext, aad *)
  gcm_open : string -> string -> string -> string -> option string;    (* key, nonce, ciphertext, aad *)
  x25519_check : string -> option error;                               (* ecdh.X25519().NewPublicKey *)
  x25519_base : string -> string;                                      (* the public half of an ephemeral key *)
  x25519_ecdh : string -> string -> res string;                        (* ephemeral, peer *)
  rsa_bits : string -> res Z;                                          (* x509.ParsePKIXPublicKey, RSA only *)
  rsa_oaep : string -> string -> string -> string -> res string;       (* public, entropy, message, label *)
  ed25519_public : string -> string;
  ed25519_sign : string -> string -> string;
  ed25519_verify : string -> string -> string -> bool;
  gcm_open_seal : forall k n p a, gcm_open k n (gcm_seal k n p a) a = Some p;
  ed25519_verify_sign : forall k m, ed25519_verify (ed25519_public k) m (ed25519_sign k m) = true;
}.

(** The process around the register: the Unix clock and [crypto/rand],
    each a stream read by position. *)
Class Process := {
  clock : nat -> Z;
  entropy : nat -> nat -> string;
  clock_int64 : forall i, int64_min <= clock i <= int64_max;
  entropy_length : forall i n, String.length (entropy i n) = n;
}.

Class Runtime := {
  rt_sql :: SqlEngine;
  rt_crypto :: Crypto;
  rt_process :: Process;
  rt_unicode :: GoUnicode;
}.

(** ** The world *)

Inductive note :=
  | TransactionCommitted (tx : Transaction)
  | CheckpointIssued (sc : SignedCheckpoint).

Record world := mkWorld {
  committed : tables;
  version : Z;
  root : string;
  txn : option tables;
  cache : gmap string string;
  lastCkpt : option SignedCheckpoint;
  tick : nat;
  rnd : nat;
  notes : list note;
  backend : gmap string string;
  horizon : Z;
}.

Definition set_ledger (db : tables) (v : Z) (rt : string) (w : world) : world :=
  mkWorld db v rt None (cache w) (lastCkpt w) (tick w) (rnd w) (notes w) (backend w) (horizon w).
Definition set_txn (t : option tables) (w : world) : world :=
  mkWorld (committed w) (version w) (root w) t (cache w) (lastCkpt w) (tick w) (rnd w) (notes w) (backend w) (horizon w).
Definition set_cache (c : gmap string string) (w : world) : world :=
  mkWorld (committed w) (version w) (root w) (txn w) c (lastCkpt w) (tick w) (rnd w) (notes w) (backend w) (horizon w).
Definition set_lastCkpt (c : option SignedCheckpoint) (w : world) : world :=
  mkWorld (committed w) (version w) (root w) (txn w) (cache w) c (tick w) (rnd w) (notes w) (backend w) (horizon w).
Definition set_tick (n : nat) (w : world) : world :=
  mkWorld (committed w) (version w) (root w) (txn w) (cache w) (lastCkpt w) n (rnd w) (notes w) (backend w) (horizon w).
Definition set_rnd (n : nat) (w : world) : world :=
  mkWorld (committed w) (version w) (root w) (txn w) (cache w) (lastCkpt w) (tick w) n (notes w) (backend w) (horizon w).
Definition set_notes (l : list note) (w : world) : world :=
  mkWorld (committed w) (version w) (root w) (txn w) (cache w) (lastCkpt w) (tick w) (rnd w) l (backend w) (horizon w).
Definition set_backend (b : gmap string string) (w : world) : world :=
  mkWorld (committed w) (version w) (root w) (txn w) (cache w) (lastCkpt w) (tick w) (rnd w) (notes w) b (horizon w).
Definition set_horizon (v : Z) (w : world) : world :=
  mkWorld (committed w) (version w) (root w) (txn w) (cache w) (lastCkpt w) (tick w) (rnd w) (notes w) (backend w) v.

(** What a session reads: its own transaction if it has one open. *)
Definition visible (w : world) : tables := default (committed w) (txn w).

(** ** The monad of operations *)

Definition M (A : Type) : Type := world -> res A * world.

#[export] Instance M_ret : MRet M := fun _ a w => (Ok a, w).
#[export] Instance M_bind : MBind M := fun _ _ k m w =>
  match m w with (Ok a, w') => k a w' | (Err e, w') => (Err e, w') end.

Definition throw {A} (e : error) : M A := fun w => (Err e, w).
Definition lift {A} (r : res A) : M A := fun w => (r, w).
Definition gets {A} (f : world -> A) : M A := fun w => (Ok (f w), w).
Definition modify (f : world -> world) : M unit := fun w => (Ok tt, f w).
Definition when (b : bool) (m : M unit) : M unit := if b then m else mret tt.
Definition guard_ (refuse : bool) (e : error) : M unit := lift (refuse_if refuse e).

(** [if v, err := m; err == nil { ... }]: the error is dropped. *)
Definition attempt {A} (m : M A) : M (option A) := fun w =>
  match m w with (Ok a, w') => (Ok (Some a), w') | (Err _, w') => (Ok None, w') end.

(** [fmt.Errorf("...: %w", err)] around a call. *)
Definition wrapping {A} (fmt : string) (args : list string) (m : M A) : M A := fun w =>
  match m w with (Ok a, w') => (Ok a, w') | (Err e, w') => (Err (Wrapf fmt args e), w') end.

Fixpoint each {A} (f : A -> M unit) (l : list A) : M unit :=
  match l with [] => mret tt | x :: l => _ ← f x; each f l end.
Fixpoint traverse {A B} (f : A -> M B) (l : list A) : M (list B) :=
  match l with [] => mret [] | x :: l => y ← f x; ys ← traverse f l; mret (y :: ys) end.
Fixpoint fold {A B} (f : B -> A -> M B) (l : list A) (acc : B) : M B :=
  match l with [] => mret acc | x :: l => acc ← f acc x; fold f l acc end.

Section primitives.
Context `{Runtime}.

(** [opts.Now().UTC().Unix()]. *)
Definition now : M Z := fun w => (Ok (clock (tick w)), set_tick (S (tick w)) w).
(** [rand.Read]. *)
Definition random (n : nat) : M string := fun w => (Ok (entropy (rnd w) n), set_rnd (S (rnd w)) w).

(** A commit of the ledger: the tables become [db] and the version and
    the root move as the ledger decides. *)
Definition publish (db : tables) (w : world) : world :=
  let '(v, rt) := ledger_commit (committed w) db (version w) (root w) in set_ledger db v rt w.

Definition is_read (s : stmt) : bool :=
  match s with SSelect _ _ _ _ | SQuery _ | SJoin _ => true | _ => false end.

(** [Tx.Query]: one statement on the session. Between [SBegin] and
    [SCommit] statements act on the transaction's own tables; outside,
    a statement that modifies data is a commit of its own. *)
Definition query (s : stmt) : M (list Row) := fun w =>
  match run_stmt (visible w) s with
  | Err e => (Err e, w)
  | Ok (l, db) =>
      match s with
      | SBegin => (Ok [], set_txn (Some db) (match txn w with Some open => publish open w | None => w end))
      | SCommit => (Ok [], match txn w with Some open => publish open w | None => w end)
      | SRollback => (Ok [], set_txn None w)
      | _ =>
          if is_read s then (Ok l, w)
          else match txn w with
               | Some _ => (Ok l, set_txn (Some db) w)
               | None => (Ok l, publish db w)
               end
      end
  end.

Definition exec (s : stmt) : M unit := _ ← query s; mret tt.
(** [Tx.QueryOne]. *)
Definition query_one (s : stmt) : M (option Row) := l ← query s; mret (head l).
(** [Tx.Count] of a [SELECT COUNT( * )]. *)
Definition count (t : string) (w : where_) : M Z :=
  l ← query (SSelect t w None None); mret (Z.of_nat (length l)).
Definition select_one (t : string) (w : where_) : M (option Row) := query_one (SSelect t w None None).

Definition current : M (string * Z) := gets (fun w => (root w, version w)).
End primitives.

(** ** Reasoning about operations *)

Lemma M_bind_Ok {A B} (m : M A) (k : A -> M B) w b w' :
  (m ≫= k) w = (Ok b, w') <-> exists a w1, m w = (Ok a, w1) /\ k a w1 = (Ok b, w').
Proof. unfold mbind, M_bind. destruct (m w) as [[a|e] w1]; naive_solver. Qed.

Lemma M_bind_Err {A B} (m : M A) (k : A -> M B) w e w' :
  (m ≫= k) w = (Err e, w') <->
  m w = (Err e, w') \/ exists a w1, m w = (Ok a, w1) /\ k a w1 = (Err e, w').
Proof. unfold mbind, M_bind. destruct (m w) as [[a|e'] w1]; naive_solver. Qed.

Lemma M_ret_inv {A} (a : A) w r w' : (mret a : M A) w = (r, w') -> r = Ok a /\ w' = w.
Proof. unfold mret, M_ret. naive_solver. Qed.
Lemma lift_inv {A} (x : res A) w r w' : lift x w = (r, w') -> x = r /\ w' = w.
Proof. unfold lift. naive_solver. Qed.
Lemma guard_Ok c e w u w' : guard_ c e w = (Ok u, w') <-> c = false /\ w' = w.
Proof. unfold guard_, lift, refuse_if. destruct c, u; naive_solver. Qed.

(** Invert a successful run into the runs of its steps. *)
Ltac m_step :=
  match goal with
  | H : (Ok _, _) = (Ok _, _) |- _ => injection H as ? ?; subst
  | H : (Err _, _) = (Err _, _) |- _ => injection H as ? ?; subst
  | H : (Ok _, _) = (Err _, _) |- _ => discriminate H
  | H : (Err _, _) = (Ok _, _) |- _ => discriminate H
  | H : @mbind M _ _ _ _ _ _ = (Ok _, _) |- _ =>
      apply M_bind_Ok in H; destruct H as (? & ? & ? & ?)
  | H : @mret M _ _ _ _ = (_, _) |- _ => apply M_ret_inv in H; destruct H as [H ?]; subst
  | H : lift _ _ = (_, _) |- _ => apply lift_inv in H; destruct H as [? ?]; subst
  | H : throw _ _ = (Ok _, _) |- _ => discriminate H
  | H : guard_ _ _ _ = (Ok _, _) |- _ => apply guard_Ok in H; destruct H as [? ?]; subst
  | H : Ok _ = Ok _ |- _ => injection H as H; subst
  end.
Ltac m_inv := repeat m_step.

(** ** Operations that leave the database alone

    Reads may fill the keyring's cache and consume clock and entropy;
    what they do not touch is the ledger, the open transaction, the last
    checkpoint and the notifications. *)
Definition same_db (w w' : world) : Prop :=
  committed w' = committed w /\ version w' = version w /\ root w' = root w /\
  txn w' = txn w /\ lastCkpt w' = lastCkpt w /\ notes w' = notes w.

#[export] Instance same_db_equiv : Equivalence same_db.
Proof. unfold same_db. split; [intros x|intros x y|intros x y z]; intuition congruence. Qed.

#[export] Instance visible_proper : Proper (same_db ==> eq) visible.
Proof. unfold same_db, visible. intros x y (-> & _ & _ & -> & _). done. Qed.

Definition ro {A} (m : M A) : Prop := forall w r w', m w = (r, w') -> same_db w w'.

Lemma ro_ret {A} (a : A) : ro (mret a : M A).
Proof. by intros w r w' [-> ->]%M_ret_inv. Qed.
Lemma ro_lift {A} (x : res A) : ro (lift x).
Proof. by intros w r w' [-> ->]%lift_inv. Qed.
Lemma ro_throw {A} (e : error) : ro (throw (A:=A) e).
Proof. intros w r w' [= <- <-]. done. Qed.
Lemma ro_gets {A} (f : world -> A) : ro (gets f).
Proof. intros w r w' [= <- <-]. done. Qed.
Lemma ro_guard c e : ro (guard_ c e).
Proof. apply ro_lift. Qed.
Lemma ro_bind {A B} (m : M A) (k : A -> M B) : ro m -> (forall a, ro (k a)) -> ro (m ≫= k).
Proof.
  intros Hm Hk w r w' E. unfold mbind, M_bind in E. destruct (m w) as [[a|e] w1] eqn:Em.
  - etrans; [by eapply Hm|by eapply Hk].
  - injection E as <- <-. by eapply Hm.
Qed.
Lemma ro_attempt {A} (m : M A) : ro m -> ro (attempt m).
Proof. intros Hm w r w' E. unfold attempt in E. destruct (m w) as [[a|e] w1] eqn:Em; injection E as <- <-; by eapply Hm. Qed.
Lemma ro_wrapping {A} fmt args (m : M A) : ro m -> ro (wrapping fmt args m).
Proof. intros Hm w r w' E. unfold wrapping in E. destruct (m w) as [[a|e] w1] eqn:Em; injection E as <- <-; by eapply Hm. Qed.
Lemma ro_each {A} (f : A -> M unit) l : (forall x, ro (f x)) -> ro (each f l).
Proof. intros Hf. induction l as [|x l IH]; [apply ro_ret|]. by apply ro_bind. Qed.
Lemma ro_traverse {A B} (f : A -> M B) l : (forall x, ro (f x)) -> ro (traverse f l).
Proof.
  intros Hf. induction l as [|x l IH]; [apply ro_ret|]. apply ro_bind; [done|].
  intros y. apply ro_bind; [done|]. intros ys. apply ro_ret.
Qed.
Lemma ro_fold {A B} (f : B -> A -> M B) l : (forall b x, ro (f b x)) -> forall acc, ro (fold f l acc).
Proof. intros Hf. induction l as [|x l IH]; intros acc; [apply ro_ret|]. apply ro_bind; [done|]. done. Qed.
Lemma ro_match_option {A B} (o : option A) (f : A -> M B) (g : M B) :
  (forall a, ro (f a)) -> ro g -> ro (match o with Some a => f a | None => g end).
Proof. by destruct o. Qed.
Lemma ro_if {A} (b : bool) (m1 m2 : M A) : ro m1 -> ro m2 -> ro (if b then m1 else m2).
Proof. by destruct b. Qed.

Section ro_primitives.
Context `{Runtime}.
Lemma ro_now : ro now.
Proof. intros w r w' [= <- <-]. done. Qed.
Lemma ro_random n : ro (random n).
Proof. intros w r w' [= <- <-]. done. Qed.
Lemma ro_query s : is_read s = true -> ro (query s).
Proof.
  intros Hs w r w' E. unfold query in E. destruct (run_stmt _ s) as [[l db]|e]; [|by injection E as <- <-].
  destruct s; try discriminate Hs; cbn in E; by injection E as <- <-.
Qed.
Lemma ro_query_one s : is_read s = true -> ro (query_one s).
Proof. intros Hs. apply ro_bind; [by apply ro_query|]. intros l. apply ro_ret. Qed.
Lemma ro_select_one t w : ro (select_one t w).
Proof. by apply ro_query_one. Qed.
Lemma ro_count t w : ro (count t w).
Proof. apply ro_bind; [by apply ro_query|]. intros l. apply ro_ret. Qed.
End ro_primitives.

Create HintDb ro.
#[export] Hint Resolve ro_ret ro_lift ro_throw ro_gets ro_guard ro_now ro_random ro_query ro_query_one
  ro_select_one ro_count : ro.
#[export] Hint Extern 1 (is_read _ = true) => reflexivity : ro.

(** Decompose a read-only operation along its structure. *)
Ltac ro_tac :=
  repeat (intros; first
    [ solve [eauto with ro nocore]
    | apply ro_bind | apply ro_attempt | apply ro_wrapping | apply ro_each | apply ro_traverse | apply ro_fold
    | match goal with |- ro (match ?x with _ => _ end) => destruct x end
    | match goal with |- ro (when ?b _) => unfold when end ]).

(** ** Statements that modify data *)
Section writes.
Context `{Runtime}.

Definition is_control (s : stmt) : bool :=
  match s with SBegin | SCommit | SRollback => true | _ => false end.

(** The world after a data-modifying statement that left [db]. *)
Definition put (db : tables) (w : world) : world :=
  match txn w with Some _ => set_txn (Some db) w | None => publish db w end.

Lemma visible_publish db w : visible (publish db w) = db.
Proof. unfold publish, visible, set_ledger. by destruct (ledger_commit _ _ _ _). Qed.

Lemma visible_put db w : visible (put db w) = db.
Proof. unfold put. destruct (txn w); [done|]. apply visible_publish. Qed.

Lemma txn_publish db w : txn (publish db w) = None.
Proof. unfold publish, set_ledger. by destruct (ledger_commit _ _ _ _). Qed.

Lemma put_txn db db' w : txn w = Some db -> put db' w = set_txn (Some db') w.
Proof. unfold put. by intros ->. Qed.

Lemma query_write s w l w' :
  is_read s = false -> is_control s = false ->
  query s w = (Ok l, w') -> exists db, run_stmt (visible w) s = Ok (l, db) /\ w' = put db w.
Proof.
  intros Hr Hc E. unfold query in E. destruct (run_stmt _ s) as [[l' db]|e]; [|done].
  exists db. unfold put. destruct s; try discriminate Hc; cbn in E; cbn in Hr; rewrite ?Hr in E;
    destruct (txn w); try done; by injection E as <- <-.
Qed.

Lemma exec_write s w u w' :
  is_read s = false -> is_control s = false ->
  exec s w = (Ok u, w') -> exists l db, run_stmt (visible w) s = Ok (l, db) /\ w' = put db w.
Proof.
  intros Hr Hc E. unfold exec in E. m_inv.
  match goal with H : query _ _ = _ |- _ => apply query_write in H as (db & ? & ->) end; eauto.
Qed.

(** A failed statement changes nothing. *)
Lemma query_Err s w e w' : query s w = (Err e, w') -> w' = w.
Proof.
  unfold query. destruct (run_stmt _ s) as [[l db]|e']; [|naive_solver].
  destruct s; cbn; try done; destruct (txn w); done.
Qed.

Lemma exec_Err s w e w' : exec s w = (Err e, w') -> w' = w.
Proof.
  unfold exec. intros [E|(a & w1 & _ & E)]%M_bind_Err; [by eapply query_Err|].
  apply M_ret_inv in E as [E _]. done.
Qed.

Lemma query_read s w l w' :
  is_read s = true -> query s w = (Ok l, w') -> w' = w /\ exists db, run_stmt (visible w) s = Ok (l, db).
Proof.
  intros Hr E. unfold query in E. destruct (run_stmt _ s) as [[l' db]|e]; [|done].
  destruct s; try discriminate Hr; cbn in E; injection E as -> ->; eauto.
Qed.

(** A SELECT that succeeds returns the rows that match. *)
Lemma select_Ok t c o n w l w' :
  query (SSelect t c o n) w = (Ok l, w') ->
  w' = w /\ exists m, visible w !! t = Some m /\ l = select_rows c o n m.
Proof.
  intros E. apply query_read in E as (-> & db & E); [|done]. split; [done|].
  run_inv E. res_inv. eauto.
Qed.

Lemma count_Ok t c w n w' :
  count t c w = (Ok n, w') ->
  w' = w /\ exists m, visible w !! t = Some m /\ n = Z.of_nat (length (select_rows c None None m)).
Proof.
  unfold count. intros E. m_inv.
  match goal with H : query _ _ = _ |- _ => apply select_Ok in H as (-> & m & ? & ->) end. eauto.
Qed.

Lemma select_one_Ok t c w r w' :
  select_one t c w = (Ok r, w') ->
  w' = w /\ exists m, visible w !! t = Some m /\ r = head (select_rows c None None m).
Proof.
  unfold select_one, query_one. intros E. m_inv.
  match goal with H : query _ _ = _ |- _ => apply select_Ok in H as (-> & m & ? & ->) end. eauto.
Qed.

(** Looking a row up by its primary key. *)
Lemma select_one_key t key w r w' :
  wf_db (visible w) -> key_ok t key ->
  select_one t (key_where t key) w = (Ok r, w') ->
  w' = w /\ exists m, visible w !! t = Some m /\ r = m !! (lit <$> key).
Proof.
  intros W K E. apply select_one_Ok in E as (-> & m & Hm & ->). split; [done|]. exists m. split; [done|].
  rewrite select_key by (done || by apply W). by destruct (m !! _).
Qed.
End writes.

(** ** The store's invariant

    Both the committed tables and those of an open transaction are well
    formed. Every operation keeps it, whatever it is given, because every
    change goes through a statement. *)
Section store_wf.
Context `{Runtime}.

Definition store_wf (w : world) : Prop :=
  wf_db (committed w) /\ (forall db, txn w = Some db -> wf_db db).

Definition keeps {A} (m : M A) : Prop := forall w r w', store_wf w -> m w = (r, w') -> store_wf w'.

Lemma store_wf_visible w : store_wf w -> wf_db (visible w).
Proof. intros [Hc Ht]. unfold visible. destruct (txn w) eqn:E; [by apply Ht|done]. Qed.

Lemma store_wf_publish db w : wf_db db -> store_wf (publish db w).
Proof.
  intros W. unfold store_wf. rewrite txn_publish. split; [|done].
  unfold publish, set_ledger. by destruct (ledger_commit _ _ _ _).
Qed.

Lemma store_wf_txn db w : store_wf w -> wf_db db -> store_wf (set_txn (Some db) w).
Proof. intros [Hc _] W. split; [done|]. cbn. by intros ? [= <-]. Qed.

Lemma store_wf_same w w' : same_db w w' -> store_wf w -> store_wf w'.
Proof. intros (Hc & _ & _ & Ht & _) [W1 W2]. unfold store_wf. by rewrite Hc, Ht. Qed.

Lemma keeps_ro {A} (m : M A) : ro m -> keeps m.
Proof. intros Hm w r w' W E. eapply store_wf_same; [by eapply Hm|done]. Qed.

Lemma keeps_query s : keeps (query s).
Proof.
  intros w r w' W E. unfold query in E. destruct (run_stmt (visible w) s) as [[l db]|e] eqn:Er; [|by injection E as <- <-].
  pose proof (run_stmt_wf _ _ _ _ (store_wf_visible _ W) Er) as W1. pose proof W as [Wc Wt].
  assert (forall open, txn w = Some open -> store_wf (publish open w)) as Hp by (intros; apply store_wf_publish; auto).
  assert (store_wf (publish db w)) as Hd by (by apply store_wf_publish).
  assert (store_wf (set_txn (Some db) w)) as Ht by (by apply store_wf_txn).
  destruct s; cbn in E; destruct (txn w) as [open|] eqn:Eo; injection E as <- <-; try done; auto.
  all: first [by split | split; [by apply Hp|]; cbn; by intros ? [= <-]].
Qed.

Lemma keeps_bind {A B} (m : M A) (k : A -> M B) : keeps m -> (forall a, keeps (k a)) -> keeps (m ≫= k).
Proof.
  intros Hm Hk w r w' W E. unfold mbind, M_bind in E. destruct (m w) as [[a|e] w1] eqn:Em.
  - eapply Hk; [|done]. by eapply Hm.
  - injection E as <- <-. by eapply Hm.
Qed.
Lemma keeps_exec s : keeps (exec s).
Proof. apply keeps_bind; [apply keeps_query|]. intros. apply keeps_ro, ro_ret. Qed.
Lemma keeps_attempt {A} (m : M A) : keeps m -> keeps (attempt m).
Proof. intros Hm w r w' W E. unfold attempt in E. destruct (m w) as [[a|e] w1] eqn:Em; injection E as <- <-; by eapply Hm. Qed.
Lemma keeps_wrapping {A} fmt args (m : M A) : keeps m -> keeps (wrapping fmt args m).
Proof. intros Hm w r w' W E. unfold wrapping in E. destruct (m w) as [[a|e] w1] eqn:Em; injection E as <- <-; by eapply Hm. Qed.
Lemma keeps_each {A} (f : A -> M unit) l : (forall x, keeps (f x)) -> keeps (each f l).
Proof. intros Hf. induction l as [|x l IH]; [apply keeps_ro, ro_ret|]. by apply keeps_bind. Qed.
Lemma keeps_fold {A B} (f : B -> A -> M B) l : (forall b x, keeps (f b x)) -> forall acc, keeps (fold f l acc).
Proof. intros Hf. induction l as [|x l IH]; intros acc; [apply keeps_ro, ro_ret|]. by apply keeps_bind. Qed.
Lemma keeps_notes f : keeps (modify (fun w => set_notes (f w) w)).
Proof. intros w r w' W [= <- <-]. exact W. Qed.
Lemma keeps_lastCkpt f : keeps (modify (fun w => set_lastCkpt (f w) w)).
Proof. intros w r w' W [= <- <-]. exact W. Qed.
End store_wf.

Create HintDb keeps.
#[export] Hint Resolve keeps_query keeps_exec keeps_notes keeps_lastCkpt : keeps.

(** Decompose an operation along its structure. *)
Ltac keeps_step :=
  match goal with
  | |- forall _, _ => intro
  | |- keeps _ => solve [eauto with keeps nocore]
  | |- keeps (@mbind M _ _ _ _ _) => apply keeps_bind
  | |- keeps (attempt _) => apply keeps_attempt
  | |- keeps (wrapping _ _ _) => apply keeps_wrapping
  | |- keeps (each _ _) => apply keeps_each
  | |- keeps (fold _ _ _) => apply keeps_fold
  | |- keeps (when ?b _) => unfold when
  | |- keeps (match ?x with _ => _ end) => destruct x
  | |- keeps _ => apply keeps_ro; solve [ro_tac]
  end.
Ltac keeps_tac := repeat keeps_step.

(** ** Operations that, when they succeed, leave the world as it was *)
Section still.
Context `{Runtime}.

Definition still {A} (m : M A) : Prop := forall w a w', m w = (Ok a, w') -> w' = w.

Lemma still_ret {A} (a : A) : still (mret a : M A).
Proof. by intros w b w' [_ ->]%M_ret_inv. Qed.
Lemma still_lift {A} (x : res A) : still (lift x).
Proof. by intros w b w' [_ ->]%lift_inv. Qed.
Lemma still_throw {A} (e : error) : still (throw (A:=A) e).
Proof. by intros w b w' E. Qed.
Lemma still_gets {A} (f : world -> A) : still (gets f).
Proof. by intros w b w' [= _ <-]. Qed.
Lemma still_bind {A B} (m : M A) (k : A -> M B) : still m -> (forall a, still (k a)) -> still (m ≫= k).
Proof. intros Hm Hk w b w' (a & w1 & E1 & E2)%M_bind_Ok. apply Hm in E1 as ->. by eapply Hk. Qed.
Lemma still_wrapping {A} fmt args (m : M A) : still m -> still (wrapping fmt args m).
Proof. intros Hm w a w' E. unfold wrapping in E. destruct (m w) as [[b|e] w1] eqn:Em; [|done]. injection E as <- <-. by eapply Hm. Qed.
Lemma still_each {A} (f : A -> M unit) l : (forall x, still (f x)) -> still (each f l).
Proof. intros Hf. induction l as [|x l IH]; [apply still_ret|]. by apply still_bind. Qed.
Lemma still_fold {A B} (f : B -> A -> M B) l : (forall b x, still (f b x)) -> forall acc, still (fold f l acc).
Proof. intros Hf. induction l as [|x l IH]; intros acc; [apply still_ret|]. by apply still_bind. Qed.
Lemma still_query s : is_read s = true -> still (query s).
Proof. intros Hs w l w' E. by apply query_read in E as [-> _]. Qed.
End still.

Create HintDb still.
#[export] Hint Resolve still_ret still_lift still_throw still_gets still_query : still.
#[export] Hint Extern 1 (is_read _ = true) => reflexivity : still.
Ltac still_step :=
  match goal with
  | |- forall _, _ => intro
  | |- still _ => solve [eauto with still nocore]
  | |- still (@mbind M _ _ _ _ _) => apply still_bind
  | |- still (wrapping _ _ _) => apply still_wrapping
  | |- still (each _ _) => apply still_each
  | |- still (fold _ _ _) => apply still_fold
  | |- still (guard_ _ _) => unfold guard_
  | |- still (select_one _ _) => unfold select_one
  | |- still (query_one _) => unfold query_one
  | |- still (count _ _) => unfold count
  | |- still (when ?b _) => unfold when
  | |- still (match ?x with _ => _ end) => destruct x
  end.
Ltac still_tac := repeat still_step.
