(* ===== verification/Concrete.v ===== *)
(** * A concrete runtime

    The parameters of the development instantiated by plain functions: an
    engine that refuses nothing and scans in key order, a ledger that
    numbers its commits, a checksum for a hash, a cipher that keeps the
    plaintext. It is no model of the real ones; it is there so that
    theorems with hypotheses about the parameters have instances, and so
    that whole operations can be run inside the kernel. *)

From S2P Require Import Prelude GoStrings Float64 Encoding Canon Json SqlText Sql Model World.
Local Open Scope Z_scope.

Definition plain_convert (ty : coltype) (v : sqlval) : option sqlval :=
  if decide (has_type ty v) then Some v else None.

Definition plain_next_seq (db : tables) : Z :=
  let m := default ∅ (db !! "transactions") in
  Z.min (2 ^ 64 - 1) (1 + foldr (fun r acc => Z.max (Uint r "seq") acc) 0 (rows m)).

Definition checksum (s : string) : Z :=
  foldr (fun a acc => Z.land (byte_Z a + acc + Z.shiftl acc 8) (Z.ones 64)) 7 (bytes_of s).

Fixpoint bytes_le (n : nat) (z : Z) : string :=
  match n with
  | O => ""
  | S n => String (Z_byte (Z.land z 255)) (bytes_le n (Z.shiftr z 8))
  end.

Definition plain_hash (s : string) : string := bytes_le 32 (checksum s).

Definition plain_root (v : Z) : string := hex_encode (bytes_le 32 v).

#[program] Definition plain_engine : SqlEngine := {|
  sql_refuses _ _ := None;
  sql_convert := plain_convert;
  sql_scan l := l;
  sql_mixed _ _ := None;
  sql_next_seq := plain_next_seq;
  sql_query _ _ := [<["count" := SInt 0]> ∅];
  ledger_commit _ _ v _ := (to_uint64 (v + 1), plain_root (to_uint64 (v + 1)));
|}.
Next Obligation. intros ty v w. unfold plain_convert. destruct (decide _); naive_solver. Qed.
Next Obligation. intros ty v w _. unfold plain_convert. destruct (decide _); naive_solver. Qed.
Next Obligation.
  intros db. unfold plain_next_seq. cbn -[Z.pow].
  enough (0 <= foldr (fun r acc => Z.max (Uint r "seq") acc) 0 (rows (default ∅ (db !! "transactions")))) by lia.
  induction (rows _) as [|r l IH]; simpl; lia.
Qed.
Next Obligation. done. Qed.

#[program] Definition plain_crypto : Crypto := {|
  sha256 := plain_hash;
  hmac_sha256 k m := plain_hash (k +:+ "|" +:+ m);
  hkdf s i := plain_hash (s +:+ i);
  gcm_seal k n p a := "sealed:" +:+ p;
  gcm_open k n c a := if HasPrefix c "sealed:" then Some (str_drop 7 c) else None;
  x25519_check _ := None;
  x25519_base e := e;
  x25519_ecdh e p := Ok (e +:+ p);
  rsa_bits _ := Ok 2048;
  rsa_oaep pub e m l := Ok (pub +:+ m);
  ed25519_public k := k;
  ed25519_sign k m := plain_hash (k +:+ m);
  ed25519_verify k m s := String.eqb s (plain_hash (k +:+ m));
|}.
Next Obligation.
  intros k n p a. change (Some (str_drop (String.length "sealed:") ("sealed:" +:+ p)) = Some p).
  by rewrite str_drop_app.
Qed.
Next Obligation. intros k m. apply String.eqb_refl. Qed.

#[program] Definition plain_process : Process := {|
  clock i := Z.min (1700000000 + Z.of_nat i) int64_max;
  entropy i n := bytes_le n (checksum (itoa (Z.of_nat i)));
|}.
Next Obligation. intros i. unfold int64_min, int64_max. lia. Qed.
Next Obligation.
  intros i n. enough (forall z, String.length (bytes_le n z) = n) as Hl by apply Hl.
  induction n as [|n IH]; intros z; cbn; [done|]. by rewrite IH.
Qed.

Definition plain_runtime : Runtime := {|
  rt_sql := plain_engine;
  rt_crypto := plain_crypto;
  rt_process := plain_process;
  rt_unicode := {| unicode_ToLower r := r; strconv_Quote s := String quote_char (s +:+ String quote_char "") |};
|}.

(** A register whose base tables exist and are empty. *)
Definition empty_tables : tables := list_to_map ((fun t => (t.1, ∅)) <$> baseTables).
Definition fresh_world : world := mkWorld empty_tables 1 (plain_root 1) None ∅ None 0 0 [] ∅ 0.

Lemma empty_tables_wf `{SqlEngine} : wf_db empty_tables.
Proof.
  intros t m Hm. apply elem_of_list_to_map_2 in Hm. apply list_elem_of_fmap in Hm as ([t' d] & [= -> ->] & _).
  apply wf_table_empty.
Qed.

Lemma plain_moves_one (a b : tables) (v : Z) (rt : string) :
  (@ledger_commit plain_engine a b v rt).1 = to_uint64 (v + 1).
Proof. done. Qed.
