(* ===== verification/Commit.v ===== *)
(** * Transactions ([internal/register/register.go])

    Every change of the register is a commit envelope and a write set,
    hashed together into the transaction id and landed as one ledger
    commit. This file models [commit], [apply], [applyOne], [substitute]
    and [replayPending], and states what a write set does to the tables:
    [effects]. *)

From S2P Require Import Prelude GoStrings Float64 Encoding Canon Json SqlText Sql Model World Concrete.
Local Open Scope Z_scope.

Record Options := mkOptions {
  opt_Name : string;
  opt_Tenant : string;
  opt_ImageDigest : string;
  opt_KeySource : string;
}.

(** [register.pkColumns]. *)
Definition pkColumns : list (string * list string) :=
  [("objects", ["id"]);
   ("natural_keys", ["tenant"; "class"; "natural_key"]);
   ("record_versions", ["object_id"; "version"]);
   ("schemas", ["id"]);
   ("policies", ["id"]);
   ("tasks", ["id"]);
   ("keks", ["id"]);
   ("dek_keys", ["scope"]);
   ("prune_marks", ["txid"; "idx"]);
   ("webhooks", ["id"]);
   ("members", ["id"]);
   ("profiles", ["sub"]);
   ("invites", ["id"]);
   ("invite_recipients", ["id"]);
   ("registry", ["k"])].

Definition keyColumnsFor (t : string) : option (list string) :=
  match assoc t pkColumns with
  | Some cols => Some cols
  | None => if HasPrefix t "q_" then Some ["object_id"] else None
  end.

(** [register.substitute]. *)
Definition substitute (txid : string) (v : value) : value :=
  match v with
  | VStr s => if String.eqb s TxIDPlaceholder then VStr txid else v
  | VBinary s => VBytes s
  | VObj _ => match DecodeBinary v with Some s => VBytes s | None => v end
  | VFloat f => if feq f (of_Z (int64_of_float f)) then VInt (int64_of_float f) else v
  | VNumber s =>
      match ParseInt64 s with
      | (i, true) => VInt i
      | _ => VFloat (fst (ParseFloat s))
      end
  | _ => v
  end.

Definition subst_obj (txid : string) (m : object) : object :=
  (fun kv => (kv.1, substitute txid kv.2)) <$> m.

(** [for col, v := range key { values[col] = v }]. *)
Definition obj_override (values key : object) : object :=
  fold_left (fun acc kv => obj_set kv.1 kv.2 acc) key values.

Section commit.
Context `{Runtime}.

Definition key_value (txid : string) (op : WriteOp) (c : string) : value :=
  substitute txid (default VNull (obj_get c (Key op))).

(** [Register.applyOne]. *)
Definition applyOne (txid : string) (op : WriteOp) : M unit :=
  keyCols ← lift (match keyColumnsFor (Table op) with
                  | Some cols => Ok cols
                  | None => if String.eqb (Table op) "tx_refs" then Ok ["txid"; "idx"]
                            else Err (Errorf "unknown table" [])
                  end);
  _ ← lift (check_all (fun c => match obj_get c (Key op) with
                                | Some _ => Ok tt
                                | None => Err (Errorf "key column %q is missing" [c]) end) keyCols);
  let where_ := (fun c => is_ c (key_value txid op c)) <$> keyCols in
  if Delete op then exec (SDelete (Table op) where_)
  else
    let values := subst_obj txid (Values op) in
    exists_ ← count (Table op) where_;
    if 0 <? exists_ then
      match values with [] => mret tt | _ => exec (SUpdate (Table op) values where_) end
    else exec (SInsert (Table op) (obj_override values (subst_obj txid (Key op)))).

Definition ref_op (txid : string) (i : nat) (r : Ref) : WriteOp :=
  upsert "tx_refs" [("txid", VStr txid); ("idx", VInt (Z.of_nat i))]
    [("ref_type", VStr (ref_Type r)); ("target", VStr (ref_Target r))].

Fixpoint apply_ops (txid : string) (i : nat) (ops : list WriteOp) : M unit :=
  match ops with
  | [] => mret tt
  | op :: ops =>
      _ ← wrapping "register: write set entry %d (%s): %w" [itoa (Z.of_nat i); Table op] (applyOne txid op);
      apply_ops txid (S i) ops
  end.
Fixpoint apply_refs (txid : string) (i : nat) (refs : list Ref) : M unit :=
  match refs with
  | [] => mret tt
  | r :: refs =>
      _ ← wrapping "register: reference %d: %w" [itoa (Z.of_nat i)] (applyOne txid (ref_op txid i r));
      apply_refs txid (S i) refs
  end.

(** [Register.apply]. *)
Definition apply (txid : string) (env : Envelope) (ops : list WriteOp) : M unit :=
  _ ← apply_ops txid 0 ops;
  apply_refs txid 0 (Refs env).

(** [register.transactionID]. *)
Definition transactionID (env : Envelope) (ops : list WriteOp) : res string :=
  body ← Marshal (VObj [("envelope", env_value env); ("write_set", ops_value ops)]);
  Ok (hex_encode (sha256 body)).

(** [register.decodeTransaction]. *)
Definition decodeTransaction (row : Row) : res Transaction :=
  let txid := Str row "txid" in
  env ← (if String.eqb (Bytes row "envelope") "" then Ok (mkEnvelope "" "" "" "" [] (mkAuthor "" "" "") 0 "" [])
         else match (v ← parse_raw (Bytes row "envelope"); decode_env v) with
              | Ok e => Ok e
              | Err e => Err (Wrapf "register: transaction %s: envelope: %w" [txid] e)
              end);
  ops ← (if String.eqb (Bytes row "write_set") "" then Ok []
         else match (v ← parse_raw (Bytes row "write_set"); decode_ops v) with
              | Ok o => Ok o
              | Err e => Err (Wrapf "register: transaction %s: write set: %w" [txid] e)
              end);
  Ok (mkTransaction (Uint row "seq") txid env ops (Str row "state") (Str row "root_before")
        (Uint row "version_before") (Uint row "version_after")).

Definition transactionByID (txid : string) : M (option Transaction) :=
  row ← select_one "transactions" [is_ "txid" (VStr txid)];
  match row with
  | None => mret None
  | Some row => t ← lift (decodeTransaction row); mret (Some t)
  end.

(** [defer func() { if !committed { tx.Rollback() } }()]. *)
Definition with_rollback {A} (m : M A) : M A := fun w =>
  match m w with
  | (Ok a, w') => (Ok a, w')
  | (Err e, w') => (Err e, (exec SRollback w').2)
  end.

(** [Store.Do]: one session, gone at the end with whatever transaction
    it had open. *)
Definition Do {A} (m : M A) : M A := fun w => let '(r, w') := m w in (r, set_txn None w').

Definition check_op (op : WriteOp) : res unit :=
  _ ← (match keyColumnsFor (Table op) with
       | Some _ => Ok tt
       | None => Err (Errorf "register: write set touches unknown table %q" [Table op])
       end);
  refuse_if (match Key op with [] => true | _ => false end)
    (Errorf "register: write set entry for %q has no key" [Table op]).

Definition transaction_row (txid : string) (env : Envelope) (rootBefore : string) (versionBefore : Z)
    (envelope writeSet : string) : object :=
  [("txid", VStr txid); ("tenant", VStr (Tenant env)); ("kind", VStr (Kind env));
   ("class", VStr (env_Class env)); ("object_id", VStr (default "" (head (ObjectIDs env))));
   ("author_sub", VStr (au_Sub (env_Author env))); ("author_display", VStr (au_Display (env_Author env)));
   ("author_role", VStr (au_Role (env_Author env))); ("summary", VStr (clip (Summary env) 255));
   ("created_at", VInt (Timestamp env)); ("state", VStr TxApplied);
   ("root_before", VStr rootBefore); ("version_before", VInt versionBefore);
   ("version_after", VInt (to_uint64 (versionBefore + 1)));
   ("envelope", VBytes envelope); ("write_set", VBytes writeSet)].

(** What happens between [BEGIN] and the end of [COMMIT]. *)
Definition commit_body (txid : string) (env : Envelope) (ops : list WriteOp)
    (rootBefore : string) (versionBefore : Z) : M unit :=
  writeSet ← lift (Marshal (ops_value ops));
  envelope ← lift (Marshal (env_value env));
  _ ← wrapping "register: record transaction: %w" []
        (exec (SInsert "transactions" (transaction_row txid env rootBefore versionBefore envelope writeSet)));
  _ ← apply txid env ops;
  wrapping "register: commit transaction: %w" [] (exec SCommit).

(** [Register.commit]. *)
Definition commit (env : Envelope) (ops : list WriteOp) : M Transaction :=
  env ← lift (Validate env);
  _ ← lift (check_all check_op ops);
  txid ← lift (transactionID env ops);
  existing ← transactionByID txid;
  match existing with
  | Some t => mret t
  | None =>
      before ← current;
      let '(rootBefore, versionBefore) := before in
      _ ← wrapping "register: open transaction: %w" [] (exec SBegin);
      _ ← with_rollback (commit_body txid env ops rootBefore versionBefore);
      after ← current;
      _ ← guard_ (negb (after.2 =? to_uint64 (versionBefore + 1)))
            (Errorf "register: %s moved the ledger %d → %d; an action must be one commit"
               [txid; itoa versionBefore; itoa after.2]);
      row ← attempt (select_one "transactions" [is_ "txid" (VStr txid)]);
      let seq := match row with Some (Some row) => Uint row "seq" | _ => 0 end in
      let out := mkTransaction seq txid env ops TxApplied rootBefore versionBefore (to_uint64 (versionBefore + 1)) in
      _ ← modify (fun w => set_notes (notes w ++ [TransactionCommitted out]) w);
      mret out
  end.

(** [Register.replayPending], one pending transaction. *)
Definition replay_one (row : Row) : M unit :=
  let txid := Str row "txid" in
  env ← wrapping "register: replay %s: envelope: %w" [txid]
          (lift (v ← parse_raw (Bytes row "envelope"); decode_env v));
  ops ← wrapping "register: replay %s: write set: %w" [txid]
          (lift (v ← parse_raw (Bytes row "write_set"); decode_ops v));
  _ ← wrapping "register: replay %s: %w" [txid] (apply txid env ops);
  after ← current;
  exec (SUpdate "transactions" [("state", VStr TxApplied); ("version_after", VInt after.2)] [is_ "txid" (VStr txid)]).

Definition replayPending : M unit :=
  Do (rows ← query (SSelect "transactions" [is_ "state" (VStr TxPending)] (Some (mkOrder "seq" false)) None);
      each replay_one rows).

(** [NewObjectID] and [NewTaskID]: 128 random bits under a readable
    prefix. *)
Definition NewObjectID (class : string) : M string :=
  buf ← random 16; mret (class +:+ "-" +:+ base32_id buf).
Definition NewTaskID : M string :=
  buf ← random 16; mret ("task-" +:+ base32_id buf).
End commit.

(** [Register.systemAuthor]. *)
Definition systemAuthor (opts : Options) (reason : string) : Author :=
  mkAuthor ("system:" +:+ opt_Name opts) reason "system".

(** ** What a write set does

    The effect of an entry on the tables, without the statements: a
    delete removes the row filed under the key, anything else merges the
    values into it, creating it from the key when there is none. *)
Section effects.
Context `{SqlEngine}.

Definition stored (t : string) (values : object) : Row :=
  match row_of t values with Ok r => r | Err _ => ∅ end.

Definition op_key (txid : string) (op : WriteOp) : list sqlval :=
  (fun c => lit (substitute txid (default VNull (obj_get c (Key op))))) <$> primary_key (Table op).

Definition row_effect (txid : string) (op : WriteOp) (o : option Row) : option Row :=
  if Delete op then None
  else Some (stored (Table op) (subst_obj txid (Values op)) ∪
             default (stored (Table op) (subst_obj txid (Key op))) o).

Definition effect (txid : string) (db : tables) (op : WriteOp) : tables :=
  alter (partial_alter (row_effect txid op) (op_key txid op)) (Table op) db.

Definition effects (txid : string) (db : tables) (ops : list WriteOp) : tables :=
  fold_left (effect txid) ops db.

(** An entry the register builds: its key columns hold values of their
    types, its values are other columns, and no column is named twice. *)
Definition op_wf (txid : string) (op : WriteOp) : Prop :=
  (match keyColumnsFor (Table op) with Some _ => True | None => Table op = "tx_refs" end) /\
  key_ok (Table op) (key_value txid op <$> primary_key (Table op)) /\
  NoDup ((Values op ++ Key op).*1) /\
  (forall c, c ∈ (Values op).*1 -> c ∉ primary_key (Table op)).
End effects.

(** ** Facts about write sets *)

(** The key columns of the write set are the primary keys of the schema. *)
Lemma keyColumnsFor_primary_key t cols : keyColumnsFor t = Some cols -> cols = primary_key t.
Proof.
  unfold keyColumnsFor. destruct (assoc t pkColumns) as [cs|] eqn:E.
  - intros [= <-]. apply assoc_elem in E. unfold pkColumns in E.
    repeat (apply elem_of_cons in E as [[= -> ->]|E]; [reflexivity|]). by apply elem_of_nil in E.
  - destruct (HasPrefix t "q_") eqn:Hp; [|done]. intros [= <-]. unfold primary_key, ddl_of.
    destruct (assoc t baseTables) as [d|] eqn:Ed; [|done]. exfalso.
    apply assoc_elem, (list_elem_of_fmap_2 fst) in Ed.
    assert (forallb (fun n => negb (HasPrefix n "q_")) baseTables.*1 = true) as Ha by reflexivity.
    rewrite forallb_forall in Ha. apply list_elem_of_In in Ed. specialize (Ha _ Ed).
    cbn [fst] in Ha. by rewrite Hp in Ha.
Qed.

Lemma keyColumnsFor_not_transactions t cols : keyColumnsFor t = Some cols -> t <> "transactions".
Proof. by intros H ->. Qed.

Lemma obj_override_app values key : NoDup ((values ++ key).*1) -> obj_override values key = values ++ key.
Proof.
  unfold obj_override. revert values. induction key as [|[k v] key IH]; intros values Hn; cbn.
  - by rewrite app_nil_r.
  - rewrite obj_set_fresh.
    + rewrite IH; by rewrite <- app_assoc.
    + rewrite fmap_app in Hn. apply NoDup_app in Hn as (_ & Hn & _). intros Hin. apply (Hn k Hin).
      rewrite fmap_cons. apply list_elem_of_here.
Qed.

Lemma subst_obj_keys txid m : (subst_obj txid m).*1 = m.*1.
Proof. unfold subst_obj. by rewrite <- list_fmap_compose. Qed.

Lemma subst_obj_get txid m c : obj_get c (subst_obj txid m) = substitute txid <$> obj_get c m.
Proof.
  induction m as [|[k v] m IH]; [done|]. cbn. destruct (String.eqb c k); [done|]. apply IH.
Qed.

Lemma collect_app {A} (l1 l2 : list (res A)) xs :
  collect (l1 ++ l2) = Ok xs -> exists x1 x2, collect l1 = Ok x1 /\ collect l2 = Ok x2 /\ xs = x1 ++ x2.
Proof.
  revert xs. induction l1 as [|r l1 IH]; intros xs E; cbn in *; [by exists [], xs|]. res_inv.
  match goal with H : collect (l1 ++ l2) = _ |- _ => apply IH in H as (x1 & x2 & H1 & H2 & ->) end.
  exists (x :: x1), x2. unfold mbind, res_bind. cbn. by rewrite H1.
Qed.

Section facts.
Context `{SqlEngine}.

Lemma row_of_app t a b r :
  row_of t (a ++ b) = Ok r -> exists ra rb, row_of t a = Ok ra /\ row_of t b = Ok rb /\ r = ra ∪ rb.
Proof.
  unfold row_of. rewrite map_app. intros E. res_inv.
  match goal with H : collect _ = _ |- _ => apply collect_app in H as (x1 & x2 & H1 & H2 & ->) end.
  rewrite H1, H2. cbn. do 2 eexists. split_and!; [done..|]. apply list_to_map_app.
Qed.

Lemma stored_nil t : stored t [] = ∅.
Proof. done. Qed.

(** A stored row has a cell for each column named, and no other. *)
Lemma row_of_lookup t values r c :
  row_of t values = Ok r ->
  match obj_get c values with
  | Some v => exists x, convert t c (lit v) = Ok x /\ r !! c = Some x
  | None => r !! c = None
  end.
Proof.
  unfold row_of. intros E. res_inv.
  match goal with H : collect _ = Ok ?l |- _ => revert H; generalize l as ps end.
  induction values as [|[k v] values IH]; intros ps E; cbn in E; res_inv; cbn.
  - by rewrite lookup_empty.
  - unfold mret in *. match goal with H : collect _ = Ok _ |- _ => specialize (IH _ H) end. cbn.
    destruct (String.eqb_spec c k) as [->|Hne].
    + eexists. split; [done|]. by rewrite lookup_insert_eq.
    + rewrite lookup_insert_ne by done. done.
Qed.

Lemma obj_get_elem c values : c ∈ values.*1 <-> exists v, obj_get c values = Some v.
Proof.
  induction values as [|[k v] values IH]; cbn.
  - rewrite elem_of_nil. naive_solver.
  - rewrite elem_of_cons. destruct (String.eqb_spec c k); naive_solver.
Qed.

Lemma stored_leaves_key t values :
  (forall c, c ∈ values.*1 -> c ∉ primary_key t) -> leaves_key t (stored t values).
Proof.
  intros Hv c Hc. unfold stored. destruct (row_of t values) as [r|] eqn:E; [|apply lookup_empty].
  pose proof (row_of_lookup _ _ _ c E) as Hl. destruct (obj_get c values) eqn:Eg; [|done].
  exfalso. apply (Hv c); [|done]. apply obj_get_elem. eauto.
Qed.
End facts.

Lemma zip_with_fmap {A B C} (f : A -> B -> C) (g : A -> B) l : zip_with f l (g <$> l) = (fun x => f x (g x)) <$> l.
Proof. induction l as [|x l IH]; [done|]. cbn. by rewrite IH. Qed.

Section apply_facts.
Context `{Runtime}.

Lemma op_key_eq txid op : op_key txid op = lit <$> (key_value txid op <$> primary_key (Table op)).
Proof. unfold op_key, key_value. by rewrite <- list_fmap_compose. Qed.

Lemma op_wf_cols txid op :
  op_wf txid op -> Table op <> "transactions" /\
  (match keyColumnsFor (Table op) with
   | Some cols => Ok cols
   | None => if String.eqb (Table op) "tx_refs" then Ok ["txid"; "idx"] else Err (Errorf "unknown table" [])
   end) = Ok (primary_key (Table op)).
Proof.
  intros (Hk & _). destruct (keyColumnsFor (Table op)) as [cols|] eqn:E.
  - pose proof (keyColumnsFor_primary_key _ _ E) as ->. split; [|done]. by eapply keyColumnsFor_not_transactions.
  - rewrite Hk. by split.
Qed.

Lemma alter_effect (txid : string) (op : WriteOp) (db : tables) m :
  db !! Table op = Some m ->
  effect txid db op = <[Table op := partial_alter (row_effect txid op) (op_key txid op) m]> db.
Proof.
  intros Hm. unfold effect. apply map_eq. intros t. destruct (decide (t = Table op)) as [->|Hne].
  - by rewrite lookup_alter_eq, lookup_insert_eq, Hm.
  - by rewrite lookup_alter_ne, lookup_insert_ne by done.
Qed.

(** The three statements an entry may become. *)
Lemma delete_effect txid op db l db' :
  wf_db db -> op_wf txid op -> Delete op = true ->
  run_stmt db (SDelete (Table op) (key_where (Table op) (key_value txid op <$> primary_key (Table op)))) = Ok (l, db') ->
  db' = effect txid db op.
Proof.
  intros W (_ & K & _) Hd E. run_inv E. unfold on_table in E. res_inv.
  match goal with H : db !! _ = Some _ |- _ => rename H into Hm end.
  rewrite (alter_effect txid op db _ Hm), delete_key by (done || by apply W). f_equal.
  rewrite op_key_eq. unfold row_effect. rewrite Hd.
  apply map_eq. intros k. destruct (decide (k = lit <$> (key_value txid op <$> primary_key (Table op)))) as [->|Hne].
  - by rewrite lookup_delete_eq, lookup_partial_alter_eq.
  - by rewrite lookup_delete_ne, lookup_partial_alter_ne by done.
Qed.

Lemma update_effect txid op db l db' m r :
  wf_db db -> op_wf txid op -> Delete op = false ->
  db !! Table op = Some m -> m !! op_key txid op = Some r ->
  run_stmt db (SUpdate (Table op) (subst_obj txid (Values op))
    (key_where (Table op) (key_value txid op <$> primary_key (Table op)))) = Ok (l, db') ->
  db' = effect txid db op.
Proof.
  intros W (_ & K & _ & Hv) Hd Hm Hr E. run_inv E. unfold on_table in E. res_inv.
  match goal with H : row_of _ _ = Ok ?x, H' : of_option _ _ = _ |- _ => idtac | _ => idtac end.
  match goal with H : row_of _ _ = Ok ?x |- _ => rename H into Hrow, x into values end.
  assert (Hst : stored (Table op) (subst_obj txid (Values op)) = values) by (unfold stored; by rewrite Hrow).
  assert (Hl : leaves_key (Table op) values).
  { rewrite <- Hst. apply stored_leaves_key. by rewrite subst_obj_keys. }
  match goal with H : db !! _ = Some ?x |- _ => assert (x = m) as -> by congruence end.
  match goal with H : update_rows _ _ _ _ = Ok _ |- _ => rewrite update_key in H by (done || by apply W);
    apply checked_Ok in H as [_ ->] end.
  rewrite (alter_effect txid op db m Hm). f_equal. rewrite <- op_key_eq.
  apply map_eq. intros k. destruct (decide (k = op_key txid op)) as [->|Hne].
  - rewrite lookup_alter_eq, lookup_partial_alter_eq, Hr. unfold row_effect. by rewrite Hd, Hst.
  - by rewrite lookup_alter_ne, lookup_partial_alter_ne by done.
Qed.

Lemma insert_effect txid op db l db' m :
  wf_db db -> op_wf txid op -> Delete op = false ->
  db !! Table op = Some m -> m !! op_key txid op = None ->
  check_all (fun c => match obj_get c (Key op) with Some _ => Ok tt
    | None => Err (Errorf "key column %q is missing" [c]) end) (primary_key (Table op)) = Ok tt ->
  run_stmt db (SInsert (Table op) (obj_override (subst_obj txid (Values op)) (subst_obj txid (Key op)))) = Ok (l, db') ->
  db' = effect txid db op.
Proof.
  intros W Hop Hd Hm Hr Hc E. destruct (op_wf_cols _ _ Hop) as [Ht _]. destruct Hop as (_ & K & Hn & Hv).
  rewrite obj_override_app in E.
  2:{ rewrite fmap_app, !subst_obj_keys, <- fmap_app. done. }
  run_inv E. unfold on_table in E. res_inv.
  match goal with H : row_of _ _ = Ok ?x |- _ => rename H into Hrow, x into r end.
  match goal with H : db !! _ = Some ?x |- _ => assert (x = m) as -> by congruence end.
  assert (completed db (Table op) r = r) as Hcomp.
  { unfold completed. by destruct (String.eqb_spec (Table op) "transactions"). }
  rewrite Hcomp in *. unfold insert_row in *. res_inv.
  destruct (m !! pk_of (Table op) r) eqn:Epk; [done|].
  match goal with H : checked _ _ = Ok _ |- _ => apply checked_Ok in H as [_ ->] end.
  destruct (row_of_app _ _ _ _ Hrow) as (rv & rk & Hrv & Hrk & ->).
  assert (pk_of (Table op) (rv ∪ rk) = op_key txid op) as Hpk.
  { rewrite pk_of_union.
    - unfold pk_of, op_key. rewrite check_all_Ok in Hc. unfold key_ok in K. rewrite Forall2_fmap_r in K.
      apply list_fmap_ext. intros i c Hi. rewrite Forall_lookup in Hc. specialize (Hc i c Hi).
      pose proof (row_of_lookup _ _ _ c Hrk) as Hl. rewrite subst_obj_get in Hl.
      destruct (obj_get c (Key op)) as [v|] eqn:Eg; [|done]. cbn in Hl.
      destruct Hl as (y & Hy & Hlk). unfold cell. rewrite Hlk. cbn.
      eapply Forall2_lookup_lr in K; [|done|done]. destruct K as (ty & Hty & Hk).
      unfold key_value in Hk. rewrite Eg in Hk. cbn in Hk.
      unfold convert in Hy. rewrite Hty in Hy. apply of_option_Ok in Hy. by eapply sql_convert_id.
    - intros c Hcin. pose proof (row_of_lookup _ _ _ c Hrv) as Hl.
      destruct (obj_get c (subst_obj txid (Values op))) eqn:Eg; [|done]. exfalso.
      apply (Hv c); [|done]. rewrite <- (subst_obj_keys txid). apply obj_get_elem. eauto. }
  rewrite (alter_effect txid op db m Hm). f_equal. rewrite Hpk.
  apply map_eq. intros k. destruct (decide (k = op_key txid op)) as [->|Hne].
  - rewrite lookup_insert_eq, lookup_partial_alter_eq, Hr. unfold row_effect, stored. by rewrite Hd, Hrv, Hrk.
  - by rewrite lookup_insert_ne, lookup_partial_alter_ne by done.
Qed.

(** An entry that applies has exactly its effect. *)
Lemma applyOne_visible txid op w u w' :
  wf_db (visible w) -> op_wf txid op -> applyOne txid op w = (Ok u, w') ->
  wf_db (visible w') /\ visible w' = effect txid (visible w) op /\ (w' = w \/ w' = put (visible w') w).
Proof.
  intros W Hop E. destruct (op_wf_cols _ _ Hop) as [Ht Hcols].
  unfold applyOne in E. rewrite Hcols in E. m_inv.
  rewrite <- (zip_with_fmap is_ (key_value txid op)) in *.
  change (zip_with is_ _ _) with (key_where (Table op) (key_value txid op <$> primary_key (Table op))) in *.
  destruct (Delete op) eqn:Hd.
  - match goal with H : exec _ _ = _ |- _ => apply exec_write in H as (l & db & Hr & ->); [|done..] end.
    pose proof (run_stmt_wf _ _ _ _ W Hr) as W'. apply delete_effect in Hr; [|done..].
    rewrite visible_put. subst. auto.
  - m_inv. match goal with H : count _ _ _ = _ |- _ => apply count_Ok in H as (-> & m & Hm & ->) end.
    rewrite select_key in * by (done || by apply W || apply Hop). rewrite <- op_key_eq in *.
    destruct (m !! op_key txid op) as [r|] eqn:Hr.
    + change (0 <? Z.of_nat (List.length (option_list (Some r)))) with true in *. cbn match in *.
      destruct (subst_obj txid (Values op)) as [|kv vs] eqn:Evs.
      * m_inv. split; [done|]. split; [|by left]. rewrite (alter_effect _ _ _ _ Hm).
        assert (partial_alter (row_effect txid op) (op_key txid op) m = m) as ->.
        { apply map_eq. intros k. destruct (decide (k = op_key txid op)) as [->|Hne].
          - rewrite lookup_partial_alter_eq, Hr. unfold row_effect. rewrite Hd, Evs, stored_nil. cbn.
            by rewrite (left_id_L ∅ (∪)).
          - by rewrite lookup_partial_alter_ne. }
        by rewrite insert_id.
      * match goal with H : exec _ _ = _ |- _ => apply exec_write in H as (l & db & Hx & ->); [|done..] end.
        pose proof (run_stmt_wf _ _ _ _ W Hx) as W'. rewrite <- Evs in Hx.
        eapply update_effect in Hx; [|done..]. rewrite visible_put. subst. auto.
    + change (0 <? Z.of_nat (List.length (option_list (@None Row)))) with false in *. cbn match in *.
      match goal with H : exec _ _ = _ |- _ => apply exec_write in H as (l & db & Hx & ->); [|done..] end.
      pose proof (run_stmt_wf _ _ _ _ W Hx) as W'.
      match goal with H : check_all _ _ = Ok ?a |- _ => destruct a end.
      eapply insert_effect in Hx; [|done..]. rewrite visible_put. subst. auto.
Qed.

(** The columns of an entry could all hold their values. *)
Definition convertible (txid : string) (op : WriteOp) : Prop :=
  Delete op = false -> exists r, row_of (Table op) (subst_obj txid (Values op)) = Ok r.

Lemma run_update_row_of db t values c l db' : run_stmt db (SUpdate t values c) = Ok (l, db') -> exists r, row_of t values = Ok r.
Proof. intros E. run_inv E. res_inv. eauto. Qed.
Lemma run_insert_row_of db t values l db' : run_stmt db (SInsert t values) = Ok (l, db') -> exists r, row_of t values = Ok r.
Proof. intros E. run_inv E. res_inv. eauto. Qed.

Lemma applyOne_convertible txid op w u w' : op_wf txid op -> applyOne txid op w = (Ok u, w') -> convertible txid op.
Proof.
  intros (_ & _ & Hn & _) E Hd. unfold applyOne in E. rewrite Hd in E. m_inv.
  match goal with H : (if ?b then _ else _) _ = _ |- _ => destruct b end.
  - destruct (subst_obj txid (Values op)); [by exists ∅|].
    match goal with H : exec _ _ = _ |- _ => apply exec_write in H as (rs & db & Hx & _); [|done..] end.
    by apply run_update_row_of in Hx.
  - match goal with H : exec _ _ = _ |- _ => apply exec_write in H as (rs & db & Hx & _); [|done..] end.
    rewrite obj_override_app in Hx by (by rewrite fmap_app, !subst_obj_keys, <- fmap_app).
    apply run_insert_row_of in Hx as [r Hr]. apply row_of_app in Hr as (rv & _ & Hrv & _). eauto.
Qed.

Lemma ref_op_wf txid i r : op_wf txid (ref_op txid i r).
Proof.
  split; [done|]. split; [|split].
  - unfold key_ok. cbn. repeat constructor; eexists; (split; [reflexivity|]); unfold key_value; cbn.
    + by destruct (String.eqb txid TxIDPlaceholder).
    + done.
  - cbn. rewrite !NoDup_cons, !not_elem_of_cons. split_and!; try done; try apply not_elem_of_nil. by constructor.
  - cbn. intros c Hc. rewrite !elem_of_cons, elem_of_nil in *. naive_solver.
Qed.
End apply_facts.

(** ** What a commit does *)

(** The references of an envelope, as entries of [tx_refs]. *)
Fixpoint write_refs (txid : string) (i : nat) (refs : list Ref) : list WriteOp :=
  match refs with [] => [] | r :: refs => ref_op txid i r :: write_refs txid (S i) refs end.

(** The tables with the transaction's own row in the log. *)
Definition logged (row : Row) (db : tables) : tables :=
  alter (fun m => <[pk_of "transactions" row := row]> m) "transactions" db.

Section commit_facts.
Context `{Runtime}.

Definition ops_wf (ops : list WriteOp) : Prop := forall txid, Forall (op_wf txid) ops.

(** Statements inside an open transaction touch nothing else. *)
Definition in_txn (w w' : world) : Prop :=
  txn w <> None -> txn w' <> None /\ w' = set_txn (Some (visible w')) w.

Lemma in_txn_refl w : in_txn w w.
Proof. intros Ht. split; [done|]. unfold visible. destruct w as [c v r [db|] ? ? ? ? ?]; done. Qed.

Lemma in_txn_trans w1 w2 w3 : in_txn w1 w2 -> in_txn w2 w3 -> in_txn w1 w3.
Proof.
  intros H1 H2 Ht. destruct (H1 Ht) as [Ht2 E2]. destruct (H2 Ht2) as [Ht3 E3]. split; [done|].
  rewrite E3 at 1. by rewrite E2.
Qed.

Lemma in_txn_put w w' : w' = w \/ w' = put (visible w') w -> in_txn w w'.
Proof.
  intros [->|E]; [apply in_txn_refl|]. intros Ht. unfold put in E. destruct (txn w) eqn:Et; [|done].
  split; [|done]. by rewrite E.
Qed.

Lemma wrapping_Ok {A} fmt args (m : M A) w a w' : wrapping fmt args m w = (Ok a, w') <-> m w = (Ok a, w').
Proof. unfold wrapping. destruct (m w) as [[]]; naive_solver. Qed.

Lemma wrapping_Err {A} fmt args (m : M A) w e w' :
  wrapping fmt args m w = (Err e, w') -> exists e', m w = (Err e', w') /\ e = Wrapf fmt args e'.
Proof. unfold wrapping. destruct (m w) as [[]]; naive_solver. Qed.

Lemma apply_ops_visible txid ops : forall i w u w',
  wf_db (visible w) -> Forall (op_wf txid) ops -> apply_ops txid i ops w = (Ok u, w') ->
  wf_db (visible w') /\ visible w' = effects txid (visible w) ops /\ in_txn w w'.
Proof.
  induction ops as [|op ops IH]; intros i w u w' W F E; cbn in E.
  - m_inv. split_and!; [done|done|apply in_txn_refl].
  - inversion F; subst. m_inv.
    match goal with H : wrapping _ _ _ _ = _ |- _ => apply wrapping_Ok, applyOne_visible in H as (W1 & Hv & Hw); [|done..] end.
    match goal with H : apply_ops _ _ _ _ = _ |- _ => apply IH in H as (W2 & Hv2 & Hw2); [|done..] end.
    split_and!; [done| |].
    + rewrite Hv2, Hv. done.
    + eapply in_txn_trans; [by apply in_txn_put|done].
Qed.

Lemma apply_ops_convertible txid ops : forall i w u w',
  Forall (op_wf txid) ops -> apply_ops txid i ops w = (Ok u, w') -> Forall (convertible txid) ops.
Proof.
  induction ops as [|op ops IH]; intros i w u w' F E; cbn in E; [constructor|].
  inversion F; subst. m_inv. rewrite wrapping_Ok in *. constructor; [by eapply applyOne_convertible|by eapply IH].
Qed.

Lemma apply_convertible txid env ops w u w' :
  Forall (op_wf txid) ops -> apply txid env ops w = (Ok u, w') -> Forall (convertible txid) ops.
Proof. intros F E. unfold apply in E. m_inv. by eapply apply_ops_convertible. Qed.

Lemma apply_refs_ops txid refs : forall i w w',
  (exists u, apply_refs txid i refs w = (Ok u, w')) <->
  (exists u, apply_ops txid i (write_refs txid i refs) w = (Ok u, w')).
Proof.
  induction refs as [|r refs IH]; intros i w w'; [done|]. cbn [apply_refs apply_ops write_refs].
  split; intros [u E]; apply M_bind_Ok in E as (a & w1 & E1 & E2); apply wrapping_Ok in E1;
    pose proof (ex_intro (fun u => _ = (Ok u, _)) u E2) as E3; apply IH in E3 as [u' E3];
    exists u'; apply M_bind_Ok; exists a, w1; by rewrite wrapping_Ok.
Qed.

Lemma write_refs_wf txid refs : forall i, Forall (op_wf txid) (write_refs txid i refs).
Proof. induction refs as [|r refs IH]; intros i; constructor; [apply ref_op_wf|apply IH]. Qed.

(** Applying a transaction has the effects of its write set, then of
    its references. *)
Lemma apply_visible txid env ops w u w' :
  wf_db (visible w) -> Forall (op_wf txid) ops -> apply txid env ops w = (Ok u, w') ->
  wf_db (visible w') /\
  visible w' = effects txid (visible w) (ops ++ write_refs txid 0 (Refs env)) /\ in_txn w w'.
Proof.
  intros W F E. unfold apply in E. m_inv.
  match goal with H : apply_ops _ _ _ _ = _ |- _ => apply apply_ops_visible in H as (W1 & Hv & Hw); [|done..] end.
  match goal with H : apply_refs _ _ _ ?x = (Ok ?u, ?y) |- _ =>
    pose proof (proj1 (apply_refs_ops _ _ _ x y) (ex_intro _ u H)) as [u' Hu] end.
  apply apply_ops_visible in Hu as (W2 & Hv2 & Hw2); [|done|apply write_refs_wf].
  split_and!; [done| |by eapply in_txn_trans].
  rewrite Hv2, Hv. unfold effects. by rewrite fold_left_app.
Qed.

Lemma effects_wf_published txid env ops w w' u :
  wf_db (visible w) -> Forall (op_wf txid) ops -> apply txid env ops w = (Ok u, w') -> wf_db (visible w').
Proof. intros. by eapply apply_visible. Qed.

Lemma insert_transaction row db l db' :
  run_stmt db (SInsert "transactions" row) = Ok (l, db') ->
  exists r0 r m, row_of "transactions" row = Ok r0 /\ r = completed db "transactions" r0 /\
    db !! "transactions" = Some m /\ m !! pk_of "transactions" r = None /\ db' = logged r db.
Proof.
  intros E. run_inv E. unfold on_table in E. res_inv. unfold insert_row in *. res_inv.
  match goal with H : match ?x with _ => _ end = Ok _ |- _ => destruct x eqn:Epk; [done|]; apply checked_Ok in H as [_ ->] end.
  do 3 eexists. split_and!; [done..|]. unfold logged.
  apply map_eq. intros t. destruct (decide (t = "transactions")) as [->|Hne].
  - rewrite lookup_insert_eq, lookup_alter_eq. by match goal with H : db !! _ = Some _ |- _ => rewrite H end.
  - by rewrite lookup_insert_ne, lookup_alter_ne.
Qed.

(** The log entry of a transaction: the row [commit] inserts. *)
Definition log_row (txid : string) (env : Envelope) (ops : list WriteOp) (w : world) (r : Row) : Prop :=
  exists writeSet envelope r0,
    Marshal (ops_value ops) = Ok writeSet /\ Marshal (env_value env) = Ok envelope /\
    row_of "transactions" (transaction_row txid env (root w) (version w) envelope writeSet) = Ok r0 /\
    r = completed (committed w) "transactions" r0 /\
    exists m, committed w !! "transactions" = Some m /\ m !! pk_of "transactions" r = None.

Lemma exec_commit w u w' db : txn w = Some db -> exec SCommit w = (Ok u, w') -> w' = publish db w.
Proof.
  intros Ht E. unfold exec in E. m_inv. unfold query in *.
  destruct (run_stmt _ _) as [[l d]|]; [|done]. rewrite Ht in *. m_inv. done.
Qed.

Lemma publish_set_txn db o w : publish db (set_txn o w) = publish db w.
Proof. done. Qed.

Lemma commit_body_Ok txid env ops w u w' :
  txn w = Some (committed w) -> wf_db (committed w) -> Forall (op_wf txid) ops ->
  commit_body txid env ops (root w) (version w) w = (Ok u, w') ->
  exists r, log_row txid env ops w r /\
    w' = publish (effects txid (logged r (committed w)) (ops ++ write_refs txid 0 (Refs env))) w /\
    Forall (convertible txid) ops.
Proof.
  intros Ht W F E. unfold commit_body in E. m_inv. rewrite !wrapping_Ok in *.
  match goal with H : exec (SInsert _ _) _ = _ |- _ => apply exec_write in H as (l & db1 & Hr & ->); [|done..] end.
  assert (visible w = committed w) as Hvis by (unfold visible; by rewrite Ht). rewrite Hvis in *.
  pose proof (run_stmt_wf _ _ _ _ W Hr) as W1.
  apply insert_transaction in Hr as (r0 & r & m & Hr0 & Hr & Hm & Hnew & ->).
  match goal with H : apply _ _ _ _ = _ |- _ => pose proof (apply_convertible _ _ _ _ _ _ F H) as Hconv;
    apply apply_visible in H as (W2 & Hv2 & Hw2);
    [|by rewrite visible_put|done] end.
  rewrite visible_put in Hv2. rewrite (put_txn (committed w)) in Hw2 by done.
  destruct Hw2 as [Hx Hw2]; [done|]. exists r. split; [unfold log_row; subst; eauto 10|].
  match goal with H : exec SCommit ?x = _ |- _ => rename H into Hcommit; rename x into w2 end.
  assert (txn w2 = Some (visible w2)) as Htx by (by rewrite Hw2 at 1).
  split; [|done]. rewrite (exec_commit _ _ _ _ Htx Hcommit), <- Hv2. rewrite Hw2 at 2. done.
Qed.
End commit_facts.

(** ** Atomicity *)

(** Nothing a caller of the store can see has changed. *)
Definition same_ledger (w w' : world) : Prop :=
  committed w' = committed w /\ version w' = version w /\ root w' = root w /\
  lastCkpt w' = lastCkpt w /\ notes w' = notes w.

#[export] Instance same_ledger_equiv : Equivalence same_ledger.
Proof. unfold same_ledger. split; [intros x|intros x y|intros x y z]; intuition congruence. Qed.

Lemma same_db_ledger w w' : same_db w w' -> same_ledger w w'.
Proof. unfold same_db, same_ledger. tauto. Qed.

Lemma set_txn_ledger t w : same_ledger w (set_txn t w).
Proof. done. Qed.

Section atomic.
Context `{Runtime}.

(** Operations that, run inside a transaction, only buffer. *)
Definition buffers {A} (m : M A) : Prop :=
  forall w r w', txn w <> None -> m w = (r, w') -> same_ledger w w' /\ txn w' <> None.

Lemma buffers_ro {A} (m : M A) : ro m -> buffers m.
Proof.
  intros Hm w r w' Ht E. apply Hm in E. split; [by apply same_db_ledger|].
  destruct E as (_ & _ & _ & -> & _). done.
Qed.

Lemma buffers_bind {A B} (m : M A) (k : A -> M B) : buffers m -> (forall a, buffers (k a)) -> buffers (m ≫= k).
Proof.
  intros Hm Hk w r w' Ht E. unfold mbind, M_bind in E. destruct (m w) as [[a|e] w1] eqn:Em.
  - apply Hm in Em as [H1 H2]; [|done]. apply Hk in E as [H3 H4]; [|done]. split; [by etrans|done].
  - injection E as <- <-. by eapply Hm.
Qed.

Lemma buffers_wrapping {A} fmt args (m : M A) : buffers m -> buffers (wrapping fmt args m).
Proof.
  intros Hm w r w' Ht E. unfold wrapping in E.
  destruct (m w) as [[a|e] w1] eqn:Em; injection E as <- <-; by eapply Hm.
Qed.

Lemma buffers_exec s : is_read s = false -> is_control s = false -> buffers (exec s).
Proof.
  intros Hr Hc w r w' Ht E. destruct r as [u|e].
  - apply exec_write in E as (l & db & _ & ->); [|done..]. unfold put. by destruct (txn w).
  - apply exec_Err in E as ->. split; [done|done].
Qed.

Lemma buffers_applyOne txid op : buffers (applyOne txid op).
Proof.
  unfold applyOne. apply buffers_bind; [apply buffers_ro, ro_lift|]. intros cols.
  apply buffers_bind; [apply buffers_ro, ro_lift|]. intros _.
  destruct (Delete op); [by apply buffers_exec|].
  apply buffers_bind; [apply buffers_ro, ro_count|]. intros n.
  destruct (0 <? n); [|by apply buffers_exec].
  destruct (subst_obj _ _); [apply buffers_ro, ro_ret|by apply buffers_exec].
Qed.

Lemma buffers_apply txid env ops : buffers (apply txid env ops).
Proof.
  unfold apply. apply buffers_bind.
  - generalize 0%nat. induction ops as [|op ops IH]; intros i; [apply buffers_ro, ro_ret|].
    apply buffers_bind; [apply buffers_wrapping, buffers_applyOne|]. intros _. apply IH.
  - intros _. generalize 0%nat. induction (Refs env) as [|r refs IH]; intros i; [apply buffers_ro, ro_ret|].
    apply buffers_bind; [apply buffers_wrapping, buffers_applyOne|]. intros _. apply IH.
Qed.

Lemma commit_body_Err txid env ops rb vb w e w' :
  txn w <> None -> commit_body txid env ops rb vb w = (Err e, w') -> same_ledger w w'.
Proof.
  intros Ht E. unfold commit_body in E.
  apply M_bind_Err in E as [E|(writeSet & w1 & E1 & E)]; [by apply lift_inv in E as [_ ->]|].
  apply lift_inv in E1 as [_ ->].
  apply M_bind_Err in E as [E|(envelope & w2 & E1 & E)]; [by apply lift_inv in E as [_ ->]|].
  apply lift_inv in E1 as [_ ->].
  assert (forall s, is_read s = false -> is_control s = false -> buffers (wrapping "register: record transaction: %w" [] (exec s))) as Hi.
  { intros. by apply buffers_wrapping, buffers_exec. }
  apply M_bind_Err in E as [E|(u & w3 & E1 & E)]; [apply Hi in E as [? _]; done|].
  apply Hi in E1 as [H1 Ht1]; [|done..].
  apply M_bind_Err in E as [E|(u2 & w4 & E1 & E)]; [apply buffers_apply in E as [? _]; [by etrans|done]|].
  apply buffers_apply in E1 as [H2 _]; [|done].
  apply wrapping_Err in E as (e' & E & _). apply exec_Err in E as ->. by etrans.
Qed.

Lemma exec_rollback_ledger w : same_ledger w (exec SRollback w).2.
Proof. unfold exec, query, mbind, M_bind. destruct (run_stmt _ _) as [[l db]|]; done. Qed.

Lemma with_rollback_Err {A} (m : M A) w e w' :
  with_rollback m w = (Err e, w') -> exists w1, m w = (Err e, w1) /\ same_ledger w1 w'.
Proof.
  unfold with_rollback. destruct (m w) as [[a|e'] w1]; [done|]. intros [= <- <-].
  exists w1. split; [done|]. apply exec_rollback_ledger.
Qed.

Lemma with_rollback_Ok {A} (m : M A) w a w' : with_rollback m w = (Ok a, w') <-> m w = (Ok a, w').
Proof. unfold with_rollback. destruct (m w) as [[]]; naive_solver. Qed.

(** The ledger's documented contract: a commit is one version. *)
Definition commit_moves_one : Prop :=
  forall before after v rt, (ledger_commit before after v rt).1 = to_uint64 (v + 1).

Lemma version_publish db w : commit_moves_one -> version (publish db w) = to_uint64 (version w + 1).
Proof.
  intros Hm. unfold publish. specialize (Hm (committed w) db (version w) (root w)).
  destruct (ledger_commit _ _ _ _). by cbn in *.
Qed.
Lemma committed_publish db w : committed (publish db w) = db.
Proof. unfold publish. by destruct (ledger_commit _ _ _ _). Qed.
Lemma notes_publish db w : notes (publish db w) = notes w.
Proof. unfold publish. by destruct (ledger_commit _ _ _ _). Qed.

Lemma ro_transactionByID txid : ro (transactionByID txid).
Proof. unfold transactionByID. ro_tac. Qed.

Lemma exec_begin w u w' : txn w = None -> exec SBegin w = (Ok u, w') -> w' = set_txn (Some (committed w)) w.
Proof.
  intros Ht E. unfold exec, query in E. apply M_bind_Ok in E as (a & w1 & E & Er). m_inv.
  unfold run_stmt in E. cbn in E. destruct (sql_refuses _ _); [done|]. rewrite Ht in E. injection E as _ <-.
  unfold visible. by rewrite Ht.
Qed.

Lemma lift_Ok {A} (x : res A) w a w' : lift x w = (Ok a, w') <-> x = Ok a /\ w' = w.
Proof. unfold lift. naive_solver. Qed.

(** The outcome of a commit that landed. *)
Definition landed (env : Envelope) (ops : list WriteOp) (w w' : world) (t : Transaction) : Prop :=
  Validate env = Ok (tx_Envelope t) /\ tx_WriteSet t = ops /\
  transactionID (tx_Envelope t) ops = Ok (tx_TxID t) /\
  tx_RootBefore t = root w /\ tx_VersionBefore t = version w /\
  exists r, log_row (tx_TxID t) (tx_Envelope t) ops w r /\
    committed w' = effects (tx_TxID t) (logged r (committed w)) (ops ++ write_refs (tx_TxID t) 0 (Refs env)) /\
    version w' = to_uint64 (version w + 1) /\ txn w' = None /\
    notes w' = notes w ++ [TransactionCommitted t] /\
    Forall (convertible (tx_TxID t)) ops.

(** The outcome of a commit that had landed before. *)
Definition retried (env : Envelope) (ops : list WriteOp) (w w' : world) (t : Transaction) : Prop :=
  same_db w w' /\
  exists env' txid, Validate env = Ok env' /\ transactionID env' ops = Ok txid /\
    transactionByID txid w = (Ok (Some t), w').

(** A commit either answers a retry without a change, or lands. *)
Lemma commit_Ok_inv env ops w t w' :
  commit_moves_one -> wf_db (committed w) -> txn w = None -> ops_wf ops ->
  commit env ops w = (Ok t, w') -> retried env ops w w' t \/ landed env ops w w' t.
Proof.
  intros Hone W Ht F E. unfold commit in E.
  apply M_bind_Ok in E as (env' & w1 & E1 & E). apply lift_Ok in E1 as [Hval ->].
  apply M_bind_Ok in E as (u & w1 & E1 & E). apply lift_Ok in E1 as [_ ->].
  apply M_bind_Ok in E as (txid & w1 & E1 & E). apply lift_Ok in E1 as [Htxid ->].
  apply M_bind_Ok in E as (ex & w1 & E1 & E).
  destruct ex as [t0|].
  { m_inv. left. split; [by apply ro_transactionByID in E1|]. by exists env', txid. }
  right. apply ro_transactionByID in E1.
  assert (committed w1 = committed w /\ txn w1 = None /\ version w1 = version w /\ root w1 = root w /\ notes w1 = notes w)
    as (Hc & Ht1 & Hv & Hr & Hn) by (destruct E1 as (-> & -> & -> & -> & _ & ->); done). clear E1.
  apply M_bind_Ok in E as ([rb vb] & w2 & E1 & E). injection E1 as <- <- <-.
  apply M_bind_Ok in E as (u2 & w2 & E1 & E). apply wrapping_Ok, exec_begin in E1; [|done].
  apply M_bind_Ok in E as (u3 & w3 & E2 & E). rewrite with_rollback_Ok in E2.
  change (root w1) with (root (set_txn (Some (committed w1)) w1)) in E2 at 1.
  change (version w1) with (version (set_txn (Some (committed w1)) w1)) in E2. rewrite <- E1 in E2.
  apply commit_body_Ok in E2 as (r & Hlog & -> & Hconv); [|by rewrite E1|rewrite E1; cbn; by rewrite Hc|by apply F].
  apply M_bind_Ok in E as (after & w4 & E3 & E). injection E3 as <- <-.
  apply M_bind_Ok in E as (u4 & w4 & E3 & E). apply guard_Ok in E3 as [_ ->].
  apply M_bind_Ok in E as (row & w4 & E3 & E). apply (ro_attempt _ (ro_select_one _ _)) in E3.
  apply M_bind_Ok in E as (u5 & w5 & E4 & E). injection E4 as _ <-. m_inv.
  destruct E3 as (Hc4 & Hv4 & _ & Ht4 & _ & Hn4).
  assert (Hrefs : Refs env' = Refs env) by (apply Validate_iff in Hval as [_ ->]; done).
  unfold landed. cbn [tx_Envelope tx_WriteSet tx_TxID tx_RootBefore tx_VersionBefore].
  split_and!; try done. exists r. split.
  { destruct Hlog as (ws & ev & r0 & ? & ? & Hrow & Hcomp & m & Hm & Hnew). exists ws, ev, r0. cbn in Hrow, Hcomp, Hm.
    rewrite Hr, Hv in Hrow. rewrite Hc in Hcomp, Hm. split_and!; try done. by exists m. }
  cbn [committed version txn notes set_notes]. rewrite Hc4, Hv4, Ht4, Hn4. split_and!.
  - rewrite committed_publish, Hrefs. cbn. by rewrite Hc.
  - rewrite version_publish by done. cbn. by rewrite Hv.
  - apply txn_publish.
  - rewrite notes_publish. cbn. by rewrite Hn.
  - done.
Qed.

Lemma commit_Err_inv env ops w e w' :
  commit_moves_one -> txn w = None -> wf_db (committed w) -> ops_wf ops ->
  commit env ops w = (Err e, w') -> same_ledger w w'.
Proof.
  intros Hone Ht W F E. unfold commit in E.
  apply M_bind_Err in E as [E|(env' & w1 & E1 & E)]; [by apply lift_inv in E as [_ ->]|]. apply lift_Ok in E1 as [_ ->].
  apply M_bind_Err in E as [E|(u & w1 & E1 & E)]; [by apply lift_inv in E as [_ ->]|]. apply lift_Ok in E1 as [_ ->].
  apply M_bind_Err in E as [E|(txid & w1 & E1 & E)]; [by apply lift_inv in E as [_ ->]|]. apply lift_Ok in E1 as [_ ->].
  apply M_bind_Err in E as [E|(ex & w1 & E1 & E)]; [apply ro_transactionByID in E; by apply same_db_ledger|].
  apply ro_transactionByID in E1. pose proof E1 as (Hc & _ & _ & Ht1 & _). rewrite Ht in Ht1.
  destruct ex as [t0|]; [done|]. etrans; [by apply same_db_ledger|]. clear E1.
  apply M_bind_Err in E as [E|([rb vb] & w2 & E1 & E)]; [done|]. injection E1 as <- <- <-.
  apply M_bind_Err in E as [E|(u2 & w2 & E1 & E)]; [by apply wrapping_Err in E as (? & ->%exec_Err & _)|].
  apply wrapping_Ok, exec_begin in E1; [|done].
  apply M_bind_Err in E as [E|(u3 & w3 & E2 & E)].
  { apply with_rollback_Err in E as (w3 & E & Hs). apply commit_body_Err in E; [|by rewrite E1].
    etrans; [|exact Hs]. etrans; [|exact E]. by rewrite E1. }
  exfalso. rewrite with_rollback_Ok in E2.
  change (root w1) with (root (set_txn (Some (committed w1)) w1)) in E2 at 1.
  change (version w1) with (version (set_txn (Some (committed w1)) w1)) in E2. rewrite <- E1 in E2.
  apply commit_body_Ok in E2 as (r & _ & -> & _); [|by rewrite E1|rewrite E1; cbn; by rewrite Hc|by apply F].
  apply M_bind_Err in E as [E|(after & w4 & E3 & E)]; [done|]. injection E3 as <- <-.
  apply M_bind_Err in E as [E|(u4 & w4 & E3 & E)].
  { unfold guard_ in E. apply lift_inv in E as [E _]. apply refuse_if_Err in E as [E _]. bool_hyps.
    rewrite version_publish in E by done. rewrite E1 in E. done. }
  apply M_bind_Err in E as [E|(row & w5 & E4 & E)].
  { unfold attempt in E. by destruct (select_one _ _ _) as [[]]. }
  apply M_bind_Err in E as [E|(u5 & w6 & E5 & E)]; done.
Qed.
End atomic.

(** ** Replay converges *)
Section replay.
Context `{SqlEngine}.

(** What the entries of a write set do to the row of table [t] under
    key [k]. *)
Definition row_effects (txid : string) (ops : list WriteOp) (t : string) (k : list sqlval) (o : option Row) : option Row :=
  fold_left (fun o op => if decide (Table op = t /\ op_key txid op = k) then row_effect txid op o else o) ops o.

Lemma effect_lookup txid db op t m :
  db !! t = Some m ->
  exists m', effect txid db op !! t = Some m' /\
    forall k, m' !! k = if decide (Table op = t /\ op_key txid op = k) then row_effect txid op (m !! k) else m !! k.
Proof.
  intros Hm. unfold effect. destruct (decide (Table op = t)) as [<-|Hne].
  - eexists. rewrite lookup_alter_eq, Hm. split; [done|]. intros k.
    destruct (decide (op_key txid op = k)) as [<-|Hk].
    + rewrite lookup_partial_alter_eq. by rewrite decide_True.
    + rewrite lookup_partial_alter_ne by done. rewrite decide_False; naive_solver.
  - exists m. rewrite lookup_alter_ne by done. split; [done|]. intros k. rewrite decide_False; naive_solver.
Qed.

Lemma effects_lookup txid ops : forall db t m,
  db !! t = Some m ->
  exists m', effects txid db ops !! t = Some m' /\ forall k, m' !! k = row_effects txid ops t k (m !! k).
Proof.
  induction ops as [|op ops IH]; intros db t m Hm; [by exists m|].
  destruct (effect_lookup txid db op t m Hm) as (m1 & H1 & Hk1).
  destruct (IH _ _ _ H1) as (m2 & H2 & Hk2). exists m2. split; [done|]. intros k.
  rewrite Hk2, Hk1. cbn. by destruct (decide _).
Qed.

Lemma effects_None txid ops : forall db t, db !! t = None -> effects txid db ops !! t = None.
Proof.
  induction ops as [|op ops IH]; intros db t Hm; [done|]. apply IH. unfold effect.
  destruct (decide (Table op = t)) as [<-|Hne]; [by rewrite lookup_alter_eq, Hm|by rewrite lookup_alter_ne].
Qed.

Lemma effects_other txid ops t : forall db,
  Forall (fun op => Table op <> t) ops -> effects txid db ops !! t = db !! t.
Proof.
  induction ops as [|op ops IH]; intros db F; [done|]. inversion F; subst. cbn.
  change (effects txid (effect txid db op) ops !! t = db !! t). rewrite IH by done.
  unfold effect. by rewrite lookup_alter_ne.
Qed.

(** The effect on one row is nothing, a constant, or a merge over what
    was there. *)
Inductive shape : (option Row -> option Row) -> Prop :=
  | shape_id f : (forall o, f o = o) -> shape f
  | shape_const f c : (forall o, f o = c) -> shape f
  | shape_merge f v d : (forall o, f o = Some (v ∪ default d o)) -> shape f.

Lemma shape_idem f : shape f -> forall o, f (f o) = f o.
Proof.
  intros [g Hg|g c Hg|g v d Hg] o; rewrite !Hg; [done..|]. cbn.
  f_equal. by rewrite (assoc_L (∪)), (map_union_idemp v).
Qed.

Lemma shape_row_effects txid ops t k : shape (row_effects txid ops t k).
Proof.
  induction ops as [|op ops IH] using rev_ind; [by apply shape_id|].
  set (g := fun o => if decide (Table op = t /\ op_key txid op = k) then row_effect txid op o else o).
  assert (forall o, row_effects txid (ops ++ [op]) t k o = g (row_effects txid ops t k o)) as E.
  { intros o. unfold row_effects. by rewrite fold_left_app. }
  unfold g in E. destruct (decide _).
  2:{ destruct IH as [f Hf|f c Hf|f v d Hf];
      [apply shape_id|apply (shape_const _ c)|apply (shape_merge _ v d)]; intros o; by rewrite E, Hf. }
  unfold row_effect in E. destruct (Delete op); [by apply (shape_const _ None)|].
  set (v1 := stored _ (subst_obj txid (Values op))) in E. set (d1 := stored _ (subst_obj txid (Key op))) in E.
  destruct IH as [f Hf|f c Hf|f v d Hf].
  - apply (shape_merge _ v1 d1). intros o. by rewrite E, Hf.
  - apply (shape_const _ (Some (v1 ∪ default d1 c))). intros o. by rewrite E, Hf.
  - apply (shape_merge _ (v1 ∪ v) d). intros o. rewrite E, Hf. cbn. by rewrite (assoc_L (∪)).
Qed.

Lemma effects_idem txid ops db : effects txid (effects txid db ops) ops = effects txid db ops.
Proof.
  apply map_eq. intros t. destruct (db !! t) as [m|] eqn:Hm.
  - destruct (effects_lookup txid ops db t m Hm) as (m1 & H1 & Hk1).
    destruct (effects_lookup txid ops _ t m1 H1) as (m2 & H2 & Hk2). rewrite H1, H2. f_equal.
    apply map_eq. intros k. rewrite Hk2, Hk1. apply shape_idem, shape_row_effects.
  - pose proof (effects_None txid ops db t Hm) as H1. by rewrite (effects_None txid ops _ t H1).
Qed.
End replay.

(** ** Correctness *)
Section correctness.
Context `{Runtime}.

(** Running the body of a commit to its statement of the log: the
    write set's tables never include the log. *)
Lemma ops_not_transactions txid ops : Forall (op_wf txid) ops -> Forall (fun op => Table op <> "transactions") ops.
Proof. intros F. eapply Forall_impl; [exact F|]. intros op Hop. by apply (op_wf_cols txid op). Qed.

Lemma landed_log env ops w w' t :
  ops_wf ops -> landed env ops w w' t ->
  exists r m, log_row (tx_TxID t) (tx_Envelope t) ops w r /\
    committed w' !! "transactions" = Some (<[pk_of "transactions" r := r]> m).
Proof.
  intros F (_ & _ & _ & _ & _ & r & Hr & -> & _). pose proof Hr as (? & ? & ? & _ & _ & _ & _ & m & Hm & _).
  exists r, m. split; [done|]. rewrite effects_other; [unfold logged; by rewrite lookup_alter_eq, Hm|]. apply Forall_app. split; [by apply (ops_not_transactions (tx_TxID t))|].
  apply (ops_not_transactions (tx_TxID t)), write_refs_wf.
Qed.
End correctness.

(** Operations on the log keep the store's invariant. *)
Section keeps_commit.
Context `{Runtime}.

Lemma keeps_applyOne txid op : keeps (applyOne txid op).
Proof. unfold applyOne. keeps_tac. Qed.

Lemma keeps_apply txid env ops : keeps (apply txid env ops).
Proof.
  unfold apply. apply keeps_bind.
  - generalize 0%nat. induction ops as [|op ops IH]; intros i; [apply keeps_ro, ro_ret|].
    apply keeps_bind; [apply keeps_wrapping, keeps_applyOne|]. intros _. apply IH.
  - intros _. generalize 0%nat. induction (Refs env) as [|r refs IH]; intros i; [apply keeps_ro, ro_ret|].
    apply keeps_bind; [apply keeps_wrapping, keeps_applyOne|]. intros _. apply IH.
Qed.

Lemma keeps_with_rollback {A} (m : M A) : keeps m -> keeps (with_rollback m).
Proof.
  intros Hm w r w' W E. unfold with_rollback in E. destruct (m w) as [[a|e] w1] eqn:Em; injection E as <- <-.
  - by eapply Hm.
  - destruct (exec SRollback w1) as [r w2] eqn:Er. eapply keeps_exec; [|exact Er]. by eapply Hm.
Qed.

Lemma keeps_Do {A} (m : M A) : keeps m -> keeps (Do m).
Proof.
  intros Hm w r w' W E. unfold Do in E. destruct (m w) as [r1 w1] eqn:Em. injection E as <- <-.
  apply Hm in Em as [Wc _]; [|done]. by split.
Qed.

Lemma keeps_commit env ops : keeps (commit env ops).
Proof.
  unfold commit. keeps_tac; try apply keeps_ro, ro_transactionByID.
  apply keeps_with_rollback. unfold commit_body. keeps_tac; apply keeps_apply.
Qed.

Lemma keeps_replayPending : keeps replayPending.
Proof. unfold replayPending, replay_one. apply keeps_Do. keeps_tac. apply keeps_apply. Qed.
End keeps_commit.
#[export] Hint Resolve keeps_applyOne keeps_apply keeps_with_rollback keeps_Do keeps_commit keeps_replayPending : keeps.

(** C1. A commit is atomic. Whatever the envelope and the write set, it
    either fails and no table, version, root or notification has changed;
    or it finds the transaction in the log already, changes nothing and
    answers what the log holds; or it lands, and then the ledger moved by
    exactly one version, the tables are those before it with the
    transaction's own log row, the effects of its entries in order and
    its references, no SQL transaction is left open and the notifier was
    told once. *)
Theorem commit_atomic `{Runtime} (env : Envelope) (ops : list WriteOp) (w : world) (r : res Transaction) (w' : world) :
  commit_moves_one -> wf_db (committed w) -> txn w = None -> ops_wf ops ->
  commit env ops w = (r, w') ->
  match r with
  | Ok t => retried env ops w w' t \/ landed env ops w w' t
  | Err _ => same_ledger w w'
  end.
Proof. intros. destruct r; [by eapply commit_Ok_inv|by eapply commit_Err_inv]. Qed.

(** A write set of one row, committed to the empty register. *)
Definition demo_env : Envelope :=
  mkEnvelope KindAudit "t" "" "" [] (mkAuthor "system:r" "demo" "system") 1700000000 "Close an audit" [].
Definition demo_ops : list WriteOp :=
  [upsert "registry" [("k", VStr "last")] [("v", VBinary "1"); ("updated_at", VInt 7)]].

Lemma demo_ops_wf `{Runtime} : ops_wf demo_ops.
Proof.
  intros txid. repeat constructor; try (by cbn).
  - cbn. eexists. split; [reflexivity|]. unfold key_value. cbn. done.
  - cbn. rewrite !not_elem_of_cons. split_and!; try done. apply not_elem_of_nil.
  - cbn. rewrite !not_elem_of_cons. split_and!; try done. apply not_elem_of_nil.
  - apply not_elem_of_nil.
  - cbn. intros c. rewrite !elem_of_cons, elem_of_nil. naive_solver.
Qed.

Section commit_witness.
#[local] Existing Instance plain_runtime.

Definition demo_run : res Transaction * world := commit demo_env demo_ops fresh_world.

Lemma demo_landed : exists t w', demo_run = (Ok t, w') /\ landed demo_env demo_ops fresh_world w' t.
Proof.
  destruct demo_run as [r w'] eqn:E.
  assert (is_ok (fst demo_run) = true) as Hok by (vm_compute; reflexivity).
  assert (version (snd demo_run) = 2) as Hv by (vm_compute; reflexivity).
  rewrite E in Hok, Hv. destruct r as [t|e]; [|discriminate Hok]. exists t, w'. split; [done|].
  destruct (@commit_Ok_inv plain_runtime demo_env demo_ops fresh_world t w' plain_moves_one empty_tables_wf eq_refl demo_ops_wf E)
    as [[(_ & Hw & _) _]|L]; [|exact L]. cbn [snd] in Hv. rewrite Hw in Hv. discriminate Hv.
Qed.

Lemma commit_atomic_witness :
  exists t w', commit demo_env demo_ops fresh_world = (Ok t, w') /\
    (retried demo_env demo_ops fresh_world w' t \/ landed demo_env demo_ops fresh_world w' t).
Proof.
  destruct (commit demo_env demo_ops fresh_world) as [r w'] eqn:E.
  assert (is_ok (fst (commit demo_env demo_ops fresh_world)) = true) as Hok by (vm_compute; reflexivity).
  rewrite E in Hok. destruct r as [t|e]; [|discriminate Hok]. exists t, w'. split; [reflexivity|].
  exact (@commit_atomic plain_runtime demo_env demo_ops fresh_world (Ok t) w' plain_moves_one empty_tables_wf eq_refl demo_ops_wf E).
Defined.
End commit_witness.

(** No operation of the log can leave the store ill-formed. Whatever
    the envelope and the write set, well formed or not, and whether it
    succeeds or fails, a commit leaves every table, committed or in an
    open transaction, with its rows filed under their primary keys and its
    key columns holding values of their types; so does replaying the
    pending transactions. *)
Lemma commit_keeps_store `{Runtime} (env : Envelope) (ops : list WriteOp) (w : world) :
  store_wf w ->
  store_wf (commit env ops w).2 /\ store_wf (replayPending w).2.
Proof.
  intros W. split.
  - destruct (commit env ops w) eqn:E. by eapply keeps_commit.
  - destruct (replayPending w) eqn:E. by eapply keeps_replayPending.
Qed.

Section keeps_witness.
#[local] Existing Instance plain_runtime.

Lemma fresh_world_wf : store_wf fresh_world.
Proof. split; [apply empty_tables_wf|]. intros db E. discriminate E. Qed.

Lemma commit_keeps_store_witness : store_wf fresh_world /\ store_wf (commit demo_env demo_ops fresh_world).2.
Proof. split; [exact fresh_world_wf|]. exact (proj1 (@commit_keeps_store plain_runtime demo_env demo_ops fresh_world fresh_world_wf)). Defined.
End keeps_witness.

(** The log cannot be written through a write set. A table a write set
    may name is never [transactions], and the columns an entry is keyed by
    are that table's primary key in the schema, so an entry always means
    one row. *)
Lemma write_set_tables (t : string) (cols : list string) :
  keyColumnsFor t = Some cols -> t <> "transactions" /\ cols = primary_key t /\ cols <> [].
Proof.
  intros E. split; [by eapply keyColumnsFor_not_transactions|].
  split; [by apply keyColumnsFor_primary_key|].
  unfold keyColumnsFor in E. destruct (assoc t pkColumns) as [cs|] eqn:Ea.
  - injection E as <-. apply assoc_elem in Ea. intros ->. unfold pkColumns in Ea.
    repeat (apply elem_of_cons in Ea as [[=]|Ea]). by apply elem_of_nil in Ea.
  - destruct (HasPrefix t "q_"); [|done]. by injection E as <-.
Qed.

Lemma write_set_tables_witness :
  "q_person" <> "transactions" /\ ["object_id"] = primary_key "q_person" /\ ["object_id"] <> @nil string.
Proof. exact (write_set_tables "q_person" ["object_id"] eq_refl). Defined.
