(* ===== verification/Replay.v ===== *)
(** * The log as text ([internal/register/register.go], [internal/model])

    A transaction's envelope and write set are stored as canonical JSON
    and replayed from that text. This file shows that the text loses
    nothing: the envelope decodes to the one committed, and the write set
    to one with the same effects, although integers come back as floats
    and binary columns as tagged objects. *)

From S2P Require Import Prelude GoStrings Float64 Encoding Canon Json Decimal SqlText Sql Model World Concrete Commit.
Local Open Scope Z_scope.

(** ** Normal forms *)

(** Sorting members by key does not look at their values. *)
Lemma merge_sort_values {A B} (f : A -> B) (l : list (string * A)) :
  NoDup (l.*1) ->
  merge_sort key_le ((fun p => (p.1, f p.2)) <$> l) = (fun p => (p.1, f p.2)) <$> merge_sort key_le l.
Proof.
  intros Hn. assert (Transitive (@key_le A)) by (intros a b c; unfold key_le; apply String.le_po).
  assert (Total (@key_le A)) by (intros a b; unfold key_le; apply String.le_total).
  assert (Hk : forall l' : list (string * A), ((fun p => (p.1, f p.2)) <$> l').*1 = l'.*1)
    by (intros l'; by rewrite <- list_fmap_compose).
  rewrite (merge_sort_key_perm _ ((fun p => (p.1, f p.2)) <$> merge_sort key_le l)).
  - apply merge_sort_sorted.
    + rewrite Hk. by rewrite merge_sort_Permutation.
    + pose proof (StronglySorted_merge_sort key_le l) as Hs. induction Hs as [|x l' Hs IH Hx]; constructor; [done|].
      by apply Forall_fmap.
  - by rewrite Hk.
  - by rewrite merge_sort_Permutation.
Qed.

Lemma NoDup_sorted_keys {B} (m : list (string * B)) : NoDup (m.*1) -> NoDup ((merge_sort key_le m).*1).
Proof. intros Hn. by rewrite merge_sort_Permutation. Qed.

Lemma obj_get_elem_iff k v m : NoDup (m.*1) -> obj_get k m = Some v <-> (k, v) ∈ m.
Proof.
  induction m as [|[k' v'] m IH]; intros Hn; cbn.
  - rewrite elem_of_nil. naive_solver.
  - apply NoDup_cons in Hn as [Hk Hn]. rewrite elem_of_cons. destruct (String.eqb_spec k k') as [->|Hne].
    + split; [naive_solver|]. intros [[= ->]|Hin]; [done|]. exfalso. apply Hk. by apply (list_elem_of_fmap_2 fst) in Hin.
    + rewrite IH by done. naive_solver.
Qed.

(** Looking a member up does not depend on the members' order. *)
Lemma obj_get_perm k m1 m2 : NoDup (m1.*1) -> m1 ≡ₚ m2 -> obj_get k m1 = obj_get k m2.
Proof.
  intros Hn Hp. assert (NoDup (m2.*1)) as Hn2 by (by rewrite <- Hp).
  apply option_eq. intros v. rewrite !obj_get_elem_iff by done. by rewrite Hp.
Qed.

(** Reading a field of a document whose names are spelt once and as the
    fields are, in whatever order: one member, or none. *)
Definition own_names (m : object) : Prop := forallb (fun kv => String.eqb (fold_name kv.1) kv.1) m = true.
Definition read_one {A} (step : A -> value -> option A) (zero : A) (k : string) (m : object) : res A :=
  match obj_get k m with Some v => of_option (step zero v) (type_error k) | None => Ok zero end.

Lemma all_named_own k m : NoDup m.*1 -> own_names m -> all_named k m = match obj_get k m with Some v => [v] | None => [] end.
Proof.
  unfold own_names, all_named. induction m as [|[n v] m IH]; [done|]. cbn [fmap list_fmap fst]. intros [Hn Hd]%NoDup_cons Ho.
  cbn [forallb fst] in Ho. apply andb_true_iff in Ho as [Ho1 Ho]. apply String.eqb_eq in Ho1. cbn [List.filter obj_get fst]. rewrite Ho1.
  destruct (String.eqb_spec n k) as [->|Hne].
  - rewrite String.eqb_refl. cbn [map snd]. rewrite IH by done. destruct (obj_get k m) as [x|] eqn:Hx; [|done].
    destruct Hn. apply list_elem_of_fmap. exists (k, x). split; [done|]. by apply obj_get_elem_iff.
  - destruct (String.eqb_spec k n); [congruence|]. by apply IH.
Qed.
Lemma read_own {A} (step : A -> value -> option A) zero k m :
  NoDup m.*1 -> own_names m -> read_field step zero k m = read_one step zero k m.
Proof.
  intros Hn Ho. unfold read_field, read_one. rewrite all_named_own by done. destruct (obj_get k m) as [v|]; [|done]. cbn.
  destruct (step zero v); done.
Qed.
Lemma read_sorted {A} (step : A -> value -> option A) zero k m :
  NoDup m.*1 -> own_names m -> read_field step zero k (merge_sort key_le m) = read_one step zero k m.
Proof.
  intros Hn Ho. assert (merge_sort key_le m ≡ₚ m) as Hp by apply merge_sort_Permutation. rewrite read_own.
  - unfold read_one. by rewrite (obj_get_perm k _ m) by (by rewrite Hp).
  - by rewrite Hp.
  - unfold own_names in *. rewrite forallb_forall in *. intros kv Hkv. apply Ho. rewrite <- list_elem_of_In in *. by rewrite <- Hp.
Qed.

Lemma collect_Ok_map {A B} (f : A -> res B) (g : A -> B) l :
  (forall x, x ∈ l -> f x = Ok (g x)) -> collect (map f l) = Ok (g <$> l).
Proof.
  induction l as [|x l IH]; intros Hf; [done|]. cbn. rewrite Hf by apply list_elem_of_here.
  cbn. rewrite IH; [done|]. intros y Hy. apply Hf. by apply list_elem_of_further.
Qed.

(** [normal v n]: encoding/json and the canonical printer agree that [v]
    is written as the canonical value [n]. *)
Definition normal (v n : value) : Prop := normalise v = Ok n /\ canonical n.

Lemma normal_str s : valid_utf8 s = true -> normal (VStr s) (VStr s).
Proof. intros H. split; [cbn; by rewrite to_valid_id|by constructor]. Qed.

Lemma normal_arr l ns : Forall2 normal l ns -> normal (VArr l) (VArr ns).
Proof.
  intros F. split.
  - cbn [normalise]. rewrite (collect_Forall2 _ ns); [done|]. induction F as [|x y l ns [? _] _ IH]; by constructor.
  - constructor. induction F as [|x y l ns [_ ?] _ IH]; by constructor.
Qed.

Lemma StronglySorted_fmap_keys {A} (l : list (string * A)) : StronglySorted key_le (merge_sort key_le l).
Proof.
  assert (Transitive (@key_le A)) by (intros a b c; unfold key_le; apply String.le_po).
  assert (Total (@key_le A)) by (intros a b; unfold key_le; apply String.le_total).
  apply (StronglySorted_merge_sort _).
Qed.

(** An object is written with its members sorted. *)
Lemma normal_obj m ns :
  NoDup (m.*1) -> Forall (fun kv => valid_utf8 kv.1 = true) m ->
  Forall2 (fun kv kn => kv.1 = kn.1 /\ normal kv.2 kn.2) m ns ->
  normal (VObj m) (VObj (merge_sort key_le ns)).
Proof.
  intros Hn Hk F.
  assert (m.*1 = ns.*1) as Hkeys by (clear -F; induction F as [|x y l l' [? _] _ IH]; [done|]; rewrite !fmap_cons, IH; congruence).
  assert (Hn' : NoDup (ns.*1)) by (by rewrite <- Hkeys).
  assert (Hk' : Forall (fun kv => valid_utf8 kv.1 = true) ns).
  { clear -F Hk. induction F as [|x y l l' [E _] _ IH]; [constructor|]. inversion Hk; subst. constructor; [|auto]. congruence. }
  assert (Hc : Forall (fun kv => canonical kv.2) ns).
  { clear -F. induction F as [|x y l l' [_ [_ ?]] _ IH]; by constructor. }
  assert (map (fun kv => (kv.1, normalise kv.2)) m = (fun p => (p.1, Ok p.2)) <$> ns) as E.
  { clear -F. induction F as [|[k v] [k' v'] l l' [? [H _]] _ IH]; [done|]. cbn in *. subst. by rewrite H, IH. }
  split.
  - cbn [normalise]. rewrite E, (merge_sort_values (@Ok value)) by done.
    rewrite (collect_Ok_map _ (fun p => (p.1, default VNull (match p.2 with Ok v => Some v | Err _ => None end)))).
    2:{ intros p Hp. apply list_elem_of_fmap in Hp as ([k v] & -> & Hp). unfold mbind, res_bind. cbn [fst snd default from_option].
        rewrite to_valid_id; [done|].
        rewrite merge_sort_Permutation in Hp. rewrite Forall_forall in Hk'. by apply (Hk' (k, v)). }
    rewrite <- list_fmap_compose.
    assert ((fun p => (p.1, default VNull (match p.2 with Ok v => Some v | Err _ => None end))) ∘ (fun p => (p.1, Ok p.2))
      <$> merge_sort key_le ns = merge_sort key_le ns) as ->.
    { clear. induction (merge_sort key_le ns) as [|[k v] l IH]; [done|]. cbn. f_equal. exact IH. }
    cbn. f_equal. f_equal. apply (obj_override_app []). by apply NoDup_sorted_keys.
  - constructor.
    + by rewrite merge_sort_Permutation.
    + by rewrite merge_sort_Permutation.
    + by apply NoDup_sorted_keys.
    + apply StronglySorted_fmap_keys.
Qed.

(** A value with a normal form survives the trip through the text. *)
Lemma Marshal_normal v n : normal v n -> exists s, Marshal v = Ok s /\ parse_raw s = Ok n.
Proof.
  intros [Hn Hc]. destruct (parse_raw_write n Hc) as (s & Hw & Hp). exists s. unfold Marshal. rewrite Hn. done.
Qed.

(** ** Envelopes *)

Definition member_normal (kv kn : string * value) : Prop := kv.1 = kn.1 /\ normal kv.2 kn.2.

Ltac members :=
  repeat (apply Forall2_cons_2); try apply Forall2_nil_2; try (split; [reflexivity|cbn [snd]]).

Lemma omit_str_normal k s : valid_utf8 s = true -> Forall2 member_normal (omit_str k s) (omit_str k s).
Proof. intros H. unfold omit_str. destruct (String.eqb s ""); members. by apply normal_str. Qed.

Lemma omit_list_normal k l ns : Forall2 normal l ns -> Forall2 member_normal (omit_list k l) (omit_list k ns).
Proof. intros F. unfold omit_list. destruct F; members. apply normal_arr. by constructor. Qed.

Lemma normal_int z : int64_min <= z <= int64_max -> normal (VInt z) (VNumber (itoa z)).
Proof. intros H. split; [done|by constructor]. Qed.

Lemma normal_bool b : normal (VBool b) (VBool b).
Proof. split; [done|constructor]. Qed.

Ltac keys_nodup := apply (bool_decide_unpack _); vm_compute; exact I.
(** The fields of a document written out, member by member. *)
Ltac own_fields := repeat (rewrite read_own by first [keys_nodup|reflexivity]); unfold read_one.

Definition utf8_author (a : Author) : Prop :=
  valid_utf8 (au_Sub a) = true /\ valid_utf8 (au_Display a) = true /\ valid_utf8 (au_Role a) = true.
Definition utf8_ref (r : Ref) : Prop := valid_utf8 (ref_Type r) = true /\ valid_utf8 (ref_Target r) = true.

(** Text in UTF-8, a timestamp that fits. *)
Definition utf8_env (e : Envelope) : Prop :=
  valid_utf8 (Kind e) = true /\ valid_utf8 (Tenant e) = true /\ valid_utf8 (env_Class e) = true /\
  valid_utf8 (SchemaID e) = true /\ Forall (fun s => valid_utf8 s = true) (ObjectIDs e) /\
  utf8_author (env_Author e) /\ int64_min <= Timestamp e <= int64_max /\
  valid_utf8 (Message e) = true /\ Forall utf8_ref (Refs e).

Lemma author_normal a : utf8_author a ->
  exists o, normal (author_value a) (VObj o) /\ decode_author o = Ok a.
Proof.
  intros (H1 & H2 & H3). set (m := [("sub", VStr (au_Sub a))] ++ omit_str "display" (au_Display a) ++ [("role", VStr (au_Role a))]).
  assert (NoDup (m.*1)) as Hn by (unfold m, omit_str; destruct (String.eqb _ _); keys_nodup).
  exists (merge_sort key_le m). split.
  - apply normal_obj; [done| |].
    + unfold m, omit_str. destruct (String.eqb _ _); repeat constructor.
    + unfold m. repeat apply Forall2_app; try by apply omit_str_normal.
      all: members; by apply normal_str.
  - assert (own_names m) as Ho by (unfold m, omit_str; by destruct (String.eqb _ _)).
    unfold decode_author, get_str. rewrite !(read_sorted _ _ _ m) by done.
    unfold read_one, m, omit_str. destruct (String.eqb_spec (au_Display a) "") as [E|E]; cbn; destruct a; cbn in *; by rewrite ?E.
Qed.

Lemma ref_normal r : utf8_ref r -> exists n, normal (ref_value r) n /\ decode_ref n = Ok r.
Proof.
  intros [H1 H2]. set (m := [("type", VStr (ref_Type r)); ("target", VStr (ref_Target r))]).
  assert (NoDup (m.*1)) as Hn by keys_nodup.
  exists (VObj (merge_sort key_le m)). split.
  - apply normal_obj; [done|by repeat constructor|]. members; by apply normal_str.
  - unfold decode_ref, get_str. cbn [as_obj mbind res_bind]. rewrite !(read_sorted _ _ _ m) by done.
    cbn. by destruct r.
Qed.

Lemma Forall_normal {A} (f : A -> value) (dec : value -> res A) (P : A -> Prop) l :
  (forall x, P x -> exists n, normal (f x) n /\ dec n = Ok x) -> Forall P l ->
  exists ns, Forall2 normal (f <$> l) ns /\ collect (map dec ns) = Ok l.
Proof.
  intros Hf F. induction F as [|x l Hx _ (ns & F2 & E)]; [by exists []|].
  destruct (Hf x Hx) as (n & Hn & Hd). exists (n :: ns). split; [by constructor|].
  cbn. unfold mbind, res_bind. by rewrite Hd, E.
Qed.

Lemma str_normal s : valid_utf8 s = true -> exists n, normal (VStr s) n /\ as_str n = Ok s.
Proof. intros H. exists (VStr s). split; [by apply normal_str|done]. Qed.

(** The envelope's text decodes to the envelope. *)
Lemma env_normal e : utf8_env e -> exists n, normal (env_value e) n /\ decode_env n = Ok e.
Proof.
  intros (Hk & Ht & Hc & Hs & Hids & Ha & Hts & Hm & Hr).
  destruct (author_normal _ Ha) as (oa & Na & Da).
  destruct (Forall_normal VStr as_str _ _ str_normal Hids) as (nids & Fids & Dids).
  destruct (Forall_normal ref_value decode_ref _ _ ref_normal Hr) as (nrefs & Frefs & Drefs).
  set (ns := [("kind", VStr (Kind e)); ("tenant", VStr (Tenant e))]
    ++ omit_str "class" (env_Class e) ++ omit_str "schema_id" (SchemaID e)
    ++ omit_list "object_ids" nids
    ++ [("author", VObj oa); ("timestamp", VNumber (itoa (Timestamp e))); ("message", VStr (Message e))]
    ++ omit_list "refs" nrefs).
  assert (NoDup (ns.*1)) as Hn.
  { unfold ns, omit_str, omit_list. destruct (String.eqb _ _), (String.eqb _ _), nids, nrefs; keys_nodup. }
  assert (F : Forall2 member_normal ([("kind", VStr (Kind e)); ("tenant", VStr (Tenant e))]
    ++ omit_str "class" (env_Class e) ++ omit_str "schema_id" (SchemaID e)
    ++ omit_list "object_ids" (VStr <$> ObjectIDs e)
    ++ [("author", author_value (env_Author e)); ("timestamp", VInt (Timestamp e)); ("message", VStr (Message e))]
    ++ omit_list "refs" (ref_value <$> Refs e)) ns).
  { unfold ns. repeat apply Forall2_app; try (by apply omit_str_normal); try (by apply omit_list_normal).
    - members; by apply normal_str.
    - members; [exact Na|by apply normal_int|by apply normal_str]. }
  exists (VObj (merge_sort key_le ns)). split.
  - apply normal_obj; [|clear -Hk|exact F].
    + unfold omit_str, omit_list. destruct (String.eqb _ _), (String.eqb _ _), (_ <$> _), (_ <$> _); keys_nodup.
    + unfold omit_str, omit_list. destruct (String.eqb _ _), (String.eqb _ _), (_ <$> _), (_ <$> _); repeat constructor.
  - clear F Fids Frefs Na. unfold decode_env. cbn [as_obj]. unfold mbind, res_bind. unfold get_str, get_int, get_list, get_struct.
    assert (own_names ns) as Ho.
    { unfold ns, omit_str, omit_list. by destruct (String.eqb _ _), (String.eqb _ _), nids, nrefs. }
    rewrite !(read_sorted _ _ _ ns) by done. unfold read_one. clear Hn Ho.
    assert (obj_get "kind" ns = Some (VStr (Kind e)) /\ obj_get "tenant" ns = Some (VStr (Tenant e)) /\
      obj_get "author" ns = Some (VObj oa) /\ obj_get "timestamp" ns = Some (VNumber (itoa (Timestamp e))) /\
      obj_get "message" ns = Some (VStr (Message e)) /\
      obj_get "class" ns = (if String.eqb (env_Class e) "" then None else Some (VStr (env_Class e))) /\
      obj_get "schema_id" ns = (if String.eqb (SchemaID e) "" then None else Some (VStr (SchemaID e))) /\
      obj_get "object_ids" ns = (match nids with [] => None | _ => Some (VArr nids) end) /\
      obj_get "refs" ns = (match nrefs with [] => None | _ => Some (VArr nrefs) end))
      as (-> & -> & -> & -> & -> & -> & -> & -> & ->).
    { unfold ns, omit_str, omit_list.
      destruct (String.eqb (env_Class e) ""), (String.eqb (SchemaID e) ""), nids, nrefs; split_and!; reflexivity. }
    assert (forall k (l : list value), match match l with [] => None | _ => Some (VArr l) end with
      | Some v => of_option (step_list [] v) (type_error k) | None => Ok [] end = Ok l) as Hl by (by intros k [|]).
    rewrite !Hl. unfold mbind, res_bind. cbn [step_struct step_int step_str of_option app]. rewrite ParseInt64_itoa by done. cbn [of_option]. rewrite Da.
    destruct (String.eqb_spec (env_Class e) "") as [E1|_], (String.eqb_spec (SchemaID e) "") as [E2|_];
      rewrite Dids, Drefs; destruct e; cbn in *; by rewrite ?E1, ?E2.
Qed.

(** ** Write sets *)

(** The column values a write set is replayed from its text with. Floats
    and raw byte strings are left out, and so are integers past 2^53,
    which JSON decoded into [any] rounds. *)
Inductive replayable : value -> Prop :=
  | rp_null : replayable VNull
  | rp_bool b : replayable (VBool b)
  | rp_int z : Z.abs z < 2 ^ 53 -> replayable (VInt z)
  | rp_str s : valid_utf8 s = true -> replayable (VStr s)
  | rp_binary s : replayable (VBinary s).

Definition flat (m : object) : Prop :=
  NoDup (m.*1) /\ Forall (fun kv => valid_utf8 kv.1 = true) m /\ Forall (fun kv => replayable kv.2) m.

Definition replayable_op (op : WriteOp) : Prop :=
  valid_utf8 (Table op) = true /\ flat (Key op) /\ flat (Values op).

Lemma ascii_to_valid s : is_ascii s = true -> valid_utf8 s = true.
Proof.
  unfold is_ascii, valid_utf8. induction s as [|a s IH]; [done|]. intros H. cbn [bytes_of forallb] in H.
  apply andb_true_iff in H as [Ha H]. specialize (IH H). clear H. revert Ha IH.
  destruct a as [[] [] [] [] [] [] [] []]; try discriminate; intros _ IH; simpl; exact IH.
Qed.

Lemma substitute_null txid : substitute txid VNull = VNull.
Proof. done. Qed.

(** A column value, through the text, substitutes to the same. *)
Lemma replayable_normal v : replayable v -> exists n f,
  normal v n /\ floatify n = Ok f /\ forall txid, substitute txid f = substitute txid v.
Proof.
  intros [| |z Hz|s Hs|s].
  - exists VNull, VNull. repeat constructor.
  - exists (VBool b), (VBool b). repeat constructor.
  - exists (VNumber (itoa z)), (VFloat (of_Z z)). split; [|split].
    + apply normal_int. unfold int64_min, int64_max. lia.
    + cbn. by rewrite ParseFloat_itoa.
    + intros txid. destruct (of_Z_exact z Hz) as (Hi & m & e & E & _).
      cbn [substitute]. rewrite Hi. unfold feq. rewrite E. cbn [fcompare]. by rewrite Z.compare_refl.
  - exists (VStr s), (VStr s). split; [by apply normal_str|done].
  - set (o := VObj [("$bytes", VStr (base64_encode s))]). exists o, o. split; [|split; [done|]].
    + split; [done|]. constructor; repeat constructor; [|keys_nodup]. cbn. apply ascii_to_valid, base64_ascii.
    + intros txid. cbn -[base64_decode base64_encode]. by rewrite base64_roundtrip.
Qed.

Lemma Forall2_keys {A B} (Q : A -> B -> Prop) (m : list (string * A)) (ns : list (string * B)) :
  Forall2 (fun a b => a.1 = b.1 /\ Q a.2 b.2) m ns -> m.*1 = ns.*1.
Proof. induction 1 as [|x y l l' [? _] _ IH]; [done|]. rewrite !fmap_cons, IH. congruence. Qed.

(** An object whose members survive the trip through the text, each up to
    [Q], survives it as a whole, up to the order of members. *)
Lemma members_normal (Q : value -> value -> Prop) m :
  NoDup (m.*1) -> Forall (fun kv => valid_utf8 kv.1 = true) m ->
  Forall (fun kv => exists n f, normal kv.2 n /\ floatify n = Ok f /\ Q kv.2 f) m ->
  exists ns mf fs, normal (VObj m) (VObj ns) /\ floatify (VObj ns) = Ok (VObj mf) /\ mf ≡ₚ fs /\
    Forall2 (fun a b => a.1 = b.1 /\ Q a.2 b.2) m fs.
Proof.
  intros Hn Hk Hv.
  assert (exists ns fs, Forall2 member_normal m ns /\ Forall2 (fun n f => n.1 = f.1 /\ floatify n.2 = Ok f.2) ns fs /\
    Forall2 (fun a b => a.1 = b.1 /\ Q a.2 b.2) m fs) as (ns & fs & F1 & F2 & F3).
  { clear Hn Hk. induction Hv as [|[k v] m (n & f & Hn & Hf & Hq) _ (ns & fs & F1 & F2 & F3)]; [by exists [], []|].
    exists ((k, n) :: ns), ((k, f) :: fs). split_and!; by constructor. }
  pose proof (Forall2_keys _ _ _ F1) as Hkn. pose proof (Forall2_keys (fun n f => floatify n = Ok f) _ _ F2) as Hkf.
  assert (Hnn : NoDup (ns.*1)) by (by rewrite <- Hkn).
  exists (merge_sort key_le ns), (merge_sort key_le fs), fs. split_and!; [by apply normal_obj| |by rewrite merge_sort_Permutation|done].
  assert ((fun kv => (kv.1, floatify kv.2)) <$> ns = (fun p => (p.1, Ok p.2)) <$> fs) as E2.
  { clear -F2. induction F2 as [|[k n] [k' f] l l' [? H] _ IH]; [done|]. cbn in *. subst. by rewrite H, IH. }
  cbn [floatify].
  change (map (fun kv => (kv.1, floatify kv.2)) (merge_sort key_le ns))
    with ((fun kv : string * value => (kv.1, floatify kv.2)) <$> merge_sort key_le ns).
  rewrite <- merge_sort_values by done. rewrite E2, (merge_sort_values (@Ok value)) by (by rewrite <- Hkf).
  change (map ?f (?g <$> ?l)) with (f <$> (g <$> l)). rewrite <- list_fmap_compose.
  rewrite (collect_Ok_map _ id); [by rewrite list_fmap_id|]. intros [k v] _. done.
Qed.

Definition subst_same (v f : value) : Prop := forall txid, substitute txid f = substitute txid v.

Lemma flat_normal m : flat m -> exists ns mf,
  normal (VObj m) (VObj ns) /\ floatify_obj ns = Ok mf /\ NoDup (mf.*1) /\
  forall txid, subst_obj txid mf ≡ₚ subst_obj txid m.
Proof.
  intros (Hn & Hk & Hv).
  destruct (members_normal subst_same m Hn Hk) as (ns & mf & fs & N & D & P & F).
  { eapply Forall_impl; [exact Hv|]. intros kv. apply replayable_normal. }
  exists ns, mf. split_and!; [done|unfold floatify_obj; by rewrite D| |].
  - rewrite P. by rewrite <- (Forall2_keys subst_same _ _ F).
  - intros txid. unfold subst_obj. rewrite P. clear -F.
    induction F as [|[k v] [k' f] l l' [? Hf] _ IH]; [done|]. cbn in *. subst. rewrite Hf. by constructor.
Qed.

(** Two entries that mean the same: the same table and operation, and
    the same columns once values are substituted. *)
Definition same_op (a b : WriteOp) : Prop :=
  Table a = Table b /\ Delete a = Delete b /\ NoDup ((Key a).*1) /\ NoDup ((Values a).*1) /\
  forall txid, subst_obj txid (Key a) ≡ₚ subst_obj txid (Key b) /\
    subst_obj txid (Values a) ≡ₚ subst_obj txid (Values b).

Lemma flat_nil : flat [].
Proof. repeat constructor. Qed.

Definition omit_obj (k : string) (m : object) : object := match m with [] => [] | _ => [(k, VObj m)] end.
Definition omit_bool (k : string) (b : bool) : object := if b then [(k, VBool true)] else [].

Lemma op_value_eq op : op_value op =
  VObj ([("table", VStr (Table op)); ("key", VObj (Key op))] ++ omit_obj "values" (Values op) ++ omit_bool "delete" (Delete op)).
Proof. unfold op_value, omit_obj. by destruct (Values op). Qed.

Lemma op_normal op : replayable_op op -> exists n op', normal (op_value op) n /\ decode_op n = Ok op' /\ same_op op' op.
Proof.
  intros (Ht & Hk & Hv).
  destruct (flat_normal _ Hk) as (nk & fk & Nk & Dk & Uk & Sk).
  destruct (flat_normal _ Hv) as (nv & fv & Nv & Dv & Uv & Sv).
  set (vs := match Values op with [] => [] | _ => [("values", VObj nv)] end).
  set (ns := [("table", VStr (Table op)); ("key", VObj nk)] ++ vs ++ omit_bool "delete" (Delete op)).
  assert (NoDup (ns.*1)) as Hn by (unfold ns, vs, omit_bool; destruct (Values op), (Delete op); keys_nodup).
  exists (VObj (merge_sort key_le ns)), (mkWriteOp (Table op) fk fv (Delete op)). split; [|split].
  - rewrite op_value_eq. apply normal_obj.
    + unfold omit_obj, omit_bool. destruct (Values op), (Delete op); keys_nodup.
    + unfold omit_obj, omit_bool. destruct (Values op), (Delete op); repeat constructor.
    + unfold ns, vs. repeat apply Forall2_app.
      * members; [by apply normal_str|exact Nk].
      * unfold omit_obj. destruct (Values op); members; exact Nv.
      * unfold omit_bool. destruct (Delete op); members; apply normal_bool.
  - unfold decode_op. cbn [as_obj]. unfold mbind, res_bind, get_str, get_map, get_bool.
    assert (own_names ns) as Ho by (unfold ns, vs, omit_bool; by destruct (Values op), (Delete op)).
    rewrite !(read_sorted _ _ _ ns) by done. unfold read_one. clear Hn Ho.
    assert (obj_get "table" ns = Some (VStr (Table op)) /\ obj_get "key" ns = Some (VObj nk) /\
      obj_get "values" ns = (match Values op with [] => None | _ => Some (VObj nv) end) /\
      obj_get "delete" ns = (if Delete op then Some (VBool true) else None)) as (-> & -> & -> & ->).
    { unfold ns, vs, omit_bool. destruct (Values op), (Delete op); split_and!; reflexivity. }
    cbn [step_str step_map of_option]. rewrite Dk. destruct (Values op) as [|kv l] eqn:Ev.
    + assert (fv = []) as ->.
      { specialize (Sv ""). cbn in Sv. apply Permutation_nil_r in Sv. by apply fmap_nil_inv in Sv. }
      cbn. by destruct (Delete op).
    + cbn [step_map of_option]. rewrite Dv. by destruct (Delete op).
  - split_and!; try done.
Qed.

Lemma ops_value_normal ops : Forall replayable_op ops ->
  exists n ops', normal (ops_value ops) n /\ decode_ops n = Ok ops' /\ Forall2 same_op ops' ops.
Proof.
  intros F. destruct ops as [|op ops].
  - exists VNull, []. split_and!; [|done|constructor]. split; [done|constructor].
  - assert (exists ns ops', Forall2 normal (op_value <$> op :: ops) ns /\ collect (map decode_op ns) = Ok ops' /\
      Forall2 same_op ops' (op :: ops)) as (ns & ops' & Fn & Dn & Fs).
    { revert F. generalize (op :: ops) as l. induction 1 as [|x l Hx _ (ns & ops' & Fn & Dn & Fs)]; [by exists [], []|].
      destruct (op_normal x Hx) as (n & x' & Hn & Hd & Hs). exists (n :: ns), (x' :: ops'). split_and!.
      - by constructor.
      - cbn. unfold mbind, res_bind. by rewrite Hd, Dn.
      - by constructor. }
    exists (VArr ns), ops'. split_and!; [by apply normal_arr|done|done].
Qed.

(** The text of a write set decodes to one that means the same. *)
Lemma ops_normal ops : Forall replayable_op ops -> exists s ops',
  Marshal (ops_value ops) = Ok s /\ (v ← parse_raw s; decode_ops v) = Ok ops' /\ Forall2 same_op ops' ops.
Proof.
  intros F. destruct (ops_value_normal ops F) as (n & ops' & N & D & S).
  destruct (Marshal_normal _ _ N) as (s & Hm & Hp). exists s, ops'. split_and!; [done| |done]. by rewrite Hp.
Qed.

(** ** Entries that mean the same have the same effect *)
Section same_effect.
Context `{SqlEngine}.

Lemma collect_perm {A} (l1 l2 : list (res A)) x1 :
  l1 ≡ₚ l2 -> collect l1 = Ok x1 -> exists x2, collect l2 = Ok x2 /\ x1 ≡ₚ x2.
Proof.
  intros P. revert x1. induction P as [|r l1 l2 P IH|r1 r2 l|l1 l2 l3 P1 IH1 P2 IH2]; intros x1 E; cbn in *.
  - exists x1. split; [done|reflexivity].
  - res_inv. match goal with H : collect l1 = _ |- _ => apply IH in H as (x2 & -> & Hp) end.
    eexists. split; [reflexivity|]. by constructor.
  - destruct r1, r2, (collect l); try discriminate E. injection E as <-.
    eexists. split; [reflexivity|]. constructor.
  - apply IH1 in E as (x2 & E & Hp). apply IH2 in E as (x3 & E & Hp3). exists x3. split; [done|]. by etrans.
Qed.

Lemma collect_keys t values l :
  collect (map (fun kv => v ← convert t kv.1 (lit kv.2); Ok (kv.1, v)) values) = Ok l -> l.*1 = values.*1.
Proof.
  revert l. induction values as [|[k v] values IH]; intros l E; cbn in E; res_inv; [done|].
  rewrite !fmap_cons. cbn [fst]. f_equal. by apply IH.
Qed.

Lemma row_of_perm t a b r : NoDup (a.*1) -> a ≡ₚ b -> row_of t a = Ok r -> row_of t b = Ok r.
Proof.
  intros Hn P E. unfold row_of in *. res_inv.
  match goal with H : collect _ = Ok ?l |- _ => rename H into Ec; rename l into xs end.
  pose proof (collect_keys _ _ _ Ec) as Hk.
  eapply collect_perm in Ec as (x2 & -> & Hp); [|by apply Permutation_map].
  cbn. f_equal. symmetry. apply list_to_map_proper; [by rewrite Hk|done].
Qed.

Lemma stored_perm t a b : NoDup (a.*1) -> a ≡ₚ b -> stored t a = stored t b.
Proof.
  intros Hn P. unfold stored. destruct (row_of t a) as [r|] eqn:Ea.
  - by rewrite (row_of_perm t a b r Hn P Ea).
  - destruct (row_of t b) as [r|] eqn:Eb; [|done].
    rewrite (row_of_perm t b a r) in Ea; [done| |done|done]. by rewrite <- P.
Qed.

Lemma same_op_effect txid db a b : same_op a b -> effect txid db a = effect txid db b.
Proof.
  intros (Ht & Hd & Nk & Nv & S). destruct (S txid) as [Sk Sv].
  assert (op_key txid a = op_key txid b) as Hkey.
  { unfold op_key. rewrite Ht. apply list_fmap_ext. intros i c _. f_equal.
    assert (forall m, substitute txid (default VNull (obj_get c m)) = default VNull (obj_get c (subst_obj txid m))) as E.
    { intros m. rewrite subst_obj_get. by destruct (obj_get c m). }
    rewrite !E. f_equal. apply obj_get_perm; [by rewrite subst_obj_keys|done]. }
  unfold effect. rewrite Hkey, Ht.
  assert (forall o, row_effect txid a o = row_effect txid b o) as E.
  { intros o. unfold row_effect. rewrite Hd, Ht.
    rewrite (stored_perm _ (subst_obj txid (Values a)) (subst_obj txid (Values b))) by (by rewrite ?subst_obj_keys).
    by rewrite (stored_perm _ (subst_obj txid (Key a)) (subst_obj txid (Key b))) by (by rewrite ?subst_obj_keys). }
  apply map_eq. intros t. destruct (decide (t = Table b)) as [->|Hne].
  - rewrite !lookup_alter_eq. destruct (db !! Table b) as [m|]; [|done]. cbn. f_equal.
    apply map_eq. intros k. destruct (decide (k = op_key txid b)) as [->|Hk].
    + by rewrite !lookup_partial_alter_eq.
    + by rewrite !lookup_partial_alter_ne.
  - by rewrite !lookup_alter_ne.
Qed.

Lemma same_ops_effects txid l1 l2 : Forall2 same_op l1 l2 -> forall db, effects txid db l1 = effects txid db l2.
Proof.
  induction 1 as [|a b l1 l2 Hab _ IH]; intros db; [done|]. cbn.
  change (effects txid (effect txid db a) l1 = effects txid (effect txid db b) l2).
  by rewrite (same_op_effect _ _ _ _ Hab).
Qed.
End same_effect.

(** ** The log *)
Section log.
Context `{Runtime}.

Lemma stored_cell t values r c ty v :
  row_of t values = Ok r -> column_type t c = Some ty -> obj_get c values = Some v -> kind_ok ty (lit v) ->
  r !! c = Some (lit v).
Proof.
  intros Hr Hty Hg Hk. pose proof (row_of_lookup _ _ _ c Hr) as Hl. rewrite Hg in Hl.
  destruct Hl as (x & Hx & ->). unfold convert in Hx. rewrite Hty in Hx. apply of_option_Ok in Hx.
  f_equal. by eapply sql_convert_id.
Qed.

Lemma completed_cell db t r c : c <> "seq" -> completed db t r !! c = r !! c.
Proof.
  intros Hc. unfold completed. destruct (String.eqb t "transactions"); [|done].
  destruct (r !! "seq"); [done|]. by rewrite lookup_insert_ne.
Qed.

(** The columns of the log a transaction is read back from. *)
Lemma log_row_cells txid env ops w r :
  log_row txid env ops w r -> exists writeSet envelope,
    Marshal (ops_value ops) = Ok writeSet /\ Marshal (env_value env) = Ok envelope /\
    cell r "txid" = SStr txid /\ cell r "envelope" = SStr envelope /\ cell r "write_set" = SStr writeSet /\
    cell r "state" = SStr TxApplied.
Proof.
  intros (ws & ev & r0 & Hws & Hev & Hrow & -> & _). exists ws, ev. split_and!; try done; unfold cell.
  all: rewrite completed_cell by done; erewrite stored_cell by (done || reflexivity); reflexivity.
Qed.

Lemma parse_nonempty s v : parse_raw s = Ok v -> String.eqb s "" = false.
Proof. intros Hp. apply String.eqb_neq. intros ->. vm_compute in Hp. discriminate. Qed.

Lemma decode_nonempty {A} s (dec : value -> res A) x : (v ← parse_raw s; dec v) = Ok x -> String.eqb s "" = false.
Proof. intros Hd. res_inv. by eapply parse_nonempty. Qed.

(** A log row decodes to the envelope committed and a write set that
    means the same. *)
Lemma decode_log_row txid env ops w r :
  log_row txid env ops w r -> utf8_env env -> Forall replayable_op ops ->
  exists t, decodeTransaction r = Ok t /\ tx_TxID t = txid /\ tx_Envelope t = env /\
    tx_State t = TxApplied /\ Forall2 same_op (tx_WriteSet t) ops.
Proof.
  intros Hr He Ho. destruct (log_row_cells _ _ _ _ _ Hr) as (ws & ev & Hws & Hev & C1 & C2 & C3 & C4).
  destruct (env_normal env He) as (n & Nn & Dn). destruct (Marshal_normal _ _ Nn) as (s & Hs & Ps).
  destruct (ops_normal ops Ho) as (s2 & ops' & Hs2 & Ds2 & F).
  assert (s = ev) as -> by congruence. assert (s2 = ws) as -> by congruence.
  assert ((v ← parse_raw ev; decode_env v) = Ok env) as De by (by rewrite Ps).
  eexists. unfold decodeTransaction, Str, Bytes. rewrite C1, C2, C3, C4.
  rewrite (decode_nonempty _ _ _ De), (decode_nonempty _ _ _ Ds2), De, Ds2.
  split; [reflexivity|]. split_and!; done.
Qed.
End log.

(** ** Correctness *)
Section correctness.
Context `{Runtime}.

Lemma log_row_found txid env ops w r m :
  log_row txid env ops w r -> head (select_rows [is_ "txid" (VStr txid)] None None (<[pk_of "transactions" r := r]> m)) <> None.
Proof.
  intros Hr. destruct (log_row_cells _ _ _ _ _ Hr) as (_ & _ & _ & _ & C1 & _).
  set (l := select_rows _ _ _ _). assert (r ∈ l) as Hin.
  { unfold l, select_rows. apply list_elem_of_filter. split.
    - unfold matches, cond_holds. cbn [forallb is_ c_op c_col c_val]. rewrite C1. cbn. by rewrite string_compare_refl.
    - rewrite sql_scan_perm. apply rows_elem. exists (pk_of "transactions" r). by rewrite lookup_insert_eq. }
  destruct l; [by apply elem_of_nil in Hin|done].
Qed.

(** Looking for a transaction that landed finds a log row. *)
Lemma landed_found env ops w w' t w'' :
  ops_wf ops -> landed env ops w w' t -> transactionByID (tx_TxID t) w' <> (Ok None, w'').
Proof.
  intros F L E. destruct (landed_log _ _ _ _ _ F L) as (r & m & Hr & Hm).
  destruct L as (_ & _ & _ & _ & _ & _ & _ & _ & _ & Ht & _).
  unfold transactionByID in E. apply M_bind_Ok in E as (row & w1 & E1 & E2).
  apply select_one_Ok in E1 as (-> & m' & Hm' & ->). unfold visible in Hm'. rewrite Ht in Hm'. cbn in Hm'.
  assert (m' = <[pk_of "transactions" r := r]> m) as -> by congruence.
  pose proof (log_row_found _ _ _ _ _ m Hr) as Hf. destruct (head _) as [row|]; [|done]. m_inv. done.
Qed.
End correctness.

(** C2. The log is enough to rebuild the tables. A transaction that landed
    has a row in the log; the row decodes, from the two JSON texts it
    holds, to the envelope that was validated and to a write set whose
    entries have, on any tables, the effects of the entries committed. *)
Theorem log_reproduces `{Runtime} (env : Envelope) (ops : list WriteOp) (w w' : world) (t : Transaction) :
  ops_wf ops -> utf8_env (tx_Envelope t) -> Forall replayable_op ops -> landed env ops w w' t ->
  exists m r t', committed w' !! "transactions" = Some m /\ m !! pk_of "transactions" r = Some r /\
    decodeTransaction r = Ok t' /\ tx_TxID t' = tx_TxID t /\ tx_Envelope t' = tx_Envelope t /\
    committed w' = effects (tx_TxID t') (logged r (committed w))
      (tx_WriteSet t' ++ write_refs (tx_TxID t') 0 (Refs (tx_Envelope t'))).
Proof.
  intros F He Ho L. pose proof L as (Hval & _ & _ & _ & _ & r & Hr & Hc & _).
  destruct (decode_log_row _ _ _ _ _ Hr He Ho) as (t' & Hd & Hid & Henv & _ & Hs).
  pose proof Hr as (? & ? & ? & _ & _ & _ & _ & m & Hm & _).
  exists (<[pk_of "transactions" r := r]> m), r, t'. split_and!; try done.
  - rewrite Hc, effects_other; [unfold logged; by rewrite lookup_alter_eq, Hm|].
    apply Forall_app. split; [by apply (ops_not_transactions (tx_TxID t))|].
    apply (ops_not_transactions (tx_TxID t)), write_refs_wf.
  - by rewrite lookup_insert_eq.
  - rewrite Hc, Hid, Henv. apply Validate_iff in Hval as [_ ->]. unfold effects. rewrite !fold_left_app.
    f_equal. symmetry. by apply same_ops_effects.
Qed.

(** C15. Committing is idempotent. Once a transaction has landed, making the
    same call again changes no table, version, root or notification, and
    when it answers it answers from the log. *)
Theorem commit_retry `{Runtime} (env : Envelope) (ops : list WriteOp) (w w' w'' : world) (t : Transaction) (r : res Transaction) :
  ops_wf ops -> landed env ops w w' t -> commit env ops w' = (r, w'') ->
  match r with Ok t' => retried env ops w' w'' t' | Err _ => same_db w' w'' end.
Proof.
  intros F L E. pose proof L as (Hval & _ & Hid & _). unfold commit in E.
  unfold mbind, M_bind, lift in E. rewrite Hval, Hid in E.
  destruct (check_all check_op ops); [|by injection E as <- <-].
  destruct (transactionByID (tx_TxID t) w') as [[[t0|]|e] w1] eqn:E1.
  - injection E as <- <-. split; [by apply ro_transactionByID in E1|]. by exists (tx_Envelope t), (tx_TxID t).
  - by apply (landed_found _ _ _ _ _ w1 F) in L.
  - injection E as <- <-. by apply ro_transactionByID in E1.
Qed.

(** C6. Replay converges. Wherever an earlier application of a transaction
    stopped, applying the whole of it again leaves the tables it would
    have left: entries already applied make no difference. *)
Theorem replay_converges `{Runtime} (txid : string) (env : Envelope) (ops before after : list WriteOp)
    (db : tables) (w w' : world) (u : unit) :
  Forall (op_wf txid) ops -> ops ++ write_refs txid 0 (Refs env) = before ++ after ->
  visible w = effects txid db before -> wf_db (visible w) ->
  apply txid env ops w = (Ok u, w') ->
  visible w' = effects txid db (ops ++ write_refs txid 0 (Refs env)).
Proof.
  intros F Hsplit V W E. apply apply_visible in E as (_ & -> & _); [|done..].
  rewrite V, Hsplit. unfold effects at 1 3. rewrite !fold_left_app.
  change (effects txid (effects txid (effects txid db before) before) after = effects txid (effects txid db before) after).
  by rewrite effects_idem.
Qed.

Section witnesses.
#[local] Existing Instance plain_runtime.

Lemma demo_utf8 t w' : landed demo_env demo_ops fresh_world w' t -> utf8_env (tx_Envelope t).
Proof.
  intros (Hv & _). assert (Validate demo_env = Ok demo_env) as Hd by (vm_compute; reflexivity).
  rewrite Hd in Hv. injection Hv as <-. unfold utf8_env, utf8_author, int64_min, int64_max.
  cbn [demo_env Kind Tenant env_Class SchemaID ObjectIDs env_Author Timestamp Message Refs].
  repeat (split || constructor || (vm_compute; reflexivity) || lia).
Qed.

Lemma demo_replayable : Forall replayable_op demo_ops.
Proof. repeat constructor; try (vm_compute; reflexivity); keys_nodup. Qed.

Lemma log_reproduces_witness : exists t w' r m t', landed demo_env demo_ops fresh_world w' t /\
  committed w' !! "transactions" = Some m /\ m !! pk_of "transactions" r = Some r /\ decodeTransaction r = Ok t'.
Proof.
  destruct demo_landed as (t & w' & _ & L).
  destruct (@log_reproduces plain_runtime demo_env demo_ops fresh_world w' t demo_ops_wf (demo_utf8 t w' L) demo_replayable L)
    as (m & r & t' & H1 & H2 & H3 & _).
  exists t, w', r, m, t'. split; [exact L|]. split; [exact H1|]. split; [exact H2|exact H3].
Defined.

Lemma commit_retry_witness : exists t w' r w'', landed demo_env demo_ops fresh_world w' t /\
  commit demo_env demo_ops w' = (r, w'') /\
  match r with Ok t' => retried demo_env demo_ops w' w'' t' | Err _ => same_db w' w'' end.
Proof.
  destruct demo_landed as (t & w' & _ & L).
  destruct (commit demo_env demo_ops w') as [r w''] eqn:E.
  exists t, w', r, w''. split; [exact L|]. split; [exact E|].
  exact (@commit_retry plain_runtime demo_env demo_ops fresh_world w' w'' t r demo_ops_wf L E).
Defined.

Lemma replay_converges_witness : exists w' u,
  apply "tx" demo_env demo_ops fresh_world = (Ok u, w') /\
  visible w' = effects "tx" empty_tables (demo_ops ++ write_refs "tx" 0 []).
Proof.
  destruct (apply "tx" demo_env demo_ops fresh_world) as [r w'] eqn:E.
  assert (is_ok (fst (apply "tx" demo_env demo_ops fresh_world)) = true) as Hok by (vm_compute; reflexivity).
  rewrite E in Hok. destruct r as [u|e]; [|discriminate Hok]. exists w', u. split; [reflexivity|].
  exact (@replay_converges plain_runtime "tx" demo_env demo_ops [] demo_ops empty_tables fresh_world w' u
    (demo_ops_wf "tx") eq_refl eq_refl empty_tables_wf E).
Defined.
End witnesses.

(** ** Identity of transactions *)

(** What the hash of a transaction is taken of. *)
Definition transaction_value (env : Envelope) (ops : list WriteOp) : value :=
  VObj [("envelope", env_value env); ("write_set", ops_value ops)].

Lemma transaction_normal env ops : utf8_env env -> Forall replayable_op ops -> exists n no ops',
  normal (transaction_value env ops) (VObj [("envelope", n); ("write_set", no)]) /\
  decode_env n = Ok env /\ decode_ops no = Ok ops' /\ Forall2 same_op ops' ops.
Proof.
  intros He Ho. destruct (env_normal env He) as (n & Nn & Dn). destruct (ops_value_normal ops Ho) as (no & ops' & No & Do & F).
  exists n, no, ops'. split_and!; try done.
  apply (normal_obj [("envelope", env_value env); ("write_set", ops_value ops)] [("envelope", n); ("write_set", no)]).
  - keys_nodup.
  - repeat constructor.
  - members; done.
Qed.

(** C33. A transaction's identity binds the reason and the effects. Two
    transactions with the same identifier have the same envelope, to the
    letter, and write sets with the same effects on any tables, or else
    exhibit a collision of SHA-256. *)
Theorem transactionID_binds `{Runtime} (e1 e2 : Envelope) (o1 o2 : list WriteOp) (txid : string) :
  utf8_env e1 -> utf8_env e2 -> Forall replayable_op o1 -> Forall replayable_op o2 ->
  transactionID e1 o1 = Ok txid -> transactionID e2 o2 = Ok txid ->
  (e1 = e2 /\ forall db, effects txid db o1 = effects txid db o2) \/
  exists b1 b2, b1 <> b2 /\ sha256 b1 = sha256 b2.
Proof.
  intros He1 He2 Ho1 Ho2 T1 T2.
  destruct (transaction_normal e1 o1 He1 Ho1) as (n1 & p1 & q1 & N1 & D1 & E1 & F1).
  destruct (transaction_normal e2 o2 He2 Ho2) as (n2 & p2 & q2 & N2 & D2 & E2 & F2).
  destruct (Marshal_normal _ _ N1) as (s1 & M1 & P1), (Marshal_normal _ _ N2) as (s2 & M2 & P2).
  unfold transactionID, mbind, res_bind in T1, T2. fold (transaction_value e1 o1) in T1. fold (transaction_value e2 o2) in T2.
  rewrite M1 in T1. rewrite M2 in T2. injection T1 as T1. injection T2 as T2.
  destruct (String.eq_dec s1 s2) as [->|Hne].
  - left. assert (VObj [("envelope", n1); ("write_set", p1)] = VObj [("envelope", n2); ("write_set", p2)]) as E by congruence.
    injection E as -> ->. split; [congruence|]. intros db. assert (q1 = q2) as -> by congruence.
    rewrite <- (same_ops_effects txid q2 o1 F1 db). by apply same_ops_effects.
  - right. exists s1, s2. split; [done|]. apply hex_encode_inj. congruence.
Qed.

Section identity_witness.
#[local] Existing Instance plain_runtime.

Lemma transactionID_binds_witness : exists txid,
  transactionID demo_env demo_ops = Ok txid /\
  ((demo_env = demo_env /\ forall db, effects txid db demo_ops = effects txid db demo_ops) \/
   exists b1 b2, b1 <> b2 /\ sha256 b1 = sha256 b2).
Proof.
  destruct (transactionID demo_env demo_ops) as [txid|e] eqn:E; [|vm_compute in E; discriminate E].
  assert (utf8_env demo_env) as He.
  { unfold utf8_env, utf8_author, int64_min, int64_max.
    cbn [demo_env Kind Tenant env_Class SchemaID ObjectIDs env_Author Timestamp Message Refs].
    repeat (split || constructor || (vm_compute; reflexivity) || lia). }
  exists txid. split; [reflexivity|].
  exact (@transactionID_binds plain_runtime demo_env demo_env demo_ops demo_ops txid He He demo_replayable demo_replayable E E).
Defined.
End identity_witness.
