(* ===== verification/Rbac.v ===== *)
(** * Roles and principals ([internal/auth/rbac.go])

    [NewModel] checks a pack's role declarations; [Resolve] maps a
    verified identity onto them: the roles held, the separation-of-duties
    refusal, the acting role and the union of permissions. *)

From S2P Require Import Prelude GoStrings.

Definition PermRead := "read".
Definition PermPropose := "propose".
Definition PermApprove := "approve".
Definition PermExplorer := "explorer".
Definition PermProofs := "proofs".
Definition PermCheckpoints := "checkpoints".
Definition PermRetention := "retention".
Definition PermErasure := "erasure".
Definition PermSchema := "schema".
Definition PermKeys := "keys".
Definition PermAdmin := "admin".
Definition PermMembers := "members".

Record RoleSpec := mkRoleSpec {
  rs_Name : string;
  rs_Title : string;
  rs_Summary : string;
  rs_OIDCRoles : list string;
  rs_Permissions : list string;
  rs_PII : bool;
  rs_IncompatibleWith : list string;
}.

(** [auth.Model]: roles by name, and the register roles each
    identity-provider role grants. *)
Record RoleModel := mkRoleModel {
  roles : gmap string RoleSpec;
  byRole : gmap string (list string);
}.

Definition empty_model : RoleModel := mkRoleModel ∅ ∅.

Definition add_oidc (name : string) (m : gmap string (list string)) (r : string) : gmap string (list string) :=
  <[r := default [] (m !! r) ++ [name]]> m.

Definition add_role (m : RoleModel) (s : RoleSpec) : res RoleModel :=
  _ ← refuse_if (String.eqb (rs_Name s) "") (Errorf "roles: a role has no name" []);
  match roles m !! rs_Name s with
  | Some _ => Err (Errorf "roles: %q is declared twice" [rs_Name s])
  | None => Ok (mkRoleModel (<[rs_Name s := s]> (roles m))
                  (fold_left (add_oidc (rs_Name s)) (rs_OIDCRoles s) (byRole m)))
  end.

Fixpoint add_roles (m : RoleModel) (specs : list RoleSpec) : res RoleModel :=
  match specs with [] => Ok m | s :: specs => m ← add_role m s; add_roles m specs end.

Definition check_incompatible (m : RoleModel) (s : RoleSpec) : res unit :=
  check_all (fun other => match roles m !! other with
    | Some _ => Ok tt
    | None => Err (Errorf "roles: %q is declared incompatible with unknown role %q" [rs_Name s; other])
    end) (rs_IncompatibleWith s).

(** [auth.NewModel]. Go ranges over a map to check the declarations; the
    order decides only which of several errors is reported. *)
Definition NewModel (specs : list RoleSpec) : res RoleModel :=
  m ← add_roles empty_model specs;
  _ ← check_all (fun kv => check_incompatible m kv.2) (map_to_list (roles m));
  Ok m.

(** [Model.Role]. *)
Definition Role (m : RoleModel) (name : string) : option RoleSpec := roles m !! name.

Record Identity := mkIdentity {
  id_Sub : string;
  id_Display : string;
  id_Email : string;
  id_Roles : list string;
  id_Granted : list string;
}.

Record Principal := mkPrincipal {
  Sub : string;
  Display : string;
  Email : string;
  p_Tenant : string;
  p_Roles : list string;
  Acting : string;
  PII : bool;
  perms : gset string;
}.

(** The set of register roles an identity holds. *)
Definition held_roles (m : RoleModel) (id : Identity) : gset string :=
  list_to_set (id_Roles id ≫= (fun r => default [] (byRole m !! r)))
  ∪ list_to_set (filter (fun n => is_Some (roles m !! n)) (id_Granted id)).

Definition incompatible (m : RoleModel) (name : string) : list string :=
  match roles m !! name with Some s => rs_IncompatibleWith s | None => [] end.

Definition check_duties (m : RoleModel) (held : gset string) (names : list string) : res unit :=
  check_all (fun name => check_all (fun other =>
    refuse_if (bool_decide (other ∈ held))
      (Errorf "separation of duties: roles %q and %q may not be held together" [name; other]))
    (incompatible m name)) names.

(** [Model.Resolve]. *)
Definition Resolve (m : RoleModel) (id : Identity) (tenant requestedRole : string) : res Principal :=
  let held := held_roles m id in
  _ ← refuse_if (bool_decide (held = ∅)) ErrNoRole;
  let names := sort_strings (elements held) in
  _ ← check_duties m held names;
  acting ← (if String.eqb requestedRole "" then Ok (default "" (head names))
            else if bool_decide (requestedRole ∈ held) then Ok requestedRole
            else Err (Errorf "acting role %q is not held by this caller" [requestedRole]));
  let specs := omap (fun n => roles m !! n) names in
  Ok (mkPrincipal (id_Sub id) (if String.eqb (id_Display id) "" then id_Sub id else id_Display id) (id_Email id)
        tenant names acting (existsb rs_PII specs) (list_to_set (specs ≫= rs_Permissions))).

(** [Principal.Can], [CanOn], [Grant], [Permissions]. *)
Definition Can (p : Principal) (perm : string) : bool := bool_decide (perm ∈ perms p).
Definition CanOn (p : Principal) (perm scope : string) : bool :=
  Can p perm || Can p (perm +:+ ":*") || Can p (perm +:+ ":" +:+ scope).
Definition Grant (p : Principal) (extra : list string) : Principal :=
  mkPrincipal (Sub p) (Display p) (Email p) (p_Tenant p) (p_Roles p) (Acting p) (PII p)
    (perms p ∪ list_to_set extra).
Definition Permissions (p : Principal) : list string := sort_strings (elements (perms p)).

(** ** Facts *)

(** A model is coherent: roles are filed under their names, the tables
    name declared roles, and so do the incompatibilities. *)
Record coherent (m : RoleModel) : Prop := {
  co_name : forall n s, roles m !! n = Some s -> rs_Name s = n;
  co_by : forall r l n, byRole m !! r = Some l -> n ∈ l -> is_Some (roles m !! n);
  co_inc : forall n s o, roles m !! n = Some s -> o ∈ rs_IncompatibleWith s -> is_Some (roles m !! o);
}.

Lemma add_oidc_lookup name l : forall m r n,
  n ∈ default [] (fold_left (add_oidc name) l m !! r) -> n = name \/ n ∈ default [] (m !! r).
Proof.
  induction l as [|x l IH]; intros m r n Hn; cbn in Hn; [by right|].
  apply IH in Hn as [->|Hn]; [by left|]. unfold add_oidc in Hn. rewrite lookup_insert in Hn.
  case_decide as Hd; [subst|by right]. cbn in Hn. apply elem_of_app in Hn as [Hn|Hn]; [by right|].
  apply list_elem_of_singleton in Hn. by left.
Qed.

Lemma add_roles_sound specs : forall m m',
  (forall n s, roles m !! n = Some s -> rs_Name s = n) ->
  (forall r n, n ∈ default [] (byRole m !! r) -> is_Some (roles m !! n)) ->
  add_roles m specs = Ok m' ->
  (forall n s, roles m' !! n = Some s -> rs_Name s = n) /\
  (forall r n, n ∈ default [] (byRole m' !! r) -> is_Some (roles m' !! n)).
Proof.
  induction specs as [|s specs IH]; intros m m' H1 H2 E; cbn in E; res_inv; [done|].
  eapply IH; [| |done]; clear IH; unfold add_role in *; res_inv;
    match goal with H : match ?x with _ => _ end = Ok _ |- _ => destruct x; [done|] end; res_inv; cbn.
  - intros n s'. rewrite lookup_insert_Some. naive_solver.
  - intros r n Hn. apply add_oidc_lookup in Hn as [->|Hn].
    + rewrite lookup_insert_eq. eauto.
    + destruct (decide (n = rs_Name s)) as [->|]; [rewrite lookup_insert_eq; eauto|].
      rewrite lookup_insert_ne by done. eauto.
Qed.

Lemma NewModel_coherent specs m : NewModel specs = Ok m -> coherent m.
Proof.
  unfold NewModel. intros E. res_inv.
  match goal with H : add_roles _ _ = Ok _ |- _ => apply add_roles_sound in H as [H1 H2] end.
  2:{ intros n s. cbn. by rewrite lookup_empty. }
  2:{ intros r n. cbn. rewrite lookup_empty. cbn. by rewrite elem_of_nil. }
  match goal with H : check_all _ _ = Ok ?u |- _ => destruct u; rewrite check_all_Ok in H; rename H into Hc end.
  split; [done| |].
  - intros r l n Hl Hn. apply (H2 r). by rewrite Hl.
  - intros n s o Hs Ho. rewrite Forall_forall in Hc. specialize (Hc (n, s)).
    rewrite elem_of_map_to_list in Hc. specialize (Hc Hs). cbn in Hc. unfold check_incompatible in Hc.
    rewrite check_all_Ok, Forall_forall in Hc. specialize (Hc o Ho). destruct (roles _ !! o); [eauto|done].
Qed.

Lemma held_declared m id n : coherent m -> n ∈ held_roles m id -> is_Some (roles m !! n).
Proof.
  intros [_ Hb _]. unfold held_roles. rewrite elem_of_union, !elem_of_list_to_set, list_elem_of_filter, list_elem_of_bind.
  intros [(r & Hn & _)|[? _]]; [|done]. destruct (byRole m !! r) as [l|] eqn:E; [eauto|]. by apply elem_of_nil in Hn.
Qed.

Lemma check_duties_Ok m held names :
  check_duties m held names = Ok tt <-> forall n o, n ∈ names -> o ∈ incompatible m n -> o ∉ held.
Proof.
  unfold check_duties. rewrite check_all_Ok, Forall_forall. setoid_rewrite check_all_Ok. setoid_rewrite Forall_forall.
  setoid_rewrite refuse_if_Ok. setoid_rewrite bool_decide_eq_false. naive_solver.
Qed.

(** What [Resolve] promises: it succeeds exactly when the identity holds
    a role, holds no two roles declared incompatible and holds the role
    it asks to act under; and the principal is then the sorted roles with
    the union of their permissions. *)
Record resolved (m : RoleModel) (id : Identity) (tenant requested : string) (p : Principal) : Prop := {
  rv_sub : Sub p = id_Sub id;
  rv_tenant : p_Tenant p = tenant;
  rv_roles : forall n, n ∈ p_Roles p <-> n ∈ held_roles m id;
  rv_sorted : StronglySorted String.le (p_Roles p) /\ NoDup (p_Roles p);
  rv_acting : Acting p ∈ p_Roles p /\ (requested <> "" -> Acting p = requested);
  rv_duties : forall a b, a ∈ p_Roles p -> b ∈ p_Roles p -> b ∉ incompatible m a;
  rv_perms : forall perm, Can p perm = true <->
    exists n s, n ∈ p_Roles p /\ roles m !! n = Some s /\ perm ∈ rs_Permissions s;
  rv_pii : PII p = true <-> exists n s, n ∈ p_Roles p /\ roles m !! n = Some s /\ rs_PII s = true;
}.

Lemma elem_of_names (held : gset string) n : n ∈ sort_strings (elements held) <-> n ∈ held.
Proof. by rewrite elem_of_sort_strings, elem_of_elements. Qed.

Lemma Resolve_Ok m id tenant requested p :
  Resolve m id tenant requested = Ok p -> resolved m id tenant requested p.
Proof.
  unfold Resolve. intros E. res_inv. bool_hyps.
  match goal with H : check_duties _ _ _ = Ok ?u |- _ => destruct u; rewrite check_duties_Ok in H; rename H into Hd end.
  set (names := sort_strings (elements (held_roles m id))) in *.
  assert (Hn : forall n, n ∈ names <-> n ∈ held_roles m id) by (intros; apply elem_of_names).
  split; cbn [Sub p_Tenant p_Roles Acting PII].
  - done.
  - done.
  - apply Hn.
  - split; [apply sort_strings_sorted|apply sort_strings_nodup, NoDup_elements].
  - destruct (String.eqb_spec requested "") as [->|Hne].
    + res_inv. split; [|done]. destruct names as [|n l] eqn:El; [|apply list_elem_of_here].
      exfalso. match goal with H : held_roles m id <> ∅ |- _ => apply H end. apply set_eq. intros n.
      rewrite <- Hn, elem_of_nil, elem_of_empty. done.
    + match goal with H : (if ?b then _ else _) = Ok _ |- _ => destruct b eqn:Eb; [|done] end.
      res_inv. bool_hyps. split; [by apply Hn|done].
  - intros a b Ha Hb Hi. by apply (Hd a b Ha Hi), Hn.
  - intros perm. unfold Can. rewrite bool_decide_eq_true. cbn. rewrite elem_of_list_to_set, list_elem_of_bind.
    setoid_rewrite list_elem_of_omap. naive_solver.
  - rewrite existsb_exists. setoid_rewrite <- list_elem_of_In. setoid_rewrite list_elem_of_omap. naive_solver.
Qed.

Lemma Resolve_complete m id tenant requested :
  held_roles m id <> ∅ ->
  (forall a b, a ∈ held_roles m id -> b ∈ held_roles m id -> b ∉ incompatible m a) ->
  requested = "" \/ requested ∈ held_roles m id ->
  exists p, Resolve m id tenant requested = Ok p.
Proof.
  intros Hne Hd Hr. unfold Resolve. rewrite (bool_decide_eq_false_2 (held_roles m id = ∅)) by done. cbn [refuse_if].
  assert (check_duties m (held_roles m id) (sort_strings (elements (held_roles m id))) = Ok tt) as Hc.
  { apply check_duties_Ok. intros n o Hn Ho Hin. apply elem_of_names in Hn. exact (Hd n o Hn Hin Ho). }
  unfold mbind, res_bind. rewrite Hc. destruct (String.eqb requested "") eqn:Eq; [eexists; reflexivity|].
  bool_hyps. destruct Hr as [->|Hr]; [done|]. rewrite (bool_decide_eq_true_2 (requested ∈ held_roles m id)) by done.
  eexists; reflexivity.
Qed.

(** [Resolve] succeeds exactly under the conditions above. *)
Lemma Resolve_iff m id tenant requested :
  (exists p, Resolve m id tenant requested = Ok p) <->
  held_roles m id <> ∅ /\
  (forall a b, a ∈ held_roles m id -> b ∈ held_roles m id -> b ∉ incompatible m a) /\
  (requested = "" \/ requested ∈ held_roles m id).
Proof.
  split; [|intros (? & ? & ?); by apply Resolve_complete].
  intros [p E]. pose proof (Resolve_Ok _ _ _ _ _ E) as R. split_and!.
  - intros H0. destruct (rv_acting _ _ _ _ _ R) as [Ha _]. apply (rv_roles _ _ _ _ _ R) in Ha. set_solver.
  - intros a b Ha Hb. apply (rv_duties _ _ _ _ _ R); by apply (rv_roles _ _ _ _ _ R).
  - destruct (decide (requested = "")); [by left|right].
    destruct (rv_acting _ _ _ _ _ R) as [Ha Heq]. rewrite Heq in Ha by done. by apply (rv_roles _ _ _ _ _ R).
Qed.

(** C38. Resolving a caller. A principal comes out exactly when the caller
    holds a role of the model, holds no two roles declared incompatible
    and asks to act under a role it holds, or under none; the principal
    then carries the held roles, sorted and once each, acts under one of
    them, and has exactly the permissions and the PII clearance that those
    roles declare. *)
Theorem resolve_principal (m : RoleModel) (id : Identity) (tenant requested : string) :
  match Resolve m id tenant requested with
  | Ok p => resolved m id tenant requested p
  | Err _ =>
      ~ (held_roles m id <> ∅ /\
         (forall a b, a ∈ held_roles m id -> b ∈ held_roles m id -> b ∉ incompatible m a) /\
         (requested = "" \/ requested ∈ held_roles m id))
  end.
Proof.
  destruct (Resolve m id tenant requested) as [p|e] eqn:E; [by apply Resolve_Ok|].
  intros (H1 & H2 & H3). destruct (Resolve_complete m id tenant requested H1 H2 H3) as [p Hp]. congruence.
Qed.

(** A role model that is accepted is coherent: every role is filed
    under its own name, the OIDC roles map to declared roles, and every
    incompatibility names a declared role. So a caller's roles always have
    a definition. *)
Lemma role_model_coherent (specs : list RoleSpec) (m : RoleModel) (id : Identity) :
  NewModel specs = Ok m -> coherent m /\ forall n, n ∈ held_roles m id -> is_Some (roles m !! n).
Proof. intros E. pose proof (NewModel_coherent _ _ E) as C. split; [done|]. intros n. by apply held_declared. Qed.

Definition demo_roles : list RoleSpec :=
  [mkRoleSpec "clerk" "Clerk" "" ["oidc-clerk"] ["propose"; "read"] false ["reviewer"];
   mkRoleSpec "reviewer" "Reviewer" "" ["oidc-reviewer"] ["approve"; "read"] true ["clerk"]].

Lemma role_model_coherent_witness : exists m,
  NewModel demo_roles = Ok m /\ coherent m /\
  forall n, n ∈ held_roles m (mkIdentity "u" "" "" ["oidc-clerk"] []) -> is_Some (roles m !! n).
Proof.
  destruct (NewModel demo_roles) as [m|e] eqn:E; [|vm_compute in E; discriminate E].
  exists m. split; [reflexivity|]. exact (role_model_coherent demo_roles m _ E).
Defined.
