(* ===== verification/JsonSchema.v ===== *)
(** * Record schemas ([internal/jsonschema])

    The subset of JSON Schema the register implements: compilation (which
    rejects every keyword it does not implement), validation (which
    reports every failure), and the [x-register] rules read off a schema:
    personal fields, query projections, references. *)

From S2P Require Import Prelude GoStrings Float64 Encoding Canon.
Local Open Scope Z_scope.

(** The parts of the Go library a schema reaches that have no short
    definition: regular expressions, mail addresses, RFC 3339 times. *)
Class GoFormats := {
  regexp_Compile : string -> option error;
  regexp_MatchString : string -> string -> bool;
  mail_ParseAddress : string -> bool;
  time_ParseRFC3339 : string -> bool;
}.

(** [FieldRules], the [x-register] extension. *)
Record FieldRules := mkFieldRules {
  fr_PII : bool;
  fr_Queryable : bool;
  fr_Indexed : bool;
  fr_Unique : bool;
  fr_Column : string;
  fr_Member : string;
  fr_Reference : string;
}.

(** [Schema]: one node. [Properties] is a Go map, its members in key
    order. *)
Inductive Schema := mkSchema {
  s_Type : string;
  s_Enum : list value;
  s_Const : value;
  s_Required : list string;
  s_Properties : list (string * Schema);
  s_AdditionalProperties : option bool;
  s_Items : option Schema;
  s_MinItems : option Z;
  s_MaxItems : option Z;
  s_UniqueItems : bool;
  s_MinLength : option Z;
  s_MaxLength : option Z;
  s_Pattern : string;
  s_Format : string;
  s_Minimum : option float64;
  s_Maximum : option float64;
  s_ExclusiveMinimum : option float64;
  s_ExclusiveMaximum : option float64;
  s_MultipleOf : option float64;
  s_Register : option FieldRules;
}.

Section schema_ind.
Variable P : Schema -> Prop.
Hypothesis H : forall s, Forall (fun p => P p.2) (s_Properties s) ->
  (forall i, s_Items s = Some i -> P i) -> P s.

(** Induction under the properties and the items of a node. *)
Fixpoint schema_ind' (s : Schema) : P s :=
  H s
    ((fix go l : Forall (fun p => P p.2) l :=
        match l with [] => Forall_nil_2 _ | p :: l => Forall_cons_2 _ _ _ (schema_ind' p.2) (go l) end) (s_Properties s))
    (match s_Items s as o return forall i, o = Some i -> P i with
     | Some j => fun i E => match E in _ = o return match o with Some i => P i | None => True end with eq_refl => schema_ind' j end
     | None => fun i E => match E in _ = o return match o with Some i => P i | None => True end with eq_refl => I end
     end).
End schema_ind.

Definition knownKeywords : list string :=
  ["type"; "title"; "description"; "enum"; "const"; "required"; "properties"; "additionalProperties";
   "items"; "minItems"; "maxItems"; "uniqueItems"; "minLength"; "maxLength"; "pattern"; "format";
   "minimum"; "maximum"; "exclusiveMinimum"; "exclusiveMaximum"; "multipleOf"; "x-register"].
Definition knownTypes : list string := ["object"; "array"; "string"; "number"; "integer"; "boolean"; "null"].
Definition knownFormats : list string := ["date"; "date-time"; "email"; "uri"; "sha256"].

(** [pathOr] and [loc]. *)
Definition pathOr (p : string) : string := if String.eqb p "" then "the document root" else p.
Definition loc (path : string) : string := "payload" +:+ path.

(** ** Decoding a schema document *)

Definition dec_fail {A} (k : string) : res A := Err (Errorf "json: cannot unmarshal value into Go struct field Schema.%s" [k]).
Definition field_str (k : string) (m : object) : res string :=
  match obj_get k m with Some (VStr s) => Ok s | None | Some VNull => Ok "" | Some _ => dec_fail k end.
Definition field_bool (k : string) (m : object) : res bool :=
  match obj_get k m with Some (VBool b) => Ok b | None | Some VNull => Ok false | Some _ => dec_fail k end.
Definition field_obool (k : string) (m : object) : res (option bool) :=
  match obj_get k m with Some (VBool b) => Ok (Some b) | None | Some VNull => Ok None | Some _ => dec_fail k end.
Definition field_oint (k : string) (m : object) : res (option Z) :=
  match obj_get k m with
  | Some (VNumber s) => match ParseInt64 s with (i, true) => Ok (Some i) | _ => dec_fail k end
  | None | Some VNull => Ok None
  | Some _ => dec_fail k
  end.
Definition field_ofloat (k : string) (m : object) : res (option float64) :=
  match obj_get k m with
  | Some (VNumber s) => match ParseFloat s with (f, true) => Ok (Some f) | _ => dec_fail k end
  | None | Some VNull => Ok None
  | Some _ => dec_fail k
  end.
Definition field_strs (k : string) (m : object) : res (list string) :=
  match obj_get k m with
  | Some (VArr l) => collect (map (fun v => match v with VStr s => Ok s | VNull => Ok "" | _ => dec_fail k end) l)
  | None | Some VNull => Ok []
  | Some _ => dec_fail k
  end.
Definition field_vals (k : string) (m : object) : res (list value) :=
  match obj_get k m with
  | Some (VArr l) => collect (map floatify l)
  | None | Some VNull => Ok []
  | Some _ => dec_fail k
  end.
Definition field_val (k : string) (m : object) : res value :=
  match obj_get k m with Some v => floatify v | None => Ok VNull end.

Definition decode_rules (v : value) : res FieldRules :=
  match v with
  | VObj m =>
      pii ← field_bool "pii" m; q ← field_bool "queryable" m; i ← field_bool "indexed" m; u ← field_bool "unique" m;
      c ← field_str "column" m; mb ← field_str "member" m; r ← field_str "reference" m;
      Ok (mkFieldRules pii q i u c mb r)
  | _ => dec_fail "x-register"
  end.
Definition field_rules (m : object) : res (option FieldRules) :=
  match obj_get "x-register" m with
  | None | Some VNull => Ok None
  | Some v => r ← decode_rules v; Ok (Some r)
  end.

Fixpoint assoc_last {A} (k : string) (l : list (string * A)) : option A :=
  match l with
  | [] => None
  | (k', x) :: l => if String.eqb k k' then Some x else assoc_last k l
  end.

(** [json.Unmarshal] of a document into a [Schema]. The nested nodes are
    decoded first, then filed under the members that hold them. *)
Fixpoint decode_schema (v : value) : res Schema :=
  match v with
  | VObj m =>
      let nested := map (fun kv => (kv.1,
        (decode_schema kv.2,
         match kv.2 with VObj ps => Ok (map (fun p => (p.1, decode_schema p.2)) ps) | VNull => Ok [] | _ => dec_fail "properties" end))) m in
      t ← field_str "type" m; _ ← field_str "title" m; _ ← field_str "description" m;
      enum ← field_vals "enum" m; const ← field_val "const" m; required ← field_strs "required" m;
      props ← match assoc_last "properties" nested with
              | None => Ok []
              | Some (_, ps) => ps ← ps; collect (map (fun p => s ← p.2; Ok (p.1, s)) (merge_sort key_le ps))
              end;
      ap ← field_obool "additionalProperties" m;
      items ← match obj_get "items" m, assoc_last "items" nested with
              | None, _ | Some VNull, _ | _, None => Ok None
              | _, Some (s, _) => s ← s; Ok (Some s)
              end;
      mini ← field_oint "minItems" m; maxi ← field_oint "maxItems" m; uniq ← field_bool "uniqueItems" m;
      minl ← field_oint "minLength" m; maxl ← field_oint "maxLength" m;
      pat ← field_str "pattern" m; fmt ← field_str "format" m;
      mn ← field_ofloat "minimum" m; mx ← field_ofloat "maximum" m;
      emn ← field_ofloat "exclusiveMinimum" m; emx ← field_ofloat "exclusiveMaximum" m; mult ← field_ofloat "multipleOf" m;
      reg ← field_rules m;
      Ok (mkSchema t enum const required props ap items mini maxi uniq minl maxl pat fmt mn mx emn emx mult reg)
  | _ => dec_fail ""
  end.

(** ** Compilation *)

(** [checkKeywords], in the order of the document's members (a Go map's
    order decides only which of several errors is reported). *)
Fixpoint checkKeywords (v : value) (path : string) : res unit :=
  match v with
  | VObj m =>
      check_all (fun r => r) (map (fun kv =>
        _ ← refuse_if (negb (containsString knownKeywords kv.1)) (Errorf "schema: unsupported keyword %q at %s" [kv.1; pathOr path]);
        if String.eqb kv.1 "properties" then
          match kv.2 with
          | VObj props =>
              check_all (fun r => r) (map (fun p =>
                match p.2 with
                | VObj _ => checkKeywords p.2 (path +:+ "/" +:+ p.1)
                | _ => Err (Errorf "schema: property %q at %s must be an object" [p.1; pathOr path])
                end) props)
          | _ => Err (Errorf "schema: properties at %s must be an object" [pathOr path])
          end
        else if String.eqb kv.1 "items" then
          match kv.2 with
          | VObj _ => checkKeywords kv.2 (path +:+ "/items")
          | _ => Err (Errorf "schema: items at %s must be an object" [pathOr path])
          end
        else Ok tt) m)
  | _ => Ok tt
  end.

Definition orAny (t : string) : string := if String.eqb t "" then "untyped" else t.

Fixpoint prop (name : string) (l : list (string * Schema)) : option Schema :=
  match l with [] => None | (n, s) :: l => if String.eqb name n then Some s else prop name l end.

(** [Schema.checkMember]. *)
Definition checkMember (s : Schema) (path : string) : res unit :=
  match s_Register s with
  | None => Ok tt
  | Some r =>
      if String.eqb (fr_Member r) "" then Ok tt
      else if negb (String.eqb (s_Type s) "object") then
        Err (Errorf "schema: member %q at %s: the property is %s, not an object" [fr_Member r; path; orAny (s_Type s)])
      else match prop (fr_Member r) (s_Properties s) with
           | None => Err (Errorf "schema: member %q at %s is not a declared property of the object" [fr_Member r; path])
           | Some m =>
               if containsString [""; "string"; "integer"; "number"; "boolean"] (s_Type m) then Ok tt
               else Err (Errorf "schema: member %q at %s is %s; a projected member must be a scalar" [fr_Member r; path; s_Type m])
           end
  end.

Section compile.
Context `{GoFormats}.

(** [Schema.compile]. *)
Fixpoint compile (s : Schema) (path : string) : res unit :=
  _ ← refuse_if (negb (String.eqb (s_Type s) "") && negb (containsString knownTypes (s_Type s)))
        (Errorf "schema: unsupported type %q at %s" [s_Type s; pathOr path]);
  _ ← refuse_if (negb (String.eqb (s_Format s) "") && negb (containsString knownFormats (s_Format s)))
        (Errorf "schema: unsupported format %q at %s" [s_Format s; pathOr path]);
  _ ← (if String.eqb (s_Pattern s) "" then Ok tt
       else match regexp_Compile (s_Pattern s) with
            | None => Ok tt
            | Some e => Err (Wrapf "schema: pattern at %s: %w" [pathOr path] e)
            end);
  _ ← check_all (fun r => r) (map (fun p => compile p.2 (path +:+ "/" +:+ p.1)) (s_Properties s));
  _ ← (match s_Items s with Some i => compile i (path +:+ "/items") | None => Ok tt end);
  _ ← check_all (fun r =>
        refuse_if (match s_Properties s with [] => false | _ => true end
                   && negb (containsString (map fst (s_Properties s)) r))
          (Errorf "schema: required property %q at %s is not declared" [r; pathOr path])) (s_Required s);
  check_all (fun p => checkMember p.2 (path +:+ "/" +:+ p.1)) (s_Properties s).

(** [jsonschema.Compile]. *)
Definition Compile (doc : string) : res Schema :=
  v ← parse_raw doc;
  s ← decode_schema v;
  probe ← floatify v;
  _ ← checkKeywords probe "";
  _ ← compile s "";
  Ok s.

(** ** Validation *)

Definition kindOf (v : value) : string :=
  match v with
  | VNull => "null" | VBool _ => "boolean" | VStr _ => "string"
  | VFloat _ | VNumber _ => "number"
  | VArr _ => "array" | VObj _ => "object"
  | VInt _ => "int64" | VBinary _ => "model.Binary" | VBytes _ => "[]uint8"
  end.

(** The [%T] verb. *)
Definition go_type (v : value) : string :=
  match v with
  | VNull => "<nil>" | VBool _ => "bool" | VStr _ => "string"
  | VFloat _ => "float64" | VNumber _ => "json.Number"
  | VArr _ => "[]interface {}" | VObj _ => "map[string]interface {}"
  | VInt _ => "int64" | VBinary _ => "model.Binary" | VBytes _ => "[]uint8"
  end.
Definition type_value (v : value) : string := go_type v +:+ "/" +:+ Sprint v.

Definition is_integral (f : float64) : bool := feq f (ftrunc f).

Definition typeMatches (want : string) (v : value) : bool :=
  if String.eqb want "object" then match v with VObj _ => true | _ => false end
  else if String.eqb want "array" then match v with VArr _ => true | _ => false end
  else if String.eqb want "string" then match v with VStr _ => true | _ => false end
  else if String.eqb want "boolean" then match v with VBool _ => true | _ => false end
  else if String.eqb want "null" then match v with VNull => true | _ => false end
  else if String.eqb want "number" || String.eqb want "integer" then
    match v with
    | VFloat f => String.eqb want "number" || is_integral f
    | VNumber s => match ParseFloat s with (f, ok) => ok && (String.eqb want "number" || is_integral f) end
    | _ => false
    end
  else false.

Definition numeric (v : value) : option float64 :=
  match v with
  | VFloat f => Some f
  | VInt z => Some (of_Z z)
  | VNumber s => match ParseFloat s with (f, true) => Some f | _ => None end
  | _ => None
  end.
Definition equalValue (a b : value) : bool :=
  match numeric a, numeric b with
  | Some x, Some y => feq x y
  | _, _ => String.eqb (type_value a) (type_value b)
  end.
Definition containsValue (l : list value) (v : value) : bool := existsb (fun e => equalValue e v) l.

Definition all_digits (s : string) : bool :=
  forallb (fun a => match digit_val a with Some _ => true | None => false end) (bytes_of s).
Definition leap (y : Z) : bool := (y mod 4 =? 0) && (negb (y mod 100 =? 0) || (y mod 400 =? 0)).
Definition days_in (y m : Z) : Z :=
  if m =? 2 then (if leap y then 29 else 28)
  else if (m =? 4) || (m =? 6) || (m =? 9) || (m =? 11) then 30 else 31.

(** [time.Parse("2006-01-02", s)] succeeds. *)
Definition date_ok (s : string) : bool :=
  match bytes_of s with
  | [y1; y2; y3; y4; d1; m1; m2; d2; a; b] =>
      Ascii.eqb d1 "-" && Ascii.eqb d2 "-" && all_digits (of_bytes [y1; y2; y3; y4; m1; m2; a; b]) &&
      let num l := default 0 (parse_digits 0 (of_bytes l)) in
      let y := num [y1; y2; y3; y4] in let m := num [m1; m2] in let d := num [a; b] in
      (1 <=? m) && (m <=? 12) && (1 <=? d) && (d <=? days_in y m)
  | _ => false
  end.

Definition hex_lower (a : ascii) : bool :=
  let x := byte_Z a in ((48 <=? x) && (x <=? 57)) || ((97 <=? x) && (x <=? 102)).
(** [^[0-9a-f]{64}$]. *)
Definition sha256Hex (s : string) : bool := (len s =? 64) && forallb hex_lower (bytes_of s).

Definition formatOK (format s : string) : bool :=
  if String.eqb format "date" then date_ok s
  else if String.eqb format "date-time" then time_ParseRFC3339 s
  else if String.eqb format "email" then mail_ParseAddress s
  else if String.eqb format "uri" then Contains s ":"
  else if String.eqb format "sha256" then sha256Hex s
  else true.

Definition report (c : bool) (msg : string) : list string := if c then [msg] else [].
Definition over {A} (o : option A) (f : A -> bool) : bool := match o with Some x => f x | None => false end.

Definition validateString (s : Schema) (t path : string) : list string :=
  let n := rune_count t in
  report (over (s_MinLength s) (fun m => n <? m)) (loc path +:+ ": shorter than " +:+ itoa (default 0 (s_MinLength s)) +:+ " characters")
  ++ report (over (s_MaxLength s) (fun m => m <? n)) (loc path +:+ ": longer than " +:+ itoa (default 0 (s_MaxLength s)) +:+ " characters")
  ++ report (negb (String.eqb (s_Pattern s) "") && negb (regexp_MatchString (s_Pattern s) t)) (loc path +:+ ": does not match " +:+ s_Pattern s)
  ++ report (negb (String.eqb (s_Format s) "") && negb (formatOK (s_Format s) t)) (loc path +:+ ": not a valid " +:+ s_Format s).

Definition epsilon9 : float64 := of_decimal false 1 (-9).
Definition not_multiple (f m : float64) : bool :=
  flt (FFin 0 0) m && let q := fdiv_pos f m in flt epsilon9 (fabs (fsub q (fround q))).

Definition show (o : option float64) : string := match o with Some f => FormatFloat_g f | None => "" end.
Definition validateNumber (s : Schema) (f : float64) (path : string) : list string :=
  report (String.eqb (s_Type s) "integer" && negb (is_integral f)) (loc path +:+ ": expected an integer")
  ++ report (over (s_Minimum s) (fun m => flt f m)) (loc path +:+ ": below the minimum " +:+ show (s_Minimum s))
  ++ report (over (s_Maximum s) (fun m => flt m f)) (loc path +:+ ": above the maximum " +:+ show (s_Maximum s))
  ++ report (over (s_ExclusiveMinimum s) (fun m => fle f m)) (loc path +:+ ": must be greater than " +:+ show (s_ExclusiveMinimum s))
  ++ report (over (s_ExclusiveMaximum s) (fun m => fle m f)) (loc path +:+ ": must be less than " +:+ show (s_ExclusiveMaximum s))
  ++ report (over (s_MultipleOf s) (not_multiple f)) (loc path +:+ ": not a multiple of " +:+ show (s_MultipleOf s)).

Fixpoint has_duplicate (l : list string) : bool :=
  match l with [] => false | x :: l => containsString l x || has_duplicate l end.

(** [validateArray] and [validateObject], the nested validations done
    by [sub]. *)
Definition validateArray (s : Schema) (t : list value) (path : string) (sub : list string) : list string :=
  let n := Z.of_nat (length t) in
  report (over (s_MinItems s) (fun m => n <? m)) (loc path +:+ ": fewer than " +:+ itoa (default 0 (s_MinItems s)) +:+ " items")
  ++ report (over (s_MaxItems s) (fun m => m <? n)) (loc path +:+ ": more than " +:+ itoa (default 0 (s_MaxItems s)) +:+ " items")
  ++ report (s_UniqueItems s && has_duplicate (map type_value t)) (loc path +:+ ": contains duplicate items")
  ++ sub.

Definition closed (s : Schema) : bool :=
  match s_AdditionalProperties s, s_Properties s with Some false, _ :: _ => true | _, _ => false end.
Definition extra_names (s : Schema) (t : object) : list string :=
  sort_strings (filter (fun n => prop n (s_Properties s) = None) (obj_keys t)).

Definition validateObject (s : Schema) (t : object) (path : string) (sub : list string) : list string :=
  (s_Required s ≫= fun r => report (match obj_get r t with Some _ => false | None => true end)
      (loc path +:+ ": missing required property " +:+ r))
  ++ (if closed s then (fun n => loc path +:+ ": unexpected property " +:+ n) <$> extra_names s t else [])
  ++ sub.

Fixpoint indexed {A} (i : Z) (l : list A) : list (Z * A) :=
  match l with [] => [] | x :: l => (i, x) :: indexed (i + 1) l end.

(** [Schema.validate]: the failures, in order. *)
Fixpoint validate (s : Schema) (v : value) (path : string) : list string :=
  if negb (String.eqb (s_Type s) "") && negb (typeMatches (s_Type s) v)
  then [loc path +:+ ": expected " +:+ s_Type s +:+ ", got " +:+ kindOf v]
  else
    report (match s_Enum s with [] => false | l => negb (containsValue l v) end)
      (loc path +:+ ": " +:+ Sprint v +:+ " is not one of the permitted values")
    ++ report (match s_Const s with VNull => false | c => negb (equalValue c v) end)
      (loc path +:+ ": must be " +:+ Sprint (s_Const s))
    ++ match v with
       | VStr t => validateString s t path
       | VFloat f => validateNumber s f path
       | VNumber n =>
           match ParseFloat n with
           | (f, true) => validateNumber s f path
           | _ => [loc path +:+ ": " +:+ n +:+ " is not a number"]
           end
       | VArr t =>
           validateArray s t path
             (match s_Items s with
              | Some i => indexed 0 t ≫= fun ie => validate i ie.2 (path +:+ "/" +:+ itoa ie.1)
              | None => []
              end)
       | VObj t =>
           validateObject s t path
             (concat (map (fun p => match obj_get p.1 t with
                                    | Some x => validate p.2 x (path +:+ "/" +:+ p.1)
                                    | None => []
                                    end) (s_Properties s)))
       | _ => []
       end.

(** [Schema.Validate]. *)
Definition Validate (s : Schema) (v : value) : res unit :=
  match validate s v "" with [] => Ok tt | errs => Err (Errorf (Join errs "; ") []) end.
End compile.

(** ** The register's rules *)

Definition is_pii (s : Schema) : bool := match s_Register s with Some r => fr_PII r | None => false end.

(** [Schema.PIIFields]: sorted; the properties are kept in key order. *)
Definition PIIFields (s : Schema) : list string :=
  sort_strings (map fst (filter (fun p => is_pii p.2 = true) (s_Properties s))).

Record Projection := mkProjection {
  pj_Property : string;
  pj_Member : string;
  pj_Column : string;
  pj_Type : string;
  pj_Indexed : bool;
  pj_Unique : bool;
}.

Definition projection_of (p : string * Schema) : option Projection :=
  match s_Register p.2 with
  | Some r =>
      if fr_Queryable r then
        Some (mkProjection p.1 (fr_Member r)
          (if String.eqb (fr_Column r) "" then p.1 else fr_Column r)
          (if String.eqb (fr_Member r) "" then s_Type p.2
           else match prop (fr_Member r) (s_Properties p.2) with
                | Some m => if String.eqb (s_Type m) "" then "string" else s_Type m
                | None => "string"
                end)
          (fr_Indexed r || fr_Unique r) (fr_Unique r))
      else None
  | None => None
  end.

(** [Schema.Projections]. *)
Definition Projections (s : Schema) : list Projection := omap projection_of (merge_sort key_le (s_Properties s)).

(** [Schema.References], as the sorted list its callers iterate over. *)
Definition References (s : Schema) : list (string * string) :=
  omap (fun p => match s_Register p.2 with
                 | Some r => if String.eqb (fr_Reference r) "" then None else Some (p.1, fr_Reference r)
                 | None => None
                 end) (merge_sort key_le (s_Properties s)).

(** ** What validation decides

    [conforms] says what it is for a value to match a schema, with no
    messages and no paths; [validate] reports nothing exactly then. *)
Section conforms.
Context `{GoFormats}.

Definition at_least {A} (o : option A) (P : A -> Prop) : Prop := forall x, o = Some x -> P x.

Definition string_ok (s : Schema) (t : string) : Prop :=
  at_least (s_MinLength s) (fun m => m <= rune_count t) /\
  at_least (s_MaxLength s) (fun m => rune_count t <= m) /\
  (s_Pattern s <> "" -> regexp_MatchString (s_Pattern s) t = true) /\
  (s_Format s <> "" -> formatOK (s_Format s) t = true).

Definition number_ok (s : Schema) (f : float64) : Prop :=
  (s_Type s = "integer" -> is_integral f = true) /\
  at_least (s_Minimum s) (fun m => flt f m = false) /\
  at_least (s_Maximum s) (fun m => flt m f = false) /\
  at_least (s_ExclusiveMinimum s) (fun m => fle f m = false) /\
  at_least (s_ExclusiveMaximum s) (fun m => fle m f = false) /\
  at_least (s_MultipleOf s) (fun m => not_multiple f m = false).

Definition array_ok (s : Schema) (t : list value) : Prop :=
  at_least (s_MinItems s) (fun m => m <= Z.of_nat (length t)) /\
  at_least (s_MaxItems s) (fun m => Z.of_nat (length t) <= m) /\
  (s_UniqueItems s = true -> NoDup (map type_value t)).

Definition object_ok (s : Schema) (t : object) : Prop :=
  (forall r, r ∈ s_Required s -> exists x, obj_get r t = Some x) /\
  (closed s = true -> forall k, k ∈ obj_keys t -> prop k (s_Properties s) <> None).

Fixpoint conforms (s : Schema) (v : value) : Prop :=
  (s_Type s <> "" -> typeMatches (s_Type s) v = true) /\
  (s_Enum s <> [] -> containsValue (s_Enum s) v = true) /\
  (s_Const s <> VNull -> equalValue (s_Const s) v = true) /\
  match v with
  | VStr t => string_ok s t
  | VFloat f => number_ok s f
  | VNumber n => exists f, ParseFloat n = (f, true) /\ number_ok s f
  | VArr t => array_ok s t /\ match s_Items s with Some i => Forall (conforms i) t | None => True end
  | VObj t => object_ok s t /\
      foldr (fun p P => match obj_get p.1 t with Some x => conforms p.2 x | None => True end /\ P) True (s_Properties s)
  | _ => True
  end.

Lemma report_nil c msg : report c msg = [] <-> c = false.
Proof. by destruct c. Qed.

Lemma over_false {A} (o : option A) f : over o f = false <-> at_least o (fun x => f x = false).
Proof. unfold at_least. destruct o; cbn; naive_solver. Qed.

Lemma at_least_iff {A} (o : option A) (P Q : A -> Prop) :
  (forall x, P x <-> Q x) -> at_least o P <-> at_least o Q.
Proof. unfold at_least. intros E. setoid_rewrite E. done. Qed.

Lemma implies_false (a b : bool) : a && negb b = false <-> (a = true -> b = true).
Proof. destruct a, b; naive_solver. Qed.

Lemma neqb_nonempty x : negb (String.eqb x "") = true <-> x <> "".
Proof. rewrite negb_true_iff, String.eqb_neq. done. Qed.

Lemma and_iff (A B C D : Prop) : (A <-> C) -> (B <-> D) -> (A /\ B <-> C /\ D).
Proof. tauto. Qed.

Ltac conj_iff := repeat (apply and_iff); try done; try (apply at_least_iff; intros; apply Z.ltb_ge).

Lemma validateString_nil s t path : validateString s t path = [] <-> string_ok s t.
Proof.
  unfold validateString, string_ok. rewrite !app_nil, !report_nil, !over_false, !implies_false, !neqb_nonempty. conj_iff.
Qed.

Lemma validateNumber_nil s f path : validateNumber s f path = [] <-> number_ok s f.
Proof.
  unfold validateNumber, number_ok. rewrite !app_nil, !report_nil, !over_false, !implies_false, String.eqb_eq. conj_iff.
Qed.

Lemma has_duplicate_false l : has_duplicate l = false <-> NoDup l.
Proof.
  induction l as [|x l IH]; cbn; [split; [constructor|done]|].
  rewrite orb_false_iff, containsString_not_elem, NoDup_cons, IH. done.
Qed.

Lemma validateArray_nil s t path sub : validateArray s t path sub = [] <-> array_ok s t /\ sub = [].
Proof.
  unfold validateArray, array_ok. rewrite !app_nil, !report_nil, !over_false.
  assert (forall b l, b && has_duplicate l = false <-> (b = true -> NoDup l)) as ->.
  { intros b l. rewrite <- has_duplicate_false. destruct b, (has_duplicate l); naive_solver. }
  rewrite (at_least_iff (s_MinItems s) (fun m => (Z.of_nat (length t) <? m) = false) (fun m => m <= Z.of_nat (length t)))
    by (intros; apply Z.ltb_ge).
  rewrite (at_least_iff (s_MaxItems s) (fun m => (m <? Z.of_nat (length t)) = false) (fun m => Z.of_nat (length t) <= m))
    by (intros; apply Z.ltb_ge).
  tauto.
Qed.

Lemma sort_strings_nil l : sort_strings l = [] <-> l = [].
Proof.
  split; [|by intros ->]. intros E. pose proof (sort_strings_perm l) as P. rewrite E in P. by apply Permutation_nil_l in P.
Qed.

Lemma fmap_nil_iff {A B} (f : A -> B) l : f <$> l = [] <-> l = [].
Proof. by destruct l. Qed.

Lemma validateObject_nil s t path sub : validateObject s t path sub = [] <-> object_ok s t /\ sub = [].
Proof.
  unfold validateObject, object_ok. rewrite !app_nil.
  assert (forall l, (l ≫= fun r => report (match obj_get r t with Some _ => false | None => true end)
      (loc path +:+ ": missing required property " +:+ r)) = [] <-> (forall r, r ∈ l -> exists x, obj_get r t = Some x)) as ->.
  { induction l as [|r l IH]; cbn; [split; [intros _ r Hr; by apply elem_of_nil in Hr|done]|].
    rewrite app_nil, IH, report_nil. setoid_rewrite elem_of_cons. destruct (obj_get r t) eqn:E; naive_solver. }
  assert ((if closed s then (fun n => loc path +:+ ": unexpected property " +:+ n) <$> extra_names s t else []) = [] <->
    (closed s = true -> forall k, k ∈ obj_keys t -> prop k (s_Properties s) <> None)) as ->.
  { destruct (closed s); [|done]. unfold extra_names. etrans; [apply fmap_nil_iff|]. rewrite sort_strings_nil. split.
    - intros E _ k Hk Hp. assert (k ∈ filter (fun n => prop n (s_Properties s) = None) (obj_keys t)) as Hin
        by (by apply list_elem_of_filter). rewrite E in Hin. by apply elem_of_nil in Hin.
    - intros Hx. destruct (filter _ _) as [|k l] eqn:E; [done|]. exfalso.
      assert (k ∈ k :: l) as Hin by apply list_elem_of_here. rewrite <- E in Hin.
      apply list_elem_of_filter in Hin as [? ?]. by eapply Hx. }
  tauto.
Qed.

Lemma bind_indexed_nil {B} (f : Z * value -> list B) l : forall i,
  indexed i l ≫= f = [] <-> forall j x, (j, x) ∈ indexed i l -> f (j, x) = [].
Proof.
  induction l as [|x l IH]; intros i; cbn; [split; [intros _ j x H'; by apply elem_of_nil in H'|done]|].
  rewrite app_nil, IH. setoid_rewrite elem_of_cons. naive_solver.
Qed.

Lemma indexed_elem {A} (l : list A) x : forall i, x ∈ l <-> exists j, (j, x) ∈ indexed i l.
Proof.
  induction l as [|y l IH]; intros i; cbn.
  - setoid_rewrite elem_of_nil. naive_solver.
  - setoid_rewrite elem_of_cons. rewrite (IH (i + 1)). naive_solver.
Qed.

(** One level of validation, and of conformance. *)
Definition members_reports (s : Schema) (t : object) (path : string) : list string :=
  concat (map (fun p => match obj_get p.1 t with
    Some x => validate p.2 x (path +:+ "/" +:+ p.1) | None => [] end) (s_Properties s)).
Definition items_reports (s : Schema) (t : list value) (path : string) : list string :=
  match s_Items s with
  | Some i => indexed 0 t ≫= fun ie => validate i ie.2 (path +:+ "/" +:+ itoa ie.1)
  | None => []
  end.
Definition members_conform (s : Schema) (t : object) : Prop :=
  foldr (fun p P => match obj_get p.1 t with Some x => conforms p.2 x | None => True end /\ P) True (s_Properties s).
Definition items_conform (s : Schema) (t : list value) : Prop :=
  match s_Items s with Some i => Forall (conforms i) t | None => True end.

Definition kind_reports (s : Schema) (v : value) (path : string) : list string :=
  match v with
  | VStr t => validateString s t path
  | VFloat f => validateNumber s f path
  | VNumber n => match ParseFloat n with (f, true) => validateNumber s f path
                 | _ => [loc path +:+ ": " +:+ n +:+ " is not a number"] end
  | VArr t => validateArray s t path (items_reports s t path)
  | VObj t => validateObject s t path (members_reports s t path)
  | _ => []
  end.
Definition kind_conforms (s : Schema) (v : value) : Prop :=
  match v with
  | VStr t => string_ok s t
  | VFloat f => number_ok s f
  | VNumber n => exists f, ParseFloat n = (f, true) /\ number_ok s f
  | VArr t => array_ok s t /\ items_conform s t
  | VObj t => object_ok s t /\ members_conform s t
  | _ => True
  end.

Lemma validate_unfold s v path :
  validate s v path =
  if negb (String.eqb (s_Type s) "") && negb (typeMatches (s_Type s) v)
  then [loc path +:+ ": expected " +:+ s_Type s +:+ ", got " +:+ kindOf v]
  else
    report (match s_Enum s with [] => false | l => negb (containsValue l v) end)
      (loc path +:+ ": " +:+ Sprint v +:+ " is not one of the permitted values")
    ++ report (match s_Const s with VNull => false | c => negb (equalValue c v) end)
      (loc path +:+ ": must be " +:+ Sprint (s_Const s))
    ++ kind_reports s v path.
Proof. by destruct s. Qed.

Lemma conforms_unfold s v :
  conforms s v =
  ((s_Type s <> "" -> typeMatches (s_Type s) v = true) /\
   (s_Enum s <> [] -> containsValue (s_Enum s) v = true) /\
   (s_Const s <> VNull -> equalValue (s_Const s) v = true) /\ kind_conforms s v).
Proof. by destruct s. Qed.

(** Validation reports nothing exactly for the values that conform. *)
Lemma validate_nil s : forall v path, validate s v path = [] <-> conforms s v.
Proof.
  induction s as [s IHp IHi] using schema_ind'. intros v path.
  assert (Hsub : forall t, members_reports s t path = [] <-> members_conform s t).
  { intros t. unfold members_reports, members_conform. clear IHi. induction IHp as [|p l Hp _ IH]; [done|].
    cbn. rewrite app_nil, IH. apply and_iff; [|done]. destruct (obj_get p.1 t); [apply Hp|done]. }
  assert (Hitems : forall t, items_reports s t path = [] <-> items_conform s t).
  { intros t. unfold items_reports, items_conform. destruct (s_Items s) as [i|]; [|done].
    rewrite bind_indexed_nil, Forall_forall. setoid_rewrite (indexed_elem t _ 0).
    setoid_rewrite (fun x p => IHi i eq_refl x p). naive_solver. }
  rewrite validate_unfold, conforms_unfold. clear IHp IHi.
  destruct (negb (String.eqb (s_Type s) "") && negb (typeMatches (s_Type s) v)) eqn:Et.
  { split; [done|]. intros (Ht & _). apply andb_true_iff in Et as [E1 E2]. apply neqb_nonempty in E1.
    by rewrite Ht in E2. }
  assert (s_Type s <> "" -> typeMatches (s_Type s) v = true) as Ht.
  { intros Hne. apply neqb_nonempty in Hne. rewrite Hne in Et. by apply negb_false_iff in Et. }
  rewrite !app_nil, !report_nil.
  assert ((match s_Enum s with [] => false | l => negb (containsValue l v) end) = false <->
    (s_Enum s <> [] -> containsValue (s_Enum s) v = true)) as ->.
  { destruct (s_Enum s) as [|e l]; [naive_solver|]. rewrite negb_false_iff. naive_solver. }
  assert ((match s_Const s with VNull => false | c => negb (equalValue c v) end) = false <->
    (s_Const s <> VNull -> equalValue (s_Const s) v = true)) as ->.
  { destruct (s_Const s); rewrite ?negb_false_iff; naive_solver. }
  enough (kind_reports s v path = [] <-> kind_conforms s v) by tauto.
  destruct v as [|b|z|f|n|t|t|t|t|t]; try done; cbn [kind_reports kind_conforms].
  - apply validateNumber_nil.
  - destruct (ParseFloat n) as [f []]; [|naive_solver]. rewrite validateNumber_nil. naive_solver.
  - apply validateString_nil.
  - by rewrite validateArray_nil, Hitems.
  - by rewrite validateObject_nil, Hsub.
Qed.

(** C39. Validation decides conformance. Whatever the schema and the value,
    [Schema.Validate] answers no error exactly when the value conforms: its
    type, enumeration and constant, the bounds of strings, numbers and
    arrays, the required and the unexpected members, and the same again
    for every member and item, at any depth. *)
Theorem Validate_conforms s v : Validate s v = Ok tt <-> conforms s v.
Proof. rewrite <- (validate_nil s v ""). unfold Validate. destruct (validate s v ""); naive_solver. Qed.
End conforms.

(** Formats as plain predicates, for examples. *)
Definition plain_formats : GoFormats := {|
  regexp_Compile _ := None;
  regexp_MatchString _ _ := true;
  mail_ParseAddress s := Contains s "@";
  time_ParseRFC3339 s := Contains s "T";
|}.
