(* ===== verification/Pack.v ===== *)
(** * Packs ([internal/pack])

    A pack is the declarative description of one register: its classes,
    workflows, saved queries, retention policies and roles. [validate]
    is the loader's check of a decoded document; what it returns is the
    pack the register runs, its schemas compiled and its defaults filled
    in. *)

From S2P Require Import Prelude GoStrings Float64 Encoding Canon Rbac JsonSchema.
Local Open Scope Z_scope.

(** ** The document *)

Definition EncNone := "none".
Definition EncTenant := "tenant".
Definition EncClass := "class".
Definition EncSubject := "subject".

Record Class_ := mkClass {
  c_Name : string;
  c_Title : string;
  c_NaturalKey : string;
  c_Statuses : list string;
  c_Initial : string;
  c_Encryption : string;
  c_SchemaDoc : string;
  c_compiled : option Schema;
}.

(** [Class.Compiled] and [Class.QueryTable]. *)
Definition empty_schema : Schema :=
  mkSchema "" [] VNull [] [] None None None None false None None "" "" None None None None None None.
Definition Compiled (c : Class_) : Schema := default empty_schema (c_compiled c).
Definition QueryTable (c : Class_) : string := "q_" +:+ c_Name c.

Definition reservedColumns : list string := ["object_id"; "tenant"; "status"; "updated_at"].

Record Evidence := mkEvidence { ev_Key : string; ev_Title : string; ev_Required : bool }.
Record Counterparty := mkCounterparty { cy_Field : string; cy_Prompt : string }.

Record Condition := mkCondition {
  cd_ID : string;
  cd_Description : string;
  cd_SQL : string;
  cd_Expect : string;
  cd_OnFail : string;
  cd_Message : string;
}.
Definition ExpectZero := "zero".
Definition ExpectNonZero := "nonzero".
Definition OnFailReview := "review".
Definition OnFailReject := "reject".

Record Effect := mkEffect {
  e_Type : string;
  e_Class : string;
  e_Target : string;
  e_Status : string;
  e_Payload : object;
  e_Match : object;
  e_Set : object;
  e_Optional : bool;
}.
Definition EffectRecord := "record".
Definition EffectSetStatus := "set_status".
Definition EffectCreate := "create_object".
Definition EffectCloseLink := "close_link".
Definition EffectOpenLink := "open_link".

Definition ActionCreate := "create".
Definition ActionUpdate := "update".
Definition ActionStatus := "status".
Definition ActionCorrect := "correct".

Record Workflow := mkWorkflow {
  w_Name : string;
  w_Title : string;
  w_Class : string;
  w_Action : string;
  w_ProposeRoles : list string;
  w_ApproveRoles : list string;
  w_Independence : bool;
  w_Evidence : list Evidence;
  w_Counterparty : option Counterparty;
  w_Conditions : list Condition;
  w_AutoApprove : bool;
  w_Message : string;
  w_Effects : list Effect;
  w_Status : string;
  w_InputDoc : option string;
  w_compiledInput : option Schema;
}.

Record QueryParam := mkQueryParam { qp_Name : string; qp_Title : string; qp_Type : string; qp_Required : bool; qp_Default : string }.
Record NamedQuery := mkNamedQuery {
  q_Name : string;
  q_Roles : list string;
  q_SQL : string;
  q_Params : list QueryParam;
}.

Record RetentionPolicy := mkRetentionPolicy {
  r_ID : string;
  r_Title : string;
  r_Class : string;
  r_WindowDays : Z;
  r_Scope : string;
  r_Erasure : bool;
}.
Definition ScopePII := "pii".
Definition ScopeAll := "all".

Record SeedObject := mkSeedObject {
  so_Class : string;
  so_Ref : string;
  so_Status : string;
  so_Payload : object;
  so_Message : string;
}.

Record Pack := mkPack {
  pk_Name : string;
  pk_Title : string;
  pk_Version : string;
  pk_Tenant : string;
  pk_Roles : list RoleSpec;
  pk_Classes : list Class_;
  pk_Workflows : list Workflow;
  pk_Queries : list NamedQuery;
  pk_Retention : list RetentionPolicy;
  pk_Seed : option (string * list SeedObject);
  pk_model : RoleModel;
}.

(** ** Lookups

    The loader's tables by name: the declared items, whose names it has
    checked to be distinct. *)
Fixpoint find_named {A} (name : A -> string) (k : string) (l : list A) : option A :=
  match l with [] => None | x :: l => if String.eqb (name x) k then Some x else find_named name k l end.

Definition Class (p : Pack) (name : string) : option Class_ := find_named c_Name name (pk_Classes p).
Definition Workflow_ (p : Pack) (name : string) : option Workflow := find_named w_Name name (pk_Workflows p).
Definition Query (p : Pack) (name : string) : option NamedQuery := find_named q_Name name (pk_Queries p).
Definition Policy (p : Pack) (id : string) : option RetentionPolicy := find_named r_ID id (pk_Retention p).
Definition RetentionFor (p : Pack) (class : string) : list RetentionPolicy :=
  filter (fun r => r_Class r = class) (pk_Retention p).
Definition name_le (a b : Workflow) : Prop := String.le (w_Name a) (w_Name b).
#[export] Instance name_le_dec : RelDecision name_le.
Proof. intros a b. unfold name_le. apply _. Defined.
Definition WorkflowsFor (p : Pack) (class : string) : list Workflow :=
  merge_sort name_le (filter (fun w => w_Class w = class) (pk_Workflows p)).

(** ** Patterns *)

Definition is_lower (a : ascii) : bool := let x := byte_Z a in (97 <=? x) && (x <=? 122).
Definition is_digit (a : ascii) : bool := let x := byte_Z a in (48 <=? x) && (x <=? 57).

(** [^[a-z][a-z0-9_]{0,47}$]. *)
Definition nameRe (s : string) : bool :=
  match bytes_of s with
  | a :: l => is_lower a && forallb (fun c => is_lower c || is_digit c || Ascii.eqb c "_") l && (len s <=? 48)
  | [] => false
  end.

(** [(?is)^\s*select\s]: the folded [s] also matches U+017F. *)
Definition re_space (a : ascii) : bool :=
  Ascii.eqb a " " || Ascii.eqb a "009" || Ascii.eqb a "010" || Ascii.eqb a "012" || Ascii.eqb a "013".
Fixpoint skip_space (s : string) : string :=
  match s with String a r => if re_space a then skip_space r else s | _ => s end.
Definition fold_char (a b : ascii) : bool :=
  Ascii.eqb a b || (is_lower b && (byte_Z a + 32 =? byte_Z b)).
Definition after_elect (s : string) : bool :=
  match s with
  | String a (String b (String c (String d (String e (String f _))))) =>
      fold_char a "e" && fold_char b "l" && fold_char c "e" && fold_char d "c" && fold_char e "t" && re_space f
  | _ => false
  end.
Definition selectRe (s : string) : bool :=
  match skip_space s with
  | String a r =>
      if fold_char a "s" then after_elect r
      else match r with
           | String b r => Ascii.eqb a "197" && Ascii.eqb b "191" && after_elect r
           | EmptyString => false
           end
  | EmptyString => false
  end.

(** ** Validation *)

Section validate.
Context `{GoFormats}.

Definition with_compiled (c : Class_) (s : Schema) : Class_ :=
  mkClass (c_Name c) (c_Title c) (c_NaturalKey c) (c_Statuses c) (c_Initial c)
    (if String.eqb (c_Encryption c) "" then EncNone else c_Encryption c) (c_SchemaDoc c) (Some s).

Definition check_projection (c : Class_) (s : Schema) (pj : Projection) : res unit :=
  _ ← refuse_if (negb (nameRe (pj_Column pj))) (Errorf "pack: class %q column %q must match %s" [c_Name c; pj_Column pj]);
  _ ← refuse_if (containsString reservedColumns (pj_Column pj))
        (Errorf "pack: class %q property %q projects to column %q, which the query table reserves; give it another name with x-register.column"
          [c_Name c; pj_Property pj; pj_Column pj]);
  refuse_if (match prop (pj_Property pj) (s_Properties s) with Some p => is_pii p | None => false end)
    (Errorf "pack: class %q property %q is personal data and cannot be queryable: a projected column is plaintext in the query table"
      [c_Name c; pj_Property pj]).

(** One class, after those already declared; its schema compiled. *)
Definition validate_class (seen : list Class_) (c : Class_) : res Class_ :=
  _ ← refuse_if (negb (nameRe (c_Name c))) (Errorf "pack: class name %q must match %s" [c_Name c]);
  _ ← refuse_if (match find_named c_Name (c_Name c) seen with Some _ => true | None => false end)
        (Errorf "pack: class %q is declared twice" [c_Name c]);
  _ ← refuse_if (match c_Statuses c with [] => true | _ => false end) (Errorf "pack: class %q declares no statuses" [c_Name c]);
  _ ← refuse_if (negb (containsString (c_Statuses c) (c_Initial c)))
        (Errorf "pack: class %q initial status %q is not one of its statuses" [c_Name c; c_Initial c]);
  let enc := if String.eqb (c_Encryption c) "" then EncNone else c_Encryption c in
  _ ← refuse_if (negb (containsString [EncNone; EncTenant; EncClass; EncSubject] enc))
        (Errorf "pack: class %q has unknown encryption scope %q" [c_Name c; enc]);
  s ← match Compile (c_SchemaDoc c) with Ok s => Ok s | Err e => Err (Wrapf "pack: class %q: %w" [c_Name c] e) end;
  _ ← (if String.eqb (c_NaturalKey c) "" then Ok tt
       else match prop (c_NaturalKey c) (s_Properties s) with
            | None => Err (Errorf "pack: class %q natural key %q is not a declared property" [c_Name c; c_NaturalKey c])
            | Some p => refuse_if (is_pii p)
                (Errorf "pack: class %q natural key %q is personal data: a natural key is an index term and is held in the clear"
                  [c_Name c; c_NaturalKey c])
            end);
  let has_pii := match PIIFields s with [] => false | _ => true end in
  _ ← refuse_if (negb (String.eqb enc EncNone) && negb has_pii)
        (Errorf "pack: class %q is encrypted but marks no property as personal data" [c_Name c]);
  _ ← refuse_if (String.eqb enc EncNone && has_pii)
        (Errorf "pack: class %q marks personal data but declares no encryption scope" [c_Name c]);
  _ ← check_all (check_projection c s) (Projections s);
  Ok (with_compiled c s).

(** A loop that adds each checked item to those before it. *)
Fixpoint add_each {A} (f : list A -> A -> res A) (seen l : list A) : res (list A) :=
  match l with
  | [] => Ok seen
  | x :: l => y ← f seen x; add_each f (seen ++ [y]) l
  end.

Definition known {A} (name : A -> string) (l : list A) (k : string) : bool :=
  match find_named name k l with Some _ => true | None => false end.

Definition check_references (classes : list Class_) (c : Class_) : res unit :=
  check_all (fun pr => refuse_if (negb (known c_Name classes pr.2))
    (Errorf "pack: class %q property %q references unknown class %q" [c_Name c; pr.1; pr.2])) (References (Compiled c)).

(** [validateCondition]. *)
Definition validateCondition (workflow : string) (c : Condition) : res unit :=
  _ ← refuse_if (String.eqb (cd_ID c) "") (Errorf "pack: workflow %q has a condition with no id" [workflow]);
  _ ← refuse_if (negb (selectRe (cd_SQL c))) (Errorf "pack: workflow %q condition %q must be a SELECT" [workflow; cd_ID c]);
  _ ← refuse_if (Contains (cd_SQL c) ";") (Errorf "pack: workflow %q condition %q must be a single statement" [workflow; cd_ID c]);
  _ ← refuse_if (negb (containsString [ExpectZero; ExpectNonZero] (cd_Expect c)))
        (Errorf "pack: workflow %q condition %q expects %q, want zero or nonzero" [workflow; cd_ID c; cd_Expect c]);
  refuse_if (negb (containsString [OnFailReview; OnFailReject] (cd_OnFail c)))
    (Errorf "pack: workflow %q condition %q has unknown on_fail %q" [workflow; cd_ID c; cd_OnFail c]).

(** [Pack.validateEffect]. *)
Definition validateEffect (classes : list Class_) (w : Workflow) (i : Z) (e : Effect) : res unit :=
  let where_ := "pack: workflow " +:+ w_Name w +:+ " effect " +:+ itoa i in
  let unknown c := Errorf "%s targets unknown class %q" [where_; c] in
  if String.eqb (e_Type e) EffectRecord then Ok tt
  else if String.eqb (e_Type e) EffectSetStatus then
    _ ← refuse_if (String.eqb (e_Status e) "") (Errorf "%s sets no status" [where_]);
    let class := if String.eqb (e_Class e) "" then w_Class w else e_Class e in
    match find_named c_Name class classes with
    | None => Err (unknown class)
    | Some c => refuse_if (negb (containsString (c_Statuses c) (e_Status e)))
                  (Errorf "%s sets status %q, which class %q does not declare" [where_; e_Status e; class])
    end
  else if String.eqb (e_Type e) EffectCreate || String.eqb (e_Type e) EffectOpenLink then
    _ ← refuse_if (negb (known c_Name classes (e_Class e))) (unknown (e_Class e));
    refuse_if (match e_Payload e with [] => true | _ => false end) (Errorf "%s has no payload template" [where_])
  else if String.eqb (e_Type e) EffectCloseLink then
    _ ← refuse_if (negb (known c_Name classes (e_Class e))) (unknown (e_Class e));
    refuse_if (match e_Match e, e_Set e with [], _ | _, [] => true | _, _ => false end)
      (Errorf "%s needs both a match and a set" [where_])
  else Err (Errorf "%s has unknown type %q" [where_; e_Type e]).

Definition with_input (w : Workflow) (s : option Schema) : Workflow :=
  mkWorkflow (w_Name w) (w_Title w) (w_Class w) (w_Action w) (w_ProposeRoles w) (w_ApproveRoles w) (w_Independence w)
    (w_Evidence w) (w_Counterparty w) (w_Conditions w) (w_AutoApprove w) (w_Message w) (w_Effects w) (w_Status w)
    (w_InputDoc w) s.

Definition validate_workflow (m : RoleModel) (classes : list Class_) (seen : list Workflow) (w : Workflow) : res Workflow :=
  _ ← refuse_if (negb (nameRe (w_Name w))) (Errorf "pack: workflow name %q must match %s" [w_Name w]);
  _ ← refuse_if (known w_Name seen (w_Name w)) (Errorf "pack: workflow %q is declared twice" [w_Name w]);
  class ← of_option (find_named c_Name (w_Class w) classes)
            (Errorf "pack: workflow %q targets unknown class %q" [w_Name w; w_Class w]);
  _ ← refuse_if (negb (containsString [ActionCreate; ActionUpdate; ActionStatus; ActionCorrect] (w_Action w)))
        (Errorf "pack: workflow %q has unknown action %q" [w_Name w; w_Action w]);
  _ ← refuse_if (String.eqb (w_Action w) ActionStatus && negb (containsString (c_Statuses class) (w_Status w)))
        (Errorf "pack: workflow %q sets status %q, which class %q does not declare" [w_Name w; w_Status w; c_Name class]);
  _ ← refuse_if (String.eqb (TrimSpace (w_Message w)) "") (Errorf "pack: workflow %q has no commit-message template" [w_Name w]);
  _ ← check_all (fun role => refuse_if (match Role m role with Some _ => false | None => true end)
        (Errorf "pack: workflow %q names unknown role %q" [w_Name w; role])) (w_ProposeRoles w ++ w_ApproveRoles w);
  _ ← refuse_if (match w_ApproveRoles w with [] => negb (w_AutoApprove w) | _ => false end)
        (Errorf "pack: workflow %q has no approvers and no automatic approval" [w_Name w]);
  _ ← check_all (validateCondition (w_Name w)) (w_Conditions w);
  _ ← check_all (fun ie => validateEffect classes w ie.1 ie.2) (indexed 0 (w_Effects w));
  match w_InputDoc w with
  | None => Ok (with_input w None)
  | Some doc =>
      match Compile doc with
      | Ok s => Ok (with_input w (Some s))
      | Err e => Err (Wrapf "pack: workflow %q input: %w" [w_Name w] e)
      end
  end.

Definition validate_query (m : RoleModel) (seen : list NamedQuery) (q : NamedQuery) : res NamedQuery :=
  _ ← refuse_if (negb (nameRe (q_Name q))) (Errorf "pack: query name %q must match %s" [q_Name q]);
  _ ← refuse_if (known q_Name seen (q_Name q)) (Errorf "pack: query %q is declared twice" [q_Name q]);
  _ ← refuse_if (negb (selectRe (q_SQL q)) || Contains (q_SQL q) ";") (Errorf "pack: query %q must be a single SELECT" [q_Name q]);
  _ ← check_all (fun role => refuse_if (match Role m role with Some _ => false | None => true end)
        (Errorf "pack: query %q names unknown role %q" [q_Name q; role])) (q_Roles q);
  _ ← check_all (fun p =>
        _ ← refuse_if (negb (nameRe (qp_Name p))) (Errorf "pack: query %q parameter %q must match %s" [q_Name q; qp_Name p]);
        refuse_if (negb (containsString [""; "string"; "integer"; "number"] (qp_Type p)))
          (Errorf "pack: query %q parameter %q has unknown type %q" [q_Name q; qp_Name p; qp_Type p])) (q_Params q);
  Ok q.

Definition validate_policy (classes : list Class_) (seen : list RetentionPolicy) (r : RetentionPolicy) : res RetentionPolicy :=
  _ ← refuse_if (String.eqb (r_ID r) "") (Errorf "pack: a retention policy has no id" []);
  _ ← refuse_if (known r_ID seen (r_ID r)) (Errorf "pack: retention policy %q is declared twice" [r_ID r]);
  _ ← refuse_if (negb (known c_Name classes (r_Class r)))
        (Errorf "pack: retention policy %q targets unknown class %q" [r_ID r; r_Class r]);
  _ ← refuse_if (r_WindowDays r <? 0) (Errorf "pack: retention policy %q has a negative window" [r_ID r]);
  _ ← refuse_if (negb (containsString [ScopePII; ScopeAll] (r_Scope r)))
        (Errorf "pack: retention policy %q has unknown scope %q" [r_ID r; r_Scope r]);
  Ok r.

(** [Pack.validate]. *)
Definition validate_pack (p : Pack) : res Pack :=
  _ ← refuse_if (negb (nameRe (pk_Name p))) (Errorf "pack: name %q must match %s" [pk_Name p]);
  _ ← refuse_if (String.eqb (pk_Version p) "") (Errorf "pack: version is required" []);
  _ ← refuse_if (match pk_Classes p with [] => true | _ => false end) (Errorf "pack: no classes declared" []);
  m ← match NewModel (pk_Roles p) with Ok m => Ok m | Err e => Err (Wrapf "pack: %w" [] e) end;
  classes ← add_each validate_class [] (pk_Classes p);
  _ ← check_all (check_references classes) classes;
  workflows ← add_each (validate_workflow m classes) [] (pk_Workflows p);
  queries ← add_each (validate_query m) [] (pk_Queries p);
  retention ← add_each (validate_policy classes) [] (pk_Retention p);
  _ ← (match pk_Seed p with
       | None => Ok tt
       | Some (_, objects) =>
           check_all (fun io => refuse_if (negb (known c_Name classes (so_Class io.2)))
             (Errorf "pack: seed object %d targets unknown class %q" [itoa io.1; so_Class io.2])) (indexed 0 objects)
       end);
  Ok (mkPack (pk_Name p) (pk_Title p) (pk_Version p) (pk_Tenant p) (pk_Roles p) classes workflows queries retention
        (pk_Seed p) m).
End validate.

(** ** What validation promises *)

(** A class the register can keep: it starts in a status it declares; it
    is encrypted exactly when it marks personal data; and personal data
    reaches neither the natural key nor a projected column. *)
Record class_sound (c : Class_) : Prop := {
  cs_initial : c_Initial c ∈ c_Statuses c;
  cs_encryption : c_Encryption c ∈ [EncNone; EncTenant; EncClass; EncSubject];
  cs_encrypted : c_Encryption c = EncNone <-> PIIFields (Compiled c) = [];
  cs_natural : c_NaturalKey c = "" \/
    (exists p, prop (c_NaturalKey c) (s_Properties (Compiled c)) = Some p /\ is_pii p = false);
  cs_columns : forall pj, pj ∈ Projections (Compiled c) ->
    (pj_Column pj ∉ reservedColumns) /\
    forall p, prop (pj_Property pj) (s_Properties (Compiled c)) = Some p -> is_pii p = false;
}.

Record condition_sound (c : Condition) : Prop := {
  cn_select : selectRe (cd_SQL c) = true /\ Contains (cd_SQL c) ";" = false;
  cn_expect : cd_Expect c ∈ [ExpectZero; ExpectNonZero];
  cn_on_fail : cd_OnFail c ∈ [OnFailReview; OnFailReject];
}.

(** A workflow the register can run: its class, roles, statuses and
    effects exist, someone can approve it, and its conditions only read. *)
Record workflow_sound (m : RoleModel) (classes : list Class_) (w : Workflow) : Prop := {
  ws_class : exists c, find_named c_Name (w_Class w) classes = Some c /\
    (w_Action w = ActionStatus -> w_Status w ∈ c_Statuses c);
  ws_action : w_Action w ∈ [ActionCreate; ActionUpdate; ActionStatus; ActionCorrect];
  ws_roles : forall role, role ∈ w_ProposeRoles w ++ w_ApproveRoles w -> is_Some (roles m !! role);
  ws_approvable : w_ApproveRoles w <> [] \/ w_AutoApprove w = true;
  ws_conditions : Forall condition_sound (w_Conditions w);
  ws_effects : forall e, e ∈ w_Effects w -> e_Type e ∈ [EffectRecord; EffectSetStatus; EffectCreate; EffectCloseLink; EffectOpenLink];
}.

Record pack_sound (p : Pack) : Prop := {
  ps_model : coherent (pk_model p);
  ps_classes : Forall class_sound (pk_Classes p) /\ NoDup (c_Name <$> pk_Classes p);
  ps_references : forall c pr, c ∈ pk_Classes p -> pr ∈ References (Compiled c) -> is_Some (Class p pr.2);
  ps_workflows : Forall (workflow_sound (pk_model p) (pk_Classes p)) (pk_Workflows p) /\ NoDup (w_Name <$> pk_Workflows p);
  ps_queries : NoDup (q_Name <$> pk_Queries p) /\
    Forall (fun q => selectRe (q_SQL q) = true /\ Contains (q_SQL q) ";" = false) (pk_Queries p);
  ps_retention : NoDup (r_ID <$> pk_Retention p) /\
    Forall (fun r => is_Some (Class p (r_Class r)) /\ 0 <= r_WindowDays r) (pk_Retention p);
}.

Lemma find_named_None {A} (name : A -> string) k l : find_named name k l = None <-> k ∉ (name <$> l).
Proof.
  induction l as [|x l IH]; [split; [intros _; apply not_elem_of_nil|done]|].
  cbn [find_named]. rewrite fmap_cons, not_elem_of_cons. destruct (String.eqb_spec (name x) k); naive_solver.
Qed.

Lemma known_iff {A} (name : A -> string) l k : known name l k = true <-> is_Some (find_named name k l).
Proof. unfold known. destruct (find_named name k l); [split; [eauto|done]|]. split; [done|by intros [? ?]]. Qed.

Lemma fresh_iff {A} (name : A -> string) l k : known name l k = false <-> k ∉ (name <$> l).
Proof. rewrite <- find_named_None. unfold known. destruct (find_named name k l); naive_solver. Qed.

(** A loop that refuses repeated names collects items that pass and have
    distinct names. *)
Lemma add_each_sound {A} (name : A -> string) (P : A -> Prop) (f : list A -> A -> res A) l : forall seen out,
  (forall seen x y, f seen x = Ok y -> P y /\ name y ∉ (name <$> seen)) ->
  Forall P seen -> NoDup (name <$> seen) -> add_each f seen l = Ok out -> Forall P out /\ NoDup (name <$> out).
Proof.
  induction l as [|x l IH]; intros seen out Hf Hp Hn E; cbn in E; res_inv; [done|].
  match goal with H : f seen x = Ok ?y |- _ => destruct (Hf _ _ _ H) as [Hy Hfresh] end.
  eapply IH; [done| | |done].
  - apply Forall_app. split; [done|by constructor].
  - rewrite fmap_app. apply NoDup_app. split_and!; [done| |apply NoDup_singleton].
    intros n Hin Hin2. apply list_elem_of_singleton in Hin2 as ->. by apply Hfresh.
Qed.

Ltac unit_Ok := repeat match goal with H : _ = Ok ?u |- _ => is_var u; destruct u end.

Section sound.
Context `{GoFormats}.

Lemma check_projection_Ok c s pj : check_projection c s pj = Ok tt ->
  (pj_Column pj ∉ reservedColumns) /\ forall p, prop (pj_Property pj) (s_Properties s) = Some p -> is_pii p = false.
Proof.
  unfold check_projection. intros E. res_inv. bool_hyps.
  split; [by apply containsString_not_elem|]. intros p Hp.
  match goal with H : refuse_if (match prop _ _ with _ => _ end) _ = _ |- _ => rewrite Hp in H; apply refuse_if_Ok in H; done
  | H : match prop _ _ with _ => _ end = false |- _ => by rewrite Hp in H end.
Qed.
Lemma validate_class_sound seen c c' : validate_class seen c = Ok c' -> class_sound c' /\ c_Name c' ∉ (c_Name <$> seen).
Proof.
  unfold validate_class. intros E. res_inv.
  match goal with H : match Compile _ with _ => _ end = Ok ?x |- _ => destruct (Compile (c_SchemaDoc c)) as [s|]; [|done]; injection H as <- end.
  match goal with H : match find_named _ _ _ with _ => _ end = false |- _ => rename H into Hfresh end.
  assert (c_Name c ∉ (c_Name <$> seen)) as Hf by (apply find_named_None; by destruct (find_named _ _ _)).
  split; [|done]. clear Hfresh Hf. bool_hyps. unit_Ok.
  split; cbn [with_compiled c_Initial c_Statuses c_Encryption c_NaturalKey Compiled c_compiled default from_option]; unfold id.
  - by apply containsString_elem.
  - by apply containsString_elem.
  - match goal with H1 : negb (String.eqb ?e EncNone) && negb ?b = false, H2 : String.eqb ?e EncNone && ?b = false |- _ =>
      revert H1 H2; destruct (String.eqb_spec e EncNone), (PIIFields s); naive_solver end.
  - destruct (String.eqb_spec (c_NaturalKey c) ""); [by left|right].
    match goal with H : match prop _ _ with _ => _ end = _ |- _ => destruct (prop (c_NaturalKey c) (s_Properties s)) as [p|]; [|done];
      apply refuse_if_Ok in H end. eauto.
  - intros pj Hpj. match goal with H : check_all _ _ = _ |- _ => rewrite check_all_Ok, Forall_forall in H; specialize (H _ Hpj) end.
    by eapply check_projection_Ok.
Qed.

Lemma validateCondition_sound w c : validateCondition w c = Ok tt -> condition_sound c.
Proof.
  unfold validateCondition. intros E. res_inv. bool_hyps. split; [done|..]; by apply containsString_elem.
Qed.

Lemma validateEffect_type classes w i e : validateEffect classes w i e = Ok tt ->
  e_Type e ∈ [EffectRecord; EffectSetStatus; EffectCreate; EffectCloseLink; EffectOpenLink].
Proof.
  unfold validateEffect. intros E. apply containsString_elem. unfold containsString. cbn [existsb].
  destruct (String.eqb_spec (e_Type e) EffectRecord) as [->|]; [done|].
  destruct (String.eqb_spec (e_Type e) EffectSetStatus) as [->|]; [done|].
  destruct (String.eqb_spec (e_Type e) EffectCreate) as [->|]; [done|].
  destruct (String.eqb_spec (e_Type e) EffectOpenLink) as [->|]; [done|]. cbn [orb] in E.
  destruct (String.eqb_spec (e_Type e) EffectCloseLink) as [->|]; done.
Qed.

Lemma validate_workflow_sound m classes seen w w' :
  validate_workflow m classes seen w = Ok w' -> workflow_sound m classes w' /\ w_Name w' ∉ (w_Name <$> seen).
Proof.
  unfold validate_workflow. intros E. res_inv.
  match goal with H : find_named _ _ _ = Some ?x |- _ => rename H into Hclass, x into class end.
  assert (exists o, w' = with_input w o) as [o ->].
  { match goal with H : match w_InputDoc w with _ => _ end = Ok _ |- _ => revert H end.
    destruct (w_InputDoc w) as [doc|]; [destruct (Compile doc)|]; intros; res_inv; eauto. }
  bool_hyps. unit_Ok. split; [|by apply fresh_iff].
  repeat match goal with H : check_all _ _ = Ok tt |- _ => rewrite check_all_Ok, Forall_forall in H end.
  split; cbn [with_input w_Class w_Action w_Status w_ProposeRoles w_ApproveRoles w_AutoApprove w_Conditions w_Effects].
  - exists class. split; [done|]. intros Ha.
    match goal with H : String.eqb (w_Action w) ActionStatus && _ = false |- _ => rewrite Ha in H; cbn [andb] in H end.
    bool_hyps. apply containsString_elem. by rewrite <- negb_false_iff.
  - by apply containsString_elem.
  - intros role Hr. match goal with H : forall x, x ∈ w_ProposeRoles w ++ _ -> _ |- _ => specialize (H role Hr); apply refuse_if_Ok in H;
      unfold Role in H; destruct (roles m !! role); [eauto|done] end.
  - match goal with H : match w_ApproveRoles w with _ => _ end = false |- _ => destruct (w_ApproveRoles w); [right|by left] end.
    bool_hyps. done.
  - apply Forall_forall. intros c Hc. eapply validateCondition_sound.
    match goal with H : forall x, x ∈ w_Conditions w -> _ |- _ => exact (H c Hc) end.
  - intros e He. apply (indexed_elem _ _ 0) in He as [i Hi].
    match goal with H : forall x, x ∈ indexed 0 _ -> _ |- _ => apply H in Hi end. by eapply validateEffect_type.
Qed.

Lemma validate_query_sound m seen q q' : validate_query m seen q = Ok q' ->
  (selectRe (q_SQL q') = true /\ Contains (q_SQL q') ";" = false) /\ q_Name q' ∉ (q_Name <$> seen).
Proof. unfold validate_query. intros E. res_inv. bool_hyps. split; [done|by apply fresh_iff]. Qed.

Lemma validate_policy_sound classes seen r r' : validate_policy classes seen r = Ok r' ->
  (is_Some (find_named c_Name (r_Class r') classes) /\ 0 <= r_WindowDays r') /\ r_ID r' ∉ (r_ID <$> seen).
Proof. unfold validate_policy. intros E. res_inv. bool_hyps. split; [split; [by apply known_iff|done]|by apply fresh_iff]. Qed.

(** A pack that validates is one the register can run. Its role model
    is coherent; every class starts in a status of its own, is encrypted
    exactly when it marks personal data, and lets personal data into
    neither its natural key nor a queryable column; references, workflows
    and retention policies name classes that exist; workflows name roles
    that exist and can be approved by someone; conditions and queries are
    single SELECTs; and no two items of a kind share a name. *)
Lemma validated_pack_sound (p p' : Pack) : validate_pack p = Ok p' -> pack_sound p'.
Proof.
  unfold validate_pack. intros E. res_inv.
  match goal with H : match NewModel _ with _ => _ end = Ok _ |- _ => destruct (NewModel (pk_Roles p)) as [m|] eqn:Em; [|done]; injection H as <- end.
  repeat match goal with H : add_each validate_class _ _ = Ok _ |- _ =>
      apply (add_each_sound c_Name class_sound) in H as [? ?]; [|intros *; apply validate_class_sound|constructor|constructor]
    | H : add_each (validate_workflow ?m ?cs) _ _ = Ok _ |- _ =>
      apply (add_each_sound w_Name (workflow_sound m cs)) in H as [? ?]; [|intros *; apply validate_workflow_sound|constructor|constructor]
    | H : add_each (validate_query _) _ _ = Ok _ |- _ =>
      apply (add_each_sound q_Name (fun q => selectRe (q_SQL q) = true /\ Contains (q_SQL q) ";" = false)) in H as [? ?];
        [|intros *; apply validate_query_sound|constructor|constructor]
    | H : add_each (validate_policy ?cs) _ _ = Ok _ |- _ =>
      apply (add_each_sound r_ID (fun r => is_Some (find_named c_Name (r_Class r) cs) /\ 0 <= r_WindowDays r)) in H as [? ?];
        [|intros *; apply validate_policy_sound|constructor|constructor] end.
  unit_Ok. split; cbn [pk_model pk_Classes pk_Workflows pk_Queries pk_Retention]; try done.
  - by eapply NewModel_coherent.
  - intros c pr Hc Hpr.
    match goal with H : check_all (check_references _) _ = Ok tt |- _ => rewrite check_all_Ok, Forall_forall in H; specialize (H _ Hc);
      unfold check_references in H; rewrite check_all_Ok, Forall_forall in H; specialize (H _ Hpr); apply refuse_if_Ok in H end.
    bool_hyps. by apply known_iff.
Qed.
End sound.

(** A small pack: one class with personal data, one workflow over it. *)
Definition dquote (s : string) : string :=
  of_bytes ((fun a => if Ascii.eqb a "039" then quote_char else a) <$> bytes_of s).
Definition demo_schema : string := dquote
  "{'type':'object','required':['code','name'],'additionalProperties':false,'properties':{'code':{'type':'string'},'email':{'type':'string','x-register':{'pii':true}},'name':{'type':'string','x-register':{'queryable':true}}}}".
Definition demo_class : Class_ :=
  mkClass "person" "Person" "code" ["active"; "closed"] "active" EncSubject demo_schema None.
Definition demo_workflow : Workflow :=
  mkWorkflow "rename" "Rename" "person" ActionUpdate ["clerk"] ["reviewer"] true [] None
    [mkCondition "open" "" "SELECT COUNT(1) FROM q_person" ExpectZero OnFailReview "there is one"]
    false "Rename a person" [] "" None None.
Definition demo_pack : Pack :=
  mkPack "demo" "Demo" "1" "t" demo_roles [demo_class] [demo_workflow]
    [mkNamedQuery "all" ["clerk"] "SELECT * FROM q_person" []]
    [mkRetentionPolicy "pii" "" "person" 30 ScopePII true] None empty_model.

Section pack_witness.
#[local] Existing Instance plain_formats.

Lemma validated_pack_sound_witness : exists p', validate_pack demo_pack = Ok p' /\ pack_sound p'.
Proof.
  destruct (validate_pack demo_pack) as [p'|e] eqn:E; [|vm_compute in E; discriminate E].
  exists p'. split; [reflexivity|]. exact (validated_pack_sound demo_pack p' E).
Defined.
End pack_witness.
