(* ===== verification/Byok.v ===== *)
(** * Payload encryption ([internal/byok])

    Data-encryption keys, their operational wrap under the register's
    master secret and their recovery wrap under the customer's key, and
    the sealing of record payloads. The keyring's cache is part of the
    world. *)

From S2P Require Import Prelude GoStrings Float64 Encoding Canon Json SqlText Sql Model World Concrete.
Local Open Scope Z_scope.

Definition KeySize : nat := 32.
Definition nonceSize : nat := 12.
Definition AlgoX25519 := "x25519".
Definition AlgoRSAOAEP := "rsa-oaep-sha256".

(** [keys.Material]: the sealed secrets of one register. *)
Record Material := mkMaterial { mat_Master : string; mat_Signer : string; mat_KeyID : string }.

Record KEK := mkKEK { kek_ID : string; kek_Algorithm : string; kek_PublicKey : string }.

Record Ciphertext := mkCiphertext { ct_Algorithm : string; ct_Scope : string; ct_Nonce : string; ct_Data : string }.

Definition ciphertext_value (c : Ciphertext) : value :=
  VObj [("alg", VStr (ct_Algorithm c)); ("scope", VStr (ct_Scope c)); ("nonce", VStr (ct_Nonce c)); ("data", VStr (ct_Data c))].
Definition decode_ciphertext (m : object) : res Ciphertext :=
  a ← get_str "alg" m; s ← get_str "scope" m; n ← get_str "nonce" m; d ← get_str "data" m;
  Ok (mkCiphertext a s n d).

Section byok.
Context `{Runtime}.

(** [derive]. *)
Definition derive (secret info : string) : string := hkdf secret info.

(** [NewKeyring]'s wrapping key. *)
Definition wrapKey (m : Material) : string := derive (mat_Master m) "register/dek-wrap/v1".

Definition sealAEAD (key plaintext aad : string) : M string :=
  nonce ← random nonceSize;
  mret (nonce +:+ gcm_seal key nonce plaintext aad).

Definition openAEAD (key sealed aad : string) : res string :=
  _ ← refuse_if (len sealed <? Z.of_nat nonceSize) (Errorf "byok: ciphertext is too short" []);
  of_option (gcm_open key (str_take nonceSize sealed) (str_drop nonceSize sealed) aad)
    (Errorf "cipher: message authentication failed" []).

(** [NewDEK]. *)
Definition NewDEK : M string := random KeySize.

(** [WrapOperational]. *)
Definition WrapOperational (m : Material) (scope dek : string) : M string :=
  sealAEAD (wrapKey m) dek ("dek:" +:+ scope).

(** [UnwrapOperational]: through the cache. *)
Definition UnwrapOperational (m : Material) (scope wrapped : string) : M string :=
  cached ← gets cache;
  match cached !! scope with
  | Some dek => mret dek
  | None =>
      pt ← wrapping "byok: unwrap %s: %w" [scope] (lift (openAEAD (wrapKey m) wrapped ("dek:" +:+ scope)));
      _ ← guard_ (negb (len pt =? Z.of_nat KeySize)) (Errorf "byok: unwrap %s: key is %d bytes" [scope; itoa (len pt)]);
      _ ← modify (fun w => set_cache (<[scope := pt]> (cache w)) w);
      mret pt
  end.

(** [Forget]. *)
Definition Forget (scope : string) : M unit := modify (fun w => set_cache (delete scope (cache w)) w).

(** [ParseKEK]. *)
Definition ParseKEK (id algo public : string) : res KEK :=
  if String.eqb algo AlgoX25519 then
    match x25519_check public with
    | Some e => Err (Wrapf "byok: x25519 public key: %w" [] e)
    | None => Ok (mkKEK id algo public)
    end
  else if String.eqb algo AlgoRSAOAEP then
    match rsa_bits public with
    | Err e => Err (Wrapf "byok: rsa public key: %w" [] e)
    | Ok bits =>
        _ ← refuse_if (bits <? 2048) (Errorf "byok: RSA key is %d bits, the minimum is 2048" [itoa bits]);
        Ok (mkKEK id algo public)
    end
  else Err (Errorf "byok: unsupported key algorithm %q" [algo]).

(** [KEK.WrapRecovery]. *)
Definition WrapRecovery (k : KEK) (scope dek : string) : M string :=
  if String.eqb (kek_Algorithm k) AlgoX25519 then
    _ ← lift (match x25519_check (kek_PublicKey k) with Some e => Err e | None => Ok tt end);
    eph ← random 32;
    shared ← lift (x25519_ecdh eph (kek_PublicKey k));
    sealed ← sealAEAD (derive (shared +:+ x25519_base eph) "register/recovery-wrap/v1") dek ("dek:" +:+ scope);
    mret (x25519_base eph +:+ sealed)
  else if String.eqb (kek_Algorithm k) AlgoRSAOAEP then
    _ ← lift (rsa_bits (kek_PublicKey k));
    e ← random 32;
    lift (rsa_oaep (kek_PublicKey k) e dek ("dek:" +:+ scope))
  else throw (Errorf "byok: unsupported key algorithm %q" [kek_Algorithm k]).

Definition payload_aad (scope objectID : string) (version : Z) : string :=
  scope +:+ "|" +:+ objectID +:+ "|" +:+ itoa version.

(** [Encrypt] and [Decrypt]. *)
Definition Encrypt (dek scope objectID : string) (version : Z) (plaintext : string) : M Ciphertext :=
  sealed ← sealAEAD dek plaintext (payload_aad scope objectID version);
  mret (mkCiphertext "AES-256-GCM" scope (base64_encode (str_take nonceSize sealed)) (base64_encode (str_drop nonceSize sealed))).

Definition Decrypt (dek : string) (ct : Ciphertext) (objectID : string) (version : Z) : res string :=
  _ ← refuse_if (negb (String.eqb (ct_Algorithm ct) "AES-256-GCM"))
        (Errorf "byok: unsupported payload algorithm %q" [ct_Algorithm ct]);
  nonce ← of_option (base64_decode (ct_Nonce ct)) (Errorf "byok: nonce: %w" []);
  data ← of_option (base64_decode (ct_Data ct)) (Errorf "byok: ciphertext: %w" []);
  openAEAD dek (nonce +:+ data) (payload_aad (ct_Scope ct) objectID version).

(** ** Facts *)

Lemma ro_modify_cache f : ro (modify (fun w => set_cache (f (cache w)) w)).
Proof. intros w r w' [= <- <-]. done. Qed.
Lemma ro_Forget scope : ro (Forget scope).
Proof. apply (ro_modify_cache (delete scope)). Qed.
Lemma ro_sealAEAD k p a : ro (sealAEAD k p a).
Proof. unfold sealAEAD. ro_tac. Qed.
Lemma ro_NewDEK : ro NewDEK.
Proof. apply ro_random. Qed.
Lemma ro_WrapOperational m s d : ro (WrapOperational m s d).
Proof. apply ro_sealAEAD. Qed.
Lemma ro_UnwrapOperational m s x : ro (UnwrapOperational m s x).
Proof.
  unfold UnwrapOperational. apply ro_bind; [apply ro_gets|]. intros c. destruct (c !! s); [apply ro_ret|].
  apply ro_bind; [apply ro_wrapping, ro_lift|]. intros pt. apply ro_bind; [apply ro_guard|]. intros _.
  apply ro_bind; [apply (ro_modify_cache (insert s pt))|]. intros _. apply ro_ret.
Qed.
Lemma ro_WrapRecovery k s d : ro (WrapRecovery k s d).
Proof.
  unfold WrapRecovery. destruct (String.eqb _ AlgoX25519); [|destruct (String.eqb _ _)]; [|ro_tac..].
  apply ro_bind; [apply ro_lift|]. intros _. apply ro_bind; [apply ro_random|]. intros e.
  apply ro_bind; [apply ro_lift|]. intros sh. apply ro_bind; [apply ro_sealAEAD|]. intros se. apply ro_ret.
Qed.
Lemma ro_Encrypt d s o v p : ro (Encrypt d s o v p).
Proof. unfold Encrypt. apply ro_bind; [apply ro_sealAEAD|]. intros. apply ro_ret. Qed.

Lemma nonce_split i p : str_take nonceSize (entropy i nonceSize +:+ p) = entropy i nonceSize /\
  str_drop nonceSize (entropy i nonceSize +:+ p) = p.
Proof.
  pose proof (entropy_length i nonceSize) as L. unfold nonceSize in *.
  rewrite <- L at 1 4. split; [apply str_take_app_l|apply str_drop_app_l].
Qed.

Lemma open_nonce k i p a : openAEAD k (entropy i nonceSize +:+ gcm_seal k (entropy i nonceSize) p a) a = Ok p.
Proof.
  unfold openAEAD. destruct (nonce_split i (gcm_seal k (entropy i nonceSize) p a)) as [-> ->].
  rewrite gcm_open_seal. unfold len. rewrite string_length_app, entropy_length.
  destruct (Z.ltb_spec (Z.of_nat (nonceSize + String.length (gcm_seal k (entropy i nonceSize) p a))) (Z.of_nat nonceSize)); [lia|done].
Qed.

(** What was sealed opens with the same key for the same place. *)
Lemma Decrypt_Encrypt dek scope id v p w ct w' :
  Encrypt dek scope id v p w = (Ok ct, w') -> Decrypt dek ct id v = Ok p /\ ct_Scope ct = scope.
Proof.
  unfold Encrypt, sealAEAD. intros E. m_inv.
  match goal with H : random _ _ = _ |- _ => injection H as <- <- end.
  unfold Decrypt. cbn [ct_Algorithm ct_Nonce ct_Data ct_Scope]. split; [|done].
  destruct (nonce_split (rnd w) (gcm_seal dek (entropy (rnd w) nonceSize) p (payload_aad scope id v))) as [-> ->].
  rewrite !base64_roundtrip. cbn -[openAEAD nonceSize]. apply open_nonce.
Qed.
End byok.

#[export] Hint Resolve ro_Forget ro_sealAEAD ro_NewDEK ro_WrapOperational ro_UnwrapOperational ro_WrapRecovery ro_Encrypt : ro.

Section keyring.
Context `{Runtime}.

(** Unwrapping what was wrapped, once the cache has forgotten the scope. *)
Lemma Unwrap_Wrap m scope dek w wrapped w1 w2 :
  len dek = Z.of_nat KeySize -> WrapOperational m scope dek w = (Ok wrapped, w1) -> cache w2 !! scope = None ->
  UnwrapOperational m scope wrapped w2 = (Ok dek, set_cache (<[scope := dek]> (cache w2)) w2).
Proof.
  intros Hl E Hc. unfold WrapOperational, sealAEAD in E. m_inv.
  match goal with H : random _ _ = _ |- _ => injection H as <- <- end.
  unfold UnwrapOperational, mbind, M_bind, gets. rewrite Hc. unfold wrapping, lift.
  rewrite open_nonce, Hl. unfold guard_, refuse_if, lift. rewrite Z.eqb_refl. done.
Qed.

(** Wrapped keys come back, from the store or from the cache. A data
    key wrapped for a scope unwraps to itself for that scope wherever the
    keyring stands, and is then cached; a cached key answers whatever the
    store holds, until it is forgotten. *)
Lemma key_wrapping m scope dek w wrapped w1 w2 :
  len dek = Z.of_nat KeySize -> WrapOperational m scope dek w = (Ok wrapped, w1) ->
  exists w3, (Forget scope ≫= fun _ => UnwrapOperational m scope wrapped) w2 = (Ok dek, w3) /\
    cache w3 = <[scope := dek]> (cache w2) /\ same_db w2 w3 /\
    forall other, UnwrapOperational m scope other w3 = (Ok dek, w3).
Proof.
  intros Hl E. exists (set_cache (<[scope := dek]> (cache w2)) w2).
  assert (Forget scope w2 = (Ok tt, set_cache (delete scope (cache w2)) w2)) as Hf by done.
  unfold mbind, M_bind. rewrite Hf. rewrite (Unwrap_Wrap m scope dek w wrapped w1) by (done || (cbn [cache set_cache]; by rewrite lookup_delete_eq)).
  cbn [cache set_cache]. rewrite insert_delete_eq. split_and!; try done.
  intros other. unfold UnwrapOperational, mbind, M_bind, gets. cbn [cache set_cache]. by rewrite lookup_insert_eq.
Qed.
End keyring.

Section keyring_witness.
#[local] Existing Instance plain_runtime.

Lemma key_wrapping_witness (m := mkMaterial "master" "" "") : exists wrapped w1 w3,
  WrapOperational m "tenant:t" (bytes_le 32 5) fresh_world = (Ok wrapped, w1) /\
  (Forget "tenant:t" ≫= fun _ => UnwrapOperational m "tenant:t" wrapped) fresh_world = (Ok (bytes_le 32 5), w3).
Proof.
  destruct (WrapOperational m "tenant:t" (bytes_le 32 5) fresh_world) as [r w1] eqn:E.
  assert (is_ok (fst (WrapOperational m "tenant:t" (bytes_le 32 5) fresh_world)) = true) as Hok by (vm_compute; reflexivity).
  rewrite E in Hok. destruct r as [wrapped|e]; [|discriminate Hok].
  destruct (key_wrapping m "tenant:t" (bytes_le 32 5) fresh_world wrapped w1 fresh_world ltac:(vm_compute; reflexivity) E) as (w3 & H & _).
  exists wrapped, w1, w3. split; [reflexivity|exact H].
Defined.
End keyring_witness.
