(* ===== verification/GoJson.v ===== *)
(** * Structures of strings in [encoding/json]

    The register seals a person's profile and an invitation's recipient
    as the JSON [encoding/json] prints for a struct: fields in declared
    order, empty ones left out where the tag says so, and the characters
    that matter to HTML escaped. What is printed parses back. *)

From S2P Require Import Prelude GoStrings Float64 Encoding Canon Json SqlText Sql Model World Concrete Commit Replay Byok.
Local Open Scope Z_scope.

(** One rune of a string, with the bytes it was decoded from. *)
Definition go_rune (p : Z * string) : string :=
  let r := p.1 in
  let hex := String backslash ("u00" +:+ String (char_at hexDigits (Z.land (Z.shiftr r 4) 15))
               (String (char_at hexDigits (Z.land r 15)) "")) in
  if r =? 34 then String backslash (String quote_char "")
  else if r =? 92 then String backslash (String backslash "")
  else if r =? 8 then String backslash "b"
  else if r =? 12 then String backslash "f"
  else if r =? 10 then String backslash "n"
  else if r =? 13 then String backslash "r"
  else if r =? 9 then String backslash "t"
  else if (r <? 32) || (r =? 38) || (r =? 60) || (r =? 62) then hex
  else if (r =? RuneError) && (len p.2 =? 1) then String backslash "ufffd"
  else if r =? 8232 then String backslash "u2028"
  else if r =? 8233 then String backslash "u2029"
  else p.2.

Definition go_runes (l : list (Z * string)) : string := foldr (fun p acc => go_rune p +:+ acc) "" l.
Definition goString (s : string) : string :=
  String quote_char (go_runes (segments s) +:+ String quote_char "").

(** [json.Marshal] of a struct of strings: the fields printed. *)
Definition MarshalStrings (fields : list (string * string)) : string :=
  "{" +:+ Join ((fun kv => goString kv.1 +:+ ":" +:+ goString kv.2) <$> fields) "," +:+ "}".

(** The tag [omitempty]. *)
Definition omit_empty (k v : string) : list (string * string) := if String.eqb v "" then [] else [(k, v)].

(** [json.Unmarshal] into a struct, read with [get_str] and the like. *)
Definition UnmarshalStruct (raw : string) : res object := v ← parse_raw raw; as_obj v.

(** ** Round trip *)

Lemma go_rune_ascii r b t :
  0 <= r < 128 -> b = encode_rune r -> parse_chars (go_rune (r, b) +:+ t) = prepend (encode_rune r) (parse_chars t).
Proof.
  intros Hr ->. assert (r ∈ seqZ 0 128) as E by (apply elem_of_seqZ; lia).
  revert E. enough (Forall (fun r => parse_chars (go_rune (r, encode_rune r) +:+ t) = prepend (encode_rune r) (parse_chars t))
    (seqZ 0 128)) as F by (intros E; exact (proj1 (Forall_forall _ _) F r E)).
  let l := eval vm_compute in (seqZ 0 128) in change (seqZ 0 128) with l.
  repeat (apply Forall_cons_2; [reflexivity|]). apply Forall_nil_2.
Qed.

Lemma parse_go_rune r t : 0 <= r -> parse_chars (go_rune (r, encode_rune r) +:+ t) = prepend (encode_rune r) (parse_chars t).
Proof.
  intros H0. destruct (Z.ltb_spec r 128) as [H|H]; [by apply go_rune_ascii|].
  destruct (Z.eq_dec r 8232) as [->|H1]; [reflexivity|]. destruct (Z.eq_dec r 8233) as [->|H2]; [reflexivity|].
  assert (go_rune (r, encode_rune r) = encode_rune r) as ->; [|by apply parse_chars_high, encode_rune_high].
  unfold go_rune. cbn [fst snd].
  do 7 (match goal with |- context [?a =? ?b] => destruct (Z.eqb_spec a b); [lia|] end).
  destruct (Z.ltb_spec r 32); [lia|].
  do 3 (match goal with |- context [?a =? ?b] => destruct (Z.eqb_spec a b); [lia|] end). cbn [orb].
  destruct (Z.eqb_spec r RuneError) as [->|Hr]; [reflexivity|]. cbn [andb].
  destruct (Z.eqb_spec r 8232); [done|]. by destruct (Z.eqb_spec r 8233).
Qed.

Lemma parse_go_runes l t :
  Forall (fun p => 0 <= p.1 /\ p.2 = encode_rune p.1) l ->
  parse_chars (go_runes l +:+ t) = prepend (unsegment l) (parse_chars t).
Proof.
  induction 1 as [|[r b] l [Hr Hb] _ IH].
  - change (go_runes [] +:+ t) with t. change (unsegment []) with "". by destruct (parse_chars t) as [[]|].
  - change (go_runes ((r, b) :: l)) with (go_rune (r, b) +:+ go_runes l). cbn in Hr, Hb. subst b.
    rewrite string_app_assoc, parse_go_rune, IH, prepend_app by done. done.
Qed.

Lemma valid_segments s : valid_utf8 s = true -> Forall (fun p => 0 <= p.1 /\ p.2 = encode_rune p.1) (segments s).
Proof.
  intros H. pose proof (segments_nonneg s) as Hn. unfold valid_utf8 in H. rewrite forallb_forall in H.
  rewrite Forall_forall in *. intros p Hp. split; [by apply Hn|].
  symmetry. apply String.eqb_eq, H. by apply list_elem_of_In.
Qed.

Lemma parse_goString s t : valid_utf8 s = true -> parse_string (goString s +:+ t) = Some (s, t).
Proof.
  intros H. unfold parse_string, goString. rewrite string_app_cons, Ascii.eqb_refl.
  rewrite string_app_assoc, parse_go_runes by (by apply valid_segments).
  rewrite string_app_cons. change (parse_chars (String quote_char ("" +:+ t))) with (Some ("", t)).
  cbn [prepend]. by rewrite string_app_nil_r, unsegment_segments, to_valid_id.
Qed.

Lemma goString_text s : valid_utf8 s = true -> text_of (VStr s) (goString s).
Proof.
  intros H. split; [by apply value_head_intro|]. intros t [|fuel] _ Hf.
  - unfold goString in Hf. simpl in Hf. lia.
  - change (match parse_string (goString s +:+ t) with Some (x, rest) => Some (VStr x, rest) | None => None end
      = Some (VStr s, t)). by rewrite parse_goString.
Qed.

(** A name without special characters is printed as the canonical
    printer prints it. *)
Definition plain_name (k : string) : Prop := valid_utf8 k = true /\ goString k = writeString k.

(** What is printed for a struct of strings parses back to its fields. *)
Lemma parse_MarshalStrings fields :
  NoDup fields.*1 -> Forall (fun kv => plain_name kv.1 /\ valid_utf8 kv.2 = true) fields ->
  parse_raw (MarshalStrings fields) = Ok (VObj ((fun kv => (kv.1, VStr kv.2)) <$> fields)).
Proof.
  intros Hn F. unfold parse_raw, MarshalStrings.
  set (xs := (fun kv : string * string => goString kv.1 +:+ ":" +:+ goString kv.2) <$> fields).
  rewrite <- (string_app_nil_r ("{" +:+ Join xs "," +:+ "}")), !string_app_assoc.
  rewrite (parse_value_obj ((fun kv => (kv.1, VStr kv.2)) <$> fields) xs); [done| | |].
  - subst xs. clear Hn. induction F as [|[k v] fields [[Hk Hg] Hv] _ IH]; [constructor|]. cbn [fmap list_fmap fst snd].
    constructor; [|exact IH]. exists (goString v). cbn [fst snd] in *. rewrite Hg.
    split; [by apply goString_text|]. by split.
  - rewrite <- list_fmap_compose. exact Hn.
  - rewrite !string_length_app. simpl. lia.
Qed.

(** A sealed row: [json.Marshal] of a ciphertext. *)
Definition ciphertext_text (c : Ciphertext) : string :=
  MarshalStrings [("alg", ct_Algorithm c); ("scope", ct_Scope c); ("nonce", ct_Nonce c); ("data", ct_Data c)].
Definition read_ciphertext (raw : string) : res Ciphertext := m ← UnmarshalStruct raw; decode_ciphertext m.

Lemma read_ciphertext_text c :
  valid_utf8 (ct_Algorithm c) = true -> valid_utf8 (ct_Scope c) = true ->
  valid_utf8 (ct_Nonce c) = true -> valid_utf8 (ct_Data c) = true ->
  read_ciphertext (ciphertext_text c) = Ok c.
Proof.
  intros H1 H2 H3 H4. unfold read_ciphertext, UnmarshalStruct, ciphertext_text. rewrite parse_MarshalStrings.
  - destruct c. done.
  - cbn. rewrite !NoDup_cons, !not_elem_of_cons. split_and!; try done; try apply not_elem_of_nil. by constructor.
  - repeat constructor; done.
Qed.

(** ** [json.Marshal] of any value

    Members are printed in the order given: a struct's in declared
    order, a map's sorted by whoever builds it. *)
Fixpoint go_json (v : value) : res string :=
  match v with
  | VNull => Ok "null"
  | VBool b => Ok (if b then "true" else "false")
  | VInt z => Ok (itoa z)
  | VFloat f =>
      match f with
      | FInf _ | FNaN => Err (Errorf "json: unsupported value: %v" [FormatFloat_g f])
      | _ => Ok (json_float f)
      end
  | VNumber s =>
      if String.eqb s "" then Ok "0"
      else if valid_number s then Ok s
      else Err (Errorf "json: invalid number literal %q" [s])
  | VStr s => Ok (goString s)
  | VBinary s => Ok ("{" +:+ goString "$bytes" +:+ ":" +:+ goString (base64_encode s) +:+ "}")
  | VBytes s => Ok (goString (base64_encode s))
  | VArr l => xs ← collect (map go_json l); Ok ("[" +:+ Join xs "," +:+ "]")
  | VObj m =>
      xs ← collect (map (fun p => y ← p.2; Ok (goString p.1 +:+ ":" +:+ y)) (map (fun kv => (kv.1, go_json kv.2)) m));
      Ok ("{" +:+ Join xs "," +:+ "}")
  end.

(** What the parser makes of it: an integer comes back as its literal,
    bytes as their base64 text. *)
Fixpoint shape (v : value) : value :=
  match v with
  | VInt z => VNumber (itoa z)
  | VBytes s => VStr (base64_encode s)
  | VArr l => VArr (map shape l)
  | VObj m => VObj (map (fun kv => (kv.1, shape kv.2)) m)
  | _ => v
  end.

(** Values the printer and the parser agree on. *)
Inductive jsonable : value -> Prop :=
  | js_null : jsonable VNull
  | js_bool b : jsonable (VBool b)
  | js_int z : jsonable (VInt z)
  | js_str s : valid_utf8 s = true -> jsonable (VStr s)
  | js_bytes s : jsonable (VBytes s)
  | js_arr l : Forall jsonable l -> jsonable (VArr l)
  | js_obj m : NoDup m.*1 -> Forall (fun kv => plain_name kv.1 /\ jsonable kv.2) m -> jsonable (VObj m).

Lemma text_of_canonical v s : canonical v -> write v = Ok s -> text_of v s.
Proof. intros C W. destruct (write_text v C) as (s' & W' & T). congruence. Qed.

Lemma itoa_text z : text_of (VNumber (itoa z)) (itoa z).
Proof.
  assert (value_head (itoa z)) as Hh.
  { apply int_head_value. rewrite <- (string_app_nil_r (itoa z)). apply itoa_head. }
  split; [done|]. intros t [|fuel] Ht Hf.
  - destruct Hh as (a & r & E & _). rewrite E in Hf. simpl in Hf. lia.
  - by apply parse_value_int.
Qed.

Lemma go_json_text v : jsonable v -> exists s, go_json v = Ok s /\ text_of (shape v) s.
Proof.
  induction v as [|b|z|f|s|s|s|s|l IH|m IH] using value_ind'; intros C; inversion C; subst; cbn [go_json shape].
  - exists "null". split; [done|]. by apply text_of_canonical; [constructor|].
  - eexists. split; [done|]. by apply text_of_canonical; [constructor|].
  - eexists. split; [done|]. apply itoa_text.
  - eexists. split; [done|]. by apply goString_text.
  - eexists. split; [done|]. apply goString_text, ascii_to_valid, base64_ascii.
  - assert (exists xs, Forall2 (fun r x => r = Ok x) (map go_json l) xs /\ Forall2 text_of (map shape l) xs) as (xs & F1 & F2).
    { match goal with H : Forall jsonable l |- _ => revert H end. clear C.
      induction IH as [|v l Hv _ IHl]; intros Hc; [by exists []|]. inversion Hc; subst.
      destruct Hv as (x & ? & ?); [done|]. destruct IHl as (xs & ? & ?); [done|].
      exists (x :: xs). split; by constructor. }
    rewrite (collect_Forall2 _ _ F1). eexists. split; [reflexivity|]. split; [by apply value_head_intro|].
    intros t fuel _ Hf. rewrite !string_app_assoc. apply parse_value_arr; [done|].
    rewrite !string_length_app in Hf. simpl in Hf. lia.
  - assert (exists xs, Forall2 (fun r x => r = Ok x)
      (map (fun p => y ← p.2; Ok (goString p.1 +:+ ":" +:+ y)) (map (fun kv => (kv.1, go_json kv.2)) m)) xs
      /\ Forall2 member_text (map (fun kv => (kv.1, shape kv.2)) m) xs) as (xs & F1 & F2).
    { match goal with H : Forall _ m |- _ => revert H end. clear -IH.
      induction IH as [|[k v] m Hv _ IHm]; intros Hc; [by exists []|].
      apply Forall_cons in Hc as [[[Hk Hg] Hc] Hm]. destruct Hv as (x & Hw & ?); [done|].
      destruct IHm as (xs & ? & ?); [done|]. cbn [fst snd] in *.
      exists ((goString k +:+ ":" +:+ x) :: xs). cbn [map fst snd]. rewrite Hw. split; constructor; try done.
      exists x. rewrite Hg. done. }
    rewrite (collect_Forall2 _ _ F1). eexists. split; [reflexivity|]. split; [by apply value_head_intro|].
    intros t fuel _ Hf. rewrite !string_app_assoc. apply parse_value_obj; [done| |].
    + rewrite <- list_fmap_compose. match goal with H : NoDup _ |- _ => exact H end.
    + rewrite !string_length_app in Hf. simpl in Hf. lia.
Qed.

(** What [json.Marshal] prints parses back. *)
Lemma parse_go_json v : jsonable v -> exists s, go_json v = Ok s /\ parse_raw s = Ok (shape v).
Proof.
  intros C. destruct (go_json_text v C) as (s & Hw & _ & Hp). exists s. split; [done|].
  unfold parse_raw. specialize (Hp "" (2 * String.length s + 2)%nat eq_refl ltac:(lia)).
  rewrite string_app_nil_r in Hp. by rewrite Hp.
Qed.
