(* ===== verification/Records.v ===== *)
(** * Records ([internal/register/records.go], [mutations.go])

    A record is written by a write set: an immutable version holding the
    clear fields and the sealed personal ones, the object's head, its
    natural key, its query projection, and the data-encryption key when
    it is new. Reading a version applies the three reasons a payload may
    not come back whole: pruned, erased, not cleared. *)

From S2P Require Import Prelude GoStrings Float64 Encoding Canon Json SqlText Sql Rbac JsonSchema Pack Model World Byok Commit.
Local Open Scope Z_scope.

(** ** The register *)

Record Register := mkRegister {
  pk : Pack;
  opts : Options;
  mat : Material;
}.

(** [writeCtx]: what the effects of one transaction share, and the
    objects its write set has already created. *)
Record writeCtx := mkWriteCtx { wc_tenant : string; wc_at : Z; wc_pending : gmap string string }.
Definition newWriteCtx (tenant : string) (at_ : Z) : writeCtx := mkWriteCtx tenant at_ ∅.
Definition add_pending (id class : string) (w : writeCtx) : writeCtx :=
  mkWriteCtx (wc_tenant w) (wc_at w) (<[id := class]> (wc_pending w)).

Record recordDraft := mkDraft {
  d_class : Class_;
  d_objectID : string;
  d_version : Z;
  d_status : string;
  d_payload : object;
  d_schemaID : string;
}.

(** ** Stored payloads *)

Record storedPayload := mkStored { sp_Clear : object; sp_Enc : option Ciphertext }.

Definition stored_value (s : storedPayload) : value :=
  VObj ([("clear", VObj (sp_Clear s))] ++ match sp_Enc s with Some c => [("enc", ciphertext_value c)] | None => [] end).

Definition decode_stored (raw : string) : res storedPayload :=
  v ← parse_raw raw;
  m ← as_obj v;
  clear ← get_map "clear" m; clear ← floatify_obj clear;
  enc ← get_pointer "enc" m;
  enc ← match enc with None => Ok None | Some c => c ← decode_ciphertext c; Ok (Some c) end;
  Ok (mkStored clear enc).

(** The halves of a payload: what anyone reading may see, and the
    personal fields. *)
Definition clear_half (pii : list string) (payload : object) : object :=
  filter (fun kv => containsString pii kv.1 = false) payload.
Definition sealed_half (pii : list string) (payload : object) : object :=
  omap (fun f => (f,.) <$> obj_get f payload) pii.

(** [for k, v := range fields { out.Payload[k] = v }]. *)
Definition merge_payload (clear fields : object) : object := obj_override clear fields.

(** [json.Unmarshal] of an object into [map[string]any]. *)
Definition decode_fields (raw : string) : res object :=
  v ← Unmarshal raw; as_obj v.

Section records.
Context `{Runtime} `{GoFormats}.
Variable r : Register.

(** [dekScope] and [taskScope]. *)
Definition dekScope (tenant : string) (class : Class_) (objectID : string) : string :=
  if String.eqb (c_Encryption class) EncTenant then tenant +:+ "/tenant"
  else if String.eqb (c_Encryption class) EncClass then tenant +:+ "/class/" +:+ c_Name class
  else if String.eqb (c_Encryption class) EncSubject then tenant +:+ "/subject/" +:+ objectID
  else "".
Definition taskScope (tenant taskID : string) : string := tenant +:+ "/task/" +:+ taskID.

(** [PlainHash] and [KeyedHash]. *)
Definition PlainHash (plaintext : string) : string := "sha256:" +:+ hex_encode (sha256 plaintext).
Definition KeyedHash (dek plaintext : string) : string :=
  "hmac-sha256:" +:+ hex_encode (hmac_sha256 dek ("register/payload/v1" +:+ plaintext)).

Definition activeKEK (tenant : string) : M (option KEK) :=
  row ← query_one (SSelect "keks" [is_ "tenant" (VStr tenant); is_ "active" (VBool true)]
                     (Some (mkOrder "enrolled_at" true)) (Some 1%nat));
  match row with
  | None => mret None
  | Some row => k ← lift (ParseKEK (Str row "id") (Str row "algo") (Bytes row "public_key")); mret (Some k)
  end.

(** The row of a new data-encryption key. *)
Definition dek_op (scope tenant kind subject opWrap recWrap kekID : string) (at_ : Z) : WriteOp :=
  upsert "dek_keys" [("scope", VStr scope)]
    [("tenant", VStr tenant); ("kind", VStr kind); ("subject", VStr subject);
     ("op_wrap", VBinary opWrap); ("rec_wrap", VBinary recWrap); ("kek_id", VStr kekID);
     ("created_at", VInt at_); ("destroyed_at", VInt 0); ("txid", VStr TxIDPlaceholder)].

(** [ensureDEK]. *)
Definition ensureDEK (w : writeCtx) (scope kind subject : string) : M (string * list WriteOp) :=
  row ← select_one "dek_keys" [is_ "scope" (VStr scope)];
  match row with
  | Some row =>
      _ ← guard_ (negb (Int row "destroyed_at" =? 0))
            (Errorf "the key for %s has been destroyed; this record cannot be rewritten" [scope]);
      dek ← UnwrapOperational (mat r) scope (Bytes row "op_wrap");
      mret (dek, [])
  | None =>
      dek ← NewDEK;
      opWrap ← WrapOperational (mat r) scope dek;
      kek ← activeKEK (wc_tenant w);
      wrap ← match kek with
             | None => mret ("", "")
             | Some k => rec ← WrapRecovery k scope dek; mret (rec, kek_ID k)
             end;
      mret (dek, [dek_op scope (wc_tenant w) kind subject opWrap wrap.1 wrap.2 (wc_at w)])
  end.

Definition check_reference (w : writeCtx) (payload : object) (ref : string * string) : M unit :=
  match obj_get ref.1 payload with
  | None | Some VNull | Some (VStr "") => mret tt
  | Some v =>
      let target := Sprint v in
      class ← match wc_pending w !! target with
              | Some class => mret class
              | None =>
                  row ← select_one "objects" [is_ "id" (VStr target); is_ "tenant" (VStr (wc_tenant w))];
                  match row with
                  | None => throw (Errorf "%s references %s %q, which is not registered" [ref.1; ref.2; target])
                  | Some row => mret (Str row "class")
                  end
              end;
      guard_ (negb (String.eqb class ref.2))
        (Errorf "%s references %q, which is a %s and not a %s" [ref.1; target; class; ref.2])
  end.

(** [checkReferences]. *)
Definition checkReferences (w : writeCtx) (d : recordDraft) : M unit :=
  each (check_reference w (d_payload d)) (References (Compiled (d_class d))).

(** [checkNaturalKey]. *)
Definition checkNaturalKey (tenant : string) (class : Class_) (objectID naturalKey : string) : M unit :=
  if String.eqb (c_NaturalKey class) "" then mret tt else
  row ← select_one "objects" [is_ "tenant" (VStr tenant); is_ "class" (VStr (c_Name class)); is_ "natural_key" (VStr naturalKey)];
  match row with
  | Some row => guard_ (negb (String.eqb (Str row "id") objectID))
                  (Errorf "%s %q is already registered as %s" [c_NaturalKey class; naturalKey; Str row "id"])
  | None => mret tt
  end.

Definition previousNaturalKey (objectID : string) : M string :=
  row ← select_one "objects" [is_ "id" (VStr objectID)];
  mret (match row with Some row => Str row "natural_key" | None => "" end).

(** [projectValue]. *)
Definition projectValue (typ : string) (v : value) : value :=
  if String.eqb typ "integer" then
    match v with
    | VFloat n => VInt (int64_of_float n)
    | VNumber n | VStr n => VInt (fst (ParseInt64 n))
    | _ => VInt 0
    end
  else if String.eqb typ "number" then
    match v with
    | VFloat n => VFloat n
    | VNumber n => VFloat (fst (ParseFloat n))
    | _ => VFloat (FFin 0 0)
    end
  else if String.eqb typ "boolean" then VBool (match v with VBool b => b | _ => false end)
  else match v with
       | VNull => VStr ""
       | VStr s => VStr (clip s 191)
       | _ => VStr (clip (Sprint v) 191)
       end.

Definition project_one (clear : object) (p : Projection) : value :=
  let v := default VNull (obj_get (pj_Property p) clear) in
  let v := if String.eqb (pj_Member p) "" then v
           else match v with VObj o => default VNull (obj_get (pj_Member p) o) | _ => VNull end in
  projectValue (pj_Type p) v.

(** [projectionOps]. *)
Definition projectionOps (class : Class_) (tenant objectID status : string) (at_ : Z) (clear : object) : WriteOp :=
  upsert (QueryTable class) [("object_id", VStr objectID)]
    (fold_left (fun acc p => obj_set (pj_Column p) (project_one clear p) acc) (Projections (Compiled class))
       [("tenant", VStr tenant); ("status", VStr status); ("updated_at", VInt at_)]).

(** The two rows of a version. An update does not rewrite the object's
    creation stamps. *)
Definition version_op (w : writeCtx) (d : recordDraft) (payloadHash body scope : string) : WriteOp :=
  upsert "record_versions" [("object_id", VStr (d_objectID d)); ("version", VInt (d_version d))]
    [("txid", VStr TxIDPlaceholder); ("schema_id", VStr (d_schemaID d)); ("created_at", VInt (wc_at w));
     ("status", VStr (d_status d)); ("payload_hash", VStr payloadHash); ("payload", VBinary body);
     ("enc_scope", VStr scope); ("pruned", VBool false); ("prune_policy", VStr "")].
Definition object_op (w : writeCtx) (d : recordDraft) (naturalKey : string) : WriteOp :=
  upsert "objects" [("id", VStr (d_objectID d))]
    ([("tenant", VStr (wc_tenant w)); ("class", VStr (c_Name (d_class d))); ("natural_key", VStr naturalKey);
      ("head_version", VInt (d_version d)); ("status", VStr (d_status d));
      ("updated_at", VInt (wc_at w)); ("updated_tx", VStr TxIDPlaceholder)]
     ++ (if 1 <? d_version d then [] else [("created_at", VInt (wc_at w)); ("created_tx", VStr TxIDPlaceholder)])
     ++ [("erased", VBool false)]).
Definition natural_key_ops (w : writeCtx) (d : recordDraft) (previous naturalKey : string) : list WriteOp :=
  let key k := [("tenant", VStr (wc_tenant w)); ("class", VStr (c_Name (d_class d))); ("natural_key", VStr k)] in
  (if negb (String.eqb previous "") && negb (String.eqb previous naturalKey)
   then [remove "natural_keys" (key previous)] else [])
  ++ [upsert "natural_keys" (key naturalKey) [("object_id", VStr (d_objectID d)); ("updated_at", VInt (wc_at w))]].

(** The sealed half of a record: its key (recorded when new), its
    ciphertext and the keyed commitment to the whole payload. *)
Definition seal_record (w : writeCtx) (d : recordDraft) (pii : list string) (plaintext : string)
    : M (list WriteOp * string * string * option Ciphertext) :=
  if String.eqb (c_Encryption (d_class d)) EncNone then mret ([], "", PlainHash plaintext, None)
  else
    let scope := dekScope (wc_tenant w) (d_class d) (d_objectID d) in
    let subject := if String.eqb (c_Encryption (d_class d)) EncSubject then d_objectID d else "" in
    key ← ensureDEK w scope (c_Encryption (d_class d)) subject;
    clear ← lift (Marshal (VObj (sealed_half pii (d_payload d))));
    ct ← Encrypt key.1 scope (d_objectID d) (d_version d) clear;
    mret (key.2, scope, KeyedHash key.1 plaintext, Some ct).

Definition naturalKeyOf (d : recordDraft) : string :=
  if String.eqb (c_NaturalKey (d_class d)) "" then d_objectID d
  else match obj_get (c_NaturalKey (d_class d)) (d_payload d) with
       | Some v => Sprint v
       | None => d_objectID d
       end.

(** [buildRecordOps]. *)
Definition buildRecordOps (w : writeCtx) (d : recordDraft) : M (list WriteOp) :=
  _ ← wrapping "record does not match schema %s: %w" [d_schemaID d]
        (lift (JsonSchema.Validate (Compiled (d_class d)) (VObj (d_payload d))));
  _ ← checkReferences w d;
  plaintext ← lift (Marshal (VObj (d_payload d)));
  let pii := PIIFields (Compiled (d_class d)) in
  let clear := clear_half pii (d_payload d) in
  sealed ← seal_record w d pii plaintext;
  let '(keyOps, scope, payloadHash, enc) := sealed in
  body ← lift (Marshal (stored_value (mkStored clear enc)));
  let naturalKey := naturalKeyOf d in
  _ ← checkNaturalKey (wc_tenant w) (d_class d) (d_objectID d) naturalKey;
  naturals ← (if String.eqb (c_NaturalKey (d_class d)) "" then mret []
              else previous ← previousNaturalKey (d_objectID d);
                   mret (natural_key_ops w d previous naturalKey));
  mret (keyOps ++ [version_op w d payloadHash body scope; object_op w d naturalKey] ++ naturals
        ++ [projectionOps (d_class d) (wc_tenant w) (d_objectID d) (d_status d) (wc_at w) clear]).

(** ** Reading *)

Definition version_of_row (row : Row) : RecordVersion :=
  mkRecordVersion (Str row "object_id") (Uint row "version") (Str row "txid") (Str row "schema_id")
    (Int row "created_at") (Str row "status") (Str row "payload_hash") [] (Str row "enc_scope")
    (Bool row "pruned") (Str row "prune_policy") [] false.
Definition with_payload (v : RecordVersion) (payload : object) (redacted : list string) (erased : bool) : RecordVersion :=
  mkRecordVersion (rv_ObjectID v) (rv_Version v) (rv_TxID v) (rv_SchemaID v) (rv_CreatedAt v) (rv_Status v)
    (rv_PayloadHash v) payload (rv_EncScope v) (rv_Pruned v) (rv_PrunePolicy v) redacted erased.

(** A caller not cleared for personal data; the register itself (no
    principal) always is. *)
Definition not_cleared (p : option Principal) : bool :=
  match p with Some p => negb (PII p) | None => false end.

(** The key of a scope: [None] when it was never made or is destroyed. *)
Definition live_key (scope : string) : M (option Row) :=
  row ← select_one "dek_keys" [is_ "scope" (VStr scope)];
  mret (match row with
        | Some row => if Int row "destroyed_at" =? 0 then Some row else None
        | None => None
        end).

(** [readVersion]. *)
Definition readVersion (p : option Principal) (class : Class_) (row : Row) : M RecordVersion :=
  let out := version_of_row row in
  if rv_Pruned out then mret out else
  stored ← wrapping "register: record %s v%d: %w" [rv_ObjectID out; itoa (rv_Version out)]
             (lift (decode_stored (Bytes row "payload")));
  let payload := sp_Clear stored in
  match sp_Enc stored with
  | None => mret (with_payload out payload [] false)
  | Some enc =>
      let piiFields := PIIFields (Compiled class) in
      if not_cleared p then mret (with_payload out payload piiFields false)
      else
        key ← live_key (rv_EncScope out);
        match key with
        | None => mret (with_payload out payload piiFields true)
        | Some key =>
            dek ← UnwrapOperational (mat r) (rv_EncScope out) (Bytes key "op_wrap");
            clear ← wrapping "register: record %s v%d: %w" [rv_ObjectID out; itoa (rv_Version out)]
                      (lift (Decrypt dek enc (rv_ObjectID out) (rv_Version out)));
            fields ← lift (decode_fields clear);
            mret (with_payload out (merge_payload payload fields) [] false)
        end
  end.

(** ** The three shapes of a change *)

Definition objectRow (tenant objectID : string) : M Row :=
  row ← select_one "objects" [is_ "id" (VStr objectID); is_ "tenant" (VStr tenant)];
  lift (of_option row (Errorf "%s is not registered" [objectID])).

Definition activeSchemaID (class : string) : M string :=
  row ← query_one (SSelect "schemas" [is_ "class" (VStr class); is_ "active" (VBool true)]
                     (Some (mkOrder "version" true)) (Some 1%nat));
  row ← lift (of_option row (Errorf "register: class %s has no registered schema" [class]));
  mret (Str row "id").

Definition headVersion (class : Class_) (objectID : string) : M RecordVersion :=
  row ← query_one (SSelect "record_versions" [is_ "object_id" (VStr objectID)] (Some (mkOrder "version" true)) (Some 1%nat));
  row ← lift (of_option row (Errorf "%s has no versions" [objectID]));
  _ ← guard_ (Bool row "pruned") (PruneError objectID (Uint row "version") (Str row "prune_policy"));
  readVersion None class row.

Definition check_status (class : Class_) (status : string) : res unit :=
  refuse_if (negb (containsString (c_Statuses class) status)) (Errorf "%q is not a status of %s" [status; c_Name class]).

(** [createOps]: the write context it returns knows the new object. *)
Definition createOps (w : writeCtx) (class : Class_) (payload : object) (status : string)
    : M (string * list WriteOp * writeCtx) :=
  let status := if String.eqb status "" then c_Initial class else status in
  _ ← lift (check_status class status);
  objectID ← NewObjectID (c_Name class);
  schemaID ← activeSchemaID (c_Name class);
  ops ← buildRecordOps w (mkDraft class objectID 1 status payload schemaID);
  mret (objectID, ops, add_pending objectID (c_Name class) w).

(** [updateOps]. *)
Definition updateOps (w : writeCtx) (class : Class_) (objectID : string) (payload : object) (status : string)
    : M (list WriteOp) :=
  head_ ← objectRow (wc_tenant w) objectID;
  _ ← guard_ (negb (String.eqb (Str head_ "class") (c_Name class)))
        (Errorf "%s is a %s, not a %s" [objectID; Str head_ "class"; c_Name class]);
  _ ← guard_ (Bool head_ "erased") (Errorf "%s has been erased and cannot be amended" [objectID]);
  let status := if String.eqb status "" then Str head_ "status" else status in
  _ ← lift (check_status class status);
  schemaID ← activeSchemaID (c_Name class);
  buildRecordOps w (mkDraft class objectID (to_uint64 (Uint head_ "head_version" + 1)) status payload schemaID).

(** [statusOps]. *)
Definition statusOps (w : writeCtx) (class : Class_) (objectID status : string) : M (list WriteOp) :=
  current ← headVersion class objectID;
  if String.eqb (rv_Status current) status then mret []
  else updateOps w class objectID (rv_Payload current) status.

(** ** Proposals *)

(** [sealProposal]. *)
Definition sealProposal (w : writeCtx) (pii : list string) (taskID : string) (payload : object)
    : M (string * list WriteOp) :=
  let clear := clear_half pii payload in
  let sealed := sealed_half pii payload in
  sealed ← match sealed with
           | [] => mret (None, [])
           | _ =>
               let scope := taskScope (wc_tenant w) taskID in
               key ← ensureDEK w scope "task" taskID;
               text ← lift (Marshal (VObj sealed));
               ct ← Encrypt key.1 scope taskID 0 text;
               mret (Some ct, key.2)
           end;
  body ← lift (Marshal (stored_value (mkStored clear sealed.1)));
  mret (body, sealed.2).

(** [openProposal]: the payload as the caller sees it, and whether it
    was withheld. *)
Definition openProposal (p : option Principal) (tenant taskID sealed : string) : M (object * bool) :=
  match decode_stored sealed with
  | Err _ => fields ← lift (decode_fields sealed); mret (fields, false)
  | Ok stored =>
      let payload := sp_Clear stored in
      match sp_Enc stored with
      | None => mret (payload, false)
      | Some enc =>
          if not_cleared p then mret (payload, true)
          else
            let scope := taskScope tenant taskID in
            key ← live_key scope;
            match key with
            | None => mret (payload, true)
            | Some key =>
                dek ← UnwrapOperational (mat r) scope (Bytes key "op_wrap");
                clear ← wrapping "register: proposal %s: %w" [taskID] (lift (Decrypt dek enc taskID 0));
                fields ← lift (decode_fields clear);
                mret (merge_payload payload fields, false)
            end
      end
  end.

(** The destruction of a key, as an entry. *)
Definition destroy_op (scope : string) (at_ : Z) : WriteOp :=
  upsert "dek_keys" [("scope", VStr scope)]
    [("op_wrap", VBinary ""); ("rec_wrap", VBinary ""); ("destroyed_at", VInt at_)].

(** [closeProposal]. *)
Definition closeProposal (tenant taskID : string) (at_ : Z) : M (list WriteOp) :=
  let scope := taskScope tenant taskID in
  key ← live_key scope;
  match key with
  | None => mret []
  | Some _ => _ ← Forget scope; mret [destroy_op scope at_]
  end.

(** [proposalPII]. *)
Definition proposalPII (wf : Workflow) (class : Class_) : list string :=
  match w_compiledInput wf with
  | Some input => PIIFields input
  | None => PIIFields (Compiled class)
  end.

(** ** Frame *)

Lemma ro_live_key scope : ro (live_key scope).
Proof. unfold live_key. ro_tac. Qed.
Lemma ro_activeKEK t : ro (activeKEK t).
Proof. unfold activeKEK. ro_tac. Qed.
Hint Resolve ro_live_key ro_activeKEK : ro.
Lemma ro_ensureDEK w s k sub : ro (ensureDEK w s k sub).
Proof. unfold ensureDEK. ro_tac. Qed.
Lemma ro_readVersion p c row : ro (readVersion p c row).
Proof. unfold readVersion. ro_tac. Qed.
Hint Resolve ro_ensureDEK ro_readVersion : ro.
Lemma ro_checkReferences w d : ro (checkReferences w d).
Proof. unfold checkReferences, check_reference. ro_tac. Qed.
Lemma ro_checkNaturalKey t c i n : ro (checkNaturalKey t c i n).
Proof. unfold checkNaturalKey. ro_tac. Qed.
Lemma ro_previousNaturalKey i : ro (previousNaturalKey i).
Proof. unfold previousNaturalKey. ro_tac. Qed.
Lemma ro_seal_record w d pii p : ro (seal_record w d pii p).
Proof. unfold seal_record. ro_tac. Qed.
Hint Resolve ro_checkReferences ro_checkNaturalKey ro_previousNaturalKey ro_seal_record : ro.
Lemma ro_buildRecordOps w d : ro (buildRecordOps w d).
Proof. unfold buildRecordOps. ro_tac. Qed.
Lemma ro_objectRow t i : ro (objectRow t i).
Proof. unfold objectRow. ro_tac. Qed.
Lemma ro_activeSchemaID c : ro (activeSchemaID c).
Proof. unfold activeSchemaID. ro_tac. Qed.
Hint Resolve ro_buildRecordOps ro_objectRow ro_activeSchemaID : ro.
Lemma ro_headVersion c i : ro (headVersion c i).
Proof. unfold headVersion. ro_tac. Qed.
Lemma ro_createOps w c p s : ro (createOps w c p s).
Proof. unfold createOps, NewObjectID. ro_tac. Qed.
Lemma ro_updateOps w c i p s : ro (updateOps w c i p s).
Proof. unfold updateOps. ro_tac. Qed.
Hint Resolve ro_headVersion ro_createOps ro_updateOps : ro.
Lemma ro_statusOps w c i s : ro (statusOps w c i s).
Proof. unfold statusOps. ro_tac. Qed.
Lemma ro_sealProposal w pii t p : ro (sealProposal w pii t p).
Proof. unfold sealProposal. ro_tac. Qed.
Lemma ro_openProposal p t i s : ro (openProposal p t i s).
Proof. unfold openProposal. ro_tac. Qed.
Lemma ro_closeProposal t i a : ro (closeProposal t i a).
Proof. unfold closeProposal. ro_tac. Qed.
End records.

#[export] Hint Resolve ro_live_key ro_activeKEK ro_ensureDEK ro_readVersion ro_checkReferences ro_checkNaturalKey
  ro_previousNaturalKey ro_seal_record ro_buildRecordOps ro_objectRow ro_activeSchemaID ro_headVersion ro_createOps
  ro_updateOps ro_statusOps ro_sealProposal ro_openProposal ro_closeProposal : ro.
