(* ===== verification/RecordsCorrect.v ===== *)
(** * Records are stored and read faithfully

    What the write set of a record puts in the store, and what reading
    the version back gives each reader: the payload to one who is cleared
    while the key lives, the clear fields to everyone else. *)

From S2P Require Import Prelude GoStrings Float64 Encoding Canon Json SqlText Sql Rbac JsonSchema Pack Model World Concrete Commit Replay Byok Records.
Local Open Scope Z_scope.

(** ** Payloads through the store *)

(** A value that decoding its own text gives back: what a payload decoded
    from a request holds, when its numbers are whole. *)
Definition stable (v : value) : Prop := exists n, normal v n /\ floatify n = Ok v.
Definition stable_fields (m : object) : Prop :=
  NoDup (m.*1) /\ Forall (fun kv => valid_utf8 kv.1 = true) m /\ Forall (fun kv => stable kv.2) m.

Lemma stable_str s : valid_utf8 s = true -> stable (VStr s).
Proof. intros H. exists (VStr s). split; [by apply normal_str|done]. Qed.

Lemma stable_members m : stable_fields m -> exists ns mf,
  normal (VObj m) (VObj ns) /\ floatify (VObj ns) = Ok (VObj mf) /\ mf ≡ₚ m.
Proof.
  intros (Hn & Hk & Hs). destruct (members_normal (fun v f => f = v) m Hn Hk) as (ns & mf & fs & N & D & P & F).
  { eapply Forall_impl; [exact Hs|]. intros kv (n & Hn' & Hf). eauto. }
  exists ns, mf. split_and!; [done..|]. rewrite P. clear -F.
  induction F as [|[k v] [k' f] l l' [? E] _ IH]; [done|]. cbn in *. subst. by constructor.
Qed.

(** The text of a payload decodes to its fields. *)
Lemma fields_text m : stable_fields m -> exists s m', Marshal (VObj m) = Ok s /\ decode_fields s = Ok m' /\ m' ≡ₚ m.
Proof.
  intros Hm. destruct (stable_members m Hm) as (ns & mf & N & D & P). destruct (Marshal_normal _ _ N) as (s & Hs & Ps).
  exists s, mf. split_and!; [done| |done]. unfold decode_fields, Unmarshal. cbn [mbind]. unfold mbind, res_bind.
  by rewrite Ps, D.
Qed.

Definition utf8_ciphertext (c : Ciphertext) : Prop :=
  valid_utf8 (ct_Algorithm c) = true /\ valid_utf8 (ct_Scope c) = true /\
  valid_utf8 (ct_Nonce c) = true /\ valid_utf8 (ct_Data c) = true.

Lemma ciphertext_normal c : utf8_ciphertext c -> exists m,
  normal (ciphertext_value c) (VObj m) /\ decode_ciphertext m = Ok c.
Proof.
  intros (H1 & H2 & H3 & H4).
  set (m := [("alg", VStr (ct_Algorithm c)); ("scope", VStr (ct_Scope c)); ("nonce", VStr (ct_Nonce c)); ("data", VStr (ct_Data c))]).
  assert (NoDup (m.*1)) as Hn by keys_nodup.
  exists (merge_sort key_le m). split.
  - apply normal_obj; [done|by repeat constructor|]. members; by apply normal_str.
  - unfold decode_ciphertext, get_str. rewrite !(read_sorted _ _ _ m) by done.
    by destruct c.
Qed.

(** A stored payload's text decodes to the same halves. *)
Lemma stored_text clear enc : stable_fields clear -> utf8_ciphertext enc -> exists s clear',
  Marshal (stored_value (mkStored clear (Some enc))) = Ok s /\
  decode_stored s = Ok (mkStored clear' (Some enc)) /\ clear' ≡ₚ clear.
Proof.
  intros Hc He. destruct (stable_members clear Hc) as (ns & mf & N & D & P).
  destruct (ciphertext_normal enc He) as (m & Nm & Dm).
  set (o := [("clear", VObj ns); ("enc", VObj m)]).
  assert (NoDup (o.*1)) as Hn by keys_nodup.
  assert (normal (stored_value (mkStored clear (Some enc))) (VObj (merge_sort key_le o))) as No.
  { apply normal_obj; [keys_nodup|by repeat constructor|]. members; done. }
  destruct (Marshal_normal _ _ No) as (s & Hs & Ps). exists s, mf. split_and!; [done| |done].
  unfold decode_stored, mbind, res_bind. rewrite Ps. cbn [as_obj]. unfold get_map, get_pointer.
  rewrite !(read_sorted _ _ _ o) by done. unfold read_one.
  change (obj_get "clear" o) with (Some (VObj ns)). change (obj_get "enc" o) with (Some (VObj m)). cbn [step_map step_pointer of_option default app id]. unfold floatify_obj. by rewrite D, Dm.
Qed.

(** ** The halves of a payload *)

Lemma clear_half_elem pii p k v : (k, v) ∈ clear_half pii p <-> (k ∉ pii) /\ (k, v) ∈ p.
Proof. unfold clear_half. rewrite list_elem_of_filter. cbn [fst]. by rewrite containsString_not_elem. Qed.

Lemma sealed_half_elem pii p k v : NoDup (p.*1) ->
  (k, v) ∈ sealed_half pii p <-> (k ∈ pii) /\ (k, v) ∈ p.
Proof.
  intros Hn. unfold sealed_half. rewrite list_elem_of_omap. split.
  - intros (f & Hf & E). destruct (obj_get f p) as [x|] eqn:Eg; [|done]. cbn in E. injection E as -> ->.
    split; [done|]. by apply obj_get_elem_iff.
  - intros [Hk Hv]. exists k. split; [done|]. apply obj_get_elem_iff in Hv; [|done]. by rewrite Hv.
Qed.

Lemma sealed_half_keys pii p : (sealed_half pii p).*1 `sublist_of` pii.
Proof.
  unfold sealed_half. induction pii as [|f pii IH]; [constructor|]. cbn.
  destruct (obj_get f p); cbn; [by constructor|by apply sublist_cons].
Qed.

Lemma clear_half_keys pii p : (clear_half pii p).*1 `sublist_of` p.*1.
Proof. unfold clear_half. apply fmap_sublist, sublist_filter. Qed.

(** Every field is in exactly one half. *)
Lemma halves pii p : NoDup pii -> NoDup (p.*1) ->
  NoDup ((clear_half pii p ++ sealed_half pii p).*1) /\ clear_half pii p ++ sealed_half pii p ≡ₚ p.
Proof.
  intros Hpii Hn.
  assert (NoDup ((clear_half pii p ++ sealed_half pii p).*1)) as Hboth.
  { rewrite fmap_app. apply NoDup_app. split_and!.
    - eapply sublist_NoDup; [exact Hn|apply clear_half_keys].
    - intros k Hk Hs. apply list_elem_of_fmap in Hk as ([k' v] & -> & Hk). apply clear_half_elem in Hk as [Hk _].
      apply Hk. cbn in Hs. eapply elem_of_sublist; [exact Hs|apply sealed_half_keys].
    - eapply sublist_NoDup; [exact Hpii|apply sealed_half_keys]. }
  split; [done|]. apply NoDup_Permutation; [by eapply NoDup_fmap_1|by eapply NoDup_fmap_1|].
  intros [k v]. rewrite elem_of_app, clear_half_elem, sealed_half_elem by done.
  destruct (decide (k ∈ pii)); tauto.
Qed.

Lemma stable_sub m m' : stable_fields m -> m' ⊆ m -> NoDup (m'.*1) -> stable_fields m'.
Proof.
  intros (_ & Hk & Hs) Hsub Hn. rewrite Forall_forall in Hk, Hs. split_and!; [done|..]; apply Forall_forall; auto.
Qed.

(** ** Writing *)
Section records.
Context `{Runtime} `{GoFormats}.
Variable r : Register.

Lemma still_checkReferences w d : still (checkReferences w d).
Proof. unfold checkReferences, check_reference. still_tac. Qed.
Lemma still_checkNaturalKey t c i n : still (checkNaturalKey t c i n).
Proof. unfold checkNaturalKey. still_tac. Qed.
Lemma still_previousNaturalKey i : still (previousNaturalKey i).
Proof. unfold previousNaturalKey. still_tac. Qed.

Definition pii_of (d : recordDraft) : list string := PIIFields (Compiled (d_class d)).
Definition scope_of (w : writeCtx) (d : recordDraft) : string := dekScope (wc_tenant w) (d_class d) (d_objectID d).
Definition subject_of (d : recordDraft) : string :=
  if String.eqb (c_Encryption (d_class d)) EncSubject then d_objectID d else "".

(** The three steps of sealing. *)
Lemma seal_record_Ok w d pii pt w0 k scope hash enc w1 :
  c_Encryption (d_class d) <> EncNone ->
  seal_record r w d pii pt w0 = (Ok (k, scope, hash, enc), w1) ->
  exists dek w2 text ct,
    ensureDEK r w (scope_of w d) (c_Encryption (d_class d)) (subject_of d) w0 = (Ok (dek, k), w2) /\
    Marshal (VObj (sealed_half pii (d_payload d))) = Ok text /\
    Encrypt dek scope (d_objectID d) (d_version d) text w2 = (Ok ct, w1) /\
    enc = Some ct /\ scope = scope_of w d /\ hash = KeyedHash dek pt.
Proof.
  intros He E. unfold seal_record in E. destruct (String.eqb_spec (c_Encryption (d_class d)) EncNone); [done|].
  m_inv. match goal with H : ensureDEK _ _ _ _ _ _ = (Ok ?key, _) |- _ => destruct key as [dek k'] end. cbn [fst snd] in *.
  do 4 eexists. split_and!; done.
Qed.

(** What [buildRecordOps] writes, and from what. *)
Lemma buildRecordOps_Ok w d w0 ops w1 :
  buildRecordOps r w d w0 = (Ok ops, w1) ->
  exists wb plaintext keyOps scope hash enc body naturals,
    JsonSchema.Validate (Compiled (d_class d)) (VObj (d_payload d)) = Ok tt /\
    checkReferences w d w0 = (Ok tt, w0) /\
    Marshal (VObj (d_payload d)) = Ok plaintext /\
    seal_record r w d (pii_of d) plaintext w0 = (Ok (keyOps, scope, hash, enc), wb) /\
    Marshal (stored_value (mkStored (clear_half (pii_of d) (d_payload d)) enc)) = Ok body /\
    ops = keyOps ++ [version_op w d hash body scope; object_op w d (naturalKeyOf d)] ++ naturals
      ++ [projectionOps (d_class d) (wc_tenant w) (d_objectID d) (d_status d) (wc_at w) (clear_half (pii_of d) (d_payload d))] /\
    (c_NaturalKey (d_class d) = "" /\ naturals = [] \/
     c_NaturalKey (d_class d) <> "" /\ exists previous,
       previousNaturalKey (d_objectID d) wb = (Ok previous, wb) /\ naturals = natural_key_ops w d previous (naturalKeyOf d)).
Proof.
  intros E. unfold buildRecordOps in E. m_inv. rewrite wrapping_Ok in *. m_inv.
  match goal with H : seal_record _ _ _ _ _ _ = (Ok ?s, _) |- _ => destruct s as [[[keyOps scope] hash] enc] end. m_inv.
  repeat match goal with H : _ = (Ok ?u, _) |- _ => is_var u; match type of u with unit => destruct u end end.
  repeat match goal with H : JsonSchema.Validate _ _ = Ok ?u |- _ => is_var u; destruct u end.
  match goal with H : checkReferences _ _ _ = (_, _) |- _ => pose proof (still_checkReferences _ _ _ _ _ H); subst end.
  match goal with H : checkNaturalKey _ _ _ _ _ = (_, _) |- _ => pose proof (still_checkNaturalKey _ _ _ _ _ _ _ H); subst end.
  do 8 eexists. split_and!; try done.
  match goal with H : (if String.eqb ?k "" then _ else _) _ = _ |- _ => destruct (String.eqb_spec k "") end; m_inv.
  - by left.
  - right. split; [done|]. match goal with H : previousNaturalKey _ _ = _ |- _ => pose proof (still_previousNaturalKey _ _ _ _ H); subst end.
    eexists. split; done.
Qed.

(** The row a version is kept in. *)
Definition holds_version (row : Row) (d : recordDraft) (body scope : string) : Prop :=
  cell row "object_id" = SStr (d_objectID d) /\ cell row "version" = SInt (d_version d) /\
  cell row "payload" = SStr body /\ cell row "enc_scope" = SStr scope /\ cell row "pruned" = SInt 0.

Lemma version_of_holds row d body scope : 0 <= d_version d -> holds_version row d body scope ->
  rv_ObjectID (version_of_row row) = d_objectID d /\ rv_Version (version_of_row row) = d_version d /\
  rv_EncScope (version_of_row row) = scope /\ rv_Pruned (version_of_row row) = false /\ Bytes row "payload" = body.
Proof.
  intros Hv (C1 & C2 & C3 & C4 & C5). unfold version_of_row, Str, Uint, Bool, Bytes.
  cbn [rv_ObjectID rv_Version rv_EncScope rv_Pruned]. rewrite C1, C2, C3, C4, C5.
  destruct (Z.ltb_spec (d_version d) 0); [lia|]. done.
Qed.

Lemma ciphertext_utf8 dek scope id v text w0 ct w1 :
  valid_utf8 scope = true -> Encrypt dek scope id v text w0 = (Ok ct, w1) -> utf8_ciphertext ct.
Proof.
  intros Hs E. unfold Encrypt in E. m_inv. split_and!; cbn; [done|done|..]; apply ascii_to_valid, base64_ascii.
Qed.
(** ** Reading *)

(** Reading a version whose stored text is [stored_value]'s, by cases on
    the reader and on the key. *)
Lemma read_sealed p w d row w2 dek text ct body clear' :
  0 <= d_version d -> holds_version row d body (scope_of w d) ->
  decode_stored body = Ok (mkStored clear' (Some ct)) ->
  (exists we we', Encrypt dek (scope_of w d) (d_objectID d) (d_version d) text we = (Ok ct, we')) ->
  if not_cleared p then
    readVersion r p (d_class d) row w2 = (Ok (with_payload (version_of_row row) clear' (pii_of d) false), w2)
  else match live_key (scope_of w d) w2 with
    | (Ok None, w3) =>
        readVersion r p (d_class d) row w2 = (Ok (with_payload (version_of_row row) clear' (pii_of d) true), w3)
    | (Ok (Some key), w3) =>
        forall w4 fields, UnwrapOperational (mat r) (scope_of w d) (Bytes key "op_wrap") w3 = (Ok dek, w4) ->
        decode_fields text = Ok fields ->
        readVersion r p (d_class d) row w2 =
          (Ok (with_payload (version_of_row row) (merge_payload clear' fields) [] false), w4)
    | (Err e, w3) => readVersion r p (d_class d) row w2 = (Err e, w3)
    end.
Proof.
  intros Hv Hrow Hd (we & we' & He). destruct (version_of_holds _ _ _ _ Hv Hrow) as (V1 & V2 & V3 & V4 & V5).
  destruct (Decrypt_Encrypt _ _ _ _ _ _ _ _ He) as [Hdec _].
  unfold readVersion. rewrite V4, V5. unfold mbind, M_bind, wrapping, lift. rewrite Hd. cbn [sp_Clear sp_Enc].
  destruct (not_cleared p); [done|]. rewrite V3.
  destruct (live_key (scope_of w d) w2) as [[[key|]|e] w3]; [|done|done].
  intros w4 fields Hu Hf. rewrite Hu, V1, V2, Hdec, Hf. done.
Qed.

(** Merging the opened fields into the clear ones gives the payload. *)
Lemma merge_halves pii payload clear' fields :
  NoDup pii -> NoDup (payload.*1) -> clear' ≡ₚ clear_half pii payload -> fields ≡ₚ sealed_half pii payload ->
  merge_payload clear' fields ≡ₚ payload.
Proof.
  intros Hp Hn P1 P2. destruct (halves pii payload Hp Hn) as [Hboth P]. unfold merge_payload.
  rewrite obj_override_app; [by rewrite P1, P2|]. by rewrite P1, P2.
Qed.
End records.

(** C4. Every reader of a record gets what they may have. When the write
    set of a record of an encrypted class is built, it contains a version
    row for some stored text; from any row holding that version, at any
    later moment, a reader not cleared for personal data gets exactly the
    clear fields, with the personal ones named as redacted; a cleared
    reader gets the same, marked as erased, once the key of the record's
    scope is gone; and while the key that sealed it can be unwrapped, a
    cleared reader gets exactly the payload that was written. *)
Theorem written_record_reads `{Runtime} `{GoFormats} (r : Register) (w : writeCtx) (d : recordDraft)
    (w0 w1 : world) (ops : list WriteOp) :
  buildRecordOps r w d w0 = (Ok ops, w1) -> c_Encryption (d_class d) <> EncNone ->
  stable_fields (d_payload d) -> NoDup (pii_of d) -> valid_utf8 (scope_of w d) = true -> 0 <= d_version d ->
  exists dek wk keyOps hash body,
    ensureDEK r w (scope_of w d) (c_Encryption (d_class d)) (subject_of d) w0 = (Ok (dek, keyOps), wk) /\
    version_op w d hash body (scope_of w d) ∈ ops /\
    forall row w2 p, holds_version row d body (scope_of w d) ->
      if not_cleared p then
        exists v, readVersion r p (d_class d) row w2 = (Ok v, w2) /\
          rv_Payload v ≡ₚ clear_half (pii_of d) (d_payload d) /\ rv_Redacted v = pii_of d /\ rv_Erased v = false
      else match live_key (scope_of w d) w2 with
        | (Ok None, w3) =>
            exists v, readVersion r p (d_class d) row w2 = (Ok v, w3) /\
              rv_Payload v ≡ₚ clear_half (pii_of d) (d_payload d) /\ rv_Redacted v = pii_of d /\ rv_Erased v = true
        | (Ok (Some key), w3) =>
            forall w4, UnwrapOperational (mat r) (scope_of w d) (Bytes key "op_wrap") w3 = (Ok dek, w4) ->
            exists v, readVersion r p (d_class d) row w2 = (Ok v, w4) /\
              rv_Payload v ≡ₚ d_payload d /\ rv_Redacted v = [] /\ rv_Erased v = false
        | (Err e, w3) => readVersion r p (d_class d) row w2 = (Err e, w3)
        end.
Proof.
  intros E He Hst Hpii Hsc Hv. apply buildRecordOps_Ok in E as (wb & pt & keyOps & sc & hash & enc & body & nat & _ & _ & _ & Es & Hb & -> & _).
  destruct (seal_record_Ok _ _ _ _ _ _ _ _ _ _ _ He Es) as (dek & wk & text & ct & Hk & Ht & Hct & -> & -> & ->).
  pose proof Hst as (Hn & _). destruct (halves (pii_of d) (d_payload d) Hpii Hn) as [Hboth Hperm].
  assert (stable_fields (clear_half (pii_of d) (d_payload d))) as Sc.
  { eapply stable_sub; [exact Hst| |]; [intros [k v]; rewrite clear_half_elem; tauto|].
    rewrite fmap_app in Hboth. by apply NoDup_app in Hboth as (? & _). }
  assert (stable_fields (sealed_half (pii_of d) (d_payload d))) as Ss.
  { eapply stable_sub; [exact Hst| |]; [intros [k v]; rewrite sealed_half_elem by done; tauto|].
    rewrite fmap_app in Hboth. by apply NoDup_app in Hboth as (_ & _ & ?). }
  destruct (stored_text _ ct Sc ltac:(by eapply ciphertext_utf8)) as (body' & clear' & Hb' & Hdec & Pc).
  assert (body' = body) as -> by congruence.
  destruct (fields_text _ Ss) as (text' & fields & Ht' & Hf & Pf). assert (text' = text) as -> by congruence.
  exists dek, wk, keyOps, (KeyedHash dek pt), body. split; [done|]. split.
  { rewrite !elem_of_app, !elem_of_cons. tauto. }
  intros row w2 p Hrow.
  pose proof (read_sealed r p w d row w2 dek text ct body clear' Hv Hrow Hdec ltac:(eauto)) as R.
  destruct (not_cleared p); [by eexists|]. destruct (live_key (scope_of w d) w2) as [[[key|]|e] w3]; [|by eexists|done].
  intros w4 Hu. specialize (R w4 fields Hu Hf). eexists. split; [exact R|]. split; [|done]. cbn.
  by apply (merge_halves (pii_of d)).
Qed.


(** A proposal without personal fields is stored in the clear. *)
Lemma stored_text_plain clear : stable_fields clear -> exists s clear',
  Marshal (stored_value (mkStored clear None)) = Ok s /\
  decode_stored s = Ok (mkStored clear' None) /\ clear' ≡ₚ clear.
Proof.
  intros Hc. destruct (stable_members clear Hc) as (ns & mf & N & D & P).
  set (o := [("clear", VObj ns)]). assert (NoDup (o.*1)) as Hn by keys_nodup.
  assert (normal (stored_value (mkStored clear None)) (VObj (merge_sort key_le o))) as No.
  { apply normal_obj; [keys_nodup|by repeat constructor|]. members; done. }
  destruct (Marshal_normal _ _ No) as (s & Hs & Ps). exists s, mf. split_and!; [done| |done].
  unfold decode_stored, mbind, res_bind. rewrite Ps. cbn [as_obj]. unfold get_map, get_pointer.
  rewrite !(read_sorted _ _ _ o) by done. unfold read_one.
  change (obj_get "clear" o) with (Some (VObj ns)). change (obj_get "enc" o) with (@None value). cbn [step_map step_pointer of_option default app id]. unfold floatify_obj. by rewrite D.
Qed.

(** The three steps of sealing a proposal that has personal fields. *)
Lemma sealProposal_sealed `{Runtime} `{GoFormats} r w pii id payload w0 body keyOps w1 :
  sealed_half pii payload <> [] -> sealProposal r w pii id payload w0 = (Ok (body, keyOps), w1) ->
  exists dek wk text ct we,
    ensureDEK r w (taskScope (wc_tenant w) id) "task" id w0 = (Ok (dek, keyOps), wk) /\
    Marshal (VObj (sealed_half pii payload)) = Ok text /\
    Encrypt dek (taskScope (wc_tenant w) id) id 0 text wk = (Ok ct, we) /\
    Marshal (stored_value (mkStored (clear_half pii payload) (Some ct))) = Ok body.
Proof.
  intros Hne E. unfold sealProposal in E. apply M_bind_Ok in E as ([enc ks] & wa & Es & E).
  apply M_bind_Ok in E as (b & wb & Eb & E). apply M_ret_inv in E as [[= -> ->] ->]. apply lift_Ok in Eb as [Hb ->].
  destruct (sealed_half pii payload) as [|x l] eqn:Hs; [done|]. rewrite <- Hs in *.
  apply M_bind_Ok in Es as ([dek kops] & wc & Ek & Es). apply M_bind_Ok in Es as (text & wd & Et & Es).
  apply lift_Ok in Et as [Ht ->].
  apply M_bind_Ok in Es as (ct & we & Ec & Es). apply M_ret_inv in Es as [[= -> ->] ->].
  by exists dek, wc, text, ct, we.
Qed.

(** Every reader of a proposal gets what they may have. A proposal
    without personal fields opens to its payload for everyone. One with
    personal fields opens, for a reader not cleared for personal data and
    for everyone once the proposal's key is gone, to the other fields and
    is marked as withheld; while the key that sealed it can be unwrapped it
    opens to the whole payload, for the cleared and for the register
    itself. *)
Lemma proposal_opens `{Runtime} `{GoFormats} (r : Register) (w : writeCtx) (pii : list string) (id : string)
    (payload : object) (w0 w1 : world) (body : string) (keyOps : list WriteOp) :
  sealProposal r w pii id payload w0 = (Ok (body, keyOps), w1) ->
  stable_fields payload -> NoDup pii -> valid_utf8 (taskScope (wc_tenant w) id) = true ->
  (sealed_half pii payload = [] -> forall p w2, exists fields,
     openProposal r p (wc_tenant w) id body w2 = (Ok (fields, false), w2) /\ fields ≡ₚ payload) /\
  (sealed_half pii payload <> [] -> exists dek wk,
     ensureDEK r w (taskScope (wc_tenant w) id) "task" id w0 = (Ok (dek, keyOps), wk) /\
     forall p w2,
       if not_cleared p then
         exists fields, openProposal r p (wc_tenant w) id body w2 = (Ok (fields, true), w2) /\ fields ≡ₚ clear_half pii payload
       else match live_key (taskScope (wc_tenant w) id) w2 with
         | (Ok None, w3) =>
             exists fields, openProposal r p (wc_tenant w) id body w2 = (Ok (fields, true), w3) /\ fields ≡ₚ clear_half pii payload
         | (Ok (Some key), w3) =>
             forall w4, UnwrapOperational (mat r) (taskScope (wc_tenant w) id) (Bytes key "op_wrap") w3 = (Ok dek, w4) ->
             exists fields, openProposal r p (wc_tenant w) id body w2 = (Ok (fields, false), w4) /\ fields ≡ₚ payload
         | (Err e, w3) => openProposal r p (wc_tenant w) id body w2 = (Err e, w3)
         end).
Proof.
  intros E Hst Hpii Hsc. pose proof Hst as (Hn & _). destruct (halves pii payload Hpii Hn) as [Hboth Hperm].
  assert (stable_fields (clear_half pii payload)) as Sc.
  { eapply stable_sub; [exact Hst| |]; [intros [k v]; rewrite clear_half_elem; tauto|].
    rewrite fmap_app in Hboth. by apply NoDup_app in Hboth as (? & _). }
  assert (stable_fields (sealed_half pii payload)) as Ss.
  { eapply stable_sub; [exact Hst| |]; [intros [k v]; rewrite sealed_half_elem by done; tauto|].
    rewrite fmap_app in Hboth. by apply NoDup_app in Hboth as (_ & _ & ?). }
  split.
  - intros He p w2. destruct (stored_text_plain _ Sc) as (s & clear' & Hs & Hd & Pc).
    unfold sealProposal in E. rewrite He in E. apply M_bind_Ok in E as (sealed & wa & Es & E).
    apply M_ret_inv in Es as [[= ->] ->]. apply M_bind_Ok in E as (b & wb & Eb & E).
    apply M_ret_inv in E as [[= -> ->] ->]. apply lift_Ok in Eb as [Hb ->].
    cbn [fst] in Hb. assert (s = b) as -> by congruence. exists clear'. unfold openProposal. rewrite Hd. cbn [sp_Clear sp_Enc].
    split; [done|]. rewrite He, app_nil_r in Hperm. by rewrite Pc.
  - intros Hne. destruct (sealProposal_sealed _ _ _ _ _ _ _ _ _ Hne E) as (dek & wk & text & ct & we & Hk & Ht & Hct & Hb).
    destruct (stored_text _ ct Sc ltac:(by eapply ciphertext_utf8)) as (body' & clear' & Hb' & Hdec & Pc).
    assert (body' = body) as -> by congruence.
    destruct (fields_text _ Ss) as (text' & fields & Ht' & Hf & Pf). assert (text' = text) as -> by congruence.
    destruct (Decrypt_Encrypt _ _ _ _ _ _ _ _ Hct) as [Hopen _].
    exists dek, wk. split; [done|]. intros p w2. unfold openProposal. rewrite Hdec. cbn [sp_Clear sp_Enc].
    destruct (not_cleared p); [by exists clear'|]. unfold mbind, M_bind.
    destruct (live_key (taskScope (wc_tenant w) id) w2) as [[[key|]|e] w3]; [|by exists clear'|done].
    intros w4 Hu. exists (merge_payload clear' fields). unfold wrapping, lift. rewrite Hu, Hopen, Hf. split; [done|].
    by apply (merge_halves pii).
Qed.

(** ** Personal data stays sealed *)
Section confinement.
Context `{Runtime} `{GoFormats}.
Variable r : Register.

(** Two drafts that differ at most in their personal fields. *)
Definition same_but_pii (d1 d2 : recordDraft) : Prop :=
  d_class d1 = d_class d2 /\ d_objectID d1 = d_objectID d2 /\ d_version d1 = d_version d2 /\
  d_status d1 = d_status d2 /\ d_schemaID d1 = d_schemaID d2 /\
  clear_half (pii_of d1) (d_payload d1) = clear_half (pii_of d2) (d_payload d2).

Lemma clear_half_nil p : clear_half [] p = p.
Proof.
  unfold clear_half. induction p as [|kv p IH]; [done|]. rewrite filter_cons_True by done. by rewrite IH.
Qed.

Lemma obj_get_clear pii k p : k ∉ pii -> obj_get k (clear_half pii p) = obj_get k p.
Proof.
  intros Hk. unfold clear_half. induction p as [|[k' v] p IH]; [done|]. rewrite filter_cons. cbn [obj_get fst].
  destruct (String.eqb_spec k k') as [->|Hne].
  - rewrite decide_True by (by apply containsString_not_elem). cbn. by rewrite String.eqb_refl.
  - destruct (decide _); [|done]. cbn. destruct (String.eqb_spec k k'); [done|]. done.
Qed.

Lemma Encrypt_world dek scope id v text w ct w' :
  Encrypt dek scope id v text w = (Ok ct, w') -> w' = set_rnd (S (rnd w)) w.
Proof. unfold Encrypt, sealAEAD. intros E. m_inv. match goal with H : random _ _ = _ |- _ => by injection H as _ <- end. Qed.
Lemma natural_not_pii c : class_sound c -> NoDup ((s_Properties (Compiled c)).*1) ->
  c_NaturalKey c = "" \/ c_NaturalKey c ∉ PIIFields (Compiled c).
Proof.
  intros [_ _ _ [->|(p & Hp & Hpii)] _] Hn; [by left|right]. unfold PIIFields. rewrite elem_of_sort_strings.
  intros Hin. apply list_elem_of_fmap in Hin as ([k q] & E & Hin). cbn in E. subst.
  apply list_elem_of_filter in Hin as [Hq Hin]. cbn in Hq.
  enough (p = q) by congruence. clear Hpii Hq. revert Hp Hn Hin. generalize (s_Properties (Compiled c)) as l.
  induction l as [|[k' p'] l IH]; [done|]. cbn [prop]. intros Hp Hn Hin. apply NoDup_cons in Hn as [Hk Hn].
  destruct (String.eqb_spec (c_NaturalKey c) k') as [<-|Hne].
  - injection Hp as ->. apply elem_of_cons in Hin as [[= ->]|Hin]; [done|]. exfalso. apply Hk.
    apply (list_elem_of_fmap_2 fst) in Hin. exact Hin.
  - apply IH; [done|done|]. apply elem_of_cons in Hin as [E|Hin]; [congruence|exact Hin].
Qed.

Lemma same_natural_key d1 d2 : class_sound (d_class d1) -> NoDup ((s_Properties (Compiled (d_class d1))).*1) ->
  same_but_pii d1 d2 -> naturalKeyOf d1 = naturalKeyOf d2.
Proof.
  intros Hc Hn (E1 & E2 & _ & _ & _ & Ec). unfold pii_of in Ec. rewrite <- E1 in Ec. unfold naturalKeyOf. rewrite <- E1, <- E2.
  destruct (natural_not_pii _ Hc Hn) as [->|Hk]; [done|].
  by rewrite <- (obj_get_clear _ _ (d_payload d1) Hk), Ec, obj_get_clear.
Qed.

Lemma seal_record_None w d pii pt w0 : c_Encryption (d_class d) = EncNone ->
  seal_record r w d pii pt w0 = (Ok ([], "", PlainHash pt, None), w0).
Proof. intros E. unfold seal_record. by rewrite E. Qed.
End confinement.

(** C5. Personal data reaches the store only sealed. For a class the pack
    accepted, two payloads that agree on the clear fields, written from
    the same state, give write sets that agree on every row and column
    but two cells of the version row: its stored text, which differs only
    in the ciphertext, and its commitment, which is keyed by the key that
    seals the record. The object, its natural key, the key row and the
    query projection are the same whatever the personal fields hold. *)
Theorem personal_data_confined `{Runtime} `{GoFormats} (r : Register) (w : writeCtx) (d1 d2 : recordDraft)
    (w0 w1 w2 : world) (ops1 ops2 : list WriteOp) :
  class_sound (d_class d1) -> NoDup ((s_Properties (Compiled (d_class d1))).*1) -> same_but_pii d1 d2 ->
  buildRecordOps r w d1 w0 = (Ok ops1, w1) -> buildRecordOps r w d2 w0 = (Ok ops2, w2) ->
  exists before after scope clear hash1 hash2 enc1 enc2 body1 body2,
    ops1 = before ++ version_op w d1 hash1 body1 scope :: after /\
    ops2 = before ++ version_op w d1 hash2 body2 scope :: after /\
    Marshal (stored_value (mkStored clear enc1)) = Ok body1 /\
    Marshal (stored_value (mkStored clear enc2)) = Ok body2 /\
    (d_payload d1 = d_payload d2 \/ exists dek p1 p2, hash1 = KeyedHash dek p1 /\ hash2 = KeyedHash dek p2).
Proof.
  intros Hc Hn S B1 B2. pose proof (same_natural_key d1 d2 Hc Hn S) as Hnat. pose proof S as (E1 & E2 & E3 & E4 & E5 & Ec).
  apply buildRecordOps_Ok in B1 as (wb1 & pt1 & k1 & sc1 & h1 & enc1 & body1 & nat1 & _ & _ & _ & S1 & M1 & -> & N1).
  apply buildRecordOps_Ok in B2 as (wb2 & pt2 & k2 & sc2 & h2 & enc2 & body2 & nat2 & _ & _ & _ & S2 & M2 & -> & N2).
  assert (k1 = k2 /\ sc1 = sc2 /\ wb1 = wb2 /\
    (d_payload d1 = d_payload d2 \/ exists dek p1 p2, h1 = KeyedHash dek p1 /\ h2 = KeyedHash dek p2)) as (<- & <- & <- & Hh).
  { destruct (String.eqb_spec (c_Encryption (d_class d1)) EncNone) as [He|He].
    - rewrite seal_record_None in S1, S2 by congruence. injection S1 as <- <- _ _ <-. injection S2 as <- <- _ _ <-.
      split_and!; [done..|]. left. unfold pii_of in Ec. apply (cs_encrypted _ Hc) in He. by rewrite <- E1, He, !clear_half_nil in Ec.
    - apply seal_record_Ok in S1 as (dek & we & t1 & c1 & K1 & _ & Enc1 & _ & -> & ->); [|done].
      apply seal_record_Ok in S2 as (dek2 & we2 & t2 & c2 & K2 & _ & Enc2 & _ & -> & ->); [|congruence].
      unfold scope_of, subject_of in *. rewrite <- E1, <- E2 in *. rewrite K1 in K2. injection K2 as <- <- <-.
      apply Encrypt_world in Enc1 as ->, Enc2 as ->. split_and!; [done..|]. right. by exists dek, pt1, pt2. }
  assert (nat1 = nat2) as <-.
  { destruct N1 as [[Hk ->]|(Hk & pr1 & P1 & ->)], N2 as [[Hk2 ->]|(Hk2 & pr2 & P2 & ->)]; [done|congruence..|].
    rewrite <- E2, P1 in P2. injection P2 as <-. unfold natural_key_ops. by rewrite Hnat, E1, E2. }
  exists k1, (object_op w d1 (naturalKeyOf d1) :: nat1 ++ [projectionOps (d_class d1) (wc_tenant w) (d_objectID d1) (d_status d1) (wc_at w)
    (clear_half (pii_of d1) (d_payload d1))]), sc1, (clear_half (pii_of d1) (d_payload d1)), h1, h2, enc1, enc2, body1, body2.
  split_and!; [done| |done|by rewrite Ec|done].
  unfold version_op, object_op. rewrite Hnat, Ec, E1, E2, E3, E4, E5. done.
Qed.

(** ** The write set of a record is well formed *)
Section wellformed.
Context `{Runtime} `{GoFormats}.
Variable r : Register.

Lemma substitute_str_kind txid s n : kind_ok (CText n) (lit (substitute txid (VStr s))).
Proof. cbn. by destruct (String.eqb s TxIDPlaceholder). Qed.

Lemma not_elem_cons_bool (x : string) l : containsString l x = false -> x ∉ l.
Proof. apply containsString_not_elem. Qed.

(** A key column that holds a value of its kind. *)
Definition key_col (op : WriteOp) (c : string) : Prop :=
  exists v ty, obj_get c (Key op) = Some v /\ column_type (Table op) c = Some ty /\ forall txid, kind_ok ty (lit (substitute txid v)).

Lemma key_text op c s n : obj_get c (Key op) = Some (VStr s) -> column_type (Table op) c = Some (CText n) -> key_col op c.
Proof. intros Hg Ht. exists (VStr s), (CText n). split_and!; [done..|]. intros txid. apply substitute_str_kind. Qed.
Lemma key_int op c z b sg : obj_get c (Key op) = Some (VInt z) -> column_type (Table op) c = Some (CInt b sg) -> key_col op c.
Proof. intros Hg Ht. by exists (VInt z), (CInt b sg). Qed.

(** An upsert or a deletion whose key columns are there and whose values
    are other columns, each named once. *)
Lemma built_op_wf txid (op : WriteOp) :
  (exists cols, keyColumnsFor (Table op) = Some cols) -> Forall (key_col op) (primary_key (Table op)) ->
  NoDup ((Values op ++ Key op).*1) ->
  forallb (fun c => negb (containsString (primary_key (Table op)) c)) (Values op).*1 = true ->
  op_wf txid op.
Proof.
  intros [cols Hc] Hk Hn Hv. split; [by rewrite Hc|]. split; [|split; [done|]].
  - unfold key_ok. apply Forall2_fmap_r. apply Forall_Forall2_diag.
    eapply Forall_impl; [exact Hk|]. intros c (v & ty & Hg & Ht & Hkind). exists ty. split; [done|].
    unfold key_value. rewrite Hg. apply Hkind.
  - intros c Hin. rewrite forallb_forall in Hv. apply list_elem_of_In in Hin. specialize (Hv _ Hin).
    apply negb_true_iff in Hv. by apply containsString_not_elem.
Qed.

End wellformed.

Ltac key_cols := repeat (apply Forall_cons_2; [first [eapply key_text; reflexivity | eapply key_int; reflexivity]|]); apply Forall_nil_2.
Ltac built := apply built_op_wf; [by eexists|key_cols|keys_nodup|reflexivity].

Section record_ops.
Context `{Runtime} `{GoFormats}.
Variable r : Register.

Lemma dek_op_wf txid scope tenant kind subject a b k at_ : op_wf txid (dek_op scope tenant kind subject a b k at_).
Proof. built. Qed.

Lemma ensureDEK_wf txid w scope kind subject w0 dek ops w1 :
  ensureDEK r w scope kind subject w0 = (Ok (dek, ops), w1) -> Forall (op_wf txid) ops.
Proof.
  unfold ensureDEK. intros E. m_inv. match goal with H : (match ?o with _ => _ end) _ = _ |- _ => destruct o end; m_inv; [constructor|].
  constructor; [apply dek_op_wf|constructor].
Qed.

(** Sealing writes to the keys' table only. *)
Lemma seal_tables w d pii pt w0 k scope hash enc w1 op :
  seal_record r w d pii pt w0 = (Ok (k, scope, hash, enc), w1) -> op ∈ k -> Table op = "dek_keys".
Proof.
  intros E Hop. destruct (String.eqb_spec (c_Encryption (d_class d)) EncNone) as [He|He].
  - rewrite seal_record_None in E by done. injection E as <- _ _ _ _. by apply elem_of_nil in Hop.
  - apply seal_record_Ok in E as (dek & w2 & _ & _ & E & _); [|done].
    unfold ensureDEK in E. m_inv. match goal with H : (match ?o with _ => _ end) _ = _ |- _ => destruct o end; m_inv.
    + by apply elem_of_nil in Hop.
    + by apply list_elem_of_singleton in Hop as ->.
Qed.

Lemma seal_record_wf txid w d pii pt w0 k scope hash enc w1 :
  seal_record r w d pii pt w0 = (Ok (k, scope, hash, enc), w1) -> Forall (op_wf txid) k.
Proof.
  intros E. destruct (String.eqb_spec (c_Encryption (d_class d)) EncNone) as [He|He].
  - rewrite seal_record_None in E by done. injection E as <- _ _ _ _. constructor.
  - apply seal_record_Ok in E as (dek & w2 & _ & _ & E & _); [|done]. by eapply ensureDEK_wf.
Qed.
Lemma version_op_wf txid w d hash body scope : op_wf txid (version_op w d hash body scope).
Proof. built. Qed.
Lemma object_op_wf txid w d nk : op_wf txid (object_op w d nk).
Proof. unfold object_op. destruct (1 <? d_version d); built. Qed.
Lemma natural_key_ops_wf txid w d previous nk : Forall (op_wf txid) (natural_key_ops w d previous nk).
Proof.
  unfold natural_key_ops. destruct (_ && _); repeat (apply Forall_cons_2; [built|]); apply Forall_nil_2.
Qed.

Lemma obj_set_keys k v m : NoDup (m.*1) -> NoDup ((obj_set k v m).*1) /\ forall x, x ∈ (obj_set k v m).*1 <-> x = k \/ x ∈ m.*1.
Proof.
  induction m as [|[k' v'] m IH]; intros Hn; cbn.
  - split; [apply NoDup_singleton|]. intros x. rewrite list_elem_of_singleton, elem_of_nil. tauto.
  - apply NoDup_cons in Hn as [Hk Hn]. destruct (IH Hn) as [IH1 IH2]. destruct (String.eqb_spec k k') as [->|Hne]; cbn.
    + split; [by constructor|]. intros x. rewrite !elem_of_cons. tauto.
    + split.
      * constructor; [|done]. rewrite IH2. intros [->|?]; done.
      * intros x. rewrite !elem_of_cons, IH2. tauto.
Qed.

Lemma projected_keys clear (l : list Projection) : forall acc, NoDup (acc.*1) ->
  NoDup ((fold_left (fun acc p => obj_set (pj_Column p) (project_one clear p) acc) l acc).*1) /\
  forall x, x ∈ (fold_left (fun acc p => obj_set (pj_Column p) (project_one clear p) acc) l acc).*1 ->
    x ∈ acc.*1 \/ exists p, p ∈ l /\ x = pj_Column p.
Proof.
  induction l as [|p l IH]; intros acc Hn; cbn; [by split; [|left]|].
  destruct (obj_set_keys (pj_Column p) (project_one clear p) acc Hn) as [Hn' Hk].
  destruct (IH _ Hn') as [H1 H2]. split; [done|]. intros x Hx. apply H2 in Hx as [Hx|(q & Hq & ->)].
  - apply Hk in Hx as [->|Hx]; [right; exists p; split; [apply list_elem_of_here|done]|by left].
  - right. exists q. split; [by apply list_elem_of_further|done].
Qed.

Lemma query_table_not_base c : forall x, assoc (QueryTable c) pkColumns = Some x -> False.
Proof.
  intros x E. apply assoc_elem in E. unfold pkColumns, QueryTable in E.
  repeat (apply elem_of_cons in E as [[=]|E]). by apply elem_of_nil in E.
Qed.

Lemma query_table_keys c : keyColumnsFor (QueryTable c) = Some ["object_id"].
Proof.
  unfold keyColumnsFor. destruct (assoc (QueryTable c) pkColumns) eqn:E; [by apply query_table_not_base in E|]. done.
Qed.

Lemma query_table_column c : column_type (QueryTable c) "object_id" = Some (CText 96).
Proof.
  unfold column_type, ddl_of. destruct (assoc (QueryTable c) baseTables) eqn:E; [|done].
  apply assoc_elem in E. exfalso. unfold QueryTable, baseTables in E.
  repeat (apply elem_of_cons in E as [E|E]; [discriminate E|]). by apply elem_of_nil in E.
Qed.

Lemma projectionOps_wf txid class tenant id status at_ clear : class_sound class ->
  op_wf txid (projectionOps class tenant id status at_ clear).
Proof.
  intros Hc. set (base := [("tenant", VStr tenant); ("status", VStr status); ("updated_at", VInt at_)]).
  destruct (projected_keys clear (Projections (Compiled class)) base) as [Hn Hk]; [keys_nodup|].
  assert (primary_key (QueryTable class) = ["object_id"]) as Hpk.
  { symmetry. apply keyColumnsFor_primary_key, query_table_keys. }
  assert ("object_id" ∉ (fold_left (fun acc p => obj_set (pj_Column p) (project_one clear p) acc) (Projections (Compiled class)) base).*1) as Hid.
  { intros Hin. apply Hk in Hin as [Hin|(p & Hp & E)].
    - revert Hin. apply containsString_not_elem. reflexivity.
    - destruct (cs_columns _ Hc p Hp) as [Hr _]. apply Hr. rewrite <- E. apply list_elem_of_here. }
  apply built_op_wf; cbn [projectionOps upsert Table Key Values].
  - eexists. apply query_table_keys.
  - rewrite Hpk. constructor; [|constructor]. eapply key_text; [reflexivity|apply query_table_column].
  - rewrite fmap_app. apply NoDup_app. split_and!; [exact Hn| |keys_nodup].
    intros x Hx Hx2. apply list_elem_of_singleton in Hx2 as ->. by apply Hid.
  - rewrite Hpk. apply forallb_forall. intros x Hx. apply list_elem_of_In in Hx. apply negb_true_iff.
    apply containsString_not_elem. rewrite list_elem_of_singleton. intros ->. by apply Hid.
Qed.

Lemma buildRecordOps_wf w d w0 ops w1 :
  class_sound (d_class d) -> buildRecordOps r w d w0 = (Ok ops, w1) -> ops_wf ops.
Proof.
  intros Hc E txid. apply buildRecordOps_Ok in E as (wb & pt & k & sc & h & enc & body & nat & _ & _ & _ & S & _ & -> & N).
  repeat (apply Forall_app; split).
  - by eapply seal_record_wf.
  - apply Forall_cons_2; [apply version_op_wf|]. apply Forall_cons_2; [apply object_op_wf|]. apply Forall_nil_2.
  - destruct N as [[_ ->]|(_ & pr & _ & ->)]; [constructor|apply natural_key_ops_wf].
  - constructor; [by apply projectionOps_wf|constructor].
Qed.
End record_ops.

(** ** What an update may change *)
Section updates.
Context `{Runtime} `{GoFormats}.
Variable r : Register.

(** The head row of an object, as an update finds it. *)
Lemma objectRow_Ok tenant id w row w' :
  wf_db (visible w) -> objectRow tenant id w = (Ok row, w') ->
  w' = w /\ exists m, visible w !! "objects" = Some m /\ row ∈ rows m /\
    matches [is_ "id" (VStr id); is_ "tenant" (VStr tenant)] row = true.
Proof.
  intros W E. unfold objectRow in E. m_inv.
  match goal with H : select_one _ _ _ = _ |- _ => apply select_one_Ok in H as (-> & m & Hm & ->) end.
  match goal with H : of_option _ _ = Ok _ |- _ => apply of_option_Ok in H; rename H into Hrow end.
  split; [done|]. exists m. split; [done|].
  assert (row ∈ select_rows [is_ "id" (VStr id); is_ "tenant" (VStr tenant)] None None m) as Hin.
  { destruct (select_rows _ _ _ m) as [|x l]; [done|]. injection Hrow as ->. apply list_elem_of_here. }
  unfold select_rows in Hin. apply list_elem_of_filter in Hin as [Hmatch Hin]. by rewrite sql_scan_perm in Hin.
Qed.

Lemma guard_true c e w u w' : guard_ c e w = (Ok u, w') -> c = false.
Proof. intros H1. by apply guard_Ok in H1 as [? _]. Qed.
End updates.

(** What an update does, and what it refuses. An update succeeds only
    for an object of the tenant that is of the class, has not been erased,
    is given a status the class declares and a payload its schema accepts;
    it then writes, at the version after the head's, a new row of the
    version history and the object's head, and never rewrites an earlier
    version. The entries are ones a commit can apply, so the update lands
    whole or not at all. *)
Lemma update_writes_next_version `{Runtime} `{GoFormats} (r : Register) (w : writeCtx) (class : Class_)
    (id status : string) (payload : object) (w0 w1 : world) (ops : list WriteOp) :
  wf_db (visible w0) -> class_sound class -> updateOps r w class id payload status w0 = (Ok ops, w1) ->
  exists m row d hash body scope,
    visible w0 !! "objects" = Some m /\ row ∈ rows m /\
    matches [is_ "id" (VStr id); is_ "tenant" (VStr (wc_tenant w))] row = true /\
    Str row "class" = c_Name class /\ Bool row "erased" = false /\
    d_class d = class /\ d_objectID d = id /\ d_payload d = payload /\
    d_version d = to_uint64 (Uint row "head_version" + 1) /\
    d_status d = (if String.eqb status "" then Str row "status" else status) /\ d_status d ∈ c_Statuses class /\
    JsonSchema.Validate (Compiled class) (VObj payload) = Ok tt /\
    version_op w d hash body scope ∈ ops /\ object_op w d (naturalKeyOf d) ∈ ops /\
    (forall op, op ∈ ops -> Table op = "record_versions" -> op = version_op w d hash body scope) /\
    ops_wf ops /\ same_db w0 w1.
Proof.
  intros W Hc E. pose proof (ro_updateOps r w class id payload status _ _ _ E) as Hsame.
  unfold updateOps in E. apply M_bind_Ok in E as (row & wa & E1 & E).
  apply objectRow_Ok in E1 as (-> & m & Hm & Hin & Hmatch); [|done]. m_inv. bool_hyps.
  match goal with H : check_status _ _ = Ok ?u |- _ => unfold check_status in H; apply refuse_if_Ok in H end. bool_hyps.
  match goal with H : buildRecordOps _ _ ?x _ = _ |- _ => set (d := x) in *; rename H into B end.
  pose proof (buildRecordOps_wf r w d _ _ _ Hc B) as Hwf.
  apply buildRecordOps_Ok in B as (wb & pt & k & sc & h & enc & body & nat & Hval & _ & _ & S & _ & -> & N).
  exists m, row, d, h, body, sc. split_and!; try done.
  - by apply containsString_elem.
  - rewrite !elem_of_app, !elem_of_cons. tauto.
  - rewrite !elem_of_app, !elem_of_cons. tauto.
  - intros op Hop Ht. rewrite !elem_of_app, !elem_of_cons, !elem_of_nil in Hop.
    destruct Hop as [Hop|[[->|[->|[]]]|[Hop|[->|[]]]]]; [|done|done| |done].
    + pose proof (seal_tables r _ _ _ _ _ _ _ _ _ _ _ S Hop). congruence.
    + destruct N as [[_ ->]|(_ & pr & _ & ->)]; [by apply elem_of_nil in Hop|].
      unfold natural_key_ops in Hop. destruct (_ && _); rewrite ?elem_of_app, ?elem_of_cons, ?elem_of_nil in Hop; naive_solver.
Qed.

(** ** Instances *)
Section demo.
#[local] Existing Instance plain_runtime.
#[local] Existing Instance plain_formats.

(** The class of the small pack, validated, and a register holding one
    object of it. *)
Definition demo_person : Class_ := match validate_class [] demo_class with Ok c => c | Err _ => demo_class end.

Lemma demo_person_sound : class_sound demo_person.
Proof.
  destruct (validate_class [] demo_class) as [c|e] eqn:E; [|vm_compute in E; discriminate E].
  unfold demo_person. rewrite E. by apply validate_class_sound in E as [? _].
Qed.

Definition demo_register : Register :=
  mkRegister demo_pack (mkOptions "r" "t" "" "") (mkMaterial "master" "signer" "key").
Definition demo_ctx : writeCtx := newWriteCtx "t" 1700000000.
Definition demo_payload (email : string) : object :=
  [("code", VStr "c1"); ("email", VStr email); ("name", VStr "Ann")].
Definition demo_draft (email : string) : recordDraft :=
  mkDraft demo_person "person-1" 1 "active" (demo_payload email) "person/v1".

Lemma demo_stable email : valid_utf8 email = true -> stable_fields (demo_payload email).
Proof.
  intros He. split; [keys_nodup|]. split; [by repeat constructor|].
  repeat (apply Forall_cons_2; [apply stable_str; done|]). apply Forall_nil_2.
Qed.

(** Two new records sharing a scope, in one write set: the key is looked
    for in the store only, so each gets a key of its own under the same
    row, and the second entry replaces the first. *)
Lemma second_key_replaces : exists dek1 ops1 w1 dek2 ops2 w2,
  ensureDEK demo_register demo_ctx "t/class/person" EncClass "" fresh_world = (Ok (dek1, ops1), w1) /\
  ensureDEK demo_register demo_ctx "t/class/person" EncClass "" w1 = (Ok (dek2, ops2), w2) /\
  Key <$> ops1 = Key <$> ops2 /\ ops1 <> [] /\ dek1 <> dek2.
Proof. do 6 eexists. split_and!; [vm_compute; reflexivity..|discriminate|discriminate]. Qed.

Lemma written_record_reads_witness : exists ops w1 hash body,
  buildRecordOps demo_register demo_ctx (demo_draft "a@b") fresh_world = (Ok ops, w1) /\
  version_op demo_ctx (demo_draft "a@b") hash body (scope_of demo_ctx (demo_draft "a@b")) ∈ ops /\
  forall row w2 p, holds_version row (demo_draft "a@b") body (scope_of demo_ctx (demo_draft "a@b")) ->
    not_cleared p = true ->
    exists v, readVersion demo_register p demo_person row w2 = (Ok v, w2) /\ rv_Redacted v = ["email"].
Proof.
  destruct (buildRecordOps demo_register demo_ctx (demo_draft "a@b") fresh_world) as [res w1] eqn:E.
  assert (is_ok (fst (buildRecordOps demo_register demo_ctx (demo_draft "a@b") fresh_world)) = true) as Hok by (vm_compute; reflexivity).
  rewrite E in Hok. destruct res as [ops|e]; [|discriminate Hok].
  assert (c_Encryption (d_class (demo_draft "a@b")) <> EncNone) as Henc by (vm_compute; discriminate).
  assert (NoDup (pii_of (demo_draft "a@b"))) as Hpii by keys_nodup.
  assert (valid_utf8 (scope_of demo_ctx (demo_draft "a@b")) = true) as Hscope by (vm_compute; reflexivity).
  destruct (@written_record_reads plain_runtime plain_formats demo_register demo_ctx (demo_draft "a@b") fresh_world w1 ops
    E Henc (demo_stable "a@b" eq_refl) Hpii Hscope ltac:(vm_compute; discriminate)) as (dek & wk & keyOps & hash & body & _ & Hin & Hr).
  exists ops, w1, hash, body. split; [reflexivity|]. split; [exact Hin|].
  intros row w2 p Hrow Hp. specialize (Hr row w2 p Hrow). rewrite Hp in Hr. destruct Hr as (v & Hv & _ & Hred & _). exists v. split; [exact Hv|].
  rewrite Hred. vm_compute. reflexivity.
Defined.

Lemma proposal_opens_witness : exists body keyOps w1 dek wk,
  sealProposal demo_register demo_ctx ["email"] "task-1" (demo_payload "a@b") fresh_world = (Ok (body, keyOps), w1) /\
  ensureDEK demo_register demo_ctx (taskScope "t" "task-1") "task" "task-1" fresh_world = (Ok (dek, keyOps), wk) /\
  forall p w2, not_cleared p = true -> exists fields,
    openProposal demo_register p "t" "task-1" body w2 = (Ok (fields, true), w2) /\
    fields ≡ₚ clear_half ["email"] (demo_payload "a@b").
Proof.
  destruct (sealProposal demo_register demo_ctx ["email"] "task-1" (demo_payload "a@b") fresh_world) as [res w1] eqn:E.
  assert (is_ok (fst (sealProposal demo_register demo_ctx ["email"] "task-1" (demo_payload "a@b") fresh_world)) = true) as Hok by (vm_compute; reflexivity).
  rewrite E in Hok. destruct res as [[body keyOps]|e]; [|discriminate Hok].
  destruct (@proposal_opens plain_runtime plain_formats demo_register demo_ctx ["email"] "task-1" (demo_payload "a@b") fresh_world w1 body keyOps
    E (demo_stable "a@b" eq_refl) (NoDup_singleton _) eq_refl) as [_ D].
  destruct D as (dek & wk & Hk & Hopen); [discriminate|].
  exists body, keyOps, w1, dek, wk. split; [reflexivity|]. split; [exact Hk|].
  intros p w2 Hp. specialize (Hopen p w2). rewrite Hp in Hopen. exact Hopen.
Defined.

Lemma personal_data_confined_witness : exists ops1 ops2 w1 w2 before after scope hash1 hash2 body1 body2,
  buildRecordOps demo_register demo_ctx (demo_draft "a@b") fresh_world = (Ok ops1, w1) /\
  buildRecordOps demo_register demo_ctx (demo_draft "other@c") fresh_world = (Ok ops2, w2) /\
  ops1 = before ++ version_op demo_ctx (demo_draft "a@b") hash1 body1 scope :: after /\
  ops2 = before ++ version_op demo_ctx (demo_draft "a@b") hash2 body2 scope :: after.
Proof.
  destruct (buildRecordOps demo_register demo_ctx (demo_draft "a@b") fresh_world) as [res1 w1] eqn:E1.
  destruct (buildRecordOps demo_register demo_ctx (demo_draft "other@c") fresh_world) as [res2 w2] eqn:E2.
  assert (is_ok (fst (buildRecordOps demo_register demo_ctx (demo_draft "a@b") fresh_world)) = true) as H1 by (vm_compute; reflexivity).
  assert (is_ok (fst (buildRecordOps demo_register demo_ctx (demo_draft "other@c") fresh_world)) = true) as H2 by (vm_compute; reflexivity).
  rewrite E1 in H1. rewrite E2 in H2. destruct res1 as [ops1|e]; [|discriminate H1]. destruct res2 as [ops2|e]; [|discriminate H2].
  assert (NoDup ((s_Properties (Compiled demo_person)).*1)) as Hn by keys_nodup.
  assert (same_but_pii (demo_draft "a@b") (demo_draft "other@c")) as Hs by (repeat split; vm_compute; reflexivity).
  destruct (@personal_data_confined plain_runtime plain_formats demo_register demo_ctx (demo_draft "a@b") (demo_draft "other@c")
    fresh_world w1 w2 ops1 ops2 demo_person_sound Hn Hs E1 E2)
    as (before & after & scope & clear & hash1 & hash2 & enc1 & enc2 & body1 & body2 & Ho1 & Ho2 & _).
  exists ops1, ops2, w1, w2, before, after, scope, hash1, hash2, body1, body2.
  split; [reflexivity|]. split; [reflexivity|]. split; [exact Ho1|exact Ho2].
Defined.

(** The object, and the schema its class was registered with. *)
Definition demo_object : Row :=
  list_to_map [("id", SStr "person-1"); ("tenant", SStr "t"); ("class", SStr "person"); ("natural_key", SStr "c1");
    ("head_version", SInt 1); ("status", SStr "active"); ("created_at", SInt 1); ("updated_at", SInt 1);
    ("created_tx", SStr "tx"); ("updated_tx", SStr "tx"); ("erased", SInt 0)].
Definition demo_schema_row : Row :=
  list_to_map [("id", SStr "person/v1"); ("class", SStr "person"); ("version", SInt 1); ("active", SInt 1);
    ("doc", SStr demo_schema); ("created_at", SInt 1); ("txid", SStr "tx")].
Definition demo_tables : tables :=
  <["objects" := {[ [SStr "person-1"] := demo_object ]}]> (<["schemas" := {[ [SStr "person/v1"] := demo_schema_row ]}]> empty_tables).
Definition demo_world : world := mkWorld demo_tables 1 "root 1" None ∅ None 0 0 [] ∅ 0.

Lemma wf_singleton t k row : k = pk_of t row -> Forall (typed_cell t row) (primary_key t) -> wf_table t {[ k := row ]}.
Proof. intros -> F k' row' E. apply lookup_singleton_Some in E as [<- <-]. by split. Qed.

Lemma demo_tables_wf : wf_db demo_tables.
Proof.
  apply wf_db_insert; [apply wf_db_insert; [apply empty_tables_wf|]|]; apply wf_singleton; try reflexivity;
    repeat constructor; eexists; split; try reflexivity; vm_compute; discriminate.
Qed.

Lemma update_writes_next_version_witness : exists ops w1 hash body scope d,
  updateOps demo_register demo_ctx demo_person "person-1" (demo_payload "a@b") "closed" demo_world = (Ok ops, w1) /\
  d_version d = 2 /\ version_op demo_ctx d hash body scope ∈ ops.
Proof.
  destruct (updateOps demo_register demo_ctx demo_person "person-1" (demo_payload "a@b") "closed" demo_world) as [res w1] eqn:E.
  assert (is_ok (fst (updateOps demo_register demo_ctx demo_person "person-1" (demo_payload "a@b") "closed" demo_world)) = true) as Hok by (vm_compute; reflexivity).
  rewrite E in Hok. destruct res as [ops|e]; [|discriminate Hok].
  destruct (@update_writes_next_version plain_runtime plain_formats demo_register demo_ctx demo_person "person-1" "closed" (demo_payload "a@b")
    demo_world w1 ops demo_tables_wf demo_person_sound E)
    as (m & row & d & hash & body & scope & Hm & Hrow & _ & _ & _ & _ & _ & _ & Hv & _ & _ & _ & Hin & _).
  exists ops, w1, hash, body, scope, d. split; [reflexivity|]. split; [|exact Hin].
  assert (visible demo_world !! "objects" = Some {[ [SStr "person-1"] := demo_object ]}) as Ho by apply lookup_insert_eq.
  rewrite Ho in Hm. injection Hm as <-. apply rows_elem in Hrow as [k Hk]. apply lookup_singleton_Some in Hk as [_ <-].
  rewrite Hv. vm_compute. reflexivity.
Defined.
End demo.
