(* ===== verification/Landing.v ===== *)
(** * What a landed commit leaves in a row

    The operations of the register read, build a write set and commit it.
    This file carries a landed commit to the rows it wrote: what an entry
    sets, what it keeps, what no entry touches; that a commit leaves the
    keyring alone; and that what the keyring answers for a live key is the
    key its row wraps. *)

From S2P Require Import Prelude GoStrings Float64 Encoding Canon Json SqlText Sql Rbac JsonSchema Pack Model World Concrete Commit Replay Byok Records RecordsCorrect.
Local Open Scope Z_scope.

(** ** Rows after a commit *)
Section rows.
Context `{Runtime}.

Lemma row_effects_app txid l1 l2 t k o :
  row_effects txid (l1 ++ l2) t k o = row_effects txid l2 t k (row_effects txid l1 t k o).
Proof. unfold row_effects. by rewrite fold_left_app. Qed.

Lemma row_effects_other txid ops t k o : Forall (fun op => Table op <> t) ops -> row_effects txid ops t k o = o.
Proof.
  intros F. unfold row_effects. induction F as [|op ops Hop _ IH]; [done|]. cbn. rewrite decide_False; [done|]. naive_solver.
Qed.

Lemma write_refs_other txid refs tbl : tbl <> "tx_refs" -> forall i, Forall (fun op => Table op <> tbl) (write_refs txid i refs).
Proof.
  intros Hne. induction refs as [|x l IH]; intros i; [apply Forall_nil_2|].
  apply Forall_cons_2; [|apply IH]. by apply not_eq_sym.
Qed.

(** One row of a table other than the log and the references. *)
Lemma landed_row env ops w w' t tbl m :
  landed env ops w w' t -> tbl <> "transactions" -> tbl <> "tx_refs" -> committed w !! tbl = Some m ->
  exists m', committed w' !! tbl = Some m' /\ forall k, m' !! k = row_effects (tx_TxID t) ops tbl k (m !! k).
Proof.
  intros (_ & _ & _ & _ & _ & r & _ & -> & _) H1 H2 Hm.
  assert (logged r (committed w) !! tbl = Some m) as Hl by (unfold logged; by rewrite lookup_alter_ne).
  destruct (effects_lookup (tx_TxID t) (ops ++ write_refs (tx_TxID t) 0 (Refs env)) _ _ _ Hl) as (m' & Hm' & Hk).
  exists m'. split; [done|]. intros k. rewrite Hk, row_effects_app. apply row_effects_other.
  by apply write_refs_other.
Qed.

(** A column an entry sets holds the value given. *)
Lemma effect_cell txid op o row c v ty :
  convertible txid op -> Delete op = false -> row_effect txid op o = Some row ->
  obj_get c (Values op) = Some v -> column_type (Table op) c = Some ty -> kind_ok ty (lit (substitute txid v)) ->
  cell row c = lit (substitute txid v).
Proof.
  intros Hc Hd He Hg Ht Hk. destruct (Hc Hd) as [r Hr]. unfold row_effect in He. rewrite Hd in He. injection He as <-.
  unfold stored. rewrite Hr. unfold cell.
  assert (r !! c = Some (lit (substitute txid v))) as Hl.
  { eapply stored_cell; [exact Hr|exact Ht| |exact Hk]. by rewrite subst_obj_get, Hg. }
  by rewrite lookup_union, Hl, union_Some_l || by erewrite lookup_union_Some_l.
Qed.

(** A column an entry does not set keeps what was there. *)
Lemma effect_keeps txid op row row' c :
  row_effect txid op (Some row) = Some row' -> obj_get c (Values op) = None -> row' !! c = row !! c.
Proof.
  intros He Hg. unfold row_effect in He. destruct (Delete op); [done|]. injection He as <-. cbn.
  assert (stored (Table op) (subst_obj txid (Values op)) !! c = None) as Hs.
  { unfold stored. destruct (row_of _ _) as [r|] eqn:Er; [|apply lookup_empty].
    pose proof (row_of_lookup _ _ _ c Er) as Hl. by rewrite subst_obj_get, Hg in Hl. }
  rewrite lookup_union, Hs. by rewrite (left_id_L None _).
Qed.
End rows.

(** ** Sessions *)

Lemma visible_closed w : txn w = None -> visible w = committed w.
Proof. unfold visible. by intros ->. Qed.


Lemma Do_Ok {A} (m : M A) w a w' : Do m w = (Ok a, w') -> exists w1, m w = (Ok a, w1) /\ same_ledger w1 w' /\ txn w' = None.
Proof. unfold Do. destruct (m w) as [res w1]. intros [= -> <-]. by exists w1. Qed.


Lemma Do_inv {A} (m : M A) w res w' : Do m w = (res, w') -> exists w1, m w = (res, w1) /\ w' = set_txn None w1.
Proof. unfold Do. destruct (m w) as [x w1]. intros [= -> <-]. by exists w1. Qed.

(** ** Entries that landed *)
Section landed.
Context `{Runtime}.

(** What an entry sets has its column's type. *)
Lemma effect_typed txid op c v ty :
  convertible txid op -> Delete op = false -> obj_get c (Values op) = Some v ->
  column_type (Table op) c = Some ty -> kind_ok ty (lit (substitute txid v)) -> has_type ty (lit (substitute txid v)).
Proof.
  intros Hc Hd Hg Ht Hk. destruct (Hc Hd) as [row Hr].
  assert (row !! c = Some (lit (substitute txid v))) as Hl.
  { eapply stored_cell; [exact Hr|exact Ht| |exact Hk]. by rewrite subst_obj_get, Hg. }
  by eapply row_of_typed.
Qed.

Lemma int64_typed z : has_type (CInt 64 true) (SInt z) -> to_int64 z = z.
Proof. intros Hz. cbn in Hz. unfold int_min, int_max in Hz. unfold to_int64. rewrite Z.mod_small; lia. Qed.

(** A table no entry names. *)
Lemma landed_other env ops w w' t tbl :
  landed env ops w w' t -> tbl <> "transactions" -> tbl <> "tx_refs" -> Forall (fun op => Table op <> tbl) ops ->
  committed w' !! tbl = committed w !! tbl.
Proof.
  intros (_ & _ & _ & _ & _ & r & _ & -> & _) H1 H2 F. rewrite effects_other.
  - unfold logged. by rewrite lookup_alter_ne.
  - apply Forall_app. split; [done|]. by apply write_refs_other.
Qed.

(** A row no entry names. *)
Lemma row_effects_miss txid ops tbl k o :
  Forall (fun op => Table op = tbl -> op_key txid op <> k) ops -> row_effects txid ops tbl k o = o.
Proof.
  intros F. revert o. induction F as [|op ops Ho _ IH]; intros o; [done|]. cbn. rewrite decide_False; [apply IH|naive_solver].
Qed.

(** A row some entry names, when what each of them does to it composes. *)
Lemma row_effects_hit (Q : Row -> Row -> Prop) txid ops tbl k row :
  (forall a b c, Q a b -> Q b c -> Q a c) ->
  Forall (fun op => Table op = tbl -> op_key txid op = k ->
    forall row, exists row', row_effect txid op (Some row) = Some row' /\ Q row row') ops ->
  Exists (fun op => Table op = tbl /\ op_key txid op = k) ops ->
  exists row', row_effects txid ops tbl k (Some row) = Some row' /\ Q row row'.
Proof.
  intros HQ F E.
  assert (forall ops, Forall (fun op => Table op = tbl -> op_key txid op = k ->
    forall row, exists row', row_effect txid op (Some row) = Some row' /\ Q row row') ops ->
    forall a b, Q a b -> exists row', row_effects txid ops tbl k (Some b) = Some row' /\ Q a row') as Hgo.
  { clear -HQ. intros ops F. induction F as [|op ops Ho _ IH]; intros a b Hab; [by exists b|]. cbn.
    destruct (decide _) as [[H1 H2]|_]; [|by apply IH]. destruct (Ho H1 H2 b) as (c & -> & Hc). apply IH. by eapply HQ. }
  revert row. induction F as [|op ops Ho F IH]; intros row; [by inversion E|]. cbn.
  destruct (decide _) as [[H1 H2]|Hn].
  - destruct (Ho H1 H2 row) as (c & -> & Hc). by apply Hgo.
  - apply IH. by inversion E.
Qed.

(** The row of an entry that no later entry touches. *)
Lemma landed_entry env before op after w w' t m :
  landed env (before ++ op :: after) w w' t -> Table op <> "transactions" -> Table op <> "tx_refs" ->
  committed w !! Table op = Some m ->
  Forall (fun o => Table o = Table op -> op_key (tx_TxID t) o <> op_key (tx_TxID t) op) after ->
  exists m', committed w' !! Table op = Some m' /\ convertible (tx_TxID t) op /\
    m' !! op_key (tx_TxID t) op =
      row_effect (tx_TxID t) op (row_effects (tx_TxID t) before (Table op) (op_key (tx_TxID t) op) (m !! op_key (tx_TxID t) op)).
Proof.
  intros L H1 H2 Hm F. destruct (landed_row _ _ _ _ _ _ m L H1 H2 Hm) as (m' & Hm' & Hk). exists m'.
  split; [done|]. split.
  - destruct L as (_ & _ & _ & _ & _ & rr & _ & _ & _ & _ & _ & Hconv). apply Forall_app in Hconv as [_ Hconv].
    by apply Forall_cons in Hconv as [? _].
  - rewrite Hk, row_effects_app. cbn. rewrite decide_True by done.
    by apply row_effects_miss.
Qed.

(** Rows of a table that no entry touches. *)
Lemma landed_untouched env ops w w' t tbl m k :
  landed env ops w w' t -> tbl <> "transactions" -> tbl <> "tx_refs" -> committed w !! tbl = Some m ->
  Forall (fun o => Table o = tbl -> op_key (tx_TxID t) o <> k) ops ->
  exists m', committed w' !! tbl = Some m' /\ m' !! k = m !! k.
Proof.
  intros L H1 H2 Hm F. destruct (landed_row _ _ _ _ _ _ m L H1 H2 Hm) as (m' & Hm' & Hk). exists m'.
  split; [done|]. rewrite Hk. by apply row_effects_miss.
Qed.

(** The only entry of a table. *)
Lemma landed_only env op extra w w' t m :
  landed env (op :: extra) w w' t -> Table op <> "transactions" -> Table op <> "tx_refs" ->
  committed w !! Table op = Some m -> Forall (fun o => Table o <> Table op) extra ->
  convertible (tx_TxID t) op /\
  committed w' !! Table op = Some (partial_alter (row_effect (tx_TxID t) op) (op_key (tx_TxID t) op) m).
Proof.
  intros L H1 H2 Hm F. destruct (landed_row _ _ _ _ _ _ m L H1 H2 Hm) as (m' & Hm' & Hk). split.
  - destruct L as (_ & _ & _ & _ & _ & rr & _ & _ & _ & _ & _ & Hconv). by apply Forall_cons in Hconv as [? _].
  - rewrite Hm'. f_equal. apply map_eq. intros k. rewrite Hk. change (op :: extra) with ([op] ++ extra).
    rewrite row_effects_app, (row_effects_other _ extra) by done. unfold row_effects. cbn [fold_left].
    destruct (decide (op_key (tx_TxID t) op = k)) as [<-|Hne].
    + by rewrite lookup_partial_alter_eq, decide_True.
    + rewrite lookup_partial_alter_ne, decide_False; naive_solver.
Qed.

Lemma landed_version env ops w w' t : landed env ops w w' t -> version w' = to_uint64 (version w + 1).
Proof. by intros (_ & _ & _ & _ & _ & r & _ & _ & ? & _). Qed.
Lemma landed_txn env ops w w' t : landed env ops w w' t -> txn w' = None.
Proof. by intros (_ & _ & _ & _ & _ & r & _ & _ & _ & ? & _). Qed.

Lemma substitute_plain txid s : s <> TxIDPlaceholder -> substitute txid (VStr s) = VStr s.
Proof. intros Hs. cbn. by destruct (String.eqb_spec s TxIDPlaceholder). Qed.

(** The log holds this very transaction: the lookup the code makes finds a
    row under its id. *)
Definition in_log (env : Envelope) (ops : list WriteOp) (db : tables) : Prop :=
  exists env' txid log row, Validate env = Ok env' /\ transactionID env' ops = Ok txid /\
    db !! "transactions" = Some log /\ row ∈ rows log /\ matches [is_ "txid" (VStr txid)] row = true.
(** The outcome of a request made again: its transaction is in the log
    already, and nothing changes. *)
Definition repeated (env : Envelope) (ops : list WriteOp) (w w' : world) : Prop :=
  same_ledger w w' /\ in_log env ops (committed w).

Lemma first_selected c m row : head (select_rows c None None m) = Some row -> row ∈ rows m /\ matches c row = true.
Proof.
  unfold select_rows. intros E. assert (row ∈ filter (fun r => matches c r = true) (sql_scan (rows m))) as Hin.
  { destruct (filter _ _) as [|x l]; [done|]. injection E as ->. apply list_elem_of_here. }
  apply list_elem_of_filter in Hin as [Hm Hin]. by rewrite sql_scan_perm in Hin.
Qed.
Lemma retried_in_log env ops w w' t : txn w = None -> retried env ops w w' t -> repeated env ops w w'.
Proof.
  intros Ht (Hs & env' & txid & Hv & Hid & E). split; [by apply same_db_ledger|]. exists env', txid.
  unfold transactionByID in E. apply M_bind_Ok in E as (o & w1 & Es & E).
  apply select_one_Ok in Es as (-> & log & Hl & ->). rewrite visible_closed in Hl by done.
  destruct (head _) as [row|] eqn:Eh; [|by apply M_ret_inv in E as [[= E] _]]. exists log, row.
  apply first_selected in Eh as [Hin Hm]. done.
Qed.

(** A commit of well-formed entries, from a quiet world that may since
    have read. *)
Lemma commit_lands env ops w wa t wb :
  commit_moves_one -> store_wf w -> txn w = None -> same_db w wa -> ops_wf ops ->
  commit env ops wa = (Ok t, wb) ->
  repeated env ops w wb \/ landed env ops wa wb t.
Proof.
  intros Hone W Ht Hs F E. pose proof Hs as (Hc & _ & _ & Hta & _). rewrite Ht in Hta.
  apply commit_Ok_inv in E as [Hr|L]; [left|by right|done| |done|done].
  - apply retried_in_log in Hr as [Hl Hin]; [|done]. split; [|by rewrite <- Hc]. etrans; [by apply same_db_ledger|done].
  - rewrite Hc. exact (proj1 W).
Qed.
Lemma repeated_then env ops w w1 w2 : repeated env ops w w1 -> same_ledger w1 w2 -> repeated env ops w w2.
Proof. intros [Hl Hin] Hs. split; [by etrans|done]. Qed.

Lemma commit_fails env ops w wa e wb :
  commit_moves_one -> store_wf w -> txn w = None -> same_db w wa -> ops_wf ops ->
  commit env ops wa = (Err e, wb) -> same_ledger w wb.
Proof.
  intros Hone W Ht Hs F E. pose proof Hs as (Hc & _ & _ & Hta & _). rewrite Ht in Hta.
  apply commit_Err_inv in E; [|done|done| |done].
  - etrans; [by apply same_db_ledger|done].
  - rewrite Hc. exact (proj1 W).
Qed.
End landed.

(** A primary key of one column. *)
Ltac one_key := apply Forall2_cons_2; [by eexists|apply Forall2_nil_2].

(** ** Conditions on text columns *)
Section conditions.
Context `{Runtime}.

Lemma cond_text row c x v : cell row c = SStr x -> cond_holds row (is_ c (VStr v)) = bool_decide (x = v).
Proof.
  intros Hc. unfold cond_holds. cbn [is_ c_op c_col c_val]. rewrite Hc. change (lit (VStr v)) with (SStr v). cbn [sql_compare].
  rewrite string_compare_eqb. apply bool_decide_ext. naive_solver.
Qed.

(** The rows of a SELECT without limit. *)
Lemma select_elem t c o w l w' :
  query (SSelect t c o None) w = (Ok l, w') ->
  w' = w /\ exists m, visible w !! t = Some m /\ forall row, row ∈ l <-> row ∈ rows m /\ matches c row = true.
Proof.
  intros E. apply select_Ok in E as (-> & m & Hm & ->). split; [done|]. exists m. split; [done|]. intros row.
  unfold select_rows.
  assert (row ∈ filter (fun r => matches c r = true) (sql_scan (rows m)) <-> row ∈ rows m /\ matches c row = true) as Hf.
  { rewrite list_elem_of_filter, sql_scan_perm. tauto. }
  destruct o as [o|]; [by rewrite merge_sort_Permutation|done].
Qed.
End conditions.

(** ** Reads that are answered *)
Section reads.
Context `{Runtime}.

(** The engine refuses no SELECT on a table that is there. *)
Definition answers_reads (db : tables) : Prop :=
  forall t c o n, is_Some (db !! t) -> sql_refuses db (SSelect t c o n) = None.

(** Selecting by primary key and more. *)
Lemma select_key_and t key c m :
  wf_table t m -> key_ok t key ->
  select_rows (key_where t key ++ c) None None m = filter (fun row => matches c row = true) (option_list (m !! (lit <$> key))).
Proof.
  intros W K. rewrite <- (select_key t key m W K). unfold select_rows. rewrite list_filter_filter.
  apply list_filter_iff. intros row. unfold matches. rewrite forallb_app, andb_true_iff. tauto.
Qed.

Lemma select_one_key_and t key c w o w' :
  wf_db (visible w) -> key_ok t key -> select_one t (key_where t key ++ c) w = (Ok o, w') ->
  w' = w /\ exists m, visible w !! t = Some m /\
    o = match m !! (lit <$> key) with Some row => if matches c row then Some row else None | None => None end.
Proof.
  intros W K E. apply select_one_Ok in E as (-> & m & Hm & ->). split; [done|]. exists m. split; [done|].
  rewrite select_key_and by (done || by apply W). destruct (m !! _) as [row|]; [|done].
  change (option_list (Some row)) with [row]. rewrite filter_cons, filter_nil. by destruct (matches c row), (base.decide _).
Qed.

Lemma select_one_total t key m w :
  answers_reads (visible w) -> wf_db (visible w) -> visible w !! t = Some m -> key_ok t key ->
  existsb (fun v => match lit_val v with None => true | Some _ => false end) key = false ->
  select_one t (key_where t key) w = (Ok (m !! (lit <$> key)), w).
Proof.
  intros A W Hm K P. unfold select_one, query_one, query, run_stmt, mbind, M_bind.
  assert (panics (SSelect t (key_where t key) None None) = false) as ->.
  { cbn. unfold key_where. revert P. clear. generalize (primary_key t) as cols.
    induction key as [|v key IH]; intros [|c cols] P; cbn in *; try done. apply orb_false_iff in P as [-> P]. by apply IH. }
  rewrite A by (by exists m). rewrite Hm. cbn -[select_rows]. rewrite select_key by (done || by apply W).
  unfold mret, M_ret. by destruct (m !! _).
Qed.
End reads.

(** ** The keyring across a commit *)
Section keyring.
Context `{Runtime}.

Definition aside (w : world) : gmap string string * option SignedCheckpoint * gmap string string * Z := (cache w, lastCkpt w, backend w, horizon w).
Definition same_aside {A} (m : M A) : Prop := forall w r w', m w = (r, w') -> aside w' = aside w.

Lemma same_aside_lift {A} (x : res A) : same_aside (lift x).
Proof. by intros w r w' [_ ->]%lift_inv. Qed.
Lemma same_aside_ret {A} (a : A) : same_aside (mret a : M A).
Proof. by intros w r w' [_ ->]%M_ret_inv. Qed.
Lemma same_aside_gets {A} (f : world -> A) : same_aside (gets f).
Proof. by intros w r w' [= _ <-]. Qed.
Lemma same_aside_notes f : same_aside (modify (fun w => set_notes (f w) w)).
Proof. by intros w r w' [= _ <-]. Qed.
Lemma same_aside_bind {A B} (m : M A) (k : A -> M B) : same_aside m -> (forall a, same_aside (k a)) -> same_aside (m ≫= k).
Proof.
  intros Hm Hk w r w' E. unfold mbind, M_bind in E. destruct (m w) as [[a|e] w1] eqn:Em.
  - apply Hk in E. apply Hm in Em. congruence.
  - injection E as _ <-. by eapply Hm.
Qed.
Lemma same_aside_wrapping {A} fmt args (m : M A) : same_aside m -> same_aside (wrapping fmt args m).
Proof. intros Hm w r w' E. unfold wrapping in E. destruct (m w) as [[a|e] w1] eqn:Em; injection E as <- <-; by eapply Hm. Qed.
Lemma same_aside_attempt {A} (m : M A) : same_aside m -> same_aside (attempt m).
Proof. intros Hm w r w' E. unfold attempt in E. destruct (m w) as [[a|e] w1] eqn:Em; injection E as <- <-; by eapply Hm. Qed.

Lemma aside_publish db w : aside (publish db w) = aside w.
Proof. unfold publish. by destruct (ledger_commit _ _ _ _). Qed.
Lemma aside_txn x w : aside (set_txn x w) = aside w.
Proof. done. Qed.

Lemma same_aside_query s : same_aside (query s).
Proof.
  intros w r w' E. unfold query in E. destruct (run_stmt (visible w) s) as [[l db]|e]; [|by injection E as _ <-].
  destruct s; cbn in E; destruct (txn w); injection E as _ <-; rewrite ?aside_txn, ?aside_publish; done.
Qed.
Lemma same_aside_exec s : same_aside (exec s).
Proof. apply same_aside_bind; [apply same_aside_query|]. intros. apply same_aside_ret. Qed.
Lemma same_aside_applyOne txid op : same_aside (applyOne txid op).
Proof.
  unfold applyOne, count. repeat (apply same_aside_bind; [apply same_aside_lift|intros ?]).
  destruct (Delete op); [apply same_aside_exec|]. apply same_aside_bind; [|intros n].
  - apply same_aside_bind; [apply same_aside_query|intros; apply same_aside_ret].
  - destruct (0 <? n); [|apply same_aside_exec]. destruct (subst_obj _ _); [apply same_aside_ret|apply same_aside_exec].
Qed.
Lemma same_aside_apply txid env ops : same_aside (apply txid env ops).
Proof.
  unfold apply. apply same_aside_bind.
  - generalize 0%nat. induction ops as [|op ops IH]; intros i; [apply same_aside_ret|].
    apply same_aside_bind; [apply same_aside_wrapping, same_aside_applyOne|]. intros _. apply IH.
  - intros _. generalize 0%nat. induction (Refs env) as [|x refs IH]; intros i; [apply same_aside_ret|].
    apply same_aside_bind; [apply same_aside_wrapping, same_aside_applyOne|]. intros _. apply IH.
Qed.
Lemma same_aside_select_one tb c : same_aside (select_one tb c).
Proof. apply same_aside_bind; [apply same_aside_query|]. intros. apply same_aside_ret. Qed.
Lemma same_aside_transactionByID txid : same_aside (transactionByID txid).
Proof.
  apply same_aside_bind; [apply same_aside_select_one|]. intros [row|]; [|apply same_aside_ret].
  apply same_aside_bind; [apply same_aside_lift|]. intros. apply same_aside_ret.
Qed.
Lemma same_aside_with_rollback {A} (m : M A) : same_aside m -> same_aside (with_rollback m).
Proof.
  intros Hm w r w' E. unfold with_rollback in E. destruct (m w) as [[a|e] w1] eqn:Em; injection E as <- <-; [by eapply Hm|].
  destruct (exec SRollback w1) as [x w2] eqn:Er. apply same_aside_exec in Er. cbn. apply Hm in Em. congruence.
Qed.

(** A commit leaves what is beside the ledger alone. *)
Lemma same_aside_commit env ops : same_aside (commit env ops).
Proof.
  unfold commit. do 3 (apply same_aside_bind; [apply same_aside_lift|intros ?]).
  apply same_aside_bind; [apply same_aside_transactionByID|]. intros [t|]; [apply same_aside_ret|].
  apply same_aside_bind; [apply same_aside_gets|]. intros [rb vb].
  apply same_aside_bind; [apply same_aside_wrapping, same_aside_exec|intros _].
  apply same_aside_bind.
  { apply same_aside_with_rollback. unfold commit_body. do 2 (apply same_aside_bind; [apply same_aside_lift|intros ?]).
    apply same_aside_bind; [apply same_aside_wrapping, same_aside_exec|intros _].
    apply same_aside_bind; [apply same_aside_apply|intros _]. apply same_aside_wrapping, same_aside_exec. }
  intros _. apply same_aside_bind; [apply same_aside_gets|intros after].
  apply same_aside_bind; [apply same_aside_lift|intros _].
  apply same_aside_bind; [apply same_aside_attempt, same_aside_select_one|intros row].
  apply same_aside_bind; [apply (same_aside_notes (fun w => notes w ++ _))|intros _]. apply same_aside_ret.
Qed.

(** The keyring answers for a live key what its row wraps. *)
Definition wraps (m : Material) (scope : string) (row : Row) (dek : string) : Prop :=
  openAEAD (wrapKey m) (Bytes row "op_wrap") ("dek:" +:+ scope) = Ok dek /\ len dek = Z.of_nat KeySize.

Definition keyring_ok (m : Material) (w : world) : Prop :=
  forall scope dek keys row, cache w !! scope = Some dek -> visible w !! "dek_keys" = Some keys ->
    keys !! [SStr scope] = Some row -> Int row "destroyed_at" = 0 -> wraps m scope row dek.

Lemma Unwrap_wraps m scope row keys dek w w' :
  keyring_ok m w -> visible w !! "dek_keys" = Some keys -> keys !! [SStr scope] = Some row -> Int row "destroyed_at" = 0 ->
  UnwrapOperational m scope (Bytes row "op_wrap") w = (Ok dek, w') -> wraps m scope row dek.
Proof.
  intros K Hk Hr Hd E. unfold UnwrapOperational in E. apply M_bind_Ok in E as (c & w1 & [= <- <-] & E).
  destruct (cache w !! scope) as [d|] eqn:Ec.
  - apply M_ret_inv in E as [[= ->] _]. by eapply K.
  - m_inv. rewrite wrapping_Ok in *. m_inv. bool_hyps. split; done.
Qed.

Lemma wraps_Unwrap m scope row keys dek w :
  keyring_ok m w -> visible w !! "dek_keys" = Some keys -> keys !! [SStr scope] = Some row -> Int row "destroyed_at" = 0 ->
  wraps m scope row dek -> exists w', UnwrapOperational m scope (Bytes row "op_wrap") w = (Ok dek, w').
Proof.
  intros K Hk Hr Hd Hw. unfold UnwrapOperational, mbind, M_bind, gets.
  destruct (cache w !! scope) as [d|] eqn:Ec.
  - destruct (K _ _ _ _ Ec Hk Hr Hd) as [E1 _], Hw as [E2 _]. assert (d = dek) as -> by congruence. by eexists.
  - destruct Hw as [-> Hl]. unfold wrapping, lift. rewrite Hl. unfold guard_, refuse_if, lift. rewrite Z.eqb_refl. by eexists.
Qed.
End keyring.

(** ** Keys that a commit makes or destroys *)
Section keys.
Context `{Runtime}.
Variable r : Register.

(** The row filed under a scope. *)
Definition key_row (db : tables) (scope : string) (row : Row) : Prop :=
  exists keys, db !! "dek_keys" = Some keys /\ keys !! [SStr scope] = Some row.

Lemma key_row_unique db scope row row' : key_row db scope row -> key_row db scope row' -> row' = row.
Proof. intros (k & H1 & H2) (k' & H3 & H4). congruence. Qed.

Lemma select_scope scope w row w' :
  wf_db (visible w) -> select_one "dek_keys" [is_ "scope" (VStr scope)] w = (Ok row, w') ->
  w' = w /\ exists keys, visible w !! "dek_keys" = Some keys /\ row = keys !! [SStr scope].
Proof.
  intros W E. change [is_ "scope" (VStr scope)] with (key_where "dek_keys" [VStr scope]) in E.
  apply select_one_key in E; [exact E|done|one_key].
Qed.

Lemma live_key_inv scope w key w' :
  wf_db (visible w) -> live_key scope w = (Ok key, w') ->
  w' = w /\ match key with
            | Some row => key_row (visible w) scope row /\ Int row "destroyed_at" = 0
            | None => forall row, key_row (visible w) scope row -> Int row "destroyed_at" <> 0
            end.
Proof.
  intros W E. unfold live_key in E. apply M_bind_Ok in E as (o & w1 & E1 & E).
  apply select_scope in E1 as (-> & keys & Hk & ->); [|done]. apply M_ret_inv in E as [[= ->] ->]. split; [done|].
  destruct (keys !! [SStr scope]) as [row|] eqn:Er.
  - destruct (Z.eqb_spec (Int row "destroyed_at") 0); [split; [by exists keys|done]|].
    intros row' (k' & Hk' & Hr'). assert (row' = row) as -> by congruence. done.
  - intros row' (k' & Hk' & Hr'). congruence.
Qed.

(** A destroyed key is not live. *)
Lemma live_key_dead scope w key :
  answers_reads (visible w) -> wf_db (visible w) -> key_row (visible w) scope key -> Int key "destroyed_at" <> 0 ->
  live_key scope w = (Ok None, w).
Proof.
  intros A W (keys & Hk & Hr) Hd. unfold live_key, mbind, M_bind.
  change [is_ "scope" (VStr scope)] with (key_where "dek_keys" [VStr scope]).
  rewrite (select_one_total "dek_keys" [VStr scope] keys) by first [done|one_key]. change (lit <$> [VStr scope]) with [SStr scope].
  rewrite Hr. by destruct (Z.eqb_spec (Int key "destroyed_at") 0).
Qed.

(** The key of a scope, or a new one and its entry. *)
Lemma ensureDEK_inv wc scope kind subject w0 dek ops w1 :
  wf_db (visible w0) -> ensureDEK r wc scope kind subject w0 = (Ok (dek, ops), w1) ->
  same_db w0 w1 /\
  ((exists row, key_row (visible w0) scope row /\ Int row "destroyed_at" = 0 /\ ops = [] /\
      UnwrapOperational (mat r) scope (Bytes row "op_wrap") w0 = (Ok dek, w1)) \/
   (exists opWrap rec kek, is_Some (visible w0 !! "dek_keys") /\
      ops = [dek_op scope (wc_tenant wc) kind subject opWrap rec kek (wc_at wc)] /\
      openAEAD (wrapKey (mat r)) opWrap ("dek:" +:+ scope) = Ok dek /\ len dek = Z.of_nat KeySize)).
Proof.
  intros W E. split; [by eapply ro_ensureDEK|]. unfold ensureDEK in E.
  apply M_bind_Ok in E as (o & wa & E1 & E). apply select_scope in E1 as (-> & keys & Hk & ->); [|done].
  destruct (keys !! [SStr scope]) as [row|] eqn:Er; [left|right].
  - apply M_bind_Ok in E as (u & wb & Eg & E). apply guard_Ok in Eg as [Hd ->]. bool_hyps.
    apply M_bind_Ok in E as (d & wb & Eu & E). apply M_ret_inv in E as [[= -> ->] ->].
    exists row. split_and!; try done. by exists keys.
  - apply M_bind_Ok in E as (d & wb & Ed & E). injection Ed as Hd _.
    apply M_bind_Ok in E as (wrap & wc' & Ew & E). apply M_bind_Ok in E as (kek & wd & _ & E).
    apply M_bind_Ok in E as ([rec kid] & we & _ & E). apply M_ret_inv in E as [[= -> ->] _].
    exists wrap, rec, kid. split; [by exists keys|]. split; [done|]. unfold WrapOperational, sealAEAD in Ew.
    apply M_bind_Ok in Ew as (nonce & wf & En & Ew). injection En as <- _. apply M_ret_inv in Ew as [[= ->] _].
    rewrite open_nonce. subst d. split; [done|]. unfold len. by rewrite entropy_length.
Qed.

Lemma ensureDEK_tables wc scope kind subject w0 dek ops w1 :
  ensureDEK r wc scope kind subject w0 = (Ok (dek, ops), w1) -> Forall (fun op => Table op = "dek_keys") ops.
Proof.
  unfold ensureDEK. intros E. m_inv. match goal with H : (match ?o with _ => _ end) _ = _ |- _ => destruct o end; m_inv.
  - apply Forall_nil_2.
  - by apply Forall_cons_2; [|apply Forall_nil_2].
Qed.

Lemma dek_op_key txid scope a b c d e f g : scope <> TxIDPlaceholder -> op_key txid (dek_op scope a b c d e f g) = [SStr scope].
Proof. intros Hs. unfold op_key, dek_op. cbn. by destruct (String.eqb_spec scope TxIDPlaceholder). Qed.
Lemma destroy_op_key txid scope at_ : scope <> TxIDPlaceholder -> op_key txid (destroy_op scope at_) = [SStr scope].
Proof. intros Hs. unfold op_key, destroy_op. cbn. by destruct (String.eqb_spec scope TxIDPlaceholder). Qed.

(** The key that sealed something in a landed commit is there to open it. *)
Lemma sealed_key_lives wc scope kind subject w0 dek kops w1 env rest wa wb t :
  wf_db (visible w0) -> keyring_ok (mat r) w0 -> visible w0 = committed wa -> scope <> TxIDPlaceholder ->
  ensureDEK r wc scope kind subject w0 = (Ok (dek, kops), w1) ->
  Forall (fun op => Table op <> "dek_keys") rest -> landed env (kops ++ rest) wa wb t ->
  exists row, key_row (committed wb) scope row /\ Int row "destroyed_at" = 0 /\ wraps (mat r) scope row dek.
Proof.
  intros W K Hv Hs E F L. apply ensureDEK_inv in E as (_ & [(row & (keys & Hk & Hr) & Hd & -> & Hu)|(ow & rec & kek & [keys Hk] & -> & Ho & Hl)]); [| |done].
  - exists row. split; [|split; [done|by eapply Unwrap_wraps]]. exists keys. split; [|done].
    rewrite (landed_other _ _ _ _ _ "dek_keys" L) by done. congruence.
  - rewrite Hv in Hk. cbn [app] in L.
    destruct (landed_entry env [] _ rest wa wb t keys L) as (m' & Hm' & Hc & Hrow); [done..| |].
    { eapply Forall_impl; [exact F|]. intros o Ho' Ht. by destruct (Ho' Ht). }
    rewrite dek_op_key in Hrow by done. cbn [row_effects fold_left] in Hrow. unfold row_effects in Hrow. cbn [fold_left] in Hrow.
    match type of Hrow with _ = ?e => destruct e as [row|] eqn:He; [|done] end.
    exists row. split; [by exists m'|]. unfold wraps, Int, Bytes.
    rewrite (effect_cell _ _ _ _ "destroyed_at" (VInt 0) (CInt 64 true) Hc eq_refl He) by done.
    rewrite (effect_cell _ _ _ _ "op_wrap" (VBinary ow) (CBytes 512) Hc eq_refl He) by done.
    split_and!; done.
Qed.

(** The row of a key that a landed commit destroyed. *)
Lemma destroyed_marked env before scope at_ after wa wb t :
  scope <> TxIDPlaceholder -> is_Some (committed wa !! "dek_keys") ->
  Forall (fun op => Table op <> "dek_keys") after ->
  landed env (before ++ destroy_op scope at_ :: after) wa wb t ->
  exists row, key_row (committed wb) scope row /\ Int row "destroyed_at" = at_ /\
    cell row "op_wrap" = SStr "" /\ cell row "rec_wrap" = SStr "".
Proof.
  intros Hs [keys Hk] F L.
  destruct (landed_entry env before _ after wa wb t keys L) as (m' & Hm' & Hc & Hrow); [done..| |].
  { eapply Forall_impl; [exact F|]. intros o Ho' Ht. by destruct (Ho' Ht). }
  rewrite destroy_op_key in Hrow by done.
  match type of Hrow with _ = ?e => destruct e as [row|] eqn:He; [|done] end.
  exists row. split; [by exists m'|]. unfold Int.
  rewrite (effect_cell _ _ _ _ "destroyed_at" (VInt at_) (CInt 64 true) Hc eq_refl He) by done.
  rewrite (effect_cell _ _ _ _ "op_wrap" (VBinary "") (CBytes 512) Hc eq_refl He) by done.
  rewrite (effect_cell _ _ _ _ "rec_wrap" (VBinary "") (CBytes 2048) Hc eq_refl He) by done.
  pose proof (effect_typed _ _ "destroyed_at" (VInt at_) (CInt 64 true) Hc eq_refl eq_refl eq_refl I) as Ht.
  split_and!; try done. by apply int64_typed.
Qed.

(** A row that every entry naming it keeps in a property. *)
Lemma row_effects_keep (Q : Row -> Prop) txid ops tbl k row :
  Forall (fun op => Table op = tbl -> op_key txid op = k ->
    forall row, Q row -> exists row', row_effect txid op (Some row) = Some row' /\ Q row') ops ->
  Q row -> exists row', row_effects txid ops tbl k (Some row) = Some row' /\ Q row'.
Proof.
  intros F. revert row. induction F as [|op ops Ho F IH]; intros row HQ; [by exists row|]. cbn.
  destruct (decide _) as [[H1 H2]|_]; [|by apply IH]. destruct (Ho H1 H2 row HQ) as (row' & -> & HQ'). by apply IH.
Qed.
Lemma landed_keeps (Q : Row -> Prop) env ops w w' t tbl k m row :
  landed env ops w w' t -> tbl <> "transactions" -> tbl <> "tx_refs" ->
  committed w !! tbl = Some m -> m !! k = Some row -> Q row ->
  Forall (fun op => convertible (tx_TxID t) op -> Table op = tbl -> op_key (tx_TxID t) op = k ->
    forall row, Q row -> exists row', row_effect (tx_TxID t) op (Some row) = Some row' /\ Q row') ops ->
  exists m' row', committed w' !! tbl = Some m' /\ m' !! k = Some row' /\ Q row'.
Proof.
  intros L H1 H2 Hm Hrow HQ F. destruct (landed_row _ _ _ _ _ _ m L H1 H2 Hm) as (m' & Hm' & Hk).
  destruct L as (_ & _ & _ & _ & _ & rr & _ & _ & _ & _ & _ & Hconv).
  destruct (row_effects_keep Q (tx_TxID t) ops tbl k row) as (row' & He & HQ'); [|done|].
  - apply Forall_forall. intros op Hop. rewrite Forall_forall in F, Hconv. by apply F; [|apply Hconv].
  - exists m', row'. split; [done|]. split; [|done]. by rewrite Hk, Hrow.
Qed.

(** A key that has been destroyed, and nothing left of what wrapped it. *)
Definition dead_row (key : Row) : Prop :=
  Int key "destroyed_at" <> 0 /\ cell key "op_wrap" = SStr "" /\ cell key "rec_wrap" = SStr "".
Definition key_destroyed (db : tables) (scope : string) : Prop := exists key, key_row db scope key /\ dead_row key.
(** An entry that does not make the key again: it writes elsewhere, or to
    the row of another key, or destroys this one. *)
Definition spares_key (scope : string) (op : WriteOp) : Prop :=
  Table op = "dek_keys" -> (forall txid, op_key txid op <> [SStr scope]) \/ exists at_, 0 < at_ /\ op = destroy_op scope at_.

(** What follows a world: reads, and transactions whose entries are all of
    a class. *)
Definition followed (P : WriteOp -> Prop) : relation world :=
  rtc (fun w w' => same_ledger w w' \/ exists env ops t, landed env ops w w' t /\ Forall P ops).
Lemma followed_keeps (P : WriteOp -> Prop) (I : tables -> Prop) w w' :
  (forall env ops w w' t, landed env ops w w' t -> Forall P ops -> I (committed w) -> I (committed w')) ->
  followed P w w' -> I (committed w) -> I (committed w').
Proof.
  intros Hl. induction 1 as [w|w w1 w' [(Hc & _)|(env & ops & t & L & F)] _ IH]; [done|..]; intros Hi; apply IH.
  - by rewrite Hc.
  - by eapply Hl.
Qed.

(** A destroyed key stays destroyed. *)
Lemma destroyed_stays env ops w w' t scope :
  scope <> TxIDPlaceholder -> landed env ops w w' t -> Forall (spares_key scope) ops ->
  key_destroyed (committed w) scope -> key_destroyed (committed w') scope.
Proof.
  intros Hs L F (key & (keys & Hk & Hkey) & Hd).
  destruct (landed_keeps dead_row _ _ _ _ _ "dek_keys" [SStr scope] keys key L) as (m' & row' & Hm' & Hr & Hd'); try done.
  2:{ exists row'. split; [by exists m'|done]. }
  eapply Forall_impl; [exact F|]. intros op Ho Hc Ht Hok row _. destruct (Ho Ht) as [Hno|(at_ & Hat & ->)]; [by destruct (Hno (tx_TxID t))|].
  destruct (row_effect (tx_TxID t) (destroy_op scope at_) (Some row)) as [row'|] eqn:He; [|done]. exists row'. split; [done|].
  pose proof (effect_typed _ _ "destroyed_at" (VInt at_) (CInt 64 true) Hc eq_refl eq_refl eq_refl I) as Hty.
  unfold dead_row, Int.
  rewrite (effect_cell _ _ _ _ "destroyed_at" (VInt at_) (CInt 64 true) Hc eq_refl He) by done.
  rewrite (effect_cell _ _ _ _ "op_wrap" (VBinary "") (CBytes 512) Hc eq_refl He) by done.
  rewrite (effect_cell _ _ _ _ "rec_wrap" (VBinary "") (CBytes 2048) Hc eq_refl He) by done.
  split; [|done]. change (to_int64 at_ <> 0). rewrite int64_typed by exact Hty. lia.
Qed.

(** The register does not make it again: what it writes to have a key
    leaves the row of a destroyed one alone. *)
Lemma ensureDEK_spares wc scope' kind subject w dek ops w1 scope key :
  wf_db (visible w) -> scope' <> TxIDPlaceholder -> key_row (visible w) scope key ->
  ensureDEK r wc scope' kind subject w = (Ok (dek, ops), w1) -> Forall (spares_key scope) ops.
Proof.
  intros W Hs (keys & Hk & Hkey) E. unfold ensureDEK in E. apply M_bind_Ok in E as (o & w2 & Es & E).
  change [is_ "scope" (VStr scope')] with (key_where "dek_keys" [VStr scope']) in Es.
  apply select_one_key in Es as (-> & m & Hm & ->); [|done|apply Forall2_cons_2; [by eexists|apply Forall2_nil_2]].
  change (lit <$> [VStr scope']) with [SStr scope'] in E. destruct (m !! [SStr scope']) as [row|] eqn:Hrow.
  - m_inv. apply Forall_nil_2.
  - m_inv. apply Forall_singleton. intros _. left. intros txid. rewrite dek_op_key by done. intros [= ->]. congruence.
Qed.
End keys.

(** ** Operations that move the committed tables along a relation

    An operation run from a quiet world, whether it succeeds or fails,
    takes the committed tables a step of [R]; it ends with no transaction
    open when it succeeds. *)
Section moves.
Context `{Runtime}.
Variable R : relation tables.
Context `{!PreOrder R}.

Definition moves {A} (m : M A) : Prop := forall w res w',
  store_wf w -> txn w = None -> m w = (res, w') ->
  store_wf w' /\ R (committed w) (committed w') /\ (is_ok res = true -> txn w' = None).

Lemma moves_ro {A} (m : M A) : ro m -> moves m.
Proof.
  intros Hm w res w' W Ht E. apply Hm in E. split; [by eapply store_wf_same|].
  destruct E as (Hc & _ & _ & Ht' & _). split; [by rewrite Hc|]. intros _. congruence.
Qed.

Lemma moves_bind {A B} (m : M A) (k : A -> M B) :
  moves m -> (forall a, (exists w w', m w = (Ok a, w')) -> moves (k a)) -> moves (m ≫= k).
Proof.
  intros Hm Hk w res w' W Ht E. unfold mbind, M_bind in E. destruct (m w) as [[a|e] w1] eqn:Em.
  - pose proof Em as Em'. apply Hm in Em as (W1 & R1 & T1); [|done..].
    apply (Hk a) in E as (W2 & R2 & T2); [|by eexists _, _|done|by apply T1]. split; [done|]. split; [by etrans|done].
  - injection E as <- <-. apply Hm in Em as (W1 & R1 & T1); [|done..]. done.
Qed.

Lemma moves_Do {A} (m : M A) : moves m -> moves (Do m).
Proof.
  intros Hm w res w' W Ht E. apply Do_inv in E as (w1 & E & ->). apply Hm in E as ([W1 _] & R1 & _); [|done..].
  split; [by split|]. split; [done|]. done.
Qed.

Lemma moves_fold {A B} (f : B -> A -> M B) l : (forall b x, moves (f b x)) -> forall acc, moves (fold f l acc).
Proof.
  intros Hf. induction l as [|x l IH]; intros acc; [apply moves_ro, ro_ret|]. apply moves_bind; [done|]. intros; apply IH.
Qed.

Lemma moves_modify f : (forall w, same_ledger w (f w) /\ txn (f w) = txn w) -> moves (modify f).
Proof.
  intros Hf w res w' [W1 W2] Ht [= <- <-]. destruct (Hf w) as [(Hc & _) Ht']. unfold store_wf. rewrite Hc, Ht'.
  split; [done|]. split; [done|]. intros _. congruence.
Qed.

(** What a commit does, from a quiet world that may since have read. *)
Lemma commit_from env ops w wa res w' :
  commit_moves_one -> store_wf w -> txn w = None -> same_db w wa -> ops_wf ops -> commit env ops wa = (res, w') ->
  store_wf w' /\ (committed w' = committed w \/ exists t, res = Ok t /\ landed env ops wa w' t) /\
  (is_ok res = true -> txn w' = None).
Proof.
  intros Hone W Ht Hs F E. pose proof (store_wf_same _ _ Hs W) as Wa.
  split; [by eapply keeps_commit|]. pose proof Hs as (Hc & _ & _ & Hta & _). rewrite Ht in Hta. destruct res as [t|e].
  - apply commit_Ok_inv in E as [[(Hc' & _ & _ & Ht' & _) _]|L]; [| |done|exact (proj1 Wa)|done|done].
    + split; [left; congruence|]. intros _. congruence.
    + split; [right; by exists t|]. intros _. by eapply landed_txn.
  - apply commit_Err_inv in E as (Hc' & _); [|done|done|exact (proj1 Wa)|done]. split; [left; congruence|done].
Qed.

(** The same from a given world, after reads that left the database
    alone: what was read still describes [w]. *)
Definition moves_at (w wa : world) {A} (m : M A) : Prop := forall res w',
  m wa = (res, w') -> store_wf w' /\ R (committed w) (committed w') /\ (is_ok res = true -> txn w' = None).

Lemma moves_intro {A} (m : M A) : (forall w, store_wf w -> txn w = None -> moves_at w w m) -> moves m.
Proof. intros Hm w res w' W Ht E. by eapply Hm. Qed.

Lemma moves_at_stop {A} w wa (x : res A) :
  store_wf w -> txn w = None -> same_db w wa -> store_wf wa /\ R (committed w) (committed wa) /\ (is_ok x = true -> txn wa = None).
Proof.
  intros W Ht Hs. split; [by eapply store_wf_same|]. destruct Hs as (-> & _ & _ & -> & _). by split.
Qed.

Lemma moves_at_ret {A} (m : M A) w wa : store_wf w -> txn w = None -> same_db w wa -> ro m -> moves_at w wa m.
Proof. intros W Ht Hs Hm res w' E. apply Hm in E. apply moves_at_stop; [done|done|by etrans]. Qed.

Lemma moves_at_bind {A B} w wa (m : M A) (k : A -> M B) :
  store_wf w -> txn w = None -> same_db w wa -> ro m ->
  (forall a wb, m wa = (Ok a, wb) -> same_db w wb -> moves_at w wb (k a)) -> moves_at w wa (m ≫= k).
Proof.
  intros W Ht Hs Hm Hk res w' E. unfold mbind, M_bind in E. destruct (m wa) as [[a|e] wb] eqn:Em.
  - pose proof (Hm _ _ _ Em) as Hb. eapply Hk; [done|by etrans|exact E].
  - injection E as <- <-. apply Hm in Em. apply moves_at_stop; [done|done|by etrans].
Qed.

Lemma moves_at_commit env ops w wa :
  commit_moves_one -> store_wf w -> txn w = None -> same_db w wa -> ops_wf ops ->
  (forall w' t, landed env ops wa w' t -> R (committed w) (committed w')) -> moves_at w wa (commit env ops).
Proof.
  intros Hone W Ht Hs F HR res w' E.
  destruct (commit_from env ops w wa res w' Hone W Ht Hs F E) as (W' & [->|(t & -> & L)] & T); [done|].
  split; [done|]. split; [by eapply HR|done].
Qed.

Lemma moves_at_then {A B} w wa (m : M A) (k : A -> M B) : moves_at w wa m -> (forall a, ro (k a)) -> moves_at w wa (m ≫= k).
Proof.
  intros Hm Hk res w' E. unfold mbind, M_bind in E. destruct (m wa) as [[a|e] wb] eqn:Em.
  - apply Hm in Em as (W & HR & T). apply Hk in E. split; [by eapply store_wf_same|].
    destruct E as (-> & _ & _ & -> & _). split; [done|]. intros _. by apply T.
  - injection E as <- <-. by apply Hm in Em as (W & HR & _).
Qed.

Lemma moves_at_Do {A} w wa (m : M A) : moves_at w wa m -> moves_at w wa (Do m).
Proof.
  intros Hm res w' E. apply Do_inv in E as (w1 & E & ->). apply Hm in E as ([W1 _] & R1 & _).
  split; [by split|]. by split.
Qed.

Lemma moves_here {A} w (m : M A) : store_wf w -> txn w = None -> moves m -> moves_at w w m.
Proof. intros W Ht Hm res w' E. by eapply Hm. Qed.

Lemma moves_commit env ops :
  commit_moves_one -> ops_wf ops ->
  (forall w w' t, store_wf w -> landed env ops w w' t -> R (committed w) (committed w')) -> moves (commit env ops).
Proof. intros Hone F HR. apply moves_intro. intros w W Ht. apply moves_at_commit; try done. intros w' t L. by eapply HR. Qed.
End moves.

(** A step that only reads, and an end that does. *)
Ltac moves_end := apply moves_ro; [apply _|solve [ro_tac]].
Ltac moves_read := apply moves_bind; [apply _|moves_end|].

(** ** Instances *)

(** A call that succeeds: its answer and the world it leaves. *)
Lemma runs_ok {A} (call : res A * world) :
  is_ok (fst call) = true -> exists out w', call = (Ok out, w') /\ w' = snd call.
Proof. destruct call as [[out|e] w']; [|done]. intros _. by exists out, w'. Qed.

(** Something a computation finds. *)
Lemma there {A} (o : option A) : (if o then true else false) = true -> exists a, o = Some a.
Proof. destruct o as [a|]; [|done]. intros _. by exists a. Qed.

(** A call that moved the version cannot have left the ledger alone. *)
Lemma moved_by (Q : Prop) w w' P : Q \/ P -> (Q -> same_ledger w w') -> version w' <> version w -> P.
Proof. intros [Hq|?] Hl; [destruct (Hl Hq) as (_ & Hv & _); congruence|done]. Qed.
Lemma moved_on `{Runtime} env ops w w' P : repeated env ops w w' \/ P -> version w' <> version w -> P.
Proof. intros Hp. eapply moved_by; [exact Hp|by intros [? _]]. Qed.

Section plain.
#[local] Existing Instance plain_runtime.
Lemma plain_answers db : answers_reads db.
Proof. intros t c o n _. reflexivity. Qed.
Lemma plain_clock n : 0 < clock n.
Proof. unfold clock; cbn -[Z.min Z.of_nat]. unfold int64_max. lia. Qed.
End plain.
