(* ===== verification/Workflow.v ===== *)
(** * Workflows ([internal/register/workflow.go])

    Propose, optionally accept, then decide: every step is a transaction
    of its own, and the task row is the state machine. This file models
    the four entry points ([Propose], [Accept], [Decide], [Withdraw]), the
    shared decision body [decide], the effects of an approval, the
    conditions and the templates. *)

From S2P Require Import Prelude GoStrings Float64 Encoding Canon Json SqlText Sql Rbac JsonSchema Pack Model World Byok Commit Records.
Local Open Scope Z_scope.

(** ** Time formatting *)

(** The civil date of a count of days since 1970-01-01. *)
Definition civil_of_days (z0 : Z) : Z * Z * Z :=
  let z := z0 + 719468 in
  let era := z / 146097 in
  let doe := z - era * 146097 in
  let yoe := (doe - doe / 1460 + doe / 36524 - doe / 146096) / 365 in
  let doy := doe - (365 * yoe + yoe / 4 - yoe / 100) in
  let mp := (5 * doy + 2) / 153 in
  let d := doy - (153 * mp + 2) / 5 + 1 in
  let m := if mp <? 10 then mp + 3 else mp - 9 in
  (yoe + era * 400 + (if m <=? 2 then 1 else 0), m, d).

Definition pad (n : Z) (s : string) : string := zeros (n - len s) +:+ s.
(** [Format("2006-01-02")] and [Format(time.RFC3339)] of a UTC time. *)
Definition format_date (t : Z) : string :=
  let '(y, m, d) := civil_of_days (t / 86400) in
  pad 4 (itoa y) +:+ "-" +:+ pad 2 (itoa m) +:+ "-" +:+ pad 2 (itoa d).
Definition format_rfc3339 (t : Z) : string :=
  let s := t mod 86400 in
  format_date t +:+ "T" +:+ pad 2 (itoa (s / 3600)) +:+ ":" +:+ pad 2 (itoa ((s / 60) mod 60)) +:+ ":" +:+ pad 2 (itoa (s mod 60)) +:+ "Z".

Example format_sample : (format_rfc3339 1700000000, format_date 951782400) = ("2023-11-14T22:13:20Z", "2000-02-29").
Proof. vm_compute. reflexivity. Qed.

(** ** Requests *)

Record ProposeRequest := mkProposeRequest {
  req_ObjectID : string;
  req_Payload : object;
  req_Evidence : option (list (string * string));
  req_Message : string;
  req_Body : string;
  req_Refs : list Ref;
}.

Record Decision := mkDecision {
  dec_Approve : bool;
  dec_Reason : string;
  dec_Message : string;
  dec_Body : string;
  dec_Refs : list Ref;
}.

Record Outcome := mkOutcome {
  out_Task : Task;
  out_Transaction : Transaction;
  out_Applied : option Transaction;
  out_ObjectID : string;
}.

(** ** Templates *)

Definition placeholder_char (a : ascii) : bool :=
  let x := byte_Z a in
  ((97 <=? x) && (x <=? 122)) || ((65 <=? x) && (x <=? 90)) || ((48 <=? x) && (x <=? 57)) || Ascii.eqb a "_" || Ascii.eqb a ".".

Fixpoint span_placeholder (s : string) : string * string :=
  match s with
  | String a r => if placeholder_char a then let '(k, t) := span_placeholder r in (String a k, t) else ("", s)
  | EmptyString => ("", "")
  end.

(** A placeholder [{{key}}] at the front of [s]: its key, and the rest. *)
Definition placeholder (s : string) : option (string * string) :=
  match s with
  | String "{" (String "{" r) =>
      let '(k, t) := span_placeholder r in
      match k, t with
      | EmptyString, _ => None
      | _, String "}" (String "}" t) => Some (k, t)
      | _, _ => None
      end
  | _ => None
  end.

(** [placeholderRe.ReplaceAllStringFunc]. *)
Fixpoint replace_all (f : string -> string) (fuel : nat) (s : string) : string :=
  match fuel with
  | O => s
  | S fuel =>
      match placeholder s with
      | Some (k, t) => f k +:+ replace_all f fuel t
      | None => match s with String a r => String a (replace_all f fuel r) | EmptyString => "" end
      end
  end.
Definition ReplacePlaceholders (f : string -> string) (s : string) : string := replace_all f (S (String.length s)) s.

(** The context's values: a Go map. *)
Abbreviation tmplContext := object.

Definition render (tmpl : string) (ctx : tmplContext) : string :=
  ReplacePlaceholders (fun k => match obj_get k ctx with Some v => Sprint v | None => "" end) tmpl.

(** [sqlValue]. *)
Definition sqlValue (v : value) : value :=
  match v with
  | VNumber s => match ParseInt64 s with (i, true) => VInt i | _ => VFloat (fst (ParseFloat s)) end
  | VNull | VStr _ | VBool _ | VInt _ | VFloat _ => v
  | _ => VStr (Sprint v)
  end.

(** [renderSQL]: what [store.Lit] would panic on ends it. *)
Fixpoint replace_lits (f : string -> res string) (fuel : nat) (s : string) : res string :=
  match fuel with
  | O => Ok s
  | S fuel =>
      match placeholder s with
      | Some (k, t) => l ← f k; rest ← replace_lits f fuel t; Ok (l +:+ rest)
      | None => match s with String a r => rest ← replace_lits f fuel r; Ok (String a rest) | EmptyString => Ok "" end
      end
  end.
Definition sql_hole (ctx : tmplContext) (k : string) : res string :=
  match obj_get k ctx with Some v => Lit (sqlValue v) | None => Ok "NULL" end.
Definition renderSQL (tmpl : string) (ctx : tmplContext) : res string :=
  replace_lits (sql_hole ctx) (S (String.length tmpl)) tmpl.
(** It never is: [sqlValue] leaves nothing [store.Lit] does not know. *)
Lemma Lit_sqlValue v : exists l, Lit (sqlValue v) = Ok l.
Proof. destruct v; cbn; eauto. destruct (ParseInt64 s) as [i []]; cbn; eauto. Qed.
Lemma renderSQL_total tmpl ctx : exists text, renderSQL tmpl ctx = Ok text.
Proof.
  unfold renderSQL. generalize (S (String.length tmpl)) as n. intros n. revert tmpl. induction n as [|n IH]; intros s; [by exists s|].
  cbn [replace_lits]. destruct (placeholder s) as [[k t]|].
  - assert (exists l, sql_hole ctx k = Ok l) as [l ->] by (unfold sql_hole; destruct (obj_get k ctx); [apply Lit_sqlValue|by eexists]).
    destruct (IH t) as [rest ->]. by eexists.
  - destruct s as [|a r]; [by eexists|]. destruct (IH r) as [rest ->]. by eexists.
Qed.

(** [renderValue] and [renderMap]. *)
Definition renderValue (v : value) (ctx : tmplContext) : value :=
  match v with
  | VStr s =>
      match placeholder s with
      | Some (k, EmptyString) => default (VStr "") (obj_get k ctx)
      | _ => VStr (render s ctx)
      end
  | _ => v
  end.
Definition renderMap (m : object) (ctx : tmplContext) : object := (fun kv => (kv.1, renderValue kv.2 ctx)) <$> m.

(** ** Helpers *)

Definition policySub := "policy".
Definition policyPrincipal (tenant : string) : Principal :=
  mkPrincipal policySub "Automatic approval under policy" "" tenant ["policy"] "policy" true ∅.

(** [principalAuthor]: the subject and the role, never the name. *)
Definition principalAuthor (p : Principal) : Author := mkAuthor (Sub p) "" (Acting p).

Definition displayName `{GoUnicode} (wf : option Workflow) : string :=
  match wf with
  | None => "proposal"
  | Some wf => if String.eqb (w_Title wf) "" then ReplaceAll1 (w_Name wf) "_" " " else ToLower (w_Title wf)
  end.

(** [validateEvidence]. *)
Definition validateEvidence (wf : Workflow) (evidence : list (string * string)) : res unit :=
  _ ← check_all (fun e =>
        refuse_if (ev_Required e && String.eqb (default "" (assoc (ev_Key e) evidence)) "")
          (Errorf "%s requires %s" [w_Name wf; orDefault (ev_Title e) (ev_Key e)])) (w_Evidence wf);
  check_all (fun kd =>
    _ ← refuse_if (negb (containsString (ev_Key <$> w_Evidence wf) kd.1)) (Errorf "%s does not ask for %s" [w_Name wf; kd.1]);
    refuse_if (negb (sha256Hex kd.2)) (Errorf "evidence %s must be a SHA-256 digest in lower-case hex" [kd.1])) evidence.

Definition refs_relate (taskID : string) (refs : list Ref) : list Ref := mkRef RefRelates taskID :: refs.

Definition is_decided (state : string) : bool := containsString [TaskApproved; TaskRejected; TaskWithdrawn] state.

Section workflow.
Context `{Runtime} `{GoFormats}.
Variable r : Register.

(** [decodeTask]. *)
Definition decodeTask (row : Row) : res Task :=
  evidence ← (if String.eqb (Bytes row "evidence") "" then Ok []
              else match decode_fields (Bytes row "evidence") with
                   | Ok m => Ok m
                   | Err e => Err (Wrapf "register: proposal %s: evidence: %w" [Str row "id"] e)
                   end);
  Ok (mkTask (Str row "id") (Str row "tenant") (Str row "workflow") (Str row "class") (Str row "object_id")
        (Str row "state") (Str row "proposer_sub") (Str row "proposer_role") (Str row "counterparty")
        (Str row "counterparty_state") [] evidence (Str row "message") (Int row "created_at") (Int row "updated_at")
        (Str row "decided_by") (Int row "decided_at") (Str row "decision_reason") [] false (Str row "txid")).

Definition with_task_payload (t : Task) (payload : object) (redacted : bool) : Task :=
  mkTask (tk_ID t) (tk_Tenant t) (tk_Workflow t) (tk_Class t) (tk_ObjectID t) (tk_State t) (tk_ProposerSub t)
    (tk_ProposerRole t) (tk_Counterparty t) (tk_CounterpartyState t) payload (tk_Evidence t) (tk_Message t)
    (tk_CreatedAt t) (tk_UpdatedAt t) (tk_DecidedBy t) (tk_DecidedAt t) (tk_DecisionReason t) (tk_Blockers t)
    redacted (tk_TxID t).
Definition with_blockers (t : Task) (blockers : list string) : Task :=
  mkTask (tk_ID t) (tk_Tenant t) (tk_Workflow t) (tk_Class t) (tk_ObjectID t) (tk_State t) (tk_ProposerSub t)
    (tk_ProposerRole t) (tk_Counterparty t) (tk_CounterpartyState t) (tk_Payload t) (tk_Evidence t) (tk_Message t)
    (tk_CreatedAt t) (tk_UpdatedAt t) (tk_DecidedBy t) (tk_DecidedAt t) (tk_DecisionReason t) blockers
    (tk_Redacted t) (tk_TxID t).

(** [taskByIDAs] and [taskByID]. *)
Definition taskByIDAs (p : option Principal) (id : string) : M Task :=
  row ← select_one "tasks" [is_ "id" (VStr id)];
  row ← lift (of_option row (Errorf "no proposal %s" [id]));
  task ← lift (decodeTask row);
  opened ← openProposal r p (tk_Tenant task) (tk_ID task) (Bytes row "payload");
  mret (with_task_payload task opened.1 opened.2).
Definition taskByID (id : string) : M Task := taskByIDAs None id.

(** [templateContext]. *)
Definition templateContext (p : Principal) (taskID objectID : string) (payload : object) : M tmplContext :=
  t ← now;
  let ctx := [("task.id", VStr taskID); ("object.id", VStr objectID); ("actor.sub", VStr (Sub p));
              ("actor.display", VStr (Display p)); ("actor.role", VStr (Acting p)); ("tenant", VStr (p_Tenant p));
              ("today", VStr (format_date t)); ("now", VStr (format_rfc3339 t))] in
  let ctx := fold_left (fun c kv => obj_set ("payload." +:+ kv.1) kv.2 c) payload ctx in
  if String.eqb objectID "" then mret ctx else
  row ← attempt (select_one "objects" [is_ "id" (VStr objectID)]);
  mret (match row with
        | Some (Some row) =>
            obj_set "object.status" (VStr (Str row "status"))
              (obj_set "object.class" (VStr (Str row "class"))
                (obj_set "object.natural_key" (VStr (Str row "natural_key")) ctx))
        | _ => ctx
        end).

(** [Tx.Count] of a declared SELECT: the value of the first row. *)
Definition count_query (text : string) : M Z :=
  row ← query_one (SQuery text);
  mret (match row with
        | Some row => match map_to_list row with (_, v) :: _ => AsInt v | [] => 0 end
        | None => 0
        end).

Definition condition_holds (c : Condition) (n : Z) : bool :=
  (String.eqb (cd_Expect c) ExpectZero && (n =? 0)) || (String.eqb (cd_Expect c) ExpectNonZero && negb (n =? 0)).
Definition condition_message (c : Condition) : string :=
  if negb (String.eqb (cd_Message c) "") then cd_Message c
  else if negb (String.eqb (cd_Description c) "") then cd_Description c
  else "condition " +:+ cd_ID c +:+ " does not hold".

Fixpoint evaluate (conds : list Condition) (ctx : tmplContext) (blockers : list string) : M (list string * string) :=
  match conds with
  | [] => mret (blockers, "")
  | c :: conds =>
      text ← lift (renderSQL (cd_SQL c) ctx);
      n ← wrapping "condition %s: %w" [cd_ID c] (count_query text);
      if condition_holds c n then evaluate conds ctx blockers
      else if String.eqb (cd_OnFail c) OnFailReject then mret (blockers, condition_message c)
      else evaluate conds ctx (blockers ++ [condition_message c])
  end.
(** [evaluateConditions]. *)
Definition evaluateConditions (wf : Workflow) (ctx : tmplContext) : M (list string * string) :=
  evaluate (w_Conditions wf) ctx [].

Definition nil_class {A} : M A := throw (Errorf "panic: runtime error: invalid memory address or nil pointer dereference" []).
Definition class_of (name : string) : M Class_ :=
  match Class (pk r) name with Some c => mret c | None => nil_class end.

(** [closeLinkOps]. *)
Definition closeLinkOps (w : writeCtx) (e : Effect) (ctx : tmplContext) : M (list WriteOp) :=
  class ← class_of (e_Class e);
  let clauses := is_ "tenant" (VStr (wc_tenant w))
                 :: ((fun kv => is_ kv.1 (renderValue kv.2 ctx)) <$> merge_sort key_le (e_Match e)) in
  row ← query_one (SSelect (QueryTable class) clauses None (Some 1%nat));
  match row with
  | None => if e_Optional e then mret [] else throw (Errorf "no open %s to close" [c_Name class])
  | Some row =>
      let target := Str row "object_id" in
      current ← headVersion r class target;
      let payload := fold_left (fun acc kv => obj_set kv.1 (renderValue kv.2 ctx) acc)
                       (merge_sort key_le (e_Set e)) (rv_Payload current) in
      updateOps r w class target payload (e_Status e)
  end.

(** What one effect adds: its write ops, the write context and the
    template context it leaves, and the record the workflow is about. *)
Record effect_state := mkEffectState {
  es_w : writeCtx;
  es_ctx : tmplContext;
  es_object : string;
  es_ops : list WriteOp;
}.

Definition add_ops (s : effect_state) (next : list WriteOp) : effect_state :=
  mkEffectState (es_w s) (es_ctx s) (es_object s) (es_ops s ++ next).

Definition record_effect (wf : Workflow) (task : Task) (class : Class_) (s : effect_state) : M effect_state :=
  if String.eqb (w_Action wf) ActionCreate then
    c ← createOps r (es_w s) class (tk_Payload task) "";
    let '(id, next, w) := c in
    mret (mkEffectState w (obj_set "object.id" (VStr id) (es_ctx s)) id (es_ops s ++ next))
  else if String.eqb (w_Action wf) ActionUpdate || String.eqb (w_Action wf) ActionCorrect then
    next ← updateOps r (es_w s) class (es_object s) (tk_Payload task) "";
    mret (add_ops s next)
  else if String.eqb (w_Action wf) ActionStatus then
    next ← statusOps r (es_w s) class (es_object s) (w_Status wf);
    mret (add_ops s next)
  else mret s.

Definition set_status_effect (class : Class_) (e : Effect) (s : effect_state) : M effect_state :=
  let target := if String.eqb (e_Target e) "" then es_object s else render (e_Target e) (es_ctx s) in
  if String.eqb target "" then
    if e_Optional e then mret s else throw (Errorf "no target record" [])
  else
    targetClass ← (if String.eqb (e_Class e) "" then mret class else class_of (e_Class e));
    next ← statusOps r (es_w s) targetClass target (e_Status e);
    mret (add_ops s next).

Definition create_effect (e : Effect) (s : effect_state) : M effect_state :=
  target ← class_of (e_Class e);
  c ← createOps r (es_w s) target (renderMap (e_Payload e) (es_ctx s)) (e_Status e);
  let '(created, next, w) := c in
  mret (mkEffectState w (obj_set ("created." +:+ e_Class e +:+ ".id") (VStr created) (es_ctx s))
          (if String.eqb (e_Type e) EffectCreate && String.eqb (es_object s) "" then created else es_object s)
          (es_ops s ++ next)).

Definition one_effect (wf : Workflow) (task : Task) (class : Class_) (e : Effect) (s : effect_state) : M effect_state :=
  if String.eqb (e_Type e) EffectRecord then record_effect wf task class s
  else if String.eqb (e_Type e) EffectSetStatus then set_status_effect class e s
  else if String.eqb (e_Type e) EffectCreate || String.eqb (e_Type e) EffectOpenLink then create_effect e s
  else if String.eqb (e_Type e) EffectCloseLink then
    next ← closeLinkOps (es_w s) e (es_ctx s); mret (add_ops s next)
  else throw (Errorf "unknown effect %q" [e_Type e]).

(** [effectOps]. *)
Definition default_effect : Effect := mkEffect EffectRecord "" "" "" [] [] [] false.
Definition effectOps (w : writeCtx) (wf : Workflow) (task : Task) (ctx : tmplContext) : M effect_state :=
  let effects := match w_Effects wf with [] => [default_effect] | l => l end in
  class ← class_of (w_Class wf);
  s ← fold (fun s ie => wrapping "%s effect %d (%s): %w" [w_Name wf; itoa ie.1; e_Type ie.2]
                          (one_effect wf task class ie.2 s))
        (indexed 0 effects) (mkEffectState w ctx (tk_ObjectID task) []);
  _ ← guard_ (String.eqb (es_object s) "") (Errorf "%s produced no record" [w_Name wf]);
  mret s.

(** The entry that moves a task to a terminal state. *)
Definition task_op (id : string) (values : object) : WriteOp := upsert "tasks" [("id", VStr id)] values.
Definition decided_values (state by_ reason : string) (at_ : Z) : object :=
  [("state", VStr state); ("updated_at", VInt at_); ("decided_by", VStr by_); ("decided_at", VInt at_);
   ("decision_reason", VStr (clip reason 255))].

(** [decide], rejecting. *)
Definition reject (p : Principal) (wf : Workflow) (task : Task) (d : Decision) (at_ : Z) : M (Transaction * Task) :=
  closed ← closeProposal (tk_Tenant task) (tk_ID task) at_;
  let env := mkEnvelope KindTaskReject (tk_Tenant task) (tk_Class task) ""
               (if String.eqb (tk_ObjectID task) "" then [] else [tk_ObjectID task]) (principalAuthor p) at_
               (composeMessage (clip (orDefault (dec_Message d) ("Reject " +:+ displayName (Some wf))) MaxSummary)
                  (orDefault (dec_Body d) (dec_Reason d)))
               (refs_relate (tk_ID task) (dec_Refs d)) in
  txn ← commit env (task_op (tk_ID task) (decided_values TaskRejected (Sub p) (dec_Reason d) at_) :: closed);
  updated ← taskByID (tk_ID task);
  mret (txn, updated).

(** [decide], approving. *)
Definition approve (p : Principal) (wf : Workflow) (task : Task) (d : Decision) (at_ : Z) (ctx : tmplContext)
    : M (Transaction * Task) :=
  verdict ← evaluateConditions wf ctx;
  let '(blockers, rejected) := verdict in
  _ ← guard_ (negb (String.eqb rejected "")) (Errorf "cannot approve: %s" [rejected]);
  _ ← guard_ (match blockers with [] => false | _ => String.eqb (Sub p) policySub end)
        (Errorf "cannot approve under policy: %s" [Join blockers "; "]);
  s ← effectOps (newWriteCtx (p_Tenant p) at_) wf task ctx;
  let ctx := obj_set "object.id" (VStr (es_object s)) (es_ctx s) in
  closed ← closeProposal (tk_Tenant task) (tk_ID task) at_;
  let summary := if String.eqb (dec_Message d) "" then render (w_Message wf) ctx else dec_Message d in
  let correct := String.eqb (w_Action wf) ActionCorrect && negb (String.eqb (tk_ObjectID task) "") in
  let env := mkEnvelope (if correct then KindRecordCorrect else KindTaskApprove) (tk_Tenant task) (tk_Class task) ""
               [es_object s] (principalAuthor p) at_
               (composeMessage (clip summary MaxSummary) (orDefault (dec_Body d) (dec_Reason d)))
               ((mkRef RefApproves (tk_ID task) :: dec_Refs d)
                ++ (if correct then [mkRef RefCorrects (tk_ObjectID task)] else [])) in
  txn ← commit env
    (es_ops s
     ++ [task_op (tk_ID task)
           (("object_id", VStr (es_object s)) :: decided_values TaskApproved (Sub p) (dec_Reason d) at_)]
     ++ closed);
  updated ← taskByID (tk_ID task);
  mret (txn, updated).

(** [decide]. *)
Definition decide (p : Principal) (wf : Workflow) (task : Task) (d : Decision) : M (Transaction * Task) :=
  at_ ← now;
  ctx ← templateContext p (tk_ID task) (tk_ObjectID task) (tk_Payload task);
  if dec_Approve d then approve p wf task d at_ ctx else reject p wf task d at_.

Definition auto_approval : Decision := mkDecision true "approved under policy: every condition held" "" "" [].

(** ** Propose *)

(** The checks before the store is taken. *)
Definition check_proposer (p : Principal) (workflowName : string) (wf : Workflow) : res unit :=
  _ ← refuse_if (negb (CanOn p PermPropose workflowName)) (Errorf "%s may not propose %s" [Acting p; workflowName]);
  refuse_if (negb (containsString (w_ProposeRoles wf) (Acting p)))
    (Errorf "%s is not a proposing role for %s" [Acting p; workflowName]).

Definition check_proposal (workflowName : string) (wf : Workflow) (class : Class_) (req : ProposeRequest) : res unit :=
  _ ← validateEvidence wf (default [] (req_Evidence req));
  _ ← (match w_compiledInput wf with
       | Some input =>
           match JsonSchema.Validate input (VObj (req_Payload req)) with
           | Ok u => Ok u
           | Err e => Err (Wrapf "proposal does not match the workflow input: %w" [] e)
           end
       | None => Ok tt
       end);
  let matches_class :=
    match JsonSchema.Validate (Compiled class) (VObj (req_Payload req)) with
    | Ok u => Ok u
    | Err e => Err (Wrapf "proposed record does not match the %s schema: %w" [c_Name class] e)
    end in
  _ ← (if String.eqb (w_Action wf) ActionCreate then
         _ ← refuse_if (negb (String.eqb (req_ObjectID req) "")) (Errorf "%s creates a record and takes no object" [workflowName]);
         matches_class
       else refuse_if (String.eqb (req_ObjectID req) "") (Errorf "%s needs the record it is about" [workflowName]));
  match w_compiledInput wf with
  | None => if String.eqb (w_Action wf) ActionUpdate || String.eqb (w_Action wf) ActionCorrect then matches_class else Ok tt
  | Some _ => Ok tt
  end.

Definition check_target (p : Principal) (class : Class_) (req : ProposeRequest) : M unit :=
  if String.eqb (req_ObjectID req) "" then mret tt else
  row ← objectRow (p_Tenant p) (req_ObjectID req);
  guard_ (negb (String.eqb (Str row "class") (c_Name class)))
    (Errorf "%s is a %s, not a %s" [req_ObjectID req; Str row "class"; c_Name class]).

(** The counterparty a proposal names, and the state it starts in. *)
Definition initial_state (workflowName : string) (wf : Workflow) (req : ProposeRequest) : res (string * string) :=
  match w_Counterparty wf with
  | None => Ok ("", TaskAwaitingReview)
  | Some cp =>
      match obj_get (cy_Field cp) (req_Payload req) with
      | Some v =>
          _ ← refuse_if (String.eqb (Sprint v) "") (Errorf "%s needs %s, the party who must accept" [workflowName; cy_Field cp]);
          Ok (Sprint v, TaskAwaitingCounterparty)
      | None => Err (Errorf "%s needs %s, the party who must accept" [workflowName; cy_Field cp])
      end
  end.

Definition new_task_values (p : Principal) (wf : Workflow) (class : Class_) (req : ProposeRequest)
    (state counterparty payload evidence summary : string) (blockers : list string) (at_ : Z) : object :=
  [("tenant", VStr (p_Tenant p)); ("workflow", VStr (w_Name wf)); ("class", VStr (c_Name class));
   ("object_id", VStr (req_ObjectID req)); ("state", VStr state);
   ("proposer_sub", VStr (Sub p)); ("proposer_role", VStr (Acting p));
   ("counterparty", VStr counterparty); ("counterparty_state", VStr "");
   ("payload", VBinary payload); ("evidence", VBinary evidence);
   ("message", VStr (clip summary 255)); ("created_at", VInt at_); ("updated_at", VInt at_);
   ("decided_by", VStr ""); ("decided_at", VInt 0); ("decision_reason", VStr (Join blockers "; "));
   ("txid", VStr TxIDPlaceholder)].

Definition evidence_value (e : option (list (string * string))) : value :=
  match e with None => VNull | Some l => VObj ((fun kv => (kv.1, VStr kv.2)) <$> l) end.

Definition propose_tx (p : Principal) (workflowName : string) (wf : Workflow) (class : Class_) (req : ProposeRequest) : M Outcome :=
  _ ← check_target p class req;
  taskID ← NewTaskID;
  at_ ← now;
  ctx ← templateContext p taskID (req_ObjectID req) (req_Payload req);
  verdict ← evaluateConditions wf ctx;
  let '(blockers, rejected) := verdict in
  _ ← guard_ (negb (String.eqb rejected "")) (Errorf "%s cannot be proposed: %s" [workflowName; rejected]);
  start ← lift (initial_state workflowName wf req);
  let '(counterparty, state) := start in
  sealed ← sealProposal r (newWriteCtx (p_Tenant p) at_) (proposalPII wf class) taskID (req_Payload req);
  evidence ← lift (Marshal (evidence_value (req_Evidence req)));
  let summary := if String.eqb (req_Message req) "" then "Propose " +:+ displayName (Some wf) else req_Message req in
  let env := mkEnvelope KindTaskPropose (p_Tenant p) (c_Name class) ""
               (if String.eqb (req_ObjectID req) "" then [] else [req_ObjectID req]) (principalAuthor p) at_
               (composeMessage (clip summary MaxSummary) (req_Body req)) (refs_relate taskID (req_Refs req)) in
  proposal ← commit env
    (sealed.2 ++ [task_op taskID (new_task_values p wf class req state counterparty sealed.1 evidence summary blockers at_)]);
  task ← taskByID taskID;
  let task := with_blockers task blockers in
  if String.eqb state TaskAwaitingReview && w_AutoApprove wf && match blockers with [] => true | _ => false end then
    decided ← decide (policyPrincipal (p_Tenant p)) wf task auto_approval;
    mret (mkOutcome decided.2 proposal (Some decided.1) (tk_ObjectID decided.2))
  else mret (mkOutcome task proposal None (req_ObjectID req)).

(** [Register.Propose]. *)
Definition Propose (p : Principal) (workflowName : string) (req : ProposeRequest) : M Outcome :=
  wf ← lift (of_option (Workflow_ (pk r) workflowName) (Errorf "no workflow named %q" [workflowName]));
  _ ← lift (check_proposer p workflowName wf);
  class ← class_of (w_Class wf);
  _ ← lift (check_proposal workflowName wf class req);
  Do (propose_tx p workflowName wf class req).

(** ** Accept *)

Definition accept_values (accept : bool) (reason : string) (at_ : Z) : object :=
  [("state", VStr (if accept then TaskAwaitingReview else TaskRejected));
   ("counterparty_state", VStr (if accept then "accepted" else "declined"));
   ("updated_at", VInt at_); ("decision_reason", VStr (clip reason 255))].

Definition accept_tx (p : Principal) (taskID : string) (accept : bool) (reason : string) : M Outcome :=
  task ← taskByID taskID;
  let declared := Workflow_ (pk r) (tk_Workflow task) in
  wf ← lift (of_option (match declared with
                        | Some wf => match w_Counterparty wf with Some _ => Some wf | None => None end
                        | None => None end)
               (Errorf "%s is not a two-party workflow" [tk_Workflow task]));
  _ ← guard_ (negb (String.eqb (tk_State task) TaskAwaitingCounterparty))
        (Errorf "this proposal is %s and is not waiting for you" [tk_State task]);
  _ ← guard_ (negb (String.eqb (tk_Counterparty task) (Sub p))) (Errorf "only %s can answer this proposal" [tk_Counterparty task]);
  at_ ← now;
  closed ← (if accept then mret [] else closeProposal (tk_Tenant task) (tk_ID task) at_);
  let env := mkEnvelope (if accept then KindTaskAccept else KindTaskReject) (tk_Tenant task) (tk_Class task) ""
               (if String.eqb (tk_ObjectID task) "" then [] else [tk_ObjectID task]) (principalAuthor p) at_
               (composeMessage ("Counterparty " +:+ (if accept then "accepted" else "declined") +:+ " " +:+ displayName (Some wf)) reason)
               [mkRef RefRelates (tk_ID task)] in
  txn ← commit env (task_op (tk_ID task) (accept_values accept reason at_) :: closed);
  updated ← taskByID (tk_ID task);
  let out := mkOutcome updated txn None (tk_ObjectID task) in
  if accept && w_AutoApprove wf then
    ctx ← templateContext p (tk_ID task) (tk_ObjectID task) (tk_Payload task);
    verdict ← evaluateConditions wf ctx;
    match verdict.1 with
    | [] =>
        decided ← decide (policyPrincipal (tk_Tenant task)) wf updated auto_approval;
        mret (mkOutcome decided.2 txn (Some decided.1) (tk_ObjectID decided.2))
    | _ => mret out
    end
  else mret out.

(** [Register.Accept]. *)
Definition Accept (p : Principal) (taskID : string) (accept : bool) (reason : string) : M Outcome :=
  Do (accept_tx p taskID accept reason).

(** ** Decide *)

Definition decide_tx (p : Principal) (taskID : string) (d : Decision) : M Outcome :=
  task ← taskByID taskID;
  wf ← lift (of_option (Workflow_ (pk r) (tk_Workflow task))
               (Errorf "this register no longer declares workflow %q" [tk_Workflow task]));
  _ ← guard_ (negb (CanOn p PermApprove (w_Name wf)) || negb (containsString (w_ApproveRoles wf) (Acting p)))
        (Errorf "%s may not decide %s" [Acting p; w_Name wf]);
  _ ← guard_ (w_Independence wf && String.eqb (tk_ProposerSub task) (Sub p))
        (Errorf "separation of duties: %s proposed this and may not also decide it" [Sub p]);
  _ ← guard_ (negb (String.eqb (tk_State task) TaskAwaitingReview))
        (Errorf "this proposal is %s and is not awaiting a decision" [tk_State task]);
  decided ← decide p wf task d;
  mret (mkOutcome decided.2 decided.1 (if dec_Approve d then Some decided.1 else None) (tk_ObjectID decided.2)).

(** [Register.Decide]. *)
Definition Decide (p : Principal) (taskID : string) (d : Decision) : M Outcome := Do (decide_tx p taskID d).

(** ** Withdraw *)

Definition withdraw_tx (p : Principal) (taskID reason : string) : M Outcome :=
  task ← taskByID taskID;
  _ ← guard_ (negb (String.eqb (tk_ProposerSub task) (Sub p))) (Errorf "only the proposer can withdraw a proposal" []);
  _ ← guard_ (negb (containsString [TaskProposed; TaskAwaitingReview; TaskAwaitingCounterparty] (tk_State task)))
        (Errorf "this proposal is %s and cannot be withdrawn" [tk_State task]);
  at_ ← now;
  closed ← closeProposal (tk_Tenant task) (tk_ID task) at_;
  let env := mkEnvelope KindTaskWithdraw (tk_Tenant task) (tk_Class task) "" [] (principalAuthor p) at_
               (composeMessage ("Withdraw " +:+ displayName (Workflow_ (pk r) (tk_Workflow task))) reason)
               [mkRef RefRelates (tk_ID task)] in
  txn ← commit env (task_op (tk_ID task) (decided_values TaskWithdrawn (Sub p) reason at_) :: closed);
  updated ← taskByID (tk_ID task);
  mret (mkOutcome updated txn None (tk_ObjectID task)).

(** [Register.Withdraw]. *)
Definition Withdraw (p : Principal) (taskID reason : string) : M Outcome := Do (withdraw_tx p taskID reason).
End workflow.
