(* ===== verification/WorkflowCorrect.v ===== *)
(** * Proposals move as the workflow says

    The state machine of a proposal: who may move it, from which state to
    which, that a decided proposal never moves again, and that closing a
    proposal destroys the key its personal fields were sealed with. *)

From S2P Require Import Prelude GoStrings Float64 Encoding Canon Json SqlText Sql Rbac JsonSchema Pack Model World Concrete Commit Replay Byok Records RecordsCorrect Landing Workflow.
Local Open Scope Z_scope.

(** ** Reading a proposal *)
Section tasks.
Context `{Runtime} `{GoFormats}.
Variable r : Register.

Lemma ro_taskByIDAs p id : ro (taskByIDAs r p id).
Proof. unfold taskByIDAs. ro_tac. Qed.
Lemma ro_templateContext p tid oid pl : ro (templateContext p tid oid pl).
Proof. unfold templateContext. ro_tac. Qed.
Lemma ro_evaluate conds ctx : forall blockers, ro (evaluate conds ctx blockers).
Proof.
  induction conds as [|c conds IH]; intros bl; cbn [evaluate]; [apply ro_ret|].
  apply ro_bind; [apply ro_lift|]. intros text. apply ro_bind; [unfold wrapping, count_query; ro_tac|]. intros n.
  destruct (condition_holds c n); [apply IH|]. destruct (String.eqb _ _); [apply ro_ret|apply IH].
Qed.

(** A task as read, and the row it was read from. *)
Record read_task (w : world) (id : string) (task : Task) (m : table) (row : Row) : Prop := {
  rt_table : visible w !! "tasks" = Some m;
  rt_row : m !! [SStr id] = Some row;
  rt_id : tk_ID task = id;
  rt_state : tk_State task = Str row "state";
  rt_proposer : tk_ProposerSub task = Str row "proposer_sub";
  rt_counterparty : tk_Counterparty task = Str row "counterparty";
  rt_workflow : tk_Workflow task = Str row "workflow";
  rt_tenant : tk_Tenant task = Str row "tenant";
}.

Lemma taskByID_Ok id w task w' :
  wf_db (visible w) -> taskByID r id w = (Ok task, w') -> same_db w w' /\ exists m row, read_task w id task m row.
Proof.
  intros W E. pose proof (ro_taskByIDAs None id _ _ _ E) as Hsame. split; [done|].
  unfold taskByID, taskByIDAs in E. m_inv.
  change [is_ "id" (VStr id)] with (key_where "tasks" [VStr id]) in *.
  match goal with H : select_one _ _ _ = _ |- _ => apply select_one_key in H as (-> & m & Hm & Hx); [|done|] end.
  2:{ apply Forall2_cons_2; [by exists (CText 96)|apply Forall2_nil_2]. }
  match goal with H : of_option _ _ = Ok ?row |- _ => apply of_option_Ok in H; rename H into Hrow, row into rw end.
  rewrite Hx in Hrow. change (lit <$> [VStr id]) with [SStr id] in Hrow.
  exists m, rw.
  match goal with H : decodeTask _ = Ok ?t |- _ => rename H into Hd, t into t0 end.
  assert (exists ev, t0 = mkTask (Str rw "id") (Str rw "tenant") (Str rw "workflow") (Str rw "class") (Str rw "object_id")
        (Str rw "state") (Str rw "proposer_sub") (Str rw "proposer_role") (Str rw "counterparty")
        (Str rw "counterparty_state") [] ev (Str rw "message") (Int rw "created_at") (Int rw "updated_at")
        (Str rw "decided_by") (Int rw "decided_at") (Str rw "decision_reason") [] false (Str rw "txid")) as [ev ->].
  { unfold decodeTask in Hd. res_inv. eauto. }
  destruct (W _ _ Hm _ _ Hrow) as [Hpk _]. injection Hpk as Hid.
  split; cbn [with_task_payload tk_ID tk_State tk_ProposerSub tk_Counterparty tk_Workflow tk_Tenant]; try done.
  unfold Str. by rewrite <- Hid.
Qed.
End tasks.

(** ** Refusals *)
Section refusals.
Context `{Runtime} `{GoFormats}.
Variable r : Register.

(** An operation that reads a task, and then stops on its state, leaves
    the ledger alone. *)
Definition stops_on (P : Task -> Prop) {A} (k : Task -> M A) : Prop :=
  forall task w, P task -> exists e, k task w = (Err e, w).

Lemma read_then_stop {A} (k : Task -> M A) (P : Task -> Prop) id w :
  stops_on P k ->
  (forall task w', taskByID r id w = (Ok task, w') -> P task) ->
  exists e w', Do (taskByID r id ≫= k) w = (Err e, w') /\ same_ledger w w'.
Proof.
  intros Hk HP. unfold Do, mbind, M_bind. destruct (taskByID r id w) as [[task|e] w1] eqn:E.
  - destruct (Hk task w1) as [e He]; [by eapply HP|]. rewrite He. exists e, (set_txn None w1). split; [done|].
    apply ro_taskByIDAs in E. etrans; [by apply same_db_ledger|]. apply set_txn_ledger.
  - exists e, (set_txn None w1). split; [done|].
    apply ro_taskByIDAs in E. etrans; [by apply same_db_ledger|]. apply set_txn_ledger.
Qed.

Lemma stop_lift {A B} (x : res A) (k : A -> M B) w :
  (forall a, x = Ok a -> exists e, k a w = (Err e, w)) -> exists e, (lift x ≫= k) w = (Err e, w).
Proof. intros Hk. unfold mbind, M_bind, lift. destruct x as [a|e]; [by apply Hk|by exists e]. Qed.

Lemma stop_guard {B} c (err : error) (k : unit -> M B) w :
  (c = false -> exists e, k tt w = (Err e, w)) -> exists e, (guard_ c err ≫= k) w = (Err e, w).
Proof. intros Hk. apply stop_lift. intros [] Ha. apply Hk. by apply refuse_if_Ok in Ha. Qed.

Lemma decided_cases s : is_decided s = true -> s = TaskApproved \/ s = TaskRejected \/ s = TaskWithdrawn.
Proof.
  unfold is_decided. intros Hd. apply containsString_elem in Hd. rewrite !elem_of_cons, elem_of_nil in Hd. tauto.
Qed.
End refusals.

(** C16. A decided proposal never moves again. Once a task is approved,
    rejected or withdrawn, no counterparty can answer it, nobody can
    decide it and its proposer cannot withdraw it: every such call, by
    whoever makes it and whatever it says, fails and leaves tables,
    version, root and notifications as they were. *)
Theorem decided_is_final `{Runtime} `{GoFormats} (r : Register) (id : string) (w : world) (m : table) (row : Row)
    (p : Principal) (accept : bool) (reason : string) (d : Decision) :
  wf_db (visible w) -> visible w !! "tasks" = Some m -> m !! [SStr id] = Some row ->
  is_decided (Str row "state") = true ->
  (exists e w', Accept r p id accept reason w = (Err e, w') /\ same_ledger w w') /\
  (exists e w', Decide r p id d w = (Err e, w') /\ same_ledger w w') /\
  (exists e w', Withdraw r p id reason w = (Err e, w') /\ same_ledger w w').
Proof.
  intros W Hm Hrow Hd.
  assert (forall task w', taskByID r id w = (Ok task, w') -> is_decided (tk_State task) = true) as HP.
  { intros task w' E. apply taskByID_Ok in E as (_ & m' & row' & R); [|done].
    rewrite (rt_state _ _ _ _ _ R). pose proof (rt_table _ _ _ _ _ R). pose proof (rt_row _ _ _ _ _ R).
    assert (m' = m) as -> by congruence. by assert (row' = row) as -> by congruence. }
  split_and!; (eapply read_then_stop; [|exact HP]); intros task w1 Ht; apply decided_cases in Ht.
  - apply stop_lift. intros wf _. apply stop_guard. intros Hs. bool_hyps. rewrite Hs in Ht. naive_solver.
  - apply stop_lift. intros wf _. apply stop_guard. intros _. apply stop_guard. intros _. apply stop_guard.
    intros Hs. bool_hyps. rewrite Hs in Ht. naive_solver.
  - apply stop_guard. intros _. apply stop_guard. intros Hs. bool_hyps. apply containsString_elem in Hs.
    rewrite !elem_of_cons, elem_of_nil in Hs. destruct Ht as [Ht|[Ht|Ht]]; rewrite Ht in Hs; naive_solver.
Qed.

(** ** Moving a proposal *)
Section moves.
Context `{Runtime} `{GoFormats}.
Variable r : Register.

(** Nothing is left in the store to open what the scope's key sealed. *)
Definition key_gone (db : tables) (scope : string) : Prop :=
  forall m row, db !! "dek_keys" = Some m -> m !! [SStr scope] = Some row ->
    Int row "destroyed_at" <> 0 \/ (Bytes row "op_wrap" = "" /\ Bytes row "rec_wrap" = "").

Lemma taskScope_plain tenant id : taskScope tenant id <> TxIDPlaceholder.
Proof.
  intros E. apply (f_equal String.length) in E. unfold taskScope in E. rewrite !string_length_app in E. cbn in E. lia.
Qed.

Lemma live_key_None scope w w' :
  wf_db (visible w) -> live_key scope w = (Ok None, w') ->
  forall m row, visible w !! "dek_keys" = Some m -> m !! [SStr scope] = Some row -> Int row "destroyed_at" <> 0.
Proof.
  intros W E m row Hm Hrow. unfold live_key in E. m_inv.
  change [is_ "scope" (VStr scope)] with (key_where "dek_keys" [VStr scope]) in *.
  match goal with H : select_one _ _ _ = _ |- _ => apply select_one_key in H as (-> & m' & Hm' & Hx); [|done|] end.
  2:{ apply Forall2_cons_2; [by eexists|apply Forall2_nil_2]. }
  assert (m' = m) as -> by congruence. change (lit <$> [VStr scope]) with [SStr scope] in Hx. rewrite Hrow in Hx. subst.
  destruct (Z.eqb_spec (Int row "destroyed_at") 0); [discriminate|done].
Qed.

(** Closing a proposal: the entries that do it, and why. *)
Lemma closeProposal_Ok tenant id at_ w closed w' :
  wf_db (visible w) -> closeProposal tenant id at_ w = (Ok closed, w') ->
  same_db w w' /\
  (closed = [] /\ (forall m row, visible w !! "dek_keys" = Some m -> m !! [SStr (taskScope tenant id)] = Some row ->
     Int row "destroyed_at" <> 0) \/
   closed = [destroy_op (taskScope tenant id) at_]).
Proof.
  intros W E. split; [by apply ro_closeProposal in E|]. unfold closeProposal in E. apply M_bind_Ok in E as (key & w1 & E1 & E).
  destruct key; m_inv; [by right|left]. split; [done|]. by eapply live_key_None.
Qed.

(** A key that is there and not destroyed. *)
Definition live_in (db : tables) (scope : string) : Prop := exists row, key_row db scope row /\ Int row "destroyed_at" = 0.
(** The entries that end a key: its destruction when it is live, and
    nothing when there is none to destroy. *)
Definition key_ended (db : tables) (scope : string) (at_ : Z) (ops : list WriteOp) : Prop :=
  (live_in db scope /\ ops = [destroy_op scope at_]) \/ (~ live_in db scope /\ ops = []).
Lemma closeProposal_ended tenant id at_ w closed w' :
  wf_db (visible w) -> closeProposal tenant id at_ w = (Ok closed, w') -> key_ended (visible w) (taskScope tenant id) at_ closed.
Proof.
  intros W E. unfold closeProposal in E. apply M_bind_Ok in E as (key & w1 & E1 & E). apply live_key_inv in E1 as [-> Hk]; [|done].
  destruct key as [row|].
  - apply M_bind_Ok in E as (u & w2 & _ & E). apply M_ret_inv in E as [[= ->] _]. left. split; [by exists row|done].
  - apply M_ret_inv in E as [[= ->] _]. right. split; [|done]. intros (row & Hr & Hd). by eapply Hk.
Qed.

Lemma destroy_op_wf txid scope at_ : op_wf txid (destroy_op scope at_).
Proof. built. Qed.

Lemma closed_wf txid tenant id at_ w closed w' :
  wf_db (visible w) -> closeProposal tenant id at_ w = (Ok closed, w') -> Forall (op_wf txid) closed.
Proof.
  intros W E. apply closeProposal_Ok in E as (_ & [[-> _]| ->]); [constructor| |done].
  apply Forall_cons_2; [apply destroy_op_wf|apply Forall_nil_2].
Qed.

(** A key destroyed by a landed commit is gone. *)
Lemma destroyed_gone env before scope at_ w w' t :
  scope <> TxIDPlaceholder -> landed env (before ++ [destroy_op scope at_]) w w' t -> key_gone (committed w') scope.
Proof.
  intros Hs L m' row Hm' Hrow.
  destruct (committed w !! "dek_keys") as [m|] eqn:Hm.
  2:{ destruct L as (_ & _ & _ & _ & _ & rr & _ & Hc & _). rewrite Hc in Hm'.
      rewrite effects_None in Hm'; [done|]. unfold logged. by rewrite lookup_alter_ne. }
  destruct (landed_row _ _ _ _ _ "dek_keys" m L) as (m2 & Hm2 & Hk); [done..|].
  assert (m2 = m') as -> by congruence. rewrite Hk, row_effects_app in Hrow. cbn in Hrow.
  assert (op_key (tx_TxID t) (destroy_op scope at_) = [SStr scope]) as Hkey.
  { unfold op_key, destroy_op. cbn. destruct (String.eqb_spec scope TxIDPlaceholder); [done|]. done. }
  rewrite decide_True in Hrow by done. right.
  destruct L as (_ & _ & _ & _ & _ & rr & _ & _ & _ & _ & _ & Hconv). apply Forall_app in Hconv as [_ Hconv].
  apply Forall_cons in Hconv as [Hconv _]. unfold Bytes.
  split; erewrite (effect_cell _ _ _ _ _ _ _ Hconv eq_refl Hrow) by (reflexivity || done); reflexivity.
Qed.

(** The state a landed commit leaves a task in, when its entry for the
    task is followed at most by a key's destruction. *)
Lemma task_moved env before tid values closed w w' t m st :
  tid <> TxIDPlaceholder -> st <> TxIDPlaceholder -> Forall (fun op => Table op <> "tasks") closed ->
  obj_get "state" values = Some (VStr st) -> committed w !! "tasks" = Some m ->
  landed env (before ++ task_op tid values :: closed) w w' t ->
  exists m' row', committed w' !! "tasks" = Some m' /\ m' !! [SStr tid] = Some row' /\ cell row' "state" = SStr st.
Proof.
  intros Htid Hst Hclosed Hv Hm L.
  destruct (landed_row _ _ _ _ _ "tasks" m L) as (m' & Hm' & Hk); [done..|].
  specialize (Hk [SStr tid]). rewrite row_effects_app in Hk. cbn in Hk.
  change (fold_left _ closed ?o) with (row_effects (tx_TxID t) closed "tasks" [SStr tid] o) in Hk.
  rewrite row_effects_other in Hk by done.
  assert (op_key (tx_TxID t) (task_op tid values) = [SStr tid]) as Hkey.
  { unfold op_key, task_op. cbn. destruct (String.eqb_spec tid TxIDPlaceholder); [done|]. done. }
  rewrite decide_True in Hk by done.
  assert (exists row', row_effect (tx_TxID t) (task_op tid values) (row_effects (tx_TxID t) before "tasks" [SStr tid] (m !! [SStr tid])) = Some row')
    as [row' Hrow'] by (unfold row_effect; cbn; eauto).
  exists m', row'. split; [done|]. split; [by rewrite Hk|].
  destruct L as (_ & _ & _ & _ & _ & rr & _ & _ & _ & _ & _ & Hconv). apply Forall_app in Hconv as [_ Hconv].
  apply Forall_cons in Hconv as [Hconv _].
  assert (substitute (tx_TxID t) (VStr st) = VStr st) as Hsub by (cbn; by destruct (String.eqb_spec st TxIDPlaceholder)).
  erewrite (effect_cell _ _ _ _ _ _ _ Hconv eq_refl Hrow' Hv); [by rewrite Hsub|reflexivity|by rewrite Hsub].
Qed.

Lemma closed_not_tasks tenant id at_ w closed w' :
  wf_db (visible w) -> closeProposal tenant id at_ w = (Ok closed, w') -> Forall (fun op => Table op <> "tasks") closed.
Proof.
  intros W E. apply closeProposal_Ok in E as (_ & [[-> _]| ->]); [constructor| |done].
  apply Forall_cons_2; [done|apply Forall_nil_2].
Qed.
Lemma task_op_wf txid id values :
  NoDup ((values ++ [("id", VStr id)]).*1) -> containsString values.*1 "id" = false -> op_wf txid (task_op id values).
Proof.
  intros Hn Hid. apply built_op_wf; [by eexists|key_cols|exact Hn|].
  apply forallb_forall. intros c Hc. apply negb_true_iff, containsString_not_elem.
  change (c ∉ ["id"]). rewrite list_elem_of_singleton. intros ->. apply list_elem_of_In in Hc.
  by apply containsString_not_elem in Hid.
Qed.

(** What moving a task to a terminal state leaves behind. *)
Record task_closed (w w' : world) (tenant id st : string) : Prop := {
  tc_version : version w' = to_uint64 (version w + 1);
  tc_state : exists m row, committed w' !! "tasks" = Some m /\ m !! [SStr id] = Some row /\ cell row "state" = SStr st;
  tc_key : key_gone (committed w') (taskScope tenant id);
}.

(** The commit that closes a proposal, after entries of other kinds: it
    answers a retry, or lands, leaves the task in its state, and what key
    was live for the proposal is gone. *)
Lemma closing_lands env before tenant id values at_ st w wa closed wb t wc m :
  commit_moves_one -> store_wf w -> txn w = None -> same_db w wa ->
  closeProposal tenant id at_ wa = (Ok closed, wb) ->
  id <> TxIDPlaceholder -> st <> TxIDPlaceholder -> ops_wf before ->
  (forall txid, op_wf txid (task_op id values)) -> obj_get "state" values = Some (VStr st) ->
  committed w !! "tasks" = Some m ->
  commit env (before ++ task_op id values :: closed) wb = (Ok t, wc) ->
  repeated env (before ++ task_op id values :: closed) w wc \/
  (same_db w wb /\ landed env (before ++ task_op id values :: closed) wb wc t /\
   (exists m row, committed wc !! "tasks" = Some m /\ m !! [SStr id] = Some row /\ cell row "state" = SStr st) /\
   ((closed = [] /\ forall m row, committed wb !! "dek_keys" = Some m -> m !! [SStr (taskScope tenant id)] = Some row ->
       Int row "destroyed_at" <> 0) \/ key_gone (committed wc) (taskScope tenant id))).
Proof.
  intros Hone W Ht Hs Ec Hid Hst Hbefore Hwf Hv Hm E.
  assert (store_wf wa) as Wa by (by eapply store_wf_same).
  pose proof (closeProposal_Ok _ _ _ _ _ _ (store_wf_visible _ Wa) Ec) as [Hs2 Hclosed].
  pose proof (closed_not_tasks _ _ _ _ _ _ (store_wf_visible _ Wa) Ec) as Hnt.
  assert (same_db w wb) as Hsb by (by etrans). pose proof Hsb as (Hcb & Hvb & _ & Htb & _). rewrite Ht in Htb.
  assert (visible wa = committed wb) as Hvis.
  { destruct Hs as (Hca & _ & _ & Hta & _). unfold visible. rewrite Hta, Ht. by rewrite Hcb, Hca. }
  apply commit_Ok_inv in E; [|done|exact (proj1 (store_wf_same wa wb Hs2 Wa))|done|].
  2:{ intros txid. apply Forall_app. split; [apply Hbefore|].
      apply Forall_cons_2; [done|]. eapply closed_wf; [|exact Ec]. by apply store_wf_visible. }
  destruct E as [Hr|L]; [left|right].
  { apply retried_in_log in Hr as [Hl Hin]; [|done]. split; [|by rewrite <- Hcb]. etrans; [by apply same_db_ledger|done]. }
  assert (committed wb !! "tasks" = Some m) as Hmb by congruence.
  split_and!; [done|done|by eapply (task_moved env before id values closed wb wc t m st)|].
  destruct Hclosed as [[-> Hdead]| ->]; [left; split; [done|by rewrite <- Hvis]|right].
  apply (destroyed_gone env (before ++ [task_op id values]) (taskScope tenant id) at_ wb wc t); [apply taskScope_plain|].
  by rewrite <- app_assoc.
Qed.

Lemma closing_commit env tenant id values at_ st w wa closed wb t wc m :
  commit_moves_one -> store_wf w -> txn w = None -> same_db w wa ->
  closeProposal tenant id at_ wa = (Ok closed, wb) ->
  id <> TxIDPlaceholder -> st <> TxIDPlaceholder ->
  (forall txid, op_wf txid (task_op id values)) -> obj_get "state" values = Some (VStr st) ->
  committed w !! "tasks" = Some m ->
  commit env (task_op id values :: closed) wb = (Ok t, wc) ->
  repeated env (task_op id values :: closed) w wc \/ task_closed w wc tenant id st.
Proof.
  intros Hone W Ht Hs Ec Hid Hst Hwf Hv Hm E.
  destruct (closing_lands env [] tenant id values at_ st w wa closed wb t wc m) as [Hr|(Hsb & L & Hst' & Hkey)]; try done.
  { intros txid. apply Forall_nil_2. }
  { by left. }
  right. split; [|done|].
  - destruct L as (_ & _ & _ & _ & _ & rr & _ & _ & Hver & _). destruct Hsb as (_ & Hvb & _). by rewrite Hver, Hvb.
  - destruct Hkey as [[-> Hdead]|?]; [|done]. intros m' row Hm' Hrow. left.
    destruct (committed wb !! "dek_keys") as [mk|] eqn:Hmk.
    2:{ destruct L as (_ & _ & _ & _ & _ & rr & _ & Hc & _). rewrite Hc, effects_None in Hm'; [done|].
        unfold logged. by rewrite lookup_alter_ne. }
    destruct (landed_row _ _ _ _ _ "dek_keys" mk L) as (m2 & Hm2 & Hk); [done..|].
    assert (m2 = m') as -> by congruence. cbn [app] in Hk. rewrite Hk, row_effects_other in Hrow.
    2:{ apply Forall_cons_2; [done|apply Forall_nil_2]. }
    by eapply Hdead.
Qed.

(** Who may decide, and what: the guards before a decision. *)
Record may_decide (p : Principal) (wf : Workflow) (row : Row) : Prop := {
  md_can : CanOn p PermApprove (w_Name wf) = true;
  md_acting : Acting p ∈ w_ApproveRoles wf;
  md_independent : w_Independence wf = true -> Str row "proposer_sub" <> Sub p;
  md_state : Str row "state" = TaskAwaitingReview;
}.

Lemma decide_tx_Ok p id d w out w1 :
  store_wf w -> txn w = None -> decide_tx r p id d w = (Ok out, w1) ->
  exists task wa m row wf t upd, taskByID r id w = (Ok task, wa) /\ same_db w wa /\ read_task w id task m row /\
    committed w !! "tasks" = Some m /\ Workflow_ (pk r) (Str row "workflow") = Some wf /\ may_decide p wf row /\
    decide r p wf task d wa = (Ok (t, upd), w1).
Proof.
  intros W Ht E. unfold decide_tx in E.
  apply M_bind_Ok in E as (task & wa & Et & E). pose proof Et as Et0.
  apply taskByID_Ok in Et as (Hsa & m & row & R); [|by apply store_wf_visible].
  apply M_bind_Ok in E as (wf & wb & El & E). apply lift_Ok in El as [Hwf ->]. apply of_option_Ok in Hwf.
  apply M_bind_Ok in E as (u & wb & Eg & E). apply guard_Ok in Eg as [Hperm ->]. bool_hyps.
  apply M_bind_Ok in E as (u2 & wb & Eg & E). apply guard_Ok in Eg as [Hind ->].
  apply M_bind_Ok in E as (u3 & wb & Eg & E). apply guard_Ok in Eg as [Hst ->]. bool_hyps.
  apply M_bind_Ok in E as ([t upd] & we & Ed & E). apply M_ret_inv in E as [[= ->] ->].
  rewrite (rt_workflow _ _ _ _ _ R) in Hwf.
  exists task, wa, m, row, wf, t, upd. split_and!; try done.
  - rewrite <- (visible_closed w Ht). apply R.
  - split; [done|by apply containsString_elem| |by rewrite <- (rt_state _ _ _ _ _ R)].
    intros Hi. rewrite Hi in Hind. cbn [andb] in Hind. bool_hyps. by rewrite <- (rt_proposer _ _ _ _ _ R).
Qed.

Lemma task_closed_ledger w w1 w2 tenant id st : same_ledger w1 w2 -> task_closed w w1 tenant id st -> task_closed w w2 tenant id st.
Proof.
  intros (Hc & Hv & _) [T1 T2 T3]. split; [by rewrite Hv|by rewrite Hc|by rewrite Hc].
Qed.

Lemma closing_then_read {A} env tenant id values at_ st w wa closed wb t wc m k (a : A) wd :
  commit_moves_one -> store_wf w -> txn w = None -> same_db w wa ->
  closeProposal tenant id at_ wa = (Ok closed, wb) ->
  id <> TxIDPlaceholder -> st <> TxIDPlaceholder ->
  (forall txid, op_wf txid (task_op id values)) -> obj_get "state" values = Some (VStr st) ->
  committed w !! "tasks" = Some m ->
  commit env (task_op id values :: closed) wb = (Ok t, wc) -> ro k -> k wc = (Ok a, wd) ->
  repeated env (task_op id values :: closed) w wd \/ task_closed w wd tenant id st.
Proof.
  intros Hone W Ht Hs Ec Hid Hst Hwf Hv Hm E Hk Ek. apply Hk, same_db_ledger in Ek.
  destruct (closing_commit env tenant id values at_ st w wa closed wb t wc m) as [H1|H1]; try done.
  - left. by eapply repeated_then.
  - right. by eapply task_closed_ledger.
Qed.
End moves.

(** Withdrawing. Only the proposer withdraws, and only a proposal that
    is still open. A withdrawal is one ledger version (unless the very
    same transaction is in the log already, and then nothing changes); it
    leaves the task withdrawn and nothing in the store to open what the
    proposal's key sealed. *)
Lemma withdraw_moves `{Runtime} `{GoFormats} (r : Register) (p : Principal) (id reason : string) (w w' : world) (out : Outcome) :
  commit_moves_one -> store_wf w -> txn w = None -> id <> TxIDPlaceholder ->
  Withdraw r p id reason w = (Ok out, w') ->
  exists m row, committed w !! "tasks" = Some m /\ m !! [SStr id] = Some row /\
    Str row "proposer_sub" = Sub p /\
    Str row "state" ∈ [TaskProposed; TaskAwaitingReview; TaskAwaitingCounterparty] /\
    ((exists env at_ closed, repeated env (task_op id (decided_values TaskWithdrawn (Sub p) reason at_) :: closed) w w') \/
     task_closed w w' (Str row "tenant") id TaskWithdrawn).
Proof.
  intros Hone W Ht Hid E. apply Do_Ok in E as (w1 & E & Hs & _). unfold withdraw_tx in E.
  apply M_bind_Ok in E as (task & wa & Et & E).
  apply taskByID_Ok in Et as (Hsa & m & row & R); [|by apply store_wf_visible].
  apply M_bind_Ok in E as (u & wb & Eg & E). apply guard_Ok in Eg as [Hp ->]. bool_hyps.
  apply M_bind_Ok in E as (u2 & wb & Eg & E). apply guard_Ok in Eg as [Hst ->]. bool_hyps.
  apply M_bind_Ok in E as (at_ & wb & En & E). apply ro_now in En.
  apply M_bind_Ok in E as (closed & wc & Ec & E). apply M_bind_Ok in E as (t & wd & Ex & E).
  apply M_bind_Ok in E as (upd & we & Eu & E). apply M_ret_inv in E as [[= ->] ->].
  pose proof (rt_table _ _ _ _ _ R) as Hm. rewrite (visible_closed w Ht) in Hm.
  exists m, row. split_and!; [done|by apply R|by rewrite <- (rt_proposer _ _ _ _ _ R)|
    rewrite <- (rt_state _ _ _ _ _ R); by apply containsString_elem|].
  rewrite (rt_id _ _ _ _ _ R), (rt_tenant _ _ _ _ _ R) in *.
  eapply (closing_then_read _ _ _ (decided_values TaskWithdrawn (Sub p) reason at_) _ TaskWithdrawn w wb) in Eu; [|done|done|done|by etrans|exact Ec|done|done| |reflexivity|exact Hm|exact Ex|apply ro_taskByIDAs].
  - destruct Eu as [Eu|Eu]; [left; eexists _, at_, closed; by eapply repeated_then|right; by eapply task_closed_ledger].
  - intros txid. apply task_op_wf; [keys_nodup|reflexivity].
Qed.

(** Declining. Only the counterparty named answers a two-party
    proposal, and only while it waits for them; declining leaves it
    rejected and its key gone, in one ledger version. *)
Lemma decline_moves `{Runtime} `{GoFormats} (r : Register) (p : Principal) (id reason : string) (w w' : world) (out : Outcome) :
  commit_moves_one -> store_wf w -> txn w = None -> id <> TxIDPlaceholder ->
  Accept r p id false reason w = (Ok out, w') ->
  exists m row wf, committed w !! "tasks" = Some m /\ m !! [SStr id] = Some row /\
    Workflow_ (pk r) (Str row "workflow") = Some wf /\ w_Counterparty wf <> None /\
    Str row "counterparty" = Sub p /\ Str row "state" = TaskAwaitingCounterparty /\
    ((exists env at_ closed, repeated env (task_op id (accept_values false reason at_) :: closed) w w') \/
     task_closed w w' (Str row "tenant") id TaskRejected).
Proof.
  intros Hone W Ht Hid E. apply Do_Ok in E as (w1 & E & Hs & _). unfold accept_tx in E.
  apply M_bind_Ok in E as (task & wa & Et & E).
  apply taskByID_Ok in Et as (Hsa & m & row & R); [|by apply store_wf_visible].
  apply M_bind_Ok in E as (wf & wb & El & E). apply lift_Ok in El as [Hwf ->]. apply of_option_Ok in Hwf.
  apply M_bind_Ok in E as (u & wb & Eg & E). apply guard_Ok in Eg as [Hst ->]. bool_hyps.
  apply M_bind_Ok in E as (u2 & wb & Eg & E). apply guard_Ok in Eg as [Hp ->]. bool_hyps.
  apply M_bind_Ok in E as (at_ & wb & En & E). apply ro_now in En.
  apply M_bind_Ok in E as (closed & wc & Ec & E). apply M_bind_Ok in E as (t & wd & Ex & E).
  apply M_bind_Ok in E as (upd & we & Eu & E). cbn [andb] in E. apply M_ret_inv in E as [[= ->] ->].
  pose proof (rt_table _ _ _ _ _ R) as Hm. rewrite (visible_closed w Ht) in Hm.
  rewrite (rt_workflow _ _ _ _ _ R) in Hwf.
  destruct (Workflow_ (pk r) (Str row "workflow")) as [wf'|] eqn:Ewf; [|done].
  destruct (w_Counterparty wf') eqn:Ecp; [|done]. injection Hwf as <-.
  exists m, row, wf'. split_and!; [done|by apply R|done|by rewrite Ecp|by rewrite <- (rt_counterparty _ _ _ _ _ R)|
    by rewrite <- (rt_state _ _ _ _ _ R)|].
  rewrite (rt_id _ _ _ _ _ R), (rt_tenant _ _ _ _ _ R) in *.
  eapply (closing_then_read _ _ _ (accept_values false reason at_) _ TaskRejected w wb) in Eu; [|done|done|done|by etrans|exact Ec|done|done| |reflexivity|exact Hm|exact Ex|apply ro_taskByIDAs].
  - destruct Eu as [Eu|Eu]; [left; eexists _, at_, closed; by eapply repeated_then|right; by eapply task_closed_ledger].
  - intros txid. apply task_op_wf; [keys_nodup|reflexivity].
Qed.

(** Rejecting. A decision is made only by someone allowed to approve
    the workflow and acting in one of its approving roles, who is not the
    proposer where duties are separated, and only while the proposal
    awaits review. Rejecting leaves it rejected and its key gone, in one
    ledger version. *)
Lemma reject_moves `{Runtime} `{GoFormats} (r : Register) (p : Principal) (id : string) (d : Decision) (w w' : world) (out : Outcome) :
  commit_moves_one -> store_wf w -> txn w = None -> id <> TxIDPlaceholder ->
  dec_Approve d = false -> Decide r p id d w = (Ok out, w') ->
  exists m row wf, committed w !! "tasks" = Some m /\ m !! [SStr id] = Some row /\
    Workflow_ (pk r) (Str row "workflow") = Some wf /\ may_decide p wf row /\
    ((exists env at_ closed, repeated env (task_op id (decided_values TaskRejected (Sub p) (dec_Reason d) at_) :: closed) w w') \/
     task_closed w w' (Str row "tenant") id TaskRejected).
Proof.
  intros Hone W Ht Hid Hd E. apply Do_Ok in E as (w1 & E & Hs & _).
  apply decide_tx_Ok in E as (task & wa & m & row & wf & t & upd & _ & Hsa & R & Hm & Hwf & Hmay & E); [|done..].
  unfold decide in E. rewrite Hd in E.
  apply M_bind_Ok in E as (at_ & wb & En & E). apply ro_now in En.
  apply M_bind_Ok in E as (ctx & wx & Ectx & E). apply ro_templateContext in Ectx. unfold reject in E.
  apply M_bind_Ok in E as (closed & wc & Ec & E). apply M_bind_Ok in E as (t' & wd & Ex & E).
  apply M_bind_Ok in E as (upd' & we' & Eu & E). apply M_ret_inv in E as [[= -> ->] ->].
  exists m, row, wf. split_and!; [done|by apply R|done|done|].
  rewrite (rt_id _ _ _ _ _ R), (rt_tenant _ _ _ _ _ R) in *.
  eapply (closing_then_read _ _ _ (decided_values TaskRejected (Sub p) (dec_Reason d) at_) _ TaskRejected w wx) in Eu; [|done|done|done|by etrans; [etrans|]|exact Ec|done|done| |reflexivity|exact Hm|exact Ex|apply ro_taskByIDAs].
  - destruct Eu as [Eu|Eu]; [left; eexists _, at_, closed; by eapply repeated_then|right; by eapply task_closed_ledger].
  - intros txid. apply task_op_wf; [keys_nodup|reflexivity].
Qed.

(** ** Conditions *)
Section conditions.
Context `{Runtime}.

(** A condition's query, run in a world, and whether what it counts is
    what the condition expects. *)
Definition holds_in (w : world) (ctx : tmplContext) (c : Condition) : Prop :=
  exists text n, renderSQL (cd_SQL c) ctx = Ok text /\ count_query text w = (Ok n, w) /\ condition_holds c n = true.
Definition fails_in (w : world) (ctx : tmplContext) (c : Condition) : Prop :=
  exists text n, renderSQL (cd_SQL c) ctx = Ok text /\ count_query text w = (Ok n, w) /\ condition_holds c n = false.

Lemma still_count_query text : still (count_query text).
Proof. unfold count_query. still_tac. Qed.

Lemma condition_message_nonempty c : condition_message c <> "".
Proof.
  unfold condition_message. destruct (String.eqb_spec (cd_Message c) ""); [|done].
  destruct (String.eqb_spec (cd_Description c) ""); [|done]. intros E. discriminate E.
Qed.

(** The blockers are the messages of the conditions that fail, in order,
    up to the first that rejects; and what it says is the rejection. *)
Lemma evaluate_Ok ctx conds : forall blockers w bl rej w',
  evaluate conds ctx blockers w = (Ok (bl, rej), w') ->
  w' = w /\ exists checked rest failing,
    conds = checked ++ rest /\ bl = blockers ++ (condition_message <$> failing) /\
    failing `sublist_of` checked /\
    Forall (fun c => holds_in w ctx c \/ c ∈ failing /\ fails_in w ctx c /\ cd_OnFail c <> OnFailReject) checked /\
    match rest with
    | [] => rej = ""
    | c :: _ => fails_in w ctx c /\ cd_OnFail c = OnFailReject /\ rej = condition_message c
    end.
Proof.
  induction conds as [|c conds IH]; intros bl w bl' rej w' E; cbn [evaluate] in E.
  - m_inv. split; [done|]. exists [], [], []. cbn. rewrite app_nil_r. by split_and!.
  - apply M_bind_Ok in E as (text & w0 & [Htext ->]%lift_Ok & E). apply M_bind_Ok in E as (n & w1 & E1 & E). apply wrapping_Ok in E1.
    pose proof (still_count_query _ _ _ _ E1) as ->.
    destruct (condition_holds c n) eqn:Hc; [|destruct (String.eqb_spec (cd_OnFail c) OnFailReject) as [Hr|Hr]].
    + apply IH in E as (-> & ck & rest & fl & -> & -> & Hs & F & Hrest). split; [done|].
      exists (c :: ck), rest, fl. split_and!; try done; [by apply sublist_cons|].
      constructor; [left; by exists text, n|done].
    + m_inv. split; [done|]. exists [], (c :: conds), []. cbn. rewrite app_nil_r. split_and!; try done. by exists text, n.
    + apply IH in E as (-> & ck & rest & fl & -> & -> & Hs & F & Hrest). split; [done|].
      exists (c :: ck), rest, (c :: fl). rewrite fmap_cons, <- app_assoc. split_and!; try done; [by constructor|].
      constructor.
      * right. split_and!; [apply list_elem_of_here|by exists text, n|done].
      * eapply Forall_impl; [exact F|]. intros x [Hx|(Hx & Hf)]; [by left|right; split; [by apply list_elem_of_further|done]].
Qed.

(** No rejection: every condition holds, or fails with a message among
    the blockers. *)
Lemma evaluate_clean ctx conds w bl w' :
  evaluate conds ctx [] w = (Ok (bl, ""), w') ->
  w' = w /\ Forall (fun c => holds_in w ctx c \/ condition_message c ∈ bl /\ cd_OnFail c <> OnFailReject) conds.
Proof.
  intros E. apply evaluate_Ok in E as (-> & ck & rest & fl & -> & -> & _ & F & Hrest). split; [done|].
  destruct rest as [|c rest]; [|destruct Hrest as (_ & _ & Hm); symmetry in Hm; by apply condition_message_nonempty in Hm].
  rewrite app_nil_r. eapply Forall_impl; [exact F|]. intros c [Hc|(Hc & _ & Hr)]; [by left|right].
  split; [by apply list_elem_of_fmap_2|done].
Qed.
End conditions.

(** ** The effects of an approval *)
Section effects.
Context `{Runtime} `{GoFormats}.
Variable r : Register.
Hypothesis sound : Forall class_sound (pk_Classes (pk r)).

Lemma find_named_elem {A} (name : A -> string) k l x : find_named name k l = Some x -> x ∈ l.
Proof.
  induction l as [|y l IH]; [done|]. cbn. destruct (String.eqb _ _); [intros [= ->]; apply list_elem_of_here|].
  intros E. apply list_elem_of_further. auto.
Qed.

Lemma class_of_sound name w c w' : class_of r name w = (Ok c, w') -> class_sound c.
Proof.
  unfold class_of, Class. destruct (find_named _ _ _) as [c'|] eqn:E; [|done]. intros [= <- <-].
  rewrite Forall_forall in sound. apply sound. by eapply find_named_elem.
Qed.

Lemma createOps_wf w class payload status w0 id ops w1 w' :
  class_sound class -> createOps r w class payload status w0 = (Ok (id, ops, w1), w') -> ops_wf ops.
Proof.
  intros Hc E. unfold createOps in E. m_inv. eapply (buildRecordOps_wf r); [|eassumption]. done.
Qed.

Lemma updateOps_wf w class id payload status w0 ops w' :
  class_sound class -> updateOps r w class id payload status w0 = (Ok ops, w') -> ops_wf ops.
Proof. intros Hc E. unfold updateOps in E. m_inv. eapply (buildRecordOps_wf r); [|eassumption]. done. Qed.

Lemma statusOps_wf w class id status w0 ops w' :
  class_sound class -> statusOps r w class id status w0 = (Ok ops, w') -> ops_wf ops.
Proof.
  intros Hc E. unfold statusOps in E. m_inv.
  match goal with H : (if ?b then _ else _) _ = _ |- _ => destruct b end; m_inv; [intros txid; apply Forall_nil_2|].
  by eapply updateOps_wf.
Qed.

Lemma closeLinkOps_wf w e ctx w0 ops w' : closeLinkOps r w e ctx w0 = (Ok ops, w') -> ops_wf ops.
Proof.
  intros E. unfold closeLinkOps in E. apply M_bind_Ok in E as (class & w1 & Ec & E). apply class_of_sound in Ec.
  apply M_bind_Ok in E as (row & w2 & _ & E). destruct row as [row|].
  - apply M_bind_Ok in E as (cur & w3 & _ & E). by eapply updateOps_wf.
  - destruct (e_Optional e); [|done]. m_inv. intros txid. apply Forall_nil_2.
Qed.

Lemma ops_wf_app a b : ops_wf a -> ops_wf b -> ops_wf (a ++ b).
Proof. intros Ha Hb txid. apply Forall_app. by split. Qed.

Lemma record_effect_wf wf task class s w0 s' w' :
  class_sound class -> ops_wf (es_ops s) -> record_effect r wf task class s w0 = (Ok s', w') -> ops_wf (es_ops s').
Proof.
  intros Hc Hs E. unfold record_effect in E.
  destruct (String.eqb _ _); [|destruct (_ || _); [|destruct (String.eqb _ _)]].
  - apply M_bind_Ok in E as ([[id next] wc] & w1 & E1 & E). apply M_ret_inv in E as [[= ->] ->].
    apply ops_wf_app; [done|]. by eapply createOps_wf.
  - apply M_bind_Ok in E as (next & w1 & E1 & E). apply M_ret_inv in E as [[= ->] ->].
    apply ops_wf_app; [done|]. by eapply updateOps_wf.
  - apply M_bind_Ok in E as (next & w1 & E1 & E). apply M_ret_inv in E as [[= ->] ->].
    apply ops_wf_app; [done|]. by eapply statusOps_wf.
  - by apply M_ret_inv in E as [[= ->] ->].
Qed.

Lemma set_status_effect_wf class e s w0 s' w' :
  class_sound class -> ops_wf (es_ops s) -> set_status_effect r class e s w0 = (Ok s', w') -> ops_wf (es_ops s').
Proof.
  intros Hc Hs E. unfold set_status_effect in E. cbv zeta in E.
  destruct (String.eqb (if String.eqb (e_Target e) "" then _ else _) ""); [destruct (e_Optional e); [|done]|].
  - by apply M_ret_inv in E as [[= ->] ->].
  - apply M_bind_Ok in E as (tc & w1 & E1 & E). apply M_bind_Ok in E as (next & w2 & E2 & E).
    apply M_ret_inv in E as [[= ->] ->]. apply ops_wf_app; [done|]. eapply statusOps_wf; [|exact E2].
    destruct (String.eqb (e_Class e) ""); [by apply M_ret_inv in E1 as [[= ->] ->]|by eapply class_of_sound].
Qed.

Lemma create_effect_wf e s w0 s' w' : ops_wf (es_ops s) -> create_effect r e s w0 = (Ok s', w') -> ops_wf (es_ops s').
Proof.
  intros Hs E. unfold create_effect in E. apply M_bind_Ok in E as (tc & w1 & E1 & E).
  apply M_bind_Ok in E as ([[id next] wc] & w2 & E2 & E). apply M_ret_inv in E as [[= ->] ->].
  apply ops_wf_app; [done|]. eapply createOps_wf; [|exact E2]. by eapply class_of_sound.
Qed.

Lemma one_effect_wf wf task class e s w0 s' w' :
  class_sound class -> ops_wf (es_ops s) -> one_effect r wf task class e s w0 = (Ok s', w') -> ops_wf (es_ops s').
Proof.
  intros Hc Hs E. unfold one_effect in E.
  destruct (String.eqb _ _); [by eapply record_effect_wf|].
  destruct (String.eqb _ _); [by eapply set_status_effect_wf|].
  destruct (_ || _); [by eapply create_effect_wf|].
  destruct (String.eqb _ _); [|done].
  apply M_bind_Ok in E as (next & w1 & E1 & E). apply M_ret_inv in E as [[= ->] ->].
  apply ops_wf_app; [done|]. by eapply closeLinkOps_wf.
Qed.

Lemma fold_invariant {A B} (P : B -> Prop) (f : B -> A -> M B) l : forall acc w b w',
  (forall b x w b' w', P b -> f b x w = (Ok b', w') -> P b') -> P acc -> fold f l acc w = (Ok b, w') -> P b.
Proof.
  induction l as [|x l IH]; intros acc w b w' Hf Hp E; cbn in E; m_inv; [done|].
  eapply IH; [exact Hf| |eassumption]. by eapply Hf.
Qed.

Lemma effectOps_wf w wf task ctx w0 s w' : effectOps r w wf task ctx w0 = (Ok s, w') -> ops_wf (es_ops s).
Proof.
  intros E. unfold effectOps in E. apply M_bind_Ok in E as (class & w1 & Ec & E). apply class_of_sound in Ec.
  apply M_bind_Ok in E as (s1 & w2 & Ef & E). apply M_bind_Ok in E as (u & w3 & _ & E).
  apply M_ret_inv in E as [[= ->] ->].
  eapply (fold_invariant (fun s => ops_wf (es_ops s))) in Ef; [exact Ef| |].
  - intros b ie w4 b' w5 Hb Hx. apply wrapping_Ok in Hx. by eapply one_effect_wf.
  - intros txid. apply Forall_nil_2.
Qed.

Lemma ro_closeLinkOps w e ctx : ro (closeLinkOps r w e ctx).
Proof. unfold closeLinkOps, class_of, nil_class. ro_tac. Qed.

Lemma ro_one_effect wf task class e s : ro (one_effect r wf task class e s).
Proof.
  unfold one_effect, record_effect, set_status_effect, create_effect, class_of, nil_class.
  pose proof ro_closeLinkOps. ro_tac.
Qed.

Lemma ro_effectOps w wf task ctx : ro (effectOps r w wf task ctx).
Proof. unfold effectOps, class_of, nil_class. pose proof ro_one_effect. ro_tac. Qed.
End effects.

(** C3. Approving. Under the same guards as rejecting, and only when no
    condition that rejects fails (and, for the policy, when every condition
    holds), an approval is one ledger version that carries exactly the
    entries the workflow's effects give, the task's move to approved and
    the end of its key, and the key is destroyed whenever it was live: the
    records change if and only if the proposal is approved, and never the one
    without the other. The one exception is the approval whose very
    transaction, these entries under this identifier, is in the log already:
    then nothing changes. *)
Theorem approve_moves `{Runtime} `{GoFormats} (r : Register) (p : Principal) (id : string) (d : Decision) (w w' : world) (out : Outcome) :
  commit_moves_one -> store_wf w -> txn w = None -> id <> TxIDPlaceholder -> Forall class_sound (pk_Classes (pk r)) ->
  dec_Approve d = true -> Decide r p id d w = (Ok out, w') ->
  exists m row wf task wa at_ ctx wx env s wy closed,
    committed w !! "tasks" = Some m /\ m !! [SStr id] = Some row /\
    Workflow_ (pk r) (Str row "workflow") = Some wf /\ may_decide p wf row /\
    taskByID r id w = (Ok task, wa) /\ same_db w wx /\
    (exists wt, templateContext p id (tk_ObjectID task) (tk_Payload task) wt = (Ok ctx, wx)) /\
    Forall (fun c => holds_in wx ctx c \/ cd_OnFail c <> OnFailReject) (w_Conditions wf) /\
    (Sub p = policySub -> Forall (holds_in wx ctx) (w_Conditions wf)) /\
    effectOps r (newWriteCtx (p_Tenant p) at_) wf task ctx wx = (Ok s, wy) /\
    key_ended (committed w) (taskScope (Str row "tenant") id) at_ closed /\
    let ops := es_ops s ++ task_op id (("object_id", VStr (es_object s)) :: decided_values TaskApproved (Sub p) (dec_Reason d) at_) :: closed in
    (repeated env ops w w' \/
     exists wb wc t,
       same_db w wb /\ same_ledger wc w' /\ landed env ops wb wc t /\
       (exists m row, committed w' !! "tasks" = Some m /\ m !! [SStr id] = Some row /\ cell row "state" = SStr TaskApproved) /\
       (live_in (committed w) (taskScope (Str row "tenant") id) -> key_gone (committed w') (taskScope (Str row "tenant") id))).
Proof.
  intros Hone W Ht Hid Hpk Hd E. apply Do_Ok in E as (w1 & E & Hs & _).
  apply decide_tx_Ok in E as (task & wa & m & row & wf & t & upd & Et & Hsa & R & Hm & Hwf & Hmay & E); [|done..].
  unfold decide in E. rewrite Hd in E.
  apply M_bind_Ok in E as (at_ & wn & En & E). apply ro_now in En.
  apply M_bind_Ok in E as (ctx & wx & Ectx & E). pose proof Ectx as Ectx0. apply ro_templateContext in Ectx. unfold approve in E.
  apply M_bind_Ok in E as ([bl rej] & wv & Ev & E).
  apply M_bind_Ok in E as (u4 & wb & Eg & E). apply guard_Ok in Eg as [Hrej ->]. bool_hyps. subst rej.
  apply evaluate_clean in Ev as [-> Hconds].
  apply M_bind_Ok in E as (u5 & wb & Eg & E). apply guard_Ok in Eg as [Hbl ->].
  apply M_bind_Ok in E as (s & wy & Es & E). pose proof (effectOps_wf r Hpk _ _ _ _ _ _ _ Es) as Hops.
  pose proof (ro_effectOps _ _ _ _ _ _ _ _ Es) as Hsy. cbv zeta in E.
  apply M_bind_Ok in E as (closed & wc & Ec & E). apply M_bind_Ok in E as (t' & wd & Ex & E).
  apply M_bind_Ok in E as (upd' & we' & Eu & E). apply M_ret_inv in E as [[= -> ->] ->].
  rewrite (rt_id _ _ _ _ _ R), ?(rt_tenant _ _ _ _ _ R) in *.
  assert (same_db w wx) as Hwx by (etrans; [exact Hsa|]; by etrans).
  assert (store_wf wy) as Wy by (eapply store_wf_same; [|exact W]; by etrans).
  assert (visible wy = committed w) as Hvy.
  { assert (same_db w wy) as (Hcy & _ & _ & Hty & _) by (by etrans). unfold visible. rewrite Hty, Ht. by rewrite Hcy. }
  pose proof (closeProposal_ended _ _ _ _ _ _ (store_wf_visible _ Wy) Ec) as Hended. rewrite Hvy in Hended.
  eexists m, row, wf, task, wa, at_, ctx, wx, _, s, wy, closed. split_and!; try done.
  - by apply R.
  - by exists wn.
  - eapply Forall_impl; [exact Hconds|]. naive_solver.
  - intros Hpol. destruct bl as [|b bl]; [|by rewrite Hpol in Hbl].
    eapply Forall_impl; [exact Hconds|]. intros c [Hc|[Hc _]]; [done|by apply elem_of_nil in Hc].
  - cbn [app] in Ex.
    assert (same_ledger wd w') as Hdw' by (apply ro_taskByIDAs, same_db_ledger in Eu; by etrans).
    apply (closing_lands _ (es_ops s) (Str row "tenant") id _ at_ TaskApproved w wy closed wc t' wd m) in Ex; try done.
    + destruct Ex as [Ex|(Hsc & L & Hap & Hk)]; [left; by eapply repeated_then|right]. pose proof Hdw' as (Hc' & _).
      eexists wc, wd, t'. split_and!; try done; [by rewrite Hc'|]. intros (key & (keys & Hkeys & Hkey) & Hlive).
      destruct Hk as [[_ Hdead]|Hk]; [|by rewrite Hc']. destruct Hsc as (Hcc & _). rewrite Hcc in Hdead. by destruct (Hdead _ _ Hkeys Hkey).
    + by etrans.
    + intros txid. apply task_op_wf; [keys_nodup|reflexivity].
Qed.

(** ** Proposing *)
Section proposing.
Context `{Runtime} `{GoFormats}.
Variable r : Register.

(** Every required piece of evidence is there, every piece was asked for,
    and every piece is a digest. *)
Definition evidence_given (wf : Workflow) (given : list (string * string)) : Prop :=
  (forall e, e ∈ w_Evidence wf -> ev_Required e = true -> default "" (assoc (ev_Key e) given) <> "") /\
  (forall k d, (k, d) ∈ given -> k ∈ ev_Key <$> w_Evidence wf /\ sha256Hex d = true).

Lemma validateEvidence_Ok wf given u : validateEvidence wf given = Ok u -> evidence_given wf given.
Proof.
  unfold validateEvidence. intros E. apply bind_Ok_inv in E as (u1 & E1 & E2). destruct u1, u.
  cbv beta in E2. rewrite check_all_Ok, Forall_forall in E1. rewrite check_all_Ok, Forall_forall in E2. split.
  - intros e He Hr. specialize (E1 e He). apply refuse_if_Ok in E1. rewrite Hr in E1. cbn [andb] in E1. by bool_hyps.
  - intros k d Hk. specialize (E2 (k, d) Hk). apply bind_Ok_inv in E2 as (u & E & E2). cbv beta in E2.
    apply refuse_if_Ok in E. apply refuse_if_Ok in E2. bool_hyps. split; [by apply containsString_elem|done].
Qed.

(** Who may propose, and what. *)
Record may_propose (p : Principal) (name : string) (wf : Workflow) (class : Class_) (req : ProposeRequest) : Prop := {
  mp_can : CanOn p PermPropose name = true;
  mp_acting : Acting p ∈ w_ProposeRoles wf;
  mp_evidence : evidence_given wf (default [] (req_Evidence req));
  mp_input : forall input, w_compiledInput wf = Some input -> JsonSchema.Validate input (VObj (req_Payload req)) = Ok tt;
  mp_class : w_Action wf = ActionCreate \/ (w_compiledInput wf = None /\ w_Action wf ∈ [ActionUpdate; ActionCorrect]) ->
    JsonSchema.Validate (Compiled class) (VObj (req_Payload req)) = Ok tt;
  mp_object : w_Action wf = ActionCreate <-> req_ObjectID req = "";
}.

Lemma rewrapped_Ok {A} (x : res A) (f : error -> error) a : match x with Ok u => Ok u | Err e => Err (f e) end = Ok a -> x = Ok a.
Proof. by destruct x. Qed.

Lemma check_proposer_Ok p name wf u :
  check_proposer p name wf = Ok u -> CanOn p PermPropose name = true /\ Acting p ∈ w_ProposeRoles wf.
Proof.
  unfold check_proposer. intros E. apply bind_Ok_inv in E as (u1 & E1 & E2). apply refuse_if_Ok in E1. apply refuse_if_Ok in E2. bool_hyps.
  split; [done|by apply containsString_elem].
Qed.

Lemma check_proposal_Ok p name wf class req u1 u2 :
  check_proposer p name wf = Ok u1 -> check_proposal name wf class req = Ok u2 -> may_propose p name wf class req.
Proof.
  intros [Hc Ha]%check_proposer_Ok E. unfold check_proposal in E. apply bind_Ok_inv in E as (u3 & Hev & E).
  apply bind_Ok_inv in E as (u4 & Hin & E). cbv zeta in E. apply bind_Ok_inv in E as (u5 & Hcr & E).
  split; [done|done|by eapply validateEvidence_Ok| | |].
  - intros input Hi. rewrite Hi in Hin. destruct u4. by apply rewrapped_Ok in Hin.
  - destruct (String.eqb_spec (w_Action wf) ActionCreate) as [Hac|Hac].
    + intros _. apply bind_Ok_inv in Hcr as (u6 & _ & Hcr). destruct u5. by apply rewrapped_Ok in Hcr.
    + intros [Hx|[Hn Hact]]; [done|]. rewrite Hn in E. destruct u2. rewrite !elem_of_cons, elem_of_nil in Hact.
      destruct Hact as [Hact|[Hact|[]]]; rewrite Hact in E; cbn in E; by apply rewrapped_Ok in E.
  - destruct (String.eqb_spec (w_Action wf) ActionCreate) as [Hac|Hac].
    + apply bind_Ok_inv in Hcr as (u6 & Hcr & _). apply refuse_if_Ok in Hcr. bool_hyps. naive_solver.
    + apply refuse_if_Ok in Hcr. bool_hyps. naive_solver.
Qed.

Lemma sealProposal_wf w pii id payload w0 sealed ops w1 :
  sealProposal r w pii id payload w0 = (Ok (sealed, ops), w1) -> ops_wf ops.
Proof.
  intros E. unfold sealProposal in E. apply M_bind_Ok in E as ([enc ks] & wa & Es & E).
  apply M_bind_Ok in E as (body & wb & _ & E). apply M_ret_inv in E as [[= -> ->] ->].
  destruct (sealed_half pii payload).
  - apply M_ret_inv in Es as [[= -> ->] ->]. intros txid. apply Forall_nil_2.
  - apply M_bind_Ok in Es as ([dek kops] & wc & Ek & Es). apply M_bind_Ok in Es as (text & wd & _ & Es).
    apply M_bind_Ok in Es as (ct & we & _ & Es). apply M_ret_inv in Es as [[= -> ->] ->].
    intros txid. by eapply ensureDEK_wf.
Qed.

Lemma new_task_wf txid id p wf class req st cp payload ev summary bl at_ :
  op_wf txid (task_op id (new_task_values p wf class req st cp payload ev summary bl at_)).
Proof. apply task_op_wf; [keys_nodup|reflexivity]. Qed.

Lemma ro_NewTaskID : ro NewTaskID.
Proof. unfold NewTaskID. ro_tac. Qed.

(** What a proposal about an existing record needs: that the record is
    one of the tenant's, and of the workflow's class. *)
Definition targets (w : world) (p : Principal) (class : Class_) (req : ProposeRequest) : Prop :=
  req_ObjectID req <> "" -> exists m row, committed w !! "objects" = Some m /\ row ∈ rows m /\
    matches [is_ "id" (VStr (req_ObjectID req)); is_ "tenant" (VStr (p_Tenant p))] row = true /\ Str row "class" = c_Name class.

Lemma check_target_Ok p class req w u w' :
  store_wf w -> txn w = None -> check_target p class req w = (Ok u, w') -> w' = w /\ targets w p class req.
Proof.
  intros W Ht E. unfold check_target, targets in *. destruct (String.eqb_spec (req_ObjectID req) "") as [He|He].
  - apply M_ret_inv in E as [_ ->]. done.
  - apply M_bind_Ok in E as (row & wa & Eo & E).
    apply objectRow_Ok in Eo as (-> & m & Hm & Hin & Hmatch); [|by apply store_wf_visible].
    apply guard_Ok in E as [Hc ->]. bool_hyps. split; [done|]. intros _. exists m, row. rewrite (visible_closed w Ht) in Hm. done.
Qed.

(** The policy's own decision on a fresh proposal, if it makes one. *)
Definition then_policy (wf : Workflow) (p : Principal) (wd w' : world) (out : Outcome) : Prop :=
  (same_ledger wd w' /\ out_Applied out = None) \/
  (w_AutoApprove wf = true /\ exists task t upd wt wz,
     decide r (policyPrincipal (p_Tenant p)) wf task auto_approval wt = (Ok (t, upd), wz) /\
     same_ledger wd wt /\ same_ledger wz w' /\ out_Applied out = Some t).
End proposing.

(** Proposing. A proposal is opened only by someone allowed to propose
    the workflow and acting in one of its proposing roles, with all the
    evidence it asks for and a payload its schemas accept, about a record
    of the tenant and class where it needs one, and only when no condition
    that rejects fails. Opening it is one ledger version, which carries the
    task's row, naming the proposer and waiting for the counterparty or the
    review, with the payload sealed; only the policy may go on from there,
    and only when every condition held. *)
Lemma propose_opens `{Runtime} `{GoFormats} (r : Register) (p : Principal) (name : string) (req : ProposeRequest)
    (w w' : world) (out : Outcome) :
  commit_moves_one -> store_wf w -> txn w = None -> Propose r p name req w = (Ok out, w') ->
  exists wf class taskID at_ ctx wx counterparty state sealed keyOps wy evidence summary reason env wd,
    Workflow_ (pk r) name = Some wf /\ Class (pk r) (w_Class wf) = Some class /\
    may_propose p name wf class req /\ targets w p class req /\
    same_db w wx /\ (exists wt, templateContext p taskID (req_ObjectID req) (req_Payload req) wt = (Ok ctx, wx)) /\
    Forall (fun c => holds_in wx ctx c \/ cd_OnFail c <> OnFailReject) (w_Conditions wf) /\
    initial_state name wf req = Ok (counterparty, state) /\
    sealProposal r (newWriteCtx (p_Tenant p) at_) (proposalPII wf class) taskID (req_Payload req) wx = (Ok (sealed, keyOps), wy) /\
    (repeated env (keyOps ++ [task_op taskID (new_task_values p wf class req state counterparty sealed evidence summary reason at_)]) w wd \/
     landed env (keyOps ++ [task_op taskID (new_task_values p wf class req state counterparty sealed evidence summary reason at_)])
       wy wd (out_Transaction out)) /\
    then_policy r wf p wd w' out /\
    (out_Applied out <> None -> state = TaskAwaitingReview /\ Forall (holds_in wx ctx) (w_Conditions wf)).
Proof.
  intros Hone W Ht E. unfold Propose in E.
  apply M_bind_Ok in E as (wf & wb & El & E). apply lift_Ok in El as [Hwf ->]. apply of_option_Ok in Hwf.
  apply M_bind_Ok in E as (u1 & wb & El & E). apply lift_Ok in El as [Hp ->].
  apply M_bind_Ok in E as (class & wb & El & E). unfold class_of in El.
  destruct (Class (pk r) (w_Class wf)) as [c|] eqn:Hcl; [|done]. apply M_ret_inv in El as [[= ->] ->].
  apply M_bind_Ok in E as (u2 & wb & El & E). apply lift_Ok in El as [Hpr ->].
  apply Do_Ok in E as (w1 & E & Hs & _). unfold propose_tx in E.
  apply M_bind_Ok in E as (u3 & wb & El & E). apply check_target_Ok in El as [-> Htg]; [|done..].
  apply M_bind_Ok in E as (taskID & wi & Ei & E). apply ro_NewTaskID in Ei.
  apply M_bind_Ok in E as (at_ & wn & En & E). apply ro_now in En.
  apply M_bind_Ok in E as (ctx & wx & Ectx & E). pose proof Ectx as Ectx0. apply ro_templateContext in Ectx.
  apply M_bind_Ok in E as ([bl rej] & wv & Ev & E).
  apply M_bind_Ok in E as (u4 & wb & Eg & E). apply guard_Ok in Eg as [Hrej ->]. bool_hyps. subst rej.
  apply evaluate_clean in Ev as [-> Hconds].
  apply M_bind_Ok in E as ([cp st] & wb & El & E). apply lift_Ok in El as [Hinit ->].
  apply M_bind_Ok in E as ([sealed ks] & wy & Esl & E). pose proof (sealProposal_wf r _ _ _ _ _ _ _ _ Esl) as Hks.
  pose proof (ro_sealProposal _ _ _ _ _ _ _ _ Esl) as Hsy.
  apply M_bind_Ok in E as (ev & wb & El & E). apply lift_Ok in El as [_ ->]. cbv zeta in E.
  apply M_bind_Ok in E as (t & wd & Ex & E). apply M_bind_Ok in E as (task & wt & Et & E).
  apply ro_taskByIDAs, same_db_ledger in Et.
  assert (same_db w wx) as Hwx by (do 2 (etrans; [eassumption|]); done).
  assert (same_db w wy) as Hwy by (by etrans). pose proof Hwy as (Hcy & _ & _ & Hty & _).
  apply commit_Ok_inv in Ex; [|done|rewrite Hcy; exact (proj1 W)|congruence|].
  2:{ intros txid. apply Forall_app. split; [apply Hks|]. apply Forall_cons_2; [apply new_task_wf|apply Forall_nil_2]. }
  eexists wf, c, taskID, at_, ctx, wx, cp, st, sealed, ks, wy, ev, _, _, _, wd.
  split_and!; try done; [by eapply check_proposal_Ok|by exists wn|eapply Forall_impl; [exact Hconds|]; naive_solver| | |].
  - assert (out_Transaction out = t) as ->.
    { case_match; [|by apply M_ret_inv in E as [[= ->] _]].
      apply M_bind_Ok in E as (dc & wz & _ & E). by apply M_ret_inv in E as [[= ->] _]. }
    destruct Ex as [Hr|L]; [left|by right]. apply retried_in_log in Hr as [Hl Hin]; [|congruence]. split; [|by rewrite <- Hcy].
    etrans; [by apply same_db_ledger|done].
  - case_match; [|apply M_ret_inv in E as [[= ->] ->]; left; split; [by etrans|done]].
    bool_hyps. apply M_bind_Ok in E as ([t' upd] & wz & Ed & E). apply M_ret_inv in E as [[= ->] ->].
    right. split; [done|]. by eexists _, t', upd, wt, wz.
  - case_match; [|apply M_ret_inv in E as [[= ->] _]; done]. intros _. bool_hyps. split; [done|].
    destruct bl as [|b bl]; [|done]. eapply Forall_impl; [exact Hconds|].
    intros c' [Hc|[Hc _]]; [done|by apply elem_of_nil in Hc].
Qed.

(** ** Instances *)
Section demo.
#[local] Existing Instance plain_runtime.
#[local] Existing Instance plain_formats.

(** A register with a one-party and a two-party workflow, and a proposal
    of each kind. *)
Definition demo_introduce : Workflow :=
  mkWorkflow "introduce" "Introduce" "person" ActionCreate ["clerk"] ["reviewer"] false []
    (Some (mkCounterparty "name" "")) [] false "Introduce a person" [] "" None None.
Definition demo_flows : Pack :=
  mkPack "demo" "Demo" "1" "t" demo_roles [demo_class] [demo_workflow; demo_introduce] [] [] None empty_model.
Definition demo_valid : Pack := match validate_pack demo_flows with Ok p => p | Err _ => demo_flows end.
Definition flow_register : Register := mkRegister demo_valid (mkOptions "r" "t" "" "") (mkMaterial "master" "signer" "key").

Lemma flow_register_sound : Forall class_sound (pk_Classes (pk flow_register)).
Proof.
  replace (pk_Classes (pk flow_register)) with [demo_person] by (vm_compute; reflexivity).
  apply Forall_cons_2; [apply demo_person_sound|apply Forall_nil_2].
Qed.

Definition demo_proposal : object := [("code", VStr "c1"); ("name", VStr "Bea")].
Definition proposal_text : string := match Marshal (stored_value (mkStored demo_proposal None)) with Ok s => s | Err _ => "" end.
Definition demo_task (workflow object_id state counterparty : string) : Row :=
  list_to_map [("id", SStr "task-1"); ("tenant", SStr "t"); ("workflow", SStr workflow); ("class", SStr "person");
    ("object_id", SStr object_id); ("state", SStr state); ("proposer_sub", SStr "alice"); ("proposer_role", SStr "clerk");
    ("counterparty", SStr counterparty); ("counterparty_state", SStr ""); ("payload", SStr proposal_text); ("evidence", SStr "");
    ("message", SStr "m"); ("created_at", SInt 1); ("updated_at", SInt 1); ("decided_by", SStr "");
    ("decided_at", SInt 0); ("decision_reason", SStr ""); ("txid", SStr "tx")].
Definition flow_tables (task : Row) : tables :=
  <["tasks" := {[ [SStr "task-1"] := task ]}]> (<["q_person" := ∅]> demo_tables).
Definition flow_world (task : Row) : world := mkWorld (flow_tables task) 1 "root 1" None ∅ None 0 0 [] ∅ 0.

Definition alice : Principal := mkPrincipal "alice" "Alice" "" "t" ["clerk"] "clerk" false {[ PermPropose ]}.
Definition bob : Principal := mkPrincipal "bob" "Bob" "" "t" ["reviewer"] "reviewer" false {[ PermApprove ]}.
Definition demo_decision (approve : bool) : Decision := mkDecision approve "seen" "" "" [].

Definition demo_request : ProposeRequest := mkProposeRequest "person-1" demo_proposal None "" "" [].
Definition quiet_world : world := mkWorld (<["q_person" := ∅]> demo_tables) 1 "root 1" None ∅ None 0 0 [] ∅ 0.

Lemma quiet_world_wf : store_wf quiet_world.
Proof.
  split; [|intros db E; discriminate E]. apply wf_db_insert; [apply demo_tables_wf|]. intros k row E. by rewrite lookup_empty in E.
Qed.

Lemma flow_world_wf task : pk_of "tasks" task = [SStr "task-1"] -> Forall (typed_cell "tasks" task) (primary_key "tasks") ->
  store_wf (flow_world task).
Proof.
  intros Hk Ht. split; [|intros db E; discriminate E].
  apply wf_db_insert; [exact (proj1 quiet_world_wf)|]. by apply wf_singleton.
Qed.

Lemma demo_task_wf workflow object_id state counterparty : store_wf (flow_world (demo_task workflow object_id state counterparty)).
Proof.
  apply flow_world_wf; [reflexivity|]. apply Forall_cons_2; [|apply Forall_nil_2]. eexists. split; [reflexivity|].
  replace (cell _ _) with (SStr "task-1") by reflexivity. vm_compute. discriminate.
Qed.

Lemma flow_row task m row :
  committed (flow_world task) !! "tasks" = Some m -> m !! [SStr "task-1"] = Some row -> row = task.
Proof.
  intros Hm Hr. assert (committed (flow_world task) !! "tasks" = Some {[ [SStr "task-1"] := task ]}) as Ho by apply lookup_insert_eq.
  rewrite Ho in Hm. injection Hm as <-. by apply lookup_singleton_Some in Hr as [_ <-].
Qed.

(** A call that succeeds and moves the ledger once. *)
Lemma succeeds {A} (call : res A * world) :
  is_ok (fst call) = true -> version (snd call) = 2 -> exists out w', call = (Ok out, w') /\ version w' = 2.
Proof. destruct call as [[out|e] w']; [|done]. intros _ Hv. by exists out, w'. Qed.

Lemma moved w w' P (Q : Prop) : Q \/ P -> (Q -> same_ledger w w') -> version w = 1 -> version w' = 2 -> P.
Proof. intros [Hq|?] Hl; [destruct (Hl Hq) as (_ & Hv & _); congruence|done]. Qed.

Definition waiting : Row := demo_task "rename" "person-1" TaskAwaitingReview "".
Definition offered : Row := demo_task "introduce" "" TaskAwaitingCounterparty "bob".

Lemma decided_is_final_witness : exists e w',
  Decide flow_register bob "task-1" (demo_decision true) (flow_world (demo_task "rename" "person-1" TaskRejected "")) = (Err e, w') /\
  same_ledger (flow_world (demo_task "rename" "person-1" TaskRejected "")) w'.
Proof.
  set (task := demo_task "rename" "person-1" TaskRejected "").
  destruct (@decided_is_final plain_runtime plain_formats flow_register "task-1" (flow_world task) {[ [SStr "task-1"] := task ]} task
    bob true "" (demo_decision true)) as (_ & D & _).
  - apply store_wf_visible, demo_task_wf.
  - apply lookup_insert_eq.
  - apply lookup_singleton_eq.
  - reflexivity.
  - exact D.
Defined.

Lemma withdraw_moves_witness : exists out w',
  Withdraw flow_register alice "task-1" "no" (flow_world waiting) = (Ok out, w') /\
  task_closed (flow_world waiting) w' "t" "task-1" TaskWithdrawn.
Proof.
  destruct (succeeds (Withdraw flow_register alice "task-1" "no" (flow_world waiting))) as (out & w' & E & Hv); [vm_compute; reflexivity..|].
  exists out, w'. split; [exact E|].
  destruct (@withdraw_moves plain_runtime plain_formats flow_register alice "task-1" "no" (flow_world waiting) w' out plain_moves_one
    (demo_task_wf _ _ _ _) eq_refl ltac:(discriminate) E) as (m & row & Hm & Hr & _ & _ & Hc).
  rewrite (flow_row _ _ _ Hm Hr) in Hc. eapply moved in Hc; [exact Hc|intros (? & ? & ? & Hq & _); exact Hq|reflexivity|exact Hv].
Defined.

Lemma decline_moves_witness : exists out w',
  Accept flow_register bob "task-1" false "no" (flow_world offered) = (Ok out, w') /\
  task_closed (flow_world offered) w' "t" "task-1" TaskRejected.
Proof.
  destruct (succeeds (Accept flow_register bob "task-1" false "no" (flow_world offered))) as (out & w' & E & Hv); [vm_compute; reflexivity..|].
  exists out, w'. split; [exact E|].
  destruct (@decline_moves plain_runtime plain_formats flow_register bob "task-1" "no" (flow_world offered) w' out plain_moves_one
    (demo_task_wf _ _ _ _) eq_refl ltac:(discriminate) E) as (m & row & wf & Hm & Hr & _ & _ & _ & _ & Hc).
  rewrite (flow_row _ _ _ Hm Hr) in Hc. eapply moved in Hc; [exact Hc|intros (? & ? & ? & Hq & _); exact Hq|reflexivity|exact Hv].
Defined.

Lemma reject_moves_witness : exists out w',
  Decide flow_register bob "task-1" (demo_decision false) (flow_world waiting) = (Ok out, w') /\
  task_closed (flow_world waiting) w' "t" "task-1" TaskRejected.
Proof.
  destruct (succeeds (Decide flow_register bob "task-1" (demo_decision false) (flow_world waiting))) as (out & w' & E & Hv); [vm_compute; reflexivity..|].
  exists out, w'. split; [exact E|].
  destruct (@reject_moves plain_runtime plain_formats flow_register bob "task-1" (demo_decision false) (flow_world waiting) w' out
    plain_moves_one (demo_task_wf _ _ _ _) eq_refl ltac:(discriminate) eq_refl E) as (m & row & wf & Hm & Hr & _ & _ & Hc).
  rewrite (flow_row _ _ _ Hm Hr) in Hc. eapply moved in Hc; [exact Hc|intros (? & ? & ? & Hq & _); exact Hq|reflexivity|exact Hv].
Defined.

Lemma approve_moves_witness : exists out w' env s at_ closed wb wc t,
  Decide flow_register bob "task-1" (demo_decision true) (flow_world waiting) = (Ok out, w') /\ same_ledger wc w' /\
  landed env (es_ops s ++ task_op "task-1" (("object_id", VStr (es_object s)) :: decided_values TaskApproved "bob" "seen" at_) :: closed) wb wc t.
Proof.
  destruct (succeeds (Decide flow_register bob "task-1" (demo_decision true) (flow_world waiting))) as (out & w' & E & Hv); [vm_compute; reflexivity..|].
  destruct (@approve_moves plain_runtime plain_formats flow_register bob "task-1" (demo_decision true) (flow_world waiting) w' out
    plain_moves_one (demo_task_wf _ _ _ _) eq_refl ltac:(discriminate) flow_register_sound eq_refl E)
    as (m & row & wf & task & wa & at_ & ctx & wx & env & s & wy & closed & _ & _ & _ & _ & _ & _ & _ & _ & _ & _ & _ & Hc).
  cbn zeta in Hc. eapply moved in Hc; [|intros [Hq _]; exact Hq|reflexivity|exact Hv].
  destruct Hc as (wb & wc & t & _ & Hl & L & _).
  exists out, w', env, s, at_, closed, wb, wc, t. split; [exact E|]. split; [exact Hl|exact L].
Defined.

Lemma propose_opens_witness : exists out w' wf class,
  Propose flow_register alice "rename" demo_request quiet_world = (Ok out, w') /\
  may_propose alice "rename" wf class demo_request.
Proof.
  destruct (succeeds (Propose flow_register alice "rename" demo_request quiet_world)) as (out & w' & E & Hv); [vm_compute; reflexivity..|].
  destruct (@propose_opens plain_runtime plain_formats flow_register alice "rename" demo_request quiet_world w' out
    plain_moves_one quiet_world_wf eq_refl E)
    as (wf & class & taskID & at_ & ctx & wx & cp & st & sealed & ks & wy & ev & su & re & env & wd & _ & _ & Hp & _).
  exists out, w', wf, class. split; [exact E|exact Hp].
Defined.
End demo.
