(* ===== verification/Identities.v ===== *)
(** * Identities ([internal/register/identities.go])

    What the identity provider said about a person, sealed under a key
    of that person's own: recorded on first sight, read back afterwards,
    unreadable for good once the key is destroyed. *)

From S2P Require Import Prelude GoStrings Float64 Encoding Canon Json SqlText Sql Rbac JsonSchema Pack Model World Concrete Commit Replay Byok GoJson Records RecordsCorrect Landing Workflow WorkflowCorrect.
Local Open Scope Z_scope.

Record Profile_ := mkProfile {
  pf_Sub : string;
  pf_Email : string;
  pf_Name : string;
  pf_FirstSeen : Z;
  pf_UpdatedAt : Z;
  pf_Erased : bool;
}.

(** [Profile{Sub: sub}]. *)
Definition no_profile (sub : string) : Profile_ := mkProfile sub "" "" 0 0 false.

(** [sealedProfile], as JSON. *)
Definition sealedProfile (email name : string) : string :=
  MarshalStrings (omit_empty "email" email ++ omit_empty "name" name).

Section identities.
Context `{Runtime}.
Variable r : Register.

(** [profileID] and [profileScope]. *)
Definition profileID (sub : string) : string := hex_encode (str_take 16 (sha256 sub)).
Definition profileScope (sub : string) : string := opt_Tenant (opts r) +:+ "/person/" +:+ profileID sub.

(** [openProfile]: a profile row, given the key row of its scope. *)
Definition openProfile (row : Row) (key : option Row) : M Profile_ :=
  let sub := Str row "sub" in
  let out email name erased := mkProfile sub email name (Int row "first_seen") (Int row "updated_at") erased in
  match key with
  | None => mret (out "" "" true)
  | Some key =>
      if negb (Int key "destroyed_at" =? 0) then mret (out "" "" true)
      else
        ct ← wrapping "register: profile: %w" [] (lift (read_ciphertext (Bytes row "sealed")));
        dek ← UnwrapOperational (mat r) (ct_Scope ct) (Bytes key "op_wrap");
        plain ← lift (Decrypt dek ct (profileID sub) 0);
        fields ← wrapping "register: profile: %w" []
                   (lift (m ← UnmarshalStruct plain; e ← get_str "email" m; n ← get_str "name" m; Ok (e, n)));
        mret (out fields.1 fields.2 false)
  end.

(** [profileIn] and [Profile]. *)
Definition profileIn (sub : string) : M Profile_ :=
  row ← select_one "profiles" [is_ "sub" (VStr sub)];
  match row with
  | None => mret (no_profile sub)
  | Some row =>
      key ← select_one "dek_keys" [is_ "scope" (VStr (Str row "scope"))];
      openProfile row key
  end.
Definition Profile (sub : string) : M Profile_ := Do (profileIn sub).

(** What a sign-in asserts, over what is held. *)
Definition see_changed (held : Profile_) (email name : string) : bool :=
  (negb (String.eqb email "") && negb (String.eqb email (pf_Email held)))
  || (negb (String.eqb name "") && negb (String.eqb name (pf_Name held))).
Definition see_update (held : Profile_) (email name : string) (at_ : Z) : Profile_ :=
  mkProfile (pf_Sub held)
    (if String.eqb email "" then pf_Email held else email)
    (if String.eqb name "" then pf_Name held else name)
    (if pf_FirstSeen held =? 0 then at_ else pf_FirstSeen held) at_ (pf_Erased held).

(** The row of a profile. *)
Definition profile_op (sub scope sealed : string) (first at_ : Z) : WriteOp :=
  upsert "profiles" [("sub", VStr sub)]
    [("scope", VStr scope); ("sealed", VBinary sealed); ("first_seen", VInt first); ("updated_at", VInt at_)].

Definition profile_env (scope : string) (at_ : Z) : Envelope :=
  mkEnvelope KindProfileRecord (opt_Tenant (opts r)) "" "" [] (systemAuthor (opts r) "Sign-in") at_
    (composeMessage "Record a person's profile" ("Sealed under key " +:+ scope +:+ ".")) [].

Definition record_profile (sub : string) (held : Profile_) (at_ : Z) : M Profile_ :=
  let scope := profileScope sub in
  key ← ensureDEK r (newWriteCtx (opt_Tenant (opts r)) at_) scope "person" (profileID sub);
  ct ← Encrypt key.1 scope (profileID sub) 0 (sealedProfile (pf_Email held) (pf_Name held));
  _ ← commit (profile_env scope at_)
        (key.2 ++ [profile_op sub scope (ciphertext_text ct) (pf_FirstSeen held) at_]);
  mret held.

Definition see_tx (sub email name : string) : M Profile_ :=
  held ← profileIn sub;
  if negb (see_changed held email name) || pf_Erased held then mret held
  else at_ ← now; record_profile sub (see_update held email name at_) at_.

(** [SeeIdentity]. *)
Definition SeeIdentity (sub email name : string) : M Profile_ :=
  Do (see_tx sub (truncateRunes email 254) (truncateRunes name 128)).

(** [EraseProfile]. *)
Definition empty_profile_op (sub : string) (at_ : Z) : WriteOp :=
  upsert "profiles" [("sub", VStr sub)] [("sealed", VBinary ""); ("updated_at", VInt at_)].

Definition erase_profile_tx (p : Principal) (sub reason : string) : M Transaction :=
  row ← select_one "profiles" [is_ "sub" (VStr sub)];
  row ← lift (of_option row (Errorf "the register holds no profile for this person" []));
  let scope := Str row "scope" in
  key ← live_key scope;
  _ ← guard_ (match key with None => true | Some _ => false end)
        (Errorf "this person's profile has already been erased" []);
  at_ ← now;
  let env := mkEnvelope KindErasure (p_Tenant p) "" "" [] (principalAuthor p) at_
               (composeMessage (clip "Erase a person's profile" MaxSummary)
                  (composeMessage reason ("Key " +:+ scope +:+ " destroyed."))) [] in
  txn ← commit env [destroy_op scope at_; empty_profile_op sub at_];
  _ ← Forget scope;
  mret txn.

Definition EraseProfile (p : Principal) (sub reason : string) : M Transaction :=
  _ ← guard_ (negb (Can p PermErasure)) (Errorf "%s may not carry out erasures" [Acting p]);
  let sub := TrimSpace sub in
  let reason := TrimSpace reason in
  _ ← guard_ (String.eqb sub "" || String.eqb reason "") (Errorf "an erasure names the person and says why" []);
  Do (erase_profile_tx p sub reason).

(** [profileNames]: a Go map from subject to name. *)
Definition name_of_row (names : gmap string string) (row : Row) : M (gmap string string) :=
  key ← select_one "dek_keys" [is_ "scope" (VStr (Str row "scope"))];
  profile ← openProfile row key;
  mret (if String.eqb (pf_Name profile) "" then names else <[pf_Sub profile := pf_Name profile]> names).
Definition profileNames : M (gmap string string) :=
  Do (rows ← query (SSelect "profiles" [] None None); fold name_of_row rows ∅).

(** ** Frame *)

Lemma ro_openProfile row key : ro (openProfile row key).
Proof. unfold openProfile. ro_tac. Qed.
Hint Resolve ro_openProfile : ro.
Lemma ro_profileIn sub : ro (profileIn sub).
Proof. unfold profileIn. ro_tac. Qed.
Lemma ro_name_of_row names row : ro (name_of_row names row).
Proof. unfold name_of_row. ro_tac. Qed.
Hint Resolve ro_profileIn : ro.
Lemma keeps_SeeIdentity sub email name : keeps (SeeIdentity sub email name).
Proof. unfold SeeIdentity, see_tx, record_profile. apply keeps_Do. keeps_tac. Qed.
Lemma keeps_EraseProfile p sub reason : keeps (EraseProfile p sub reason).
Proof. unfold EraseProfile. keeps_tac. apply keeps_Do. unfold erase_profile_tx. keeps_tac. Qed.
End identities.
#[export] Hint Resolve ro_openProfile ro_profileIn ro_name_of_row : ro.

(** ** What is sealed opens *)
Section profiles.
Context `{Runtime}.
Variable r : Register.

Lemma read_sealedProfile email name :
  valid_utf8 email = true -> valid_utf8 name = true ->
  (m ← UnmarshalStruct (sealedProfile email name); e ← get_str "email" m; n ← get_str "name" m; Ok (e, n)) = Ok (email, name).
Proof.
  intros He Hn. unfold UnmarshalStruct, sealedProfile. rewrite parse_MarshalStrings.
  - unfold omit_empty. destruct (String.eqb_spec email "") as [->|], (String.eqb_spec name "") as [->|]; done.
  - unfold omit_empty. destruct (String.eqb email ""), (String.eqb name ""); keys_nodup.
  - unfold omit_empty. destruct (String.eqb email ""), (String.eqb name ""); repeat constructor; done.
Qed.

Lemma profileScope_plain sub : profileScope r sub <> TxIDPlaceholder.
Proof.
  intros E. apply (f_equal String.length) in E. unfold profileScope in E. rewrite !string_length_app in E. cbn in E. lia.
Qed.

(** A row of the profiles table as [record_profile] leaves it. *)
Definition holds_profile (row : Row) (held : Profile_) (scope sealed : string) : Prop :=
  cell row "sub" = SStr (pf_Sub held) /\ cell row "scope" = SStr scope /\ cell row "sealed" = SStr sealed /\
  Int row "first_seen" = pf_FirstSeen held /\ Int row "updated_at" = pf_UpdatedAt held.

Lemma openProfile_sealed row held scope dek ct key w2 :
  (exists we we', Encrypt dek scope (profileID (pf_Sub held)) 0 (sealedProfile (pf_Email held) (pf_Name held)) we = (Ok ct, we')) ->
  holds_profile row held scope (ciphertext_text ct) -> pf_Erased held = false ->
  valid_utf8 scope = true -> valid_utf8 (pf_Email held) = true -> valid_utf8 (pf_Name held) = true ->
  keyring_ok (mat r) w2 -> key_row (visible w2) scope key -> Int key "destroyed_at" = 0 -> wraps (mat r) scope key dek ->
  exists w3, openProfile r row (Some key) w2 = (Ok held, w3).
Proof.
  intros (we & we' & Hct) (Hsub & Hscope & Hsealed & Hfs & Hua) He Hs H1 H2 K (keys & Hk & Hrow) Hd Hw.
  destruct (ciphertext_utf8 _ _ _ _ _ _ _ _ Hs Hct) as (U1 & U2 & U3 & U4).
  destruct (Decrypt_Encrypt _ _ _ _ _ _ _ _ Hct) as [Hdec Hscope'].
  destruct (wraps_Unwrap (mat r) scope key keys dek w2 K Hk Hrow Hd Hw) as [w3 Hu].
  exists w3. unfold openProfile. rewrite Hd. cbn [negb Z.eqb]. unfold mbind, M_bind, wrapping, lift, Bytes at 1, Str at 1.
  rewrite Hsealed, read_ciphertext_text by done. rewrite Hscope', Hu, Hsub, Hdec.
  rewrite read_sealedProfile by done. cbn [fst snd]. unfold Str. rewrite Hsub, Hfs, Hua. by destruct held; cbn in *; subst.
Qed.

Lemma profile_op_key txid sub scope sealed fs ua : sub <> TxIDPlaceholder -> op_key txid (profile_op sub scope sealed fs ua) = [SStr sub].
Proof. intros Hs. unfold op_key, profile_op. cbn. by destruct (String.eqb_spec sub TxIDPlaceholder). Qed.
Lemma profile_op_wf txid sub scope sealed fs ua : op_wf txid (profile_op sub scope sealed fs ua).
Proof. built. Qed.
Lemma empty_profile_op_wf txid sub at_ : op_wf txid (empty_profile_op sub at_).
Proof. built. Qed.

Lemma select_profile sub w row w' :
  wf_db (visible w) -> select_one "profiles" [is_ "sub" (VStr sub)] w = (Ok row, w') ->
  w' = w /\ exists m, visible w !! "profiles" = Some m /\ row = m !! [SStr sub].
Proof.
  intros W E. change [is_ "sub" (VStr sub)] with (key_where "profiles" [VStr sub]) in E.
  apply select_one_key in E; [exact E|done|one_key].
Qed.

Lemma openProfile_sub row key w held w' : openProfile r row key w = (Ok held, w') -> pf_Sub held = Str row "sub".
Proof.
  unfold openProfile. destruct key as [key|]; [|by intros [[= ->] _]%M_ret_inv].
  destruct (negb _); [by intros [[= ->] _]%M_ret_inv|]. intros E.
  apply M_bind_Ok in E as (ct & w1 & _ & E). apply M_bind_Ok in E as (dek & w2 & _ & E).
  apply M_bind_Ok in E as (pl & w3 & _ & E). apply M_bind_Ok in E as (fl & w4 & _ & E). by apply M_ret_inv in E as [[= ->] _].
Qed.

Lemma profileIn_sub sub w held w' : wf_db (visible w) -> profileIn r sub w = (Ok held, w') -> pf_Sub held = sub.
Proof.
  intros W E. unfold profileIn in E. apply M_bind_Ok in E as (row & w1 & E1 & E).
  apply select_profile in E1 as (-> & m & Hm & ->); [|done].
  destruct (m !! [SStr sub]) as [row|] eqn:Er; [|by apply M_ret_inv in E as [[= ->] _]].
  apply M_bind_Ok in E as (key & w2 & _ & E). apply openProfile_sub in E. rewrite E.
  destruct (W _ _ Hm _ _ Er) as [Hk _]. injection Hk as Hs. unfold Str. by rewrite <- Hs.
Qed.

(** Reading the profile filed under a subject. *)
Lemma profile_read sub w m row scope key :
  answers_reads (visible w) -> wf_db (visible w) -> visible w !! "profiles" = Some m -> m !! [SStr sub] = Some row ->
  Str row "scope" = scope -> (exists keys, visible w !! "dek_keys" = Some keys /\ keys !! [SStr scope] = key) ->
  profileIn r sub w = openProfile r row key w.
Proof.
  intros A W Hm Hrow Hscope (keys & Hk & Hkey). unfold profileIn, mbind, M_bind.
  change [is_ "sub" (VStr sub)] with (key_where "profiles" [VStr sub]).
  rewrite (select_one_total "profiles" [VStr sub] m) by first [done|one_key].
  change (lit <$> [VStr sub]) with [SStr sub]. rewrite Hrow, Hscope.
  change [is_ "scope" (VStr scope)] with (key_where "dek_keys" [VStr scope]).
  rewrite (select_one_total "dek_keys" [VStr scope] keys) by first [done|one_key].
  change (lit <$> [VStr scope]) with [SStr scope]. by rewrite Hkey.
Qed.

(** The row and the key a landed recording leaves. *)
Lemma record_profile_lands sub held at_ w0 res w1 :
  commit_moves_one -> store_wf w0 -> txn w0 = None -> keyring_ok (mat r) w0 -> sub <> TxIDPlaceholder ->
  is_Some (committed w0 !! "profiles") -> pf_Sub held = sub -> pf_UpdatedAt held = at_ ->
  record_profile r sub held at_ w0 = (Ok res, w1) ->
  res = held /\
  ((exists ct kops, repeated (profile_env r (profileScope r sub) at_)
      (kops ++ [profile_op sub (profileScope r sub) (ciphertext_text ct) (pf_FirstSeen held) at_]) w0 w1) \/
   version w1 = to_uint64 (version w0 + 1) /\ txn w1 = None /\ wf_db (committed w1) /\
   exists m row ct key dek we we', committed w1 !! "profiles" = Some m /\ m !! [SStr sub] = Some row /\
     holds_profile row held (profileScope r sub) (ciphertext_text ct) /\
     Encrypt dek (profileScope r sub) (profileID sub) 0 (sealedProfile (pf_Email held) (pf_Name held)) we = (Ok ct, we') /\
     key_row (committed w1) (profileScope r sub) key /\ Int key "destroyed_at" = 0 /\ wraps (mat r) (profileScope r sub) key dek).
Proof.
  intros Hone W Ht K Hsub [mp Hmp] Hps Hua E. unfold record_profile in E.
  apply M_bind_Ok in E as ([dek kops] & wa & Ek & E). apply M_bind_Ok in E as (ct & wb & Ec & E). cbn [fst snd] in *.
  apply M_bind_Ok in E as (t & wc & Et & E). apply M_ret_inv in E as [[= ->] ->]. split; [done|].
  pose proof (ro_ensureDEK _ _ _ _ _ _ _ _ Ek) as Hsa. pose proof (ro_Encrypt _ _ _ _ _ _ _ _ Ec) as Hsb.
  assert (same_db w0 wb) as Hs by (by etrans).
  set (op := profile_op sub (profileScope r sub) (ciphertext_text ct) (pf_FirstSeen held) at_) in *.
  pose proof (proj1 (keeps_commit _ _ _ _ _ (store_wf_same _ _ Hs W) Et)) as Wc.
  apply (commit_lands _ _ w0) in Et as [Hsame|L]; [left; by eexists _, _|right|done|done|done|done|].
  2:{ intros txid. apply Forall_app. split; [by eapply ensureDEK_wf|].
      apply Forall_cons_2; [apply profile_op_wf|apply Forall_nil_2]. }
  pose proof Hs as (Hc & Hv & _). split; [by rewrite (landed_version _ _ _ _ _ L), Hv|].
  split; [by eapply landed_txn|]. split; [done|].
  destruct (landed_entry _ kops op [] wb wc t mp L) as (m & Hm & Hconv & Hrow); [done|done|by rewrite Hc|apply Forall_nil_2|].
  change (Table op) with "profiles" in *. unfold op in Hrow at 1 3. rewrite profile_op_key in Hrow by done.
  match type of Hrow with _ = ?e => destruct e as [row|] eqn:He; [|done] end.
  destruct (sealed_key_lives r _ _ _ _ w0 dek kops wa _ [op] wb wc t (store_wf_visible _ W) K ltac:(by rewrite visible_closed, Hc)
    (profileScope_plain sub) Ek ltac:(by apply Forall_cons_2; [|apply Forall_nil_2]) L) as (key & Hkey & Hd & Hw).
  exists m, row, ct, key, dek, wa, wb. split_and!; try done.
  pose proof (effect_typed _ op "first_seen" (VInt (pf_FirstSeen held)) (CInt 64 true) Hconv eq_refl eq_refl eq_refl I) as T1.
  pose proof (effect_typed _ op "updated_at" (VInt at_) (CInt 64 true) Hconv eq_refl eq_refl eq_refl I) as T2.
  unfold holds_profile, Int. split_and!.
  - destruct (Wc _ _ Hm _ _ Hrow) as [Hk _]. injection Hk as Hk. by rewrite <- Hk, Hps.
  - rewrite (effect_cell _ op _ _ "scope" (VStr (profileScope r sub)) (CText 191) Hconv eq_refl He) by
      (rewrite ?substitute_plain by apply profileScope_plain; done).
    by rewrite substitute_plain by apply profileScope_plain.
  - by rewrite (effect_cell _ op _ _ "sealed" (VBinary (ciphertext_text ct)) (CBytes 2048) Hconv eq_refl He) by done.
  - rewrite (effect_cell _ op _ _ "first_seen" (VInt (pf_FirstSeen held)) (CInt 64 true) Hconv eq_refl He) by done. by apply int64_typed.
  - rewrite (effect_cell _ op _ _ "updated_at" (VInt at_) (CInt 64 true) Hconv eq_refl He) by done. rewrite Hua. by apply int64_typed.
Qed.
End profiles.

(** A person's profile is kept as they gave it, and given back. Seeing a
    person sign in reads what is held; when the sign-in asserts nothing
    new, or the profile has been erased, nothing is written and that is
    the answer. Otherwise each asserted value, cut to its length,
    replaces what is held and an absent one leaves it, the change is one
    ledger version (unless that very transaction is in the log already),
    and whoever asks afterwards is given exactly the profile that was
    recorded. *)
Lemma profile_recorded `{Runtime} (r : Register) (sub email name : string) (w w' : world) (held : Profile_) :
  commit_moves_one -> store_wf w -> txn w = None -> is_Some (committed w !! "profiles") ->
  sub <> TxIDPlaceholder -> valid_utf8 (profileScope r sub) = true ->
  keyring_ok (mat r) (profileIn r sub w).2 ->
  SeeIdentity r sub email name w = (Ok held, w') ->
  exists held0 wr, profileIn r sub w = (Ok held0, wr) /\
    if negb (see_changed held0 (truncateRunes email 254) (truncateRunes name 128)) || pf_Erased held0
    then held = held0 /\ same_ledger w w'
    else
      exists at_, held = see_update held0 (truncateRunes email 254) (truncateRunes name 128) at_ /\
      ((exists ct kops, repeated (profile_env r (profileScope r sub) at_)
          (kops ++ [profile_op sub (profileScope r sub) (ciphertext_text ct) (pf_FirstSeen held) at_]) w w') \/
       version w' = to_uint64 (version w + 1) /\
       (valid_utf8 (pf_Email held) = true -> valid_utf8 (pf_Name held) = true ->
        forall w2, same_db w' w2 -> keyring_ok (mat r) w2 -> answers_reads (visible w2) ->
          exists w3, Profile r sub w2 = (Ok held, w3))).
Proof.
  intros Hone W Ht Hp Hsub Hscope K E. unfold SeeIdentity in E. apply Do_inv in E as (w1 & E & ->).
  unfold see_tx in E. apply M_bind_Ok in E as (held0 & wr & E0 & E). exists held0, wr. split; [done|].
  pose proof (ro_profileIn r sub _ _ _ E0) as Hs. rewrite E0 in K. cbn [snd] in K.
  pose proof (profileIn_sub r sub w held0 wr (store_wf_visible _ W) E0) as Hsub0.
  destruct (negb _ || pf_Erased held0) eqn:Hc.
  { apply M_ret_inv in E as [[= ->] ->]. split; [done|]. etrans; [by apply same_db_ledger|apply set_txn_ledger]. }
  apply orb_false_iff in Hc as [_ Her].
  apply M_bind_Ok in E as (at_ & wn & En & E). pose proof (ro_now _ _ _ En) as Hsn. injection En as <- <-.
  pose proof (store_wf_same _ _ Hs W) as Wr. pose proof Hs as (Hcr & Hvr & _ & Htr & _). rewrite Ht in Htr.
  assert (is_Some (committed wr !! "profiles")) as Hp' by (by rewrite Hcr).
  pose proof (record_profile_lands r sub (see_update held0 _ _ _) _ (set_tick (S (tick wr)) wr) held w1 Hone Wr Htr K Hsub Hp' Hsub0 eq_refl E) as E'.
  clear E. rename E' into E.
  destruct E as [-> E]. eexists. split; [reflexivity|].
  destruct E as [(ct & kops & El & Ein)|(Hv & Ht1 & Wc & m & row & ct & key & dek & we & we' & Hm & Hrow & Hold & Hct & Hkey & Hd & Hw)].
  { left. eexists _, _. split; [|cbn [committed set_tick] in Ein; rewrite <- Hcr; exact Ein].
    etrans; [by apply same_db_ledger|]. etrans; [exact El|]. apply set_txn_ledger. }
  right. split; [cbn [version set_txn]; rewrite Hv; cbn [version set_tick]; by rewrite Hvr|]. intros V1 V2 w2 Hs2 K2 A2.
  pose proof Hs2 as (Hc2 & _ & _ & Ht2 & _). cbn [txn set_txn committed] in Hc2, Ht2.
  assert (visible w2 = committed w1) as Hvis by (by rewrite visible_closed).
  set (h := see_update held0 _ _ _) in *.
  destruct (openProfile_sealed r row h (profileScope r sub) dek ct key w2) as [w3 Ho]; try done.
  { exists we, we'. subst h. cbn [pf_Sub see_update]. by rewrite Hsub0. }
  { by rewrite Hvis. }
  exists (set_txn None w3). unfold Profile, Do.
  rewrite (profile_read r sub w2 m row (profileScope r sub) (Some key)); try done; try (by rewrite Hvis).
  - by rewrite Ho.
  - unfold Str. by rewrite (proj1 (proj2 Hold)).
Qed.

(** Asking for an erased profile, and signing in after the erasure. *)
Section erased.
Context `{Runtime}.
Variable r : Register.

Lemma erased_read sub w m row scope key :
  answers_reads (visible w) -> wf_db (visible w) -> visible w !! "profiles" = Some m -> m !! [SStr sub] = Some row ->
  Str row "scope" = scope -> key_row (visible w) scope key -> Int key "destroyed_at" <> 0 ->
  profileIn r sub w = (Ok (mkProfile (Str row "sub") "" "" (Int row "first_seen") (Int row "updated_at") true), w).
Proof.
  intros A W Hm Hrow Hs (keys & Hk & Hkr) Hd.
  rewrite (profile_read r sub w m row scope (Some key)); try done; [|by exists keys].
  unfold openProfile. by destruct (Z.eqb_spec (Int key "destroyed_at") 0).
Qed.

Lemma see_erased sub email name w held w' :
  profileIn r sub w = (Ok held, w') -> pf_Erased held = true -> SeeIdentity r sub email name w = (Ok held, set_txn None w').
Proof.
  intros E He. unfold SeeIdentity, Do, see_tx, mbind, M_bind. rewrite E, He, orb_true_r. done.
Qed.

Lemma destroy_profile_wf scope sub at_ : ops_wf [destroy_op scope at_; empty_profile_op sub at_].
Proof. intros txid. repeat apply Forall_cons_2; [apply destroy_op_wf|apply empty_profile_op_wf|apply Forall_nil_2]. Qed.
End erased.

(** What a later transaction may do to an erased profile: not make its key
    again, and not file it under another. *)
Definition spares_profile (sub scope : string) (op : WriteOp) : Prop :=
  spares_key scope op /\
  (Table op = "profiles" -> (forall txid, op_key txid op <> [SStr sub]) \/
     Delete op = false /\ (obj_get "scope" (Values op) = None \/ obj_get "scope" (Values op) = Some (VStr scope))).
Definition profile_dead (sub scope : string) (db : tables) : Prop :=
  key_destroyed db scope /\
  exists m row, db !! "profiles" = Some m /\ m !! [SStr sub] = Some row /\ Str row "scope" = scope.

Lemma profile_stays_dead `{Runtime} env ops w w' t sub scope :
  scope <> TxIDPlaceholder -> landed env ops w w' t -> Forall (spares_profile sub scope) ops ->
  profile_dead sub scope (committed w) -> profile_dead sub scope (committed w').
Proof.
  intros Hs L F [Hk (m & row & Hm & Hrow & Hsc)]. split.
  - eapply destroyed_stays; [done|exact L| |done]. eapply Forall_impl; [exact F|]. by intros op [? _].
  - destruct (landed_keeps (fun row => Str row "scope" = scope) _ _ _ _ _ "profiles" [SStr sub] m row L)
      as (m' & row' & Hm' & Hr & Hd'); try done; [|by exists m', row'].
    eapply Forall_impl; [exact F|]. intros op [_ Ho] Hc Ht Hok row0 H0.
    destruct (Ho Ht) as [Hno|[Hd Hv]]; [by destruct (Hno (tx_TxID t))|].
    destruct (row_effect (tx_TxID t) op (Some row0)) as [row'|] eqn:He; [|unfold row_effect in He; by rewrite Hd in He].
    exists row'. split; [done|]. destruct Hv as [Hn|Hv].
    + unfold Str, cell. by rewrite (effect_keeps _ _ _ _ "scope" He Hn).
    + unfold Str. rewrite (effect_cell _ _ _ _ "scope" (VStr scope) (CText 191) Hc Hd He Hv) by
        (rewrite ?Ht, ?substitute_plain by done; done). by rewrite substitute_plain.
Qed.

(** Such are the sign-ins of everybody else: they make keys of their own
    and file profiles of their own. *)
Lemma sign_in_spares `{Runtime} (r : Register) sub email name other scope w held w' :
  commit_moves_one -> store_wf w -> txn w = None -> other <> TxIDPlaceholder -> other <> sub ->
  profile_dead sub scope (committed w) -> SeeIdentity r other email name w = (Ok held, w') ->
  followed (spares_profile sub scope) w w'.
Proof.
  intros Hone W Ht Hp Hne [(key & Hkey & _) _] E. unfold SeeIdentity in E. apply Do_inv in E as (w1 & E & ->).
  apply (rtc_r w w1); [|left; apply set_txn_ledger]. unfold see_tx in E.
  apply M_bind_Ok in E as (held0 & wr & E0 & E). pose proof (ro_profileIn r other _ _ _ E0) as Hs.
  destruct (negb _ || _); [apply M_ret_inv in E as [_ ->]; apply rtc_once; left; by apply same_db_ledger|].
  apply M_bind_Ok in E as (at_ & wn & En & E). apply ro_now in En.
  unfold record_profile in E. apply M_bind_Ok in E as ([dek kops] & wa & Ek & E). apply M_bind_Ok in E as (ct & wb & Ec & E).
  apply M_bind_Ok in E as (t & wc & Et & E). apply M_ret_inv in E as [_ ->]. cbn [fst snd] in *.
  assert (same_db w wn) as Hn by (by etrans).
  assert (same_db w wb) as Hb by (etrans; [exact Hn|]; etrans; [by eapply ro_ensureDEK|by eapply ro_Encrypt]).
  apply (commit_lands _ _ w) in Et as [[Hl _]|L]; try done; [apply rtc_once; by left| |].
  - eapply (rtc_l _ w wb); [left; by apply same_db_ledger|]. apply rtc_once. right. eexists _, _, _. split; [exact L|].
    apply Forall_app. split; [|apply Forall_singleton; split; [done|]; intros _; left; intros txid; rewrite profile_op_key by done; congruence].
    pose proof Hn as (Hc & _ & _ & Htn & _).
    assert (visible wn = committed w) as Hvn by (unfold visible; by rewrite Htn, Ht).
    eapply (Forall_impl (fun op => spares_key scope op /\ Table op = "dek_keys")); [|intros op [Hk Hd]; split; [done|]; by rewrite Hd].
    apply Forall_and. split; [|by eapply ensureDEK_tables]. eapply ensureDEK_spares; [|apply profileScope_plain| |exact Ek].
    + apply store_wf_visible. by eapply store_wf_same.
    + by rewrite Hvn.
  - intros txid. apply Forall_app. split; [by eapply ensureDEK_wf|]. apply Forall_singleton. apply profile_op_wf.
Qed.

(** C32. An erased profile stays erased. Erasing needs the permission, a
    person and a reason, and a profile whose key is still live. It is one
    ledger version that empties the sealed column and both wraps of the
    key, marks the key destroyed and drops it from the keyring; the one
    exception is an erasure whose very transaction, these two entries at
    the time the clock read, is in the log already, and then nothing
    changes. From then on, however many transactions follow, as long as
    none makes the key again or files the person under another, whoever
    asks is given no name and no address, and a sign-in, whatever it
    asserts, records nothing again. *)
Theorem profile_erasure_final `{Runtime} (r : Register) (p : Principal) (sub reason : string)
    (w w' : world) (t : Transaction) :
  commit_moves_one -> store_wf w -> txn w = None -> (forall n, 0 < clock n) -> TrimSpace sub <> TxIDPlaceholder ->
  EraseProfile p sub reason w = (Ok t, w') ->
  Can p PermErasure = true /\ TrimSpace sub <> "" /\ TrimSpace reason <> "" /\
  exists m row key, committed w !! "profiles" = Some m /\ m !! [SStr (TrimSpace sub)] = Some row /\
    key_row (committed w) (Str row "scope") key /\ Int key "destroyed_at" = 0 /\
    (Str row "scope" <> TxIDPlaceholder ->
     (exists env, repeated env [destroy_op (Str row "scope") (clock (tick w)); empty_profile_op (TrimSpace sub) (clock (tick w))] w w') \/
     version w' = to_uint64 (version w + 1) /\ cache w' !! Str row "scope" = None /\
     exists m' row' key', committed w' !! "profiles" = Some m' /\ m' !! [SStr (TrimSpace sub)] = Some row' /\
       cell row' "sealed" = SStr "" /\ key_row (committed w') (Str row "scope") key' /\
       Int key' "destroyed_at" <> 0 /\ cell key' "op_wrap" = SStr "" /\ cell key' "rec_wrap" = SStr "" /\
       (forall w2, followed (spares_profile (TrimSpace sub) (Str row "scope")) w' w2 -> store_wf w2 -> txn w2 = None -> answers_reads (visible w2) ->
        exists held, Profile r (TrimSpace sub) w2 = (Ok held, w2) /\
          pf_Erased held = true /\ pf_Email held = "" /\ pf_Name held = "" /\
          forall email name, SeeIdentity r (TrimSpace sub) email name w2 = (Ok held, w2))).
Proof.
  intros Hone W Ht Hclock Hsub E. unfold EraseProfile in E.
  apply M_bind_Ok in E as (u & w1 & Eg & E). apply guard_Ok in Eg as [Hcan ->].
  apply M_bind_Ok in E as (u2 & w1 & Eg & E). apply guard_Ok in Eg as [Hne ->]. bool_hyps. do 3 (split; [done|]).
  set (s := TrimSpace sub) in *. apply Do_inv in E as (w1 & E & ->). unfold erase_profile_tx in E.
  pose proof (visible_closed w Ht) as Hvis.
  apply M_bind_Ok in E as (o & wa & Es & E). apply select_profile in Es as (-> & m & Hm & ->); [|by apply store_wf_visible].
  apply M_bind_Ok in E as (row & wa & El & E). apply lift_Ok in El as [Hrow ->]. apply of_option_Ok in Hrow.
  apply M_bind_Ok in E as (key & wa & Ek & E). apply live_key_inv in Ek as [-> Hkey]; [|by apply store_wf_visible].
  apply M_bind_Ok in E as (u3 & wa & Eg & E). apply guard_Ok in Eg as [Hk ->]. destruct key as [key|]; [|done]. destruct Hkey as [Hkey Hd].
  apply M_bind_Ok in E as (at_ & wn & En & E). pose proof (ro_now _ _ _ En) as Hsn. injection En as <- <-.
  apply M_bind_Ok in E as (t' & wc & Ec & E). apply M_bind_Ok in E as (u4 & wd & Ef & E). apply M_ret_inv in E as [[= ->] ->].
  injection Ef as _ <-. rewrite Hvis in *. exists m, row, key. do 4 (split; [done|]). intros Hscope.
  set (scope := Str row "scope") in *. set (at_ := clock (tick w)) in *.
  pose proof (proj1 (keeps_commit _ _ _ _ _ (store_wf_same _ _ Hsn W) Ec)) as Wc.
  apply (commit_lands _ _ w) in Ec as [Hsame|L]; [left|right|done|done|done|done|apply destroy_profile_wf].
  { eexists. eapply repeated_then; [exact Hsame|done]. }
  split; [exact (landed_version _ _ _ _ _ L)|]. split; [cbn; by rewrite lookup_delete_eq|].
  assert (is_Some (committed (set_tick (S (tick w)) w) !! "dek_keys")) as Hdk by (destruct Hkey as (keys & Hk' & _); by exists keys).
  destruct (destroyed_marked _ [] scope at_ [empty_profile_op s at_] (set_tick (S (tick w)) w) wc t' Hscope Hdk
    ltac:(by apply Forall_cons_2; [|apply Forall_nil_2]) L) as (key' & Hkey' & Hd' & Ho & Hr).
  destruct (landed_entry _ [destroy_op scope at_] (empty_profile_op s at_) [] (set_tick (S (tick w)) w) wc t' m L)
    as (m' & Hm' & Hconv & Hrow'); [done..|apply Forall_nil_2|].
  assert (op_key (tx_TxID t') (empty_profile_op s at_) = [SStr s]) as Hok.
  { unfold op_key, empty_profile_op. cbn. by destruct (String.eqb_spec s TxIDPlaceholder). }
  rewrite Hok, row_effects_other in Hrow' by (by apply Forall_cons_2; [|apply Forall_nil_2]). rewrite Hrow in Hrow'.
  match type of Hrow' with _ = ?e => destruct e as [row'|] eqn:He; [|done] end.
  assert (0 < at_) as Hat by apply Hclock.
  exists m', row', key'. split_and!; try done; [|lia|].
  { by rewrite (effect_cell _ _ _ _ "sealed" (VBinary "") (CBytes 2048) Hconv eq_refl He) by done. }
  assert (Str row' "scope" = scope) as Hs' by (unfold scope, Str, cell; by rewrite (effect_keeps _ _ _ _ "scope" He eq_refl)).
  intros w2 Hf W2 Ht2 A2. pose proof (visible_closed w2 Ht2) as Hv2.
  assert (profile_dead s scope (committed w2)) as [(key2 & Hkey2 & Hd2 & _) (m2 & row2 & Hm2 & Hrow2 & Hsc2)].
  { eapply (followed_keeps _ (profile_dead s scope)); [intros; by eapply profile_stays_dead|exact Hf|]. split.
    - exists key'. split; [done|]. split; [lia|done].
    - by exists m', row'. }
  assert (set_txn None w2 = w2) as Hw2 by (destruct w2; cbn in Ht2; by subst).
  pose proof (erased_read r s w2 m2 row2 scope key2 A2 (store_wf_visible _ W2) ltac:(by rewrite Hv2)
    Hrow2 Hsc2 ltac:(by rewrite Hv2) Hd2) as Hread.
  eexists. split; [unfold Profile, Do; by rewrite Hread, Hw2|]. do 3 (split; [done|]). intros email name.
  rewrite (see_erased r s email name w2 _ w2 Hread eq_refl). by rewrite Hw2.
Qed.

Section demo.
#[local] Existing Instance plain_runtime.

(** A first sign-in, on the empty register. *)
Definition first_sign_in := SeeIdentity demo_register "ann-7" "ann@example.org" "Ann <A> & Co" fresh_world.
Definition seen_world : world := snd first_sign_in.

Lemma profile_recorded_witness : exists held w', first_sign_in = (Ok held, w') /\ pf_Name held = "Ann <A> & Co" /\
  exists w3, Profile demo_register "ann-7" w' = (Ok held, w3).
Proof.
  destruct (runs_ok first_sign_in) as (held & w' & E & Hw); [vm_compute; reflexivity|].
  assert (is_ok (fst first_sign_in) = true /\ version (snd first_sign_in) = 2 /\ txn (snd first_sign_in) = None /\
    cache (snd first_sign_in) = ∅) as (_ & Hv & Ht & Hc) by (vm_compute; split_and!; reflexivity).
  rewrite <- Hw in Hv, Ht, Hc.
  destruct (@profile_recorded plain_runtime demo_register "ann-7" "ann@example.org" "Ann <A> & Co" fresh_world w' held
    plain_moves_one fresh_world_wf eq_refl ltac:(eexists; reflexivity) ltac:(discriminate) ltac:(vm_compute; reflexivity)
    ltac:(intros sc dek keys row Hx; discriminate Hx) E) as (held0 & wr & E0 & H).
  assert (fst (profileIn demo_register "ann-7" fresh_world) = Ok (no_profile "ann-7")) as E1 by (vm_compute; reflexivity).
  rewrite E0 in E1. injection E1 as ->. destruct H as (at_ & Hheld & H). exists held, w'. split; [exact E|].
  assert (pf_Name held = "Ann <A> & Co" /\ valid_utf8 (pf_Email held) = true /\ valid_utf8 (pf_Name held) = true) as (Hn & V1 & V2).
  { subst held. vm_compute. split_and!; reflexivity. }
  split; [exact Hn|]. eapply moved_by in H as [_ H]; [|intros (? & ? & Hq); exact (proj1 Hq)|rewrite Hv; discriminate].
  apply (H V1 V2 w'); [reflexivity| |apply plain_answers].
  intros sc dek keys row Hx. rewrite Hc in Hx. discriminate Hx.
Defined.

Definition eraser : Principal := mkPrincipal "dpo" "" "" "t" ["dpo"] "dpo" true {[ PermErasure ]}.

Lemma profile_erasure_final_witness : exists t w', EraseProfile eraser "ann-7" "asked to" seen_world = (Ok t, w') /\
  exists held, Profile demo_register "ann-7" w' = (Ok held, w') /\ pf_Erased held = true /\
    SeeIdentity demo_register "ann-7" "ann@example.org" "Ann" w' = (Ok held, w').
Proof.
  destruct (runs_ok (EraseProfile eraser "ann-7" "asked to" seen_world)) as (t & w' & E & Hw); [vm_compute; reflexivity|].
  assert (version (snd (EraseProfile eraser "ann-7" "asked to" seen_world)) = 3 /\
    txn (snd (EraseProfile eraser "ann-7" "asked to" seen_world)) = None /\ version seen_world = 2 /\ txn seen_world = None)
    as (Hv & Ht & Hv0 & Ht0) by (vm_compute; split_and!; reflexivity).
  rewrite <- Hw in Hv, Ht.
  assert (store_wf seen_world) as W.
  { unfold seen_world. destruct first_sign_in as [x y] eqn:Ex. eapply keeps_SeeIdentity; [exact fresh_world_wf|exact Ex]. }
  destruct (@profile_erasure_final plain_runtime demo_register eraser "ann-7" "asked to" seen_world w' t
    plain_moves_one W Ht0 plain_clock ltac:(discriminate) E) as (_ & _ & _ & m & row & key & Hm & Hrow & _ & _ & H).
  exists t, w'. split; [exact E|]. pose proof (keeps_EraseProfile _ _ _ _ _ _ W E) as Wf.
  assert (match committed seen_world !! "profiles" with
    | Some m => match m !! [SStr "ann-7"] with Some row => negb (String.eqb (Str row "scope") TxIDPlaceholder) | None => false end
    | None => false end = true) as Hs by (vm_compute; reflexivity).
  rewrite Hm in Hs. change (TrimSpace "ann-7") with "ann-7" in Hrow. rewrite Hrow in Hs. bool_hyps.
  specialize (H Hs). eapply moved_by in H; [|intros [? Hq]; exact (proj1 Hq)|rewrite Hv, Hv0; discriminate].
  destruct H as (_ & _ & m' & row' & key' & _ & _ & _ & _ & _ & _ & _ & H).
  destruct (H w' ltac:(reflexivity) Wf Ht (plain_answers _)) as (held & H1 & H2 & _ & _ & H3).
  exists held. split; [exact H1|]. split; [exact H2|apply H3].
Defined.
End demo.
