(* ===== verification/Members.v ===== *)
(** * Membership ([internal/register/members.go], [invite_mail.go])

    Who holds which role, kept the way everything else is: a grant, a
    revocation and an invitation are transactions. An invitation is a
    single-use secret, of which the register keeps a hash; the person an
    e-mailed one is for is sealed under a key of the invitation's own. *)

From S2P Require Import Prelude GoStrings Float64 Encoding Canon Json SqlText Sql Rbac JsonSchema Pack Model World Concrete Commit Replay Byok GoJson Records RecordsCorrect Landing Workflow WorkflowCorrect Identities.
Local Open Scope Z_scope.

Record Member := mkMember {
  mb_Sub : string;
  mb_Role : string;
  mb_Display : string;
  mb_GrantedBy : string;
  mb_GrantedAt : Z;
  mb_TxID : string;
}.

Record Invite := mkInvite {
  iv_ID : string;
  iv_Role : string;
  iv_Label : string;
  iv_CreatedBy : string;
  iv_CreatedAt : Z;
  iv_ExpiresAt : Z;
  iv_UsedBy : string;
  iv_UsedAt : Z;
  iv_Status : string;
}.

Record InviteRecipient := mkRecipient {
  ir_Email : string;
  ir_Name : string;
  ir_Organisation : string;
  ir_Secret : string;
}.

Record InviteReminder := mkReminder { rem_Invite : Invite; rem_To : InviteRecipient }.

(** Durations are counts of nanoseconds. *)
Definition second : Z := 1000000000.
Definition DefaultInviteLifetime : Z := 14 * 24 * 3600 * second.
Definition MaxInviteLifetime : Z := 30 * 24 * 3600 * second.
Definition RemindAfter : Z := 7 * 24 * 3600 * second.
(** [int64(d.Seconds())] of a duration that is not negative and at most
    the longest lifetime: the float in between holds the nanoseconds
    exactly enough not to round up to the next second. *)
Definition whole_seconds (d : Z) : Z := d / second.

Definition memberID (tenant sub role : string) : string := tenant +:+ "|" +:+ sub +:+ "|" +:+ role.
Definition inviteScope (tenant id : string) : string := tenant +:+ "/invite/" +:+ id.

(** [Model.Roles]: the declarations in the order of their names, under
    which they are filed. *)
Definition Roles (m : RoleModel) : list RoleSpec :=
  omap (fun n => roles m !! n) (sort_strings ((map_to_list (roles m)).*1)).

Definition administers (spec : RoleSpec) : bool := containsString (rs_Permissions spec) PermMembers.

(** Grants sorted by subject, then by role. *)
Definition member_le (a b : Member) : Prop :=
  if String.eqb (mb_Sub a) (mb_Sub b) then String.le (mb_Role a) (mb_Role b) else String.le (mb_Sub a) (mb_Sub b).
#[export] Instance member_le_dec : RelDecision member_le.
Proof. intros a b. unfold member_le. destruct (String.eqb _ _); apply _. Defined.
Definition newest_first (a b : Invite) : Prop := iv_CreatedAt b <= iv_CreatedAt a.
#[export] Instance newest_first_dec : RelDecision newest_first.
Proof. intros a b. unfold newest_first. apply _. Defined.

(** The row of a grant. *)
Definition member_op (tenant sub role by_ : string) (at_ : Z) : WriteOp :=
  upsert "members" [("id", VStr (memberID tenant sub role))]
    [("tenant", VStr tenant); ("sub", VStr sub); ("role", VStr role); ("display", VStr "");
     ("granted_by", VStr by_); ("granted_at", VInt at_); ("txid", VStr TxIDPlaceholder)].
Definition revoke_op (tenant sub role : string) : WriteOp :=
  remove "members" [("id", VStr (memberID tenant sub role))].

(** The rows of an invitation: issued, spent, withdrawn. *)
Definition invite_op (tenant hash : string) (inv : Invite) : WriteOp :=
  upsert "invites" [("id", VStr (iv_ID inv))]
    [("tenant", VStr tenant); ("role", VStr (iv_Role inv)); ("label", VStr (iv_Label inv)); ("secret_hash", VBinary hash);
     ("created_by", VStr (iv_CreatedBy inv)); ("created_at", VInt (iv_CreatedAt inv)); ("expires_at", VInt (iv_ExpiresAt inv));
     ("used_by", VStr ""); ("used_at", VInt 0); ("revoked", VBool false); ("txid", VStr TxIDPlaceholder)].
Definition spend_op (id sub : string) (at_ : Z) : WriteOp :=
  upsert "invites" [("id", VStr id)] [("used_by", VStr sub); ("used_at", VInt at_)].
Definition withdraw_op (id : string) : WriteOp := upsert "invites" [("id", VStr id)] [("revoked", VBool true)].
Definition recipient_op (tenant id scope sealed : string) : WriteOp :=
  upsert "invite_recipients" [("id", VStr id)]
    [("tenant", VStr tenant); ("scope", VStr scope); ("sealed", VBinary sealed); ("reminded_at", VInt 0)].
Definition empty_recipient_op (id : string) : WriteOp := upsert "invite_recipients" [("id", VStr id)] [("sealed", VBinary "")].

(** [InviteRecipient], as JSON. *)
Definition recipient_text (to : InviteRecipient) : string :=
  MarshalStrings ([("email", ir_Email to)] ++ omit_empty "name" (ir_Name to)
    ++ omit_empty "organisation" (ir_Organisation to) ++ omit_empty "secret" (ir_Secret to)).
Definition read_recipient (raw : string) : res InviteRecipient :=
  m ← UnmarshalStruct raw;
  e ← get_str "email" m; n ← get_str "name" m; o ← get_str "organisation" m; s ← get_str "secret" m;
  Ok (mkRecipient e n o s).

Definition may_not_manage (p : Principal) : error := Errorf "%s may not manage members" [Acting p].

Section members.
Context `{Runtime}.
Variable r : Register.

Definition role_spec (name : string) : option RoleSpec := Role (pk_model (pk r)) name.
Definition administrator_role (name : string) : bool :=
  match role_spec name with Some spec => administers spec | None => false end.

Definition member_rows (tenant sub : string) : M (list Row) :=
  query (SSelect "members" [is_ "tenant" (VStr tenant); is_ "sub" (VStr sub)] None None).

(** [GrantedRoles]. *)
Definition GrantedRoles (tenant sub : string) : M (list string * string) :=
  Do (rows ← member_rows tenant sub;
      mret (sort_strings ((fun row => Str row "role") <$> rows),
            fold_left (fun display row => if String.eqb display "" then Str row "display" else display) rows "")).

(** [MembersRole]. *)
Definition MembersRole : res string :=
  match filter (fun spec => administers spec = true) (Roles (pk_model (pk r))) with
  | spec :: _ => Ok (rs_Name spec)
  | [] => Err (Errorf "pack %s declares no role with the %q permission" [pk_Name (pk r); PermMembers])
  end.

(** [Members]. *)
Definition member_of_row (names : gmap string string) (row : Row) : Member :=
  let display := Str row "display" in
  mkMember (Str row "sub") (Str row "role")
    (if String.eqb display "" then default "" (names !! Str row "sub") else display)
    (Str row "granted_by") (Int row "granted_at") (Str row "txid").
Definition Members_ (p : Principal) : M (list Member) :=
  _ ← guard_ (negb (Can p PermMembers)) (may_not_manage p);
  rows ← Do (query (SSelect "members" [is_ "tenant" (VStr (p_Tenant p))] None None));
  names ← profileNames r;
  mret (merge_sort member_le (member_of_row names <$> rows)).

(** One role held, against the one to grant. *)
Definition clashes (spec : RoleSpec) (role other : string) : bool :=
  containsString (rs_IncompatibleWith spec) other
  || match role_spec other with Some o => containsString (rs_IncompatibleWith o) role | None => false end.
Definition check_held (spec : RoleSpec) (sub role : string) (row : Row) : res unit :=
  let other := Str row "role" in
  _ ← refuse_if (String.eqb other role) (Errorf "%s is already registered as %s" [clip sub 24; role]);
  refuse_if (clashes spec role other)
    (Errorf "separation of duties: %s already holds %s, which may not be held with %s" [clip sub 24; other; role]).

Definition grant_env (kind : string) (author : Author) (tenant sub role reason : string) (spec : RoleSpec) (at_ : Z) : Envelope :=
  mkEnvelope kind tenant "" "" [] author at_
    (composeMessage (clip ("Grant " +:+ role +:+ " to " +:+ clip sub 16) MaxSummary)
       (TrimSpace (sub +:+ " now holds the role " +:+ strconv_Quote role +:+ " (" +:+ orDefault (rs_Title spec) role
                   +:+ ")." +:+ nl +:+ reason))) [].

(** [grant]. *)
Definition grant (kind : string) (author : Author) (tenant sub role reason : string) (extra : list WriteOp) : M Transaction :=
  spec ← lift (of_option (role_spec role) (Errorf "no such role %q" [role]));
  held ← member_rows tenant sub;
  _ ← lift (check_all (check_held spec sub role) held);
  at_ ← now;
  commit (grant_env kind author tenant sub role reason spec at_)
    (member_op tenant sub role (au_Sub author) at_ :: extra).

(** [GrantRole]. *)
Definition GrantRole (p : Principal) (sub role display reason : string) : M Transaction :=
  _ ← guard_ (negb (Can p PermMembers)) (may_not_manage p);
  let sub := TrimSpace sub in
  let display := TrimSpace display in
  _ ← guard_ (String.eqb sub "" || (256 <? len sub)) (Errorf "a grant needs the subject it is for" []);
  txn ← Do (grant KindMemberGrant (principalAuthor p) (p_Tenant p) sub role reason []);
  if String.eqb display "" then mret txn else
  held ← Profile r sub;
  if String.eqb (pf_Name held) "" then _ ← SeeIdentity r sub "" display; mret txn else mret txn.

(** [BootstrapMember]. *)
Definition BootstrapMember (sub role : string) : M Transaction :=
  Do (grant KindMemberGrant (systemAuthor (opts r) "configure") (opt_Tenant (opts r)) (TrimSpace sub) role
        "Named by the deployer in the configure call." []).

(** [otherAdministrators]: how many people, other than one, hold a role
    that may manage membership. *)
Definition other_administrator (except : string) (row : Row) : bool :=
  negb (String.eqb (Str row "sub") except) && administrator_role (Str row "role").
Definition otherAdministrators (tenant except : string) : M Z :=
  rows ← query (SSelect "members" [is_ "tenant" (VStr tenant)] None None);
  let others := filter (fun row => other_administrator except row = true) rows in
  mret (Z.of_nat (size (list_to_set ((fun row => Str row "sub") <$> others) : gset string))).

(** [RevokeRole]. *)
Definition revoke_env (p : Principal) (sub role reason : string) (at_ : Z) : Envelope :=
  mkEnvelope KindMemberRevoke (p_Tenant p) "" "" [] (principalAuthor p) at_
    (composeMessage (clip ("Revoke " +:+ role +:+ " from " +:+ clip sub 16) MaxSummary)
       (TrimSpace (sub +:+ " no longer holds the role " +:+ strconv_Quote role +:+ "." +:+ nl +:+ reason))) [].
Definition revoke_tx (p : Principal) (sub role reason : string) : M Transaction :=
  row ← select_one "members" [is_ "id" (VStr (memberID (p_Tenant p) sub role))];
  _ ← guard_ (match row with None => true | Some _ => false end)
        (Errorf "no such member: %s does not hold %s" [clip sub 24; role]);
  _ ← (if administrator_role role then
         others ← otherAdministrators (p_Tenant p) sub;
         guard_ (others =? 0)
           (Errorf "%s is the only member who may manage membership; grant that to someone else first" [clip sub 24])
       else mret tt);
  at_ ← now;
  commit (revoke_env p sub role reason at_) [revoke_op (p_Tenant p) sub role].
Definition RevokeRole (p : Principal) (sub role reason : string) : M Transaction :=
  _ ← guard_ (negb (Can p PermMembers)) (may_not_manage p);
  Do (revoke_tx p sub role reason).

(** ** Invitations *)

(** [sealRecipient]. *)
Definition sealRecipient (tenant id : string) (at_ : Z) (to : InviteRecipient) : M (list WriteOp) :=
  let scope := inviteScope tenant id in
  key ← ensureDEK r (newWriteCtx tenant at_) scope "invite" id;
  ct ← Encrypt key.1 scope id 0 (recipient_text to);
  mret (key.2 ++ [recipient_op tenant id scope (ciphertext_text ct)]).

(** [forgetRecipient]: the writes, and the scope to forget. *)
Definition forgetRecipient (id : string) (at_ : Z) : M (list WriteOp * string) :=
  row ← select_one "invite_recipients" [is_ "id" (VStr id)];
  match row with
  | None => mret ([], "")
  | Some row =>
      let scope := Str row "scope" in
      key ← live_key scope;
      mret (match key with
            | None => ([], "")
            | Some _ => ([destroy_op scope at_; empty_recipient_op id], scope)
            end)
  end.

(** [openRecipient]: [None] when the key is gone. *)
Definition openRecipient (row : Row) : M (option InviteRecipient) :=
  key ← live_key (Str row "scope");
  match key with
  | None => mret None
  | Some key =>
      ct ← wrapping "register: invitation: %w" [] (lift (read_ciphertext (Bytes row "sealed")));
      dek ← UnwrapOperational (mat r) (ct_Scope ct) (Bytes key "op_wrap");
      plain ← lift (Decrypt dek ct (Str row "id") 0);
      to ← wrapping "register: invitation: %w" [] (lift (read_recipient plain));
      mret (Some to)
  end.

Definition with_secret (to : InviteRecipient) (secret : string) : InviteRecipient :=
  mkRecipient (ir_Email to) (ir_Name to) (ir_Organisation to) secret.

Definition invite_env (author : Author) (tenant : string) (inv : Invite) (spec : RoleSpec) : Envelope :=
  mkEnvelope KindInviteCreate tenant "" "" [] author (iv_CreatedAt inv)
    (composeMessage (clip ("Invite " +:+ orDefault (iv_Label inv) "someone" +:+ " as " +:+ iv_Role inv) MaxSummary)
       ("Invitation " +:+ iv_ID inv +:+ " grants the role " +:+ strconv_Quote (iv_Role inv) +:+ " ("
        +:+ orDefault (rs_Title spec) (iv_Role inv) +:+ ") to whoever opens it and signs in, once, before "
        +:+ format_rfc3339 (iv_ExpiresAt inv) +:+ "." +:+ nl
        +:+ "The link's secret is not part of this record; only its hash is.")) [].

(** The lifetime an invitation gets. *)
Definition invite_lifetime (validFor : Z) : res Z :=
  let validFor := if validFor <=? 0 then DefaultInviteLifetime else validFor in
  _ ← refuse_if (MaxInviteLifetime <? validFor) (Errorf "an invitation is valid for at most %d days" [itoa 30]);
  Ok validFor.

(** [createInvite]. *)
Definition createInvite (author : Author) (tenant role label : string) (validFor : Z) (to : option InviteRecipient)
    : M (Invite * string) :=
  spec ← lift (of_option (role_spec role) (Errorf "no such role %q" [role]));
  validFor ← lift (invite_lifetime validFor);
  let label := TrimSpace label in
  _ ← guard_ (96 <? rune_count label) (Errorf "an invitation label is at most 96 characters" []);
  rawID ← random 8;
  rawSecret ← random 32;
  let secret := base64_rawurl rawSecret in
  at_ ← now;
  let inv := mkInvite (hex_encode rawID) role label (au_Sub author) at_ (at_ + whole_seconds validFor) "" 0 "open" in
  more ← (match to with
          | None => mret []
          | Some to => sealRecipient tenant (iv_ID inv) at_ (with_secret to secret)
          end);
  _ ← commit (invite_env author tenant inv spec) (invite_op tenant (sha256 secret) inv :: more);
  mret (inv, secret).

(** [CreateInvite], [CreateEmailedInvite] and [BootstrapInvite]. *)
Definition CreateInvite (p : Principal) (role label : string) (validFor : Z) : M (Invite * string) :=
  _ ← guard_ (negb (Can p PermMembers)) (may_not_manage p);
  Do (createInvite (principalAuthor p) (p_Tenant p) role label validFor None).
Definition CreateEmailedInvite (p : Principal) (role : string) (validFor : Z) (to : InviteRecipient) : M (Invite * string) :=
  _ ← guard_ (negb (Can p PermMembers)) (may_not_manage p);
  _ ← guard_ ((128 <? rune_count (ir_Name to)) || (128 <? rune_count (ir_Organisation to)))
        (Errorf "a name or organisation is at most 128 characters" []);
  Do (createInvite (principalAuthor p) (p_Tenant p) role "" validFor (Some to)).
Definition BootstrapInvite (role : string) (validFor : Z) : M (Invite * string) :=
  Do (createInvite (systemAuthor (opts r) "configure") (opt_Tenant (opts r)) role "First administrator" validFor None).

(** [decodeInvite]: the clock is read only when nothing else settles the
    state. *)
Definition invite_of_row (row : Row) (status : string) : Invite :=
  mkInvite (Str row "id") (Str row "role") (Str row "label") (Str row "created_by") (Int row "created_at")
    (Int row "expires_at") (Str row "used_by") (Int row "used_at") status.
Definition decodeInvite (row : Row) : M Invite :=
  if Bool row "revoked" then mret (invite_of_row row "revoked")
  else if negb (String.eqb (Str row "used_by") "") then mret (invite_of_row row "used")
  else at_ ← now; mret (invite_of_row row (if Int row "expires_at" <? at_ then "expired" else "open")).

(** [Invites]. *)
Definition Invites (p : Principal) : M (list Invite) :=
  _ ← guard_ (negb (Can p PermMembers)) (may_not_manage p);
  rows ← Do (query (SSelect "invites" [is_ "tenant" (VStr (p_Tenant p))] None None));
  out ← traverse decodeInvite rows;
  mret (merge_sort newest_first out).

Definition invite_row (tenant id : string) : M (option Row) :=
  select_one "invites" [is_ "id" (VStr id); is_ "tenant" (VStr tenant)].

(** [RevokeInvite]. *)
Definition revoke_invite_tx (p : Principal) (id : string) : M Transaction :=
  row ← invite_row (p_Tenant p) id;
  row ← lift (of_option row (Errorf "no such invitation" []));
  inv ← decodeInvite row;
  _ ← guard_ (negb (String.eqb (iv_Status inv) "open"))
        (Errorf "invitation %s is not awaiting anyone: it is %s" [id; iv_Status inv]);
  at_ ← now;
  let env := mkEnvelope KindInviteRevoke (p_Tenant p) "" "" [] (principalAuthor p) at_
               (clip ("Withdraw the invitation for " +:+ orDefault (iv_Label inv) (iv_Role inv)) MaxSummary) [] in
  forget ← forgetRecipient id at_;
  txn ← commit env (withdraw_op id :: forget.1);
  _ ← when (negb (String.eqb forget.2 "")) (Forget forget.2);
  mret txn.
Definition RevokeInvite (p : Principal) (id : string) : M Transaction :=
  _ ← guard_ (negb (Can p PermMembers)) (may_not_manage p);
  Do (revoke_invite_tx p id).

(** [openInvite]. *)
Definition openInvite (tenant id secret : string) : M Invite :=
  row ← invite_row tenant id;
  match row with
  | None => throw ErrInvite
  | Some row =>
      _ ← guard_ (negb (String.eqb (sha256 secret) (Bytes row "secret_hash"))) ErrInvite;
      inv ← decodeInvite row;
      _ ← guard_ (negb (String.eqb (iv_Status inv) "open")) ErrInvite;
      mret inv
  end.

(** [CheckInvite]. *)
Definition CheckInvite (tenant id secret : string) : M Invite := Do (openInvite tenant id secret).

(** [RedeemInvite]. *)
Definition redeem_tx (tenant sub id secret : string) : M (Invite * Transaction) :=
  inv ← openInvite tenant id secret;
  at_ ← now;
  forget ← forgetRecipient id at_;
  txn ← grant KindInviteRedeem (mkAuthor sub "" "invitee") tenant sub (iv_Role inv)
          ("Invitation " +:+ iv_ID inv +:+ ", issued by " +:+ iv_CreatedBy inv +:+ ".")
          (spend_op id sub at_ :: forget.1);
  _ ← when (negb (String.eqb forget.2 "")) (Forget forget.2);
  mret (mkInvite (iv_ID inv) (iv_Role inv) (iv_Label inv) (iv_CreatedBy inv) (iv_CreatedAt inv) (iv_ExpiresAt inv)
          sub at_ "used", txn).
Definition RedeemInvite (tenant sub id secret : string) : M (Invite * Transaction) :=
  let sub := TrimSpace sub in
  _ ← guard_ (String.eqb sub "" || (256 <? len sub)) (Errorf "an invitation is redeemed by a signed-in person" []);
  Do (redeem_tx tenant sub id secret).

(** [Administered]. *)
Definition Administered : M bool :=
  n ← Do (otherAdministrators (opt_Tenant (opts r)) ""); mret (0 <? n).

(** ** Reminders *)

(** [InviteReminders], one recipient. *)
Definition remind_row (out : list InviteReminder) (row : Row) : M (list InviteReminder) :=
  invite ← select_one "invites" [is_ "id" (VStr (Str row "id"))];
  match invite with
  | None => mret out
  | Some invite =>
      inv ← decodeInvite invite;
      if negb (String.eqb (iv_Status inv) "open") then mret out else
      at_ ← now;
      if at_ <? iv_CreatedAt inv + whole_seconds RemindAfter then mret out else
      to ← openRecipient row;
      mret (match to with Some to => out ++ [mkReminder inv to] | None => out end)
  end.
Definition InviteReminders : M (list InviteReminder) :=
  Do (rows ← query (SSelect "invite_recipients" [is_ "reminded_at" (VInt 0)] None None);
      fold remind_row rows []).

(** [MarkReminded]. *)
Definition reminded_op (id : string) (at_ : Z) : WriteOp :=
  upsert "invite_recipients" [("id", VStr id)] [("reminded_at", VInt at_)].
Definition MarkReminded (id : string) : M unit :=
  Do (at_ ← now;
      _ ← commit (mkEnvelope KindInviteRemind (opt_Tenant (opts r)) "" "" [] (systemAuthor (opts r) "Reminders") at_
                    (clip ("Remind the person invited by invitation " +:+ id) MaxSummary) [])
            [reminded_op id at_];
      mret tt).

(** [ForgetExpiredRecipients], one recipient. *)
Definition expire_row (n : Z) (row : Row) : M Z :=
  let id := Str row "id" in
  invite ← select_one "invites" [is_ "id" (VStr id)];
  match invite with
  | None => mret n
  | Some invite =>
      inv ← decodeInvite invite;
      if negb (String.eqb (iv_Status inv) "expired") then mret n else
      at_ ← now;
      forget ← forgetRecipient id at_;
      match forget.1 with
      | [] => mret n
      | ops =>
          _ ← commit (mkEnvelope KindInviteExpire (opt_Tenant (opts r)) "" "" [] (systemAuthor (opts r) "Reminders") at_
                        (composeMessage (clip ("Forget who invitation " +:+ id +:+ " was for") MaxSummary)
                           ("It expired unanswered. Key " +:+ forget.2 +:+ " destroyed.")) []) ops;
          _ ← Forget forget.2;
          mret (n + 1)
      end
  end.
Definition ForgetExpiredRecipients : M Z :=
  Do (rows ← query (SSelect "invite_recipients" [] None None); fold expire_row rows 0).
End members.
