(* ===== verification/MembersMoves.v ===== *)
(** * What the membership operations write

    Everything but a grant, a revocation and the issue of an invitation
    writes entries that a relation on the tables either does not see or
    allows. The lemmas here are stated for any relation and any such
    class of entries, and are used for more than one. *)

From S2P Require Import Prelude GoStrings Float64 Encoding Canon Json SqlText Sql Rbac JsonSchema Pack Model World Concrete Commit Replay Byok GoJson Records RecordsCorrect Landing Workflow WorkflowCorrect Identities Members.
Local Open Scope Z_scope.

(** ** The entries are well formed *)
Lemma one_wf op : (forall txid, op_wf txid op) -> ops_wf [op].
Proof. intros W txid. apply Forall_cons_2; [apply W|apply Forall_nil_2]. Qed.
Lemma more_wf op ops : (forall txid, op_wf txid op) -> ops_wf ops -> ops_wf (op :: ops).
Proof. intros W Ws txid. apply Forall_cons_2; [apply W|apply Ws]. Qed.
Lemma none_wf : ops_wf [].
Proof. intros txid. apply Forall_nil_2. Qed.

Lemma member_op_wf txid t s ro b a : op_wf txid (member_op t s ro b a).
Proof. built. Qed.
Lemma revoke_op_wf txid t s ro : op_wf txid (revoke_op t s ro).
Proof. built. Qed.
Lemma empty_recipient_wf txid id : op_wf txid (empty_recipient_op id).
Proof. built. Qed.
Lemma recipient_op_wf txid t i sc se : op_wf txid (recipient_op t i sc se).
Proof. built. Qed.
Lemma invite_op_wf txid t h inv : op_wf txid (invite_op t h inv).
Proof. built. Qed.
Lemma spend_op_wf txid i s a : op_wf txid (spend_op i s a).
Proof. built. Qed.
Lemma withdraw_op_wf txid i : op_wf txid (withdraw_op i).
Proof. built. Qed.
Lemma reminded_op_wf txid i a : op_wf txid (reminded_op i a).
Proof. built. Qed.

(** ** What they read *)
Section reads.
Context `{Runtime}.
Variable r : Register.
Lemma ro_forgetRecipient id at_ : ro (forgetRecipient id at_).
Proof. unfold forgetRecipient. ro_tac. Qed.
Lemma ro_decodeInvite row : ro (decodeInvite row).
Proof. unfold decodeInvite. ro_tac. Qed.
Hint Resolve ro_forgetRecipient ro_decodeInvite : ro.
Lemma ro_openInvite t i s : ro (openInvite t i s).
Proof. unfold openInvite, invite_row. ro_tac. Qed.
Lemma ro_openRecipient row : ro (openRecipient r row).
Proof. unfold openRecipient. ro_tac. Qed.
Hint Resolve ro_openInvite ro_openRecipient : ro.
Lemma ro_sealRecipient t i a to : ro (sealRecipient r t i a to).
Proof. unfold sealRecipient. ro_tac. Qed.
Hint Resolve ro_sealRecipient : ro.

Lemma forget_ops id at_ w out w' : forgetRecipient id at_ w = (Ok out, w') ->
  out = ([], "") \/ exists scope, out = ([destroy_op scope at_; empty_recipient_op id], scope).
Proof.
  unfold forgetRecipient. intros E. apply M_bind_Ok in E as (o & w1 & _ & E). destruct o as [row|].
  - apply M_bind_Ok in E as (key & w2 & _ & E). apply M_ret_inv in E as [[= ->] _]. destruct key; [right; by eexists|by left].
  - apply M_ret_inv in E as [[= ->] _]. by left.
Qed.

End reads.
#[export] Hint Resolve ro_forgetRecipient ro_decodeInvite ro_openInvite ro_openRecipient ro_sealRecipient : ro.

(** ** Operations that write elsewhere

    Everything but a grant, a revocation and the issue of an invitation
    writes entries that a relation on the tables either does not see or
    allows: [P] says which entries those are. *)
Section elsewhere.
Context `{Runtime}.
Variable r : Register.
Hypothesis one : commit_moves_one.
Variable R : relation tables.
Context `{!PreOrder R}.
Variable P : WriteOp -> Prop.
Hypothesis P_moves : forall env ops w w' t, landed env ops w w' t -> Forall P ops -> R (committed w) (committed w').
Hypothesis P_elsewhere : forall op, Table op ∈ ["dek_keys"; "profiles"; "invite_recipients"] -> P op.
Hypothesis P_withdraw : forall id, P (withdraw_op id).
Hypothesis P_spend : forall id sub at_, sub <> "" -> sub <> TxIDPlaceholder -> P (spend_op id sub at_).

Lemma P_keys op : Table op = "dek_keys" -> P op.
Proof. intros E. apply P_elsewhere. rewrite E. apply list_elem_of_here. Qed.
Lemma P_profiles op : Table op = "profiles" -> P op.
Proof. intros E. apply P_elsewhere. rewrite E. apply list_elem_of_further, list_elem_of_here. Qed.
Lemma P_recipients op : Table op = "invite_recipients" -> P op.
Proof. intros E. apply P_elsewhere. rewrite E. do 2 apply list_elem_of_further. apply list_elem_of_here. Qed.

Lemma moves_P env ops : ops_wf ops -> Forall P ops -> moves R (commit env ops).
Proof. intros W F. apply moves_commit; [apply _|done|done|]. intros w w' t _ L. by eapply P_moves. Qed.


Lemma moves_SeeIdentity sub email name : moves R (SeeIdentity r sub email name).
Proof.
  unfold SeeIdentity, see_tx. apply moves_Do. moves_read.
  intros held _. destruct (negb _ || _); [moves_end|].
  moves_read. intros at_ _. unfold record_profile.
  moves_read. intros [dek kops] (w & w' & Ek).
  moves_read. intros ct _.
  apply moves_bind; [apply _| |intros t _; moves_end]. apply moves_P.
  - intros txid. apply Forall_app. split; [by eapply ensureDEK_wf|]. apply one_wf. intros x. apply profile_op_wf.
  - apply Forall_app. split; [eapply Forall_impl; [by eapply ensureDEK_tables|apply P_keys]|]. apply Forall_singleton. by apply P_profiles.
Qed.

Lemma moves_EraseProfile p sub reason : moves R (EraseProfile p sub reason).
Proof.
  unfold EraseProfile. do 2 (moves_read; intros _ _).
  unfold erase_profile_tx. apply moves_Do. moves_read. intros o _.
  moves_read. intros row _.
  moves_read. intros key _.
  moves_read. intros _ _.
  moves_read. intros at_ _.
  apply moves_bind; [apply _| |].
  - apply moves_P; [apply destroy_profile_wf|]. apply Forall_cons_2; [by apply P_keys|]. apply Forall_singleton. by apply P_profiles.
  - intros t _. moves_end.
Qed.

Lemma forget_ops_wf id at_ w out w' : forgetRecipient id at_ w = (Ok out, w') -> ops_wf out.1 /\ Forall P out.1.
Proof.
  intros [->|[scope ->]]%forget_ops; [split; [apply none_wf|apply Forall_nil_2]|]. split.
  - apply more_wf; [intros; apply destroy_op_wf|]. apply one_wf. intros; apply empty_recipient_wf.
  - apply Forall_cons_2; [by apply P_keys|]. apply Forall_singleton. by apply P_recipients.
Qed.

Lemma sealRecipient_wf t i a to w ops w' : sealRecipient r t i a to w = (Ok ops, w') -> ops_wf ops /\ Forall P ops.
Proof.
  unfold sealRecipient. intros E. apply M_bind_Ok in E as ([dek kops] & w1 & Ek & E).
  apply M_bind_Ok in E as (ct & w2 & _ & E). apply M_ret_inv in E as [[= ->] _]. cbn [fst snd]. split.
  - intros txid. apply Forall_app. split; [by eapply ensureDEK_wf|]. apply one_wf. intros; apply recipient_op_wf.
  - apply Forall_app. split; [eapply Forall_impl; [by eapply ensureDEK_tables|apply P_keys]|]. apply Forall_singleton. by apply P_recipients.
Qed.

Lemma moves_RevokeInvite p id : moves R (RevokeInvite p id).
Proof.
  unfold RevokeInvite. moves_read. intros _ _.
  apply moves_Do. unfold revoke_invite_tx. moves_read. intros o _.
  moves_read. intros row _.
  moves_read. intros inv _.
  moves_read. intros _ _.
  moves_read. intros at_ _.
  moves_read. intros forget (w & w' & Ef).
  apply forget_ops_wf in Ef as [Wf Ff]. apply moves_bind; [apply _| |].
  - apply moves_P; [apply more_wf; [intros; apply withdraw_op_wf|done]|]. by apply Forall_cons_2.
  - intros t _. moves_end.
Qed.

Lemma moves_MarkReminded id : moves R (MarkReminded r id).
Proof.
  unfold MarkReminded. apply moves_Do. moves_read. intros at_ _.
  apply moves_bind; [apply _| |intros t _; moves_end]. apply moves_P.
  - apply one_wf. intros; apply reminded_op_wf.
  - apply Forall_singleton. by apply P_recipients.
Qed.

Lemma moves_ForgetExpired : moves R (ForgetExpiredRecipients r).
Proof.
  unfold ForgetExpiredRecipients. apply moves_Do. moves_read. intros rows _.
  apply moves_fold; [apply _|]. intros n row. unfold expire_row.
  moves_read. intros [inv|] _; [|moves_end].
  moves_read. intros iv _.
  destruct (negb _); [moves_end|].
  moves_read. intros at_ _.
  moves_read. intros forget (w & w' & Ef).
  apply forget_ops_wf in Ef as [Wf Ff]. destruct forget.1 as [|op ops]; [moves_end|].
  apply moves_bind; [apply _|by apply moves_P|]. intros t _. moves_end.
Qed.

(** Issuing writes an invitation under a fresh identifier. *)
Lemma moves_at_createInvite w author tenant role label validFor to :
  store_wf w -> txn w = None ->
  (forall hash inv, iv_ID inv = hex_encode (entropy (rnd w) 8) -> P (invite_op tenant hash inv)) ->
  moves_at R w w (createInvite r author tenant role label validFor to).
Proof.
  intros W Ht Hi. unfold createInvite.
  apply moves_at_bind; [apply _|done..|apply ro_lift|]. intros spec wa [_ ->]%lift_Ok _.
  apply moves_at_bind; [apply _|done..|apply ro_lift|]. intros vf wa [_ ->]%lift_Ok _.
  apply moves_at_bind; [apply _|done..|apply ro_guard|]. intros u wa [_ ->]%guard_Ok _.
  apply moves_at_bind; [apply _|done..|apply ro_random|]. intros rawID wa [= <- <-] Hs.
  apply moves_at_bind; [apply _|done..|apply ro_random|]. intros rawSecret wb _ Hs'.
  apply moves_at_bind; [apply _|done..|apply ro_now|]. intros at_ wc _ Hs2.
  apply moves_at_bind; [apply _|done..|ro_tac|]. intros more wd Em Hs3.
  assert (ops_wf more /\ Forall P more) as [Wm Fm].
  { destruct to; [by eapply sealRecipient_wf|]. apply M_ret_inv in Em as [[= ->] _]. split; [apply none_wf|apply Forall_nil_2]. }
  apply moves_at_then; [|intros a; apply ro_ret]. apply moves_at_commit; [apply _|done..| |].
  - apply more_wf; [intros; apply invite_op_wf|done].
  - intros w' t L. pose proof Hs3 as (<- & _). eapply P_moves; [exact L|]. apply Forall_cons_2; [|done]. by apply Hi.
Qed.

(** *** Operations that grant

    What they move by is what granting moves by. *)
Definition grant_moves (tenant sub : string) : Prop := forall kind author role reason extra,
  ops_wf extra -> Forall P extra -> moves R (grant r kind author tenant sub role reason extra).

Lemma moves_RedeemInvite tenant sub id secret :
  grant_moves tenant (TrimSpace sub) -> TrimSpace sub <> TxIDPlaceholder -> moves R (RedeemInvite r tenant sub id secret).
Proof.
  intros Hg Hsub. unfold RedeemInvite. moves_read. intros u (w0 & w0' & Eg).
  apply guard_Ok in Eg as [Hne _]. bool_hyps. unfold redeem_tx.
  apply moves_Do. moves_read. intros inv _.
  moves_read. intros at_ _.
  moves_read. intros forget (w & w' & Ef).
  apply forget_ops_wf in Ef as [Wf Ff]. apply moves_bind; [apply _| |].
  - apply Hg; [apply more_wf; [intros; apply spend_op_wf|done]|]. apply Forall_cons_2; [|done]. by apply P_spend.
  - intros t _. moves_end.
Qed.

Lemma moves_BootstrapMember sub role :
  grant_moves (opt_Tenant (opts r)) (TrimSpace sub) -> moves R (BootstrapMember r sub role).
Proof. intros Hg. apply moves_Do, Hg; [apply none_wf|apply Forall_nil_2]. Qed.

Lemma moves_GrantRole p sub role display reason :
  grant_moves (p_Tenant p) (TrimSpace sub) -> moves R (GrantRole r p sub role display reason).
Proof.
  intros Hg. unfold GrantRole. do 2 (moves_read; intros _ _).
  apply moves_bind; [apply _| |].
  { apply moves_Do, Hg; [apply none_wf|apply Forall_nil_2]. }
  intros t _. destruct (String.eqb _ ""); [moves_end|].
  apply moves_bind; [apply _|apply moves_Do, moves_ro; [apply _|apply ro_profileIn]|]. intros held _.
  destruct (String.eqb _ ""); [|moves_end].
  apply moves_bind; [apply _|apply moves_SeeIdentity|]. intros _ _. moves_end.
Qed.
End elsewhere.
