(* ===== verification/MembersCorrect.v ===== *)
(** * Membership refines an abstract machine

    What the register promises about membership is a small machine over
    the set of grants (tenant, subject, role): a grant adds a declared
    role that clashes with nothing the subject holds, a revocation takes
    one away and never the last administrator's. Every operation of
    [Members.v] and [Identities.v], whatever it answers, takes the set of
    grants along that machine, so its invariants hold of the register. *)

From S2P Require Import Prelude GoStrings Float64 Encoding Canon Json SqlText Sql Rbac JsonSchema Pack Model World Concrete Commit Replay Byok GoJson Records RecordsCorrect Landing Workflow WorkflowCorrect Identities Members MembersMoves.
Local Open Scope Z_scope.

(** ** Names *)

Definition no_bar (s : string) : Prop := ("|"%char : ascii) ∉ bytes_of s.
(** A name that is neither split nor substituted. *)
Definition named (s : string) : Prop := no_bar s /\ s <> TxIDPlaceholder.

#[export] Instance no_bar_dec s : base.Decision (no_bar s).
Proof. unfold no_bar. apply _. Defined.
#[export] Instance named_dec s : base.Decision (named s).
Proof. unfold named. apply _. Defined.

Lemma split_left (a b x y : list ascii) c : c ∉ a -> c ∉ b -> a ++ c :: x = b ++ c :: y -> a = b /\ x = y.
Proof.
  revert b. induction a as [|u a IH]; intros [|v b] Ha Hb E; cbn in *.
  - by injection E.
  - injection E as -> _. exfalso. apply Hb, list_elem_of_here.
  - injection E as -> _. exfalso. apply Ha, list_elem_of_here.
  - injection E as -> E. rewrite not_elem_of_cons in Ha, Hb.
    destruct (IH b) as [-> ->]; [tauto|tauto|done|done].
Qed.

Lemma split_right (a b x y : list ascii) c : c ∉ x -> c ∉ y -> a ++ c :: x = b ++ c :: y -> a = b /\ x = y.
Proof.
  intros Hx Hy E. apply (f_equal reverse) in E. rewrite !reverse_app, !reverse_cons, <- !app_assoc in E. cbn in E.
  apply split_left in E as [E1 E2]; [|by rewrite elem_of_reverse..].
  apply (f_equal reverse) in E1, E2. rewrite !reverse_involutive in *. done.
Qed.

(** A grant's key determines the grant. *)
Lemma memberID_inj t s ro t' s' ro' :
  no_bar t -> no_bar t' -> no_bar ro -> no_bar ro' -> memberID t s ro = memberID t' s' ro' -> t = t' /\ s = s' /\ ro = ro'.
Proof.
  intros H1 H2 H3 H4 E. apply (f_equal bytes_of) in E. unfold memberID in E.
  rewrite !bytes_of_app in E. change (bytes_of "|") with ["|"%char] in E. cbn [app] in E.
  apply split_left in E as [E1 E]; [|done..]. apply split_right in E as [E2 E3]; [|done..].
  by apply bytes_of_inj in E1, E2, E3.
Qed.

Lemma memberID_plain t s ro : memberID t s ro <> TxIDPlaceholder.
Proof.
  intros E. apply (f_equal bytes_of) in E. unfold memberID in E. rewrite !bytes_of_app in E.
  assert (("|"%char : ascii) ∈ bytes_of TxIDPlaceholder) as Hin.
  { rewrite <- E, !elem_of_app. right. left. apply list_elem_of_here. }
  vm_compute in Hin. repeat (apply elem_of_cons in Hin as [Hin|Hin]; [discriminate Hin|]). by apply elem_of_nil in Hin.
Qed.

(** ** The abstract machine *)
Abbreviation held := (string * string * string)%type.

Section machine.
Variable model : RoleModel.

Definition admin_role (role : string) : Prop := exists spec, Role model role = Some spec /\ administers spec = true.
Definition clash (a b : string) : Prop := b ∈ incompatible model a \/ a ∈ incompatible model b.

Inductive membership_step : gset held -> gset held -> Prop :=
  | ms_grant G t s ro :
      is_Some (Role model ro) -> (t, s, ro) ∉ G -> (forall other, (t, s, other) ∈ G -> ~ clash ro other) ->
      membership_step G (G ∪ {[ (t, s, ro) ]})
  | ms_revoke G t s ro :
      (t, s, ro) ∈ G ->
      (admin_role ro -> exists s' ro', s' <> s /\ (t, s', ro') ∈ G /\ admin_role ro') ->
      membership_step G (G ∖ {[ (t, s, ro) ]}).

(** What the machine keeps: somebody administers the tenant, and no
    subject holds roles that clash. *)
Definition administered (t : string) (G : gset held) : Prop := exists s ro, (t, s, ro) ∈ G /\ admin_role ro.
Definition duties_separate (G : gset held) : Prop :=
  forall t s a b, (t, s, a) ∈ G -> (t, s, b) ∈ G -> a <> b -> ~ clash a b.

Lemma step_administered t G G' : membership_step G G' -> administered t G -> administered t G'.
Proof.
  intros S (s & ro & Hin & Ha). destruct S as [G t0 s0 ro0 _ _ _|G t0 s0 ro0 _ Hlast].
  - exists s, ro. split; [set_solver|done].
  - destruct (base.decide ((t, s, ro) = (t0, s0, ro0))) as [[= -> -> ->]|Hne].
    + destruct (Hlast Ha) as (s' & ro' & Hs' & Hin' & Ha'). exists s', ro'. split; [set_solver|done].
    + exists s, ro. split; [set_solver|done].
Qed.

Lemma clash_sym a b : clash a b -> clash b a.
Proof. unfold clash. tauto. Qed.

Lemma step_duties G G' : membership_step G G' -> duties_separate G -> duties_separate G'.
Proof.
  intros S D t s a b Ha Hb Hne. destruct S as [G t0 s0 ro0 _ _ Hc|G t0 s0 ro0 _ _]; [|apply (D t s); set_solver].
  rewrite !elem_of_union, !elem_of_singleton in Ha, Hb. intros C.
  destruct Ha as [Ha|Ha], Hb as [Hb|Hb]; simplify_eq; try done.
  - by apply (D t s a b).
  - apply (Hc a Ha), clash_sym, C.
  - by apply (Hc b Hb).
Qed.

Lemma steps_keep t G G' :
  rtc membership_step G G' ->
  (administered t G -> administered t G') /\ (duties_separate G -> duties_separate G').
Proof.
  induction 1 as [G|G G1 G2 S _ [IH1 IH2]]; [done|]. split.
  - intros Ha. apply IH1. by eapply step_administered.
  - intros Hd. apply IH2. by eapply step_duties.
Qed.
End machine.

(** ** The grants of a database *)

(** Every row of the members' table is a grant, under its key. *)
Definition shaped (db : tables) : Prop :=
  forall m k row, db !! "members" = Some m -> m !! k = Some row ->
  exists t s ro, k = [SStr (memberID t s ro)] /\ cell row "tenant" = SStr t /\ cell row "sub" = SStr s /\
    cell row "role" = SStr ro /\ no_bar t /\ no_bar ro.

Definition grant_of (row : Row) : held := (Str row "tenant", Str row "sub", Str row "role").
Definition grants (db : tables) : gset held := list_to_set (grant_of <$> rows (default ∅ (db !! "members"))).

Lemma grant_of_cells row t s ro :
  cell row "tenant" = SStr t -> cell row "sub" = SStr s -> cell row "role" = SStr ro -> grant_of row = (t, s, ro).
Proof. unfold grant_of, Str. by intros -> -> ->. Qed.

Lemma grants_elem db m t s ro :
  shaped db -> db !! "members" = Some m -> no_bar t -> no_bar ro ->
  (t, s, ro) ∈ grants db <-> exists row, m !! [SStr (memberID t s ro)] = Some row.
Proof.
  intros Sh Hm Ht Hro. unfold grants. rewrite Hm. cbn [default]. rewrite elem_of_list_to_set, list_elem_of_fmap. split.
  - intros (row & E & Hin). apply rows_elem in Hin as [k Hk].
    destruct (Sh _ _ _ Hm Hk) as (t' & s' & ro' & -> & C1 & C2 & C3 & _).
    rewrite (grant_of_cells _ _ _ _ C1 C2 C3) in E. injection E as -> -> ->. by exists row.
  - intros [row Hrow]. exists row. split; [|apply rows_elem; by eexists].
    destruct (Sh _ _ _ Hm Hrow) as (t' & s' & ro' & [= E] & C1 & C2 & C3 & B1 & B2).
    apply memberID_inj in E as (-> & -> & ->); [|done..]. by rewrite (grant_of_cells _ _ _ _ C1 C2 C3).
Qed.

Lemma grants_bars db t s ro : shaped db -> (t, s, ro) ∈ grants db -> no_bar t /\ no_bar ro.
Proof.
  intros Sh Hin. unfold grants in Hin. apply elem_of_list_to_set, list_elem_of_fmap in Hin as (row & E & Hin).
  destruct (db !! "members") as [m|] eqn:Hm; [|cbn in Hin; unfold rows in Hin; rewrite map_to_list_empty in Hin; by apply elem_of_nil in Hin].
  apply rows_elem in Hin as [k Hk]. destruct (Sh _ _ _ Hm Hk) as (t' & s' & ro' & -> & C1 & C2 & C3 & B1 & B2).
  rewrite (grant_of_cells _ _ _ _ C1 C2 C3) in E. by injection E as -> -> ->.
Qed.


(** ** The calls *)

(** The calls that may change the database, and those that read. *)
Inductive call :=
  | CGrantRole (p : Principal) (sub role display reason : string)
  | CBootstrapMember (sub role : string)
  | CRevokeRole (p : Principal) (sub role reason : string)
  | CCreateInvite (p : Principal) (role label : string) (validFor : Z)
  | CCreateEmailedInvite (p : Principal) (role : string) (validFor : Z) (to : InviteRecipient)
  | CBootstrapInvite (role : string) (validFor : Z)
  | CRevokeInvite (p : Principal) (id : string)
  | CCheckInvite (tenant id secret : string)
  | CRedeemInvite (tenant sub id secret : string)
  | CInviteReminders
  | CMarkReminded (id : string)
  | CForgetExpiredRecipients
  | CSeeIdentity (sub email name : string)
  | CEraseProfile (p : Principal) (sub reason : string).

(** The names a call puts in a grant's key or takes out of one. The key of
    a membership joins tenant, subject and role with a bar, and nothing
    refuses a bar in any of them: a tenant or a role that holds one can
    name the key of another grant ([separator_bypass]). A call's names are
    plain when its tenant and its role hold no bar, and none is the
    placeholder the log substitutes; a subject may hold anything else. *)
Definition names_ok (tenant : string) (c : call) : Prop :=
  match c with
  | CGrantRole p sub _ _ _ => named (p_Tenant p) /\ TrimSpace sub <> TxIDPlaceholder
  | CBootstrapMember sub _ => named tenant /\ TrimSpace sub <> TxIDPlaceholder
  | CRevokeRole p _ role _ => no_bar (p_Tenant p) /\ no_bar role
  | CRedeemInvite t sub _ _ => named t /\ TrimSpace sub <> TxIDPlaceholder
  | _ => True
  end.

Section calls.
Context `{Runtime}.
Variable r : Register.

Definition drop {A} (m : M A) : M unit := _ ← m; mret tt.
Definition run (c : call) : M unit :=
  match c with
  | CGrantRole p sub role display reason => drop (GrantRole r p sub role display reason)
  | CBootstrapMember sub role => drop (BootstrapMember r sub role)
  | CRevokeRole p sub role reason => drop (RevokeRole r p sub role reason)
  | CCreateInvite p role label validFor => drop (CreateInvite r p role label validFor)
  | CCreateEmailedInvite p role validFor to => drop (CreateEmailedInvite r p role validFor to)
  | CBootstrapInvite role validFor => drop (BootstrapInvite r role validFor)
  | CRevokeInvite p id => drop (RevokeInvite p id)
  | CCheckInvite tenant id secret => drop (CheckInvite tenant id secret)
  | CRedeemInvite tenant sub id secret => drop (RedeemInvite r tenant sub id secret)
  | CInviteReminders => drop (InviteReminders r)
  | CMarkReminded id => MarkReminded r id
  | CForgetExpiredRecipients => drop (ForgetExpiredRecipients r)
  | CSeeIdentity sub email name => drop (SeeIdentity r sub email name)
  | CEraseProfile p sub reason => drop (EraseProfile p sub reason)
  end.

(** An operation that ends with no transaction open. *)
Definition settles {A} (m : M A) : Prop := forall w res w', txn w = None -> m w = (res, w') -> txn w' = None.
Lemma settles_Do {A} (m : M A) : settles (Do m).
Proof. intros w res w' _ E. apply Do_inv in E as (w1 & _ & ->). done. Qed.
Lemma settles_ro {A} (m : M A) : ro m -> settles m.
Proof. intros Hm w res w' Ht E. apply Hm in E as (_ & _ & _ & E & _). congruence. Qed.
Lemma settles_bind {A B} (m : M A) (k : A -> M B) : settles m -> (forall a, settles (k a)) -> settles (m ≫= k).
Proof.
  intros Hm Hk w res w' Ht E. unfold mbind, M_bind in E. destruct (m w) as [[a|e] w1] eqn:Em.
  - eapply Hk; [|exact E]. by eapply Hm.
  - injection E as _ <-. by eapply Hm.
Qed.
Lemma settles_drop {A} (m : M A) : settles m -> settles (drop m).
Proof. intros Hm. apply settles_bind; [done|]. intros a. apply settles_ro, ro_ret. Qed.
Lemma settles_GrantRole p sub role display reason : settles (GrantRole r p sub role display reason).
Proof.
  unfold GrantRole. do 2 (apply settles_bind; [apply settles_ro, ro_guard|intros _]).
  apply settles_bind; [apply settles_Do|]. intros t. destruct (String.eqb _ ""); [apply settles_ro, ro_ret|].
  apply settles_bind; [apply settles_Do|]. intros held. destruct (String.eqb _ ""); [|apply settles_ro, ro_ret].
  apply settles_bind; [apply settles_Do|]. intros _. apply settles_ro, ro_ret.
Qed.

Lemma settles_run c : settles (run c).
Proof.
  destruct c; cbn [run]; try apply settles_drop; try apply settles_Do; try apply settles_GrantRole;
    repeat (apply settles_bind; [apply settles_ro, ro_guard|intros _]); apply settles_Do.
Qed.
End calls.

(** ** The register's operations on grants *)
Section refinement.
Context `{Runtime}.
Variable r : Register.
Hypothesis one : commit_moves_one.
Hypothesis roles_named : forall n spec, role_spec r n = Some spec -> named n.

Let model := pk_model (pk r).

(** What an operation may do to the committed tables. *)
Definition members_move (db db' : tables) : Prop :=
  shaped db -> shaped db' /\ rtc (membership_step model) (grants db) (grants db').

#[global] Instance members_move_preorder : PreOrder members_move.
Proof.
  split; [intros db Sh; by split|]. intros a b c H1 H2 Sh. destruct (H1 Sh) as [Sb S1]. destruct (H2 Sb) as [Sc S2].
  split; [done|]. by etrans.
Qed.

Lemma members_same db db' : db' !! "members" = db !! "members" -> members_move db db'.
Proof.
  intros E Sh. split.
  - intros m k row. rewrite E. apply Sh.
  - unfold grants. by rewrite E.
Qed.

Lemma members_other env ops w w' t :
  landed env ops w w' t -> Forall (fun op => Table op <> "members") ops -> members_move (committed w) (committed w').
Proof. intros L F. apply members_same. by rewrite (landed_other _ _ _ _ _ "members" L). Qed.

Lemma moves_other env ops :
  ops_wf ops -> Forall (fun op => Table op <> "members") ops -> moves members_move (commit env ops).
Proof. intros W F. apply moves_commit; [apply _|done|done|]. intros w w' t _ L. by eapply members_other. Qed.

Lemma member_key txid t s ro b a : op_key txid (member_op t s ro b a) = [SStr (memberID t s ro)].
Proof. unfold op_key. cbn -[memberID]. destruct (String.eqb_spec (memberID t s ro) TxIDPlaceholder) as [E|]; [by apply memberID_plain in E|done]. Qed.
Lemma revoke_key txid t s ro : op_key txid (revoke_op t s ro) = [SStr (memberID t s ro)].
Proof. unfold op_key. cbn -[memberID]. destruct (String.eqb_spec (memberID t s ro) TxIDPlaceholder) as [E|]; [by apply memberID_plain in E|done]. Qed.

(** Adding a grant adds it to the set. *)
Lemma grants_insert db db' m t s ro row :
  shaped db -> db !! "members" = Some m -> m !! [SStr (memberID t s ro)] = None -> no_bar t -> no_bar ro ->
  db' !! "members" = Some (<[[SStr (memberID t s ro)] := row]> m) ->
  cell row "tenant" = SStr t -> cell row "sub" = SStr s -> cell row "role" = SStr ro ->
  shaped db' /\ grants db' = grants db ∪ {[ (t, s, ro) ]}.
Proof.
  intros Sh Hm Hnone Bt Br Hm' C1 C2 C3.
  assert (shaped db') as Sh'.
  { intros m2 k x Hm2 Hk. rewrite Hm' in Hm2. injection Hm2 as <-.
    apply lookup_insert_Some in Hk as [[<- <-]|[_ Hk]]; [by exists t, s, ro|by eapply Sh]. }
  split; [done|]. apply set_eq. intros [[t' s'] ro'].
  destruct (base.decide (no_bar t' /\ no_bar ro')) as [[B1 B2]|Hb].
  2:{ rewrite elem_of_union, elem_of_singleton. split.
      - intros Hin. destruct Hb. by eapply (grants_bars db').
      - intros [Hin|[= -> -> ->]]; [|by destruct Hb]. destruct Hb. by eapply (grants_bars db). }
  rewrite elem_of_union, elem_of_singleton, (grants_elem db' _ _ _ _ Sh' Hm' B1 B2), (grants_elem db _ _ _ _ Sh Hm B1 B2). split.
  - intros [x Hx]. apply lookup_insert_Some in Hx as [[[= E] _]|[_ Hx]]; [right|left; by exists x].
    by apply memberID_inj in E as (-> & -> & ->).
  - intros [[x Hx]|[= -> -> ->]]; [|exists row; by rewrite lookup_insert_eq]. exists x.
    rewrite lookup_insert_ne; [done|]. intros [= E]. rewrite E in Hnone. congruence.
Qed.

(** Removing a grant takes it from the set. *)
Lemma grants_delete db db' m t s ro :
  shaped db -> db !! "members" = Some m -> no_bar t -> no_bar ro ->
  db' !! "members" = Some (delete [SStr (memberID t s ro)] m) ->
  shaped db' /\ grants db' = grants db ∖ {[ (t, s, ro) ]}.
Proof.
  intros Sh Hm Bt Br Hm'.
  assert (shaped db') as Sh'.
  { intros m2 k x Hm2 Hk. rewrite Hm' in Hm2. injection Hm2 as <-. apply lookup_delete_Some in Hk as [_ Hk]. by eapply Sh. }
  split; [done|]. apply set_eq. intros [[t' s'] ro']. rewrite elem_of_difference, elem_of_singleton.
  destruct (base.decide (no_bar t' /\ no_bar ro')) as [[B1 B2]|Hb].
  2:{ split; [intros Hin|intros [Hin _]]; destruct Hb; [by eapply (grants_bars db')|by eapply (grants_bars db)]. }
  rewrite (grants_elem db' _ _ _ _ Sh' Hm' B1 B2), (grants_elem db _ _ _ _ Sh Hm B1 B2). split.
  - intros [x Hx]. apply lookup_delete_Some in Hx as [Hne Hx]. split; [by exists x|]. intros [= -> -> ->]. done.
  - intros [[x Hx] Hne]. exists x. rewrite lookup_delete_ne; [done|]. intros [= E]. apply Hne.
    apply memberID_inj in E as (-> & -> & ->); done.
Qed.

Lemma clashes_spec role spec other : role_spec r role = Some spec -> clashes r spec role other = true <-> clash model role other.
Proof.
  intros Hs. unfold clashes, clash, incompatible, model. unfold role_spec, Role in Hs |- *. rewrite Hs, orb_true_iff.
  rewrite containsString_elem. destruct (roles (pk_model (pk r)) !! other) as [o|]; [by rewrite containsString_elem|].
  split; [naive_solver|]. intros [?|Hin]; [by left|]. by apply elem_of_nil in Hin.
Qed.

(** What [grant] checks is what the machine asks. *)
Lemma held_checked db m tenant sub role spec l :
  shaped db -> db !! "members" = Some m -> role_spec r role = Some spec -> no_bar tenant ->
  (forall row, row ∈ l <-> row ∈ rows m /\ matches [is_ "tenant" (VStr tenant); is_ "sub" (VStr sub)] row = true) ->
  check_all (check_held r spec sub role) l = Ok tt ->
  m !! [SStr (memberID tenant sub role)] = None /\
  (forall other, (tenant, sub, other) ∈ grants db -> ~ clash model role other).
Proof.
  intros Sh Hm Hspec Bt Hl Hc. apply check_all_Ok in Hc. rewrite Forall_forall in Hc.
  assert (forall other row, no_bar other -> m !! [SStr (memberID tenant sub other)] = Some row ->
    String.eqb other role = false /\ clashes r spec role other = false) as Hrow.
  { intros other row Bo Hrow. destruct (Sh _ _ _ Hm Hrow) as (t' & s' & ro' & [= E] & C1 & C2 & C3 & B1 & B2).
    apply memberID_inj in E as (-> & -> & ->); [|done..].
    assert (row ∈ l) as Hin.
    { apply Hl. split; [apply rows_elem; by eexists|]. unfold matches. cbn [forallb].
      rewrite (cond_text _ _ _ _ C1), (cond_text _ _ _ _ C2), !bool_decide_eq_true_2 by done. done. }
    specialize (Hc _ Hin). unfold check_held in Hc. unfold Str in Hc. rewrite C3 in Hc. res_inv. done. }
  destruct (roles_named _ _ Hspec) as [Bro _]. split.
  - destruct (m !! _) as [row|] eqn:Hr; [|done]. destruct (Hrow role row Bro Hr) as [E _]. by rewrite String.eqb_refl in E.
  - intros other Hin. destruct (grants_bars _ _ _ _ Sh Hin) as [_ Bo].
    apply (grants_elem _ m) in Hin as [row Hr]; [|done..]. destruct (Hrow other row Bo Hr) as [_ Hcl].
    intros C. apply (clashes_spec role spec other Hspec) in C. congruence.
Qed.

Lemma grant_landed env tenant sub role b a extra w wa w' t spec :
  store_wf w -> same_db w wa -> named tenant -> sub <> TxIDPlaceholder -> role_spec r role = Some spec ->
  Forall (fun op => Table op <> "members") extra ->
  (forall m, committed w !! "members" = Some m -> shaped (committed w) ->
     m !! [SStr (memberID tenant sub role)] = None /\
     (forall other, (tenant, sub, other) ∈ grants (committed w) -> ~ clash model role other)) ->
  landed env (member_op tenant sub role b a :: extra) wa w' t -> members_move (committed w) (committed w').
Proof.
  intros W Hs [Bt Ht] Hsub Hspec F Hfree L. destruct (roles_named _ _ Hspec) as [Bro Hro].
  pose proof Hs as (Hc & _). destruct (committed w !! "members") as [m|] eqn:Hm.
  2:{ apply members_same. destruct L as (_ & _ & _ & _ & _ & rr & _ & -> & _). rewrite Hm. apply effects_None.
      unfold logged. rewrite lookup_alter_ne by done. by rewrite Hc. }
  intros Sh. destruct (Hfree m eq_refl Sh) as [Hnone Hcl].
  destruct (landed_only _ _ _ _ _ _ m L) as [Hconv Hm']; [done|done|by rewrite Hc|done|].
  change (Table (member_op tenant sub role b a)) with "members" in Hm'. rewrite member_key in Hm'.
  set (op := member_op tenant sub role b a) in *.
  destruct (row_effect (tx_TxID t) op (m !! [SStr (memberID tenant sub role)])) as [row|] eqn:He; [|done].
  assert (partial_alter (row_effect (tx_TxID t) op) [SStr (memberID tenant sub role)] m
    = <[[SStr (memberID tenant sub role)] := row]> m) as Hins.
  { apply map_eq. intros k. destruct (base.decide (k = [SStr (memberID tenant sub role)])) as [->|Hne].
    - by rewrite lookup_partial_alter_eq, lookup_insert_eq.
    - by rewrite lookup_partial_alter_ne, lookup_insert_ne by done. }
  rewrite Hins in Hm'.
  assert (forall c v, obj_get c (Values op) = Some (VStr v) -> v <> TxIDPlaceholder -> (exists n, column_type "members" c = Some (CText n)) ->
    cell row c = SStr v) as Hcell.
  { intros c v Hg Hv [n Hn]. rewrite (effect_cell _ op _ row c (VStr v) (CText n) Hconv eq_refl He Hg Hn); rewrite substitute_plain by done; done. }
  destruct (grants_insert (committed w) (committed w') m tenant sub role row Sh Hm Hnone Bt Bro Hm'
    ltac:(apply Hcell; [done|done|by eexists]) ltac:(apply Hcell; [done|done|by eexists])
    ltac:(apply Hcell; [done|done|by eexists])) as [Sh' ->].
  split; [done|]. apply rtc_once, ms_grant; [by exists spec| |done].
  intros Hin. apply (grants_elem _ m) in Hin as [x Hx]; [congruence|done..].
Qed.

Lemma moves_grant kind author tenant sub role reason extra :
  named tenant -> sub <> TxIDPlaceholder -> ops_wf extra -> Forall (fun op => Table op <> "members") extra ->
  moves members_move (grant r kind author tenant sub role reason extra).
Proof.
  intros Ht Hsub We F. apply moves_intro. intros w W Hw. unfold grant.
  apply moves_at_bind; [apply _|done..|apply ro_lift|]. intros spec wa Hspec Hs.
  apply lift_Ok in Hspec as [Hspec ->]. apply of_option_Ok in Hspec. clear Hs.
  apply moves_at_bind; [apply _|done..|unfold member_rows; ro_tac|]. intros held wa Hl Hs.
  apply select_elem in Hl as (-> & m & Hm & Hl). rewrite visible_closed in Hm by done.
  apply moves_at_bind; [apply _|done..|apply ro_lift|]. intros [] wa Hc _. apply lift_Ok in Hc as [Hc ->].
  apply moves_at_bind; [apply _|done..|apply ro_now|]. intros at_ wa _ Hs'.
  apply moves_at_commit; [apply _|done..| |].
  - intros txid. apply Forall_cons_2; [apply member_op_wf|apply We].
  - intros w' t L. eapply (grant_landed _ tenant sub role _ _ extra w wa w' t spec); try done.
    intros m2 Hm2 Sh. assert (m2 = m) as -> by congruence.
    exact (held_checked _ m tenant sub role spec held Sh Hm Hspec (proj1 Ht) Hl Hc).
Qed.

Lemma select_member w id o w' :
  wf_db (visible w) -> select_one "members" [is_ "id" (VStr id)] w = (Ok o, w') ->
  w' = w /\ exists m, visible w !! "members" = Some m /\ o = m !! [SStr id].
Proof.
  intros W E. change [is_ "id" (VStr id)] with (key_where "members" [VStr id]) in E.
  apply select_one_key in E; [exact E|done|one_key].
Qed.

Lemma administrator_role_iff role : administrator_role r role = true <-> admin_role model role.
Proof.
  unfold administrator_role, admin_role, role_spec, model. destruct (Role (pk_model (pk r)) role) as [spec|]; naive_solver.
Qed.

(** Somebody else administers when the count is not zero. *)
Lemma others_counted tenant except w n w' m :
  shaped (visible w) -> visible w !! "members" = Some m -> no_bar tenant ->
  otherAdministrators r tenant except w = (Ok n, w') -> n <> 0 ->
  exists s ro, s <> except /\ (tenant, s, ro) ∈ grants (visible w) /\ admin_role model ro.
Proof.
  intros Sh Hm Bt E Hn. unfold otherAdministrators in E. apply M_bind_Ok in E as (l & w1 & E1 & E).
  apply select_elem in E1 as (-> & m' & Hm' & Hl). assert (m' = m) as -> by congruence.
  apply M_ret_inv in E as [[= E] ->].
  destruct (filter (fun row => other_administrator r except row = true) l) as [|row rest] eqn:Hf.
  { exfalso. apply Hn. rewrite E. cbn. by rewrite size_empty. }
  assert (row ∈ filter (fun row => other_administrator r except row = true) l) as Hin by (rewrite Hf; apply list_elem_of_here).
  apply list_elem_of_filter in Hin as [Ha Hin]. apply Hl in Hin as [Hin Hmt].
  apply rows_elem in Hin as [k Hk]. destruct (Sh _ _ _ Hm Hk) as (t' & s' & ro' & -> & C1 & C2 & C3 & B1 & B2).
  unfold other_administrator, Str in Ha. rewrite C2, C3 in Ha. bool_hyps.
  unfold matches in Hmt. cbn [forallb] in Hmt. rewrite (cond_text _ _ _ _ C1) in Hmt. bool_hyps.
  match goal with H : t' = tenant |- _ => subst t' end.
  exists s', ro'. split; [done|]. split; [apply (grants_elem _ m); [done..|by exists row]|]. by apply administrator_role_iff.
Qed.

Lemma revoke_landed env tenant sub role w wa w' t :
  same_db w wa -> no_bar tenant -> no_bar role ->
  (forall m, committed w !! "members" = Some m -> shaped (committed w) ->
     is_Some (m !! [SStr (memberID tenant sub role)]) /\
     (admin_role model role -> exists s ro, s <> sub /\ (tenant, s, ro) ∈ grants (committed w) /\ admin_role model ro)) ->
  landed env [revoke_op tenant sub role] wa w' t -> members_move (committed w) (committed w').
Proof.
  intros Hs Bt Br Hfree L. pose proof Hs as (Hc & _). destruct (committed w !! "members") as [m|] eqn:Hm.
  2:{ apply members_same. destruct L as (_ & _ & _ & _ & _ & rr & _ & -> & _). rewrite Hm. apply effects_None.
      unfold logged. rewrite lookup_alter_ne by done. by rewrite Hc. }
  intros Sh. destruct (Hfree m eq_refl Sh) as [Hsome Hlast].
  destruct (landed_only _ _ [] _ _ _ m L) as [_ Hm']; [done|done|by rewrite Hc|apply Forall_nil_2|].
  change (Table (revoke_op tenant sub role)) with "members" in Hm'. rewrite revoke_key in Hm'.
  assert (partial_alter (row_effect (tx_TxID t) (revoke_op tenant sub role)) [SStr (memberID tenant sub role)] m
    = delete [SStr (memberID tenant sub role)] m) as Hdel.
  { apply map_eq. intros k. destruct (base.decide (k = [SStr (memberID tenant sub role)])) as [->|Hne].
    - by rewrite lookup_partial_alter_eq, lookup_delete_eq.
    - by rewrite lookup_partial_alter_ne, lookup_delete_ne by done. }
  rewrite Hdel in Hm'. destruct (grants_delete (committed w) (committed w') m tenant sub role Sh Hm Bt Br Hm') as [Sh' ->].
  split; [done|]. apply rtc_once, ms_revoke; [|done]. apply (grants_elem _ m); done.
Qed.

Lemma moves_revoke p sub role reason :
  no_bar (p_Tenant p) -> no_bar role -> moves members_move (RevokeRole r p sub role reason).
Proof.
  intros Bt Br. unfold RevokeRole. moves_read. intros _ _.
  apply moves_Do, moves_intro. intros w W Hw. unfold revoke_tx.
  pose proof (visible_closed w Hw) as Hv.
  apply moves_at_bind; [apply _|done..|apply ro_select_one|]. intros o wa Ho _.
  apply select_member in Ho as (-> & m & Hm & ->); [|by apply store_wf_visible]. rewrite Hv in Hm.
  apply moves_at_bind; [apply _|done..|apply ro_guard|]. intros u wa Hg _. apply guard_Ok in Hg as [Hg ->].
  apply moves_at_bind; [apply _|done..|unfold otherAdministrators; ro_tac|]. intros u2 wa Hothers Hs.
  apply moves_at_bind; [apply _|done..|apply ro_now|]. intros at_ wb _ Hs'.
  apply moves_at_commit; [apply _|done..| |].
  { intros txid. apply Forall_cons_2; [apply revoke_op_wf|apply Forall_nil_2]. }
  intros w' t L. eapply (revoke_landed _ (p_Tenant p) sub role w); [done|done|done| |exact L].
  intros m2 Hm2 Sh. assert (m2 = m) as -> by congruence. split; [destruct (m !! _); [by eexists|done]|].
  intros Ha. apply administrator_role_iff in Ha. rewrite Ha in Hothers.
  apply M_bind_Ok in Hothers as (n & w2 & En & Eg). apply guard_Ok in Eg as [Hn _]. bool_hyps.
  rewrite <- Hv in Sh, Hm |- *. by eapply others_counted.
Qed.

Lemma other_tables op : Table op ∈ ["dek_keys"; "profiles"; "invite_recipients"] -> Table op <> "members".
Proof. intros Hin E. rewrite E in Hin. repeat (apply elem_of_cons in Hin as [Hin|Hin]; [discriminate Hin|]). by apply elem_of_nil in Hin. Qed.

(** ** Every operation *)
Lemma run_moves c : names_ok (opt_Tenant (opts r)) c -> moves members_move (run r c).
Proof.
  intros Hc.
  assert (forall A (m : M A), moves members_move m -> moves members_move (drop m)) as Hdrop.
  { intros A m Hm. apply moves_bind; [apply _|done|]. intros _ _. moves_end. }
  assert (forall t s, named t -> s <> TxIDPlaceholder -> grant_moves r members_move (fun op => Table op <> "members") t s) as Hg.
  { intros t s Ht Hs kind author role reason extra. by apply moves_grant. }
  assert (forall author tenant role label validFor to, moves members_move (createInvite r author tenant role label validFor to)) as Hi.
  { intros. apply moves_intro. intros w W Ht. by apply (moves_at_createInvite r one members_move _ members_other other_tables). }
  destruct c; cbn [run names_ok] in *; try apply Hdrop.
  - destruct Hc. apply (moves_GrantRole r one members_move _ members_other other_tables); by apply Hg.
  - destruct Hc. apply (moves_BootstrapMember r members_move (fun op => Table op <> "members")); by apply Hg.
  - destruct Hc. by apply moves_revoke.
  - unfold CreateInvite. moves_read. intros _ _. apply moves_Do, Hi.
  - unfold CreateEmailedInvite. moves_read. intros _ _. moves_read. intros _ _. apply moves_Do, Hi.
  - apply moves_Do, Hi.
  - by apply (moves_RevokeInvite one members_move _ members_other other_tables).
  - apply moves_Do, moves_ro; [apply _|apply ro_openInvite].
  - destruct Hc. apply (moves_RedeemInvite r members_move (fun op => Table op <> "members") other_tables); [done|by apply Hg|done].
  - apply moves_Do, moves_ro; [apply _|]. unfold remind_row. ro_tac.
  - by apply (moves_MarkReminded r one members_move _ members_other other_tables).
  - by apply (moves_ForgetExpired r one members_move _ members_other other_tables).
  - by apply (moves_SeeIdentity r one members_move _ members_other other_tables).
  - by apply (moves_EraseProfile one members_move _ members_other other_tables).
Qed.
End refinement.



(** ** Instances *)
Section demo.
#[local] Existing Instance plain_runtime.

Definition member_roles : list RoleSpec :=
  [mkRoleSpec "registrar" "Registrar" "" [] [PermMembers] false ["auditor"];
   mkRoleSpec "auditor" "Auditor" "" [] [PermRead] false ["registrar"]].
Definition members_register : Register :=
  mkRegister (mkPack "demo" "Demo" "1" "t" member_roles [] [] [] [] None
                (match NewModel member_roles with Ok m => m | Err _ => empty_model end))
    (mkOptions "r" "t" "" "") (mkMaterial "master" "signer" "key").

Lemma member_roles_named n spec : role_spec members_register n = Some spec -> named n.
Proof.
  unfold role_spec, Role. destruct (NewModel member_roles) as [m|e] eqn:E; [|vm_compute in E; discriminate E].
  assert (pk_model (pk members_register) = m) as -> by (unfold members_register; cbn [pk pk_model]; by rewrite E).
  intros Hn. apply elem_of_map_to_list in Hn.
  assert (Forall (fun kv => named kv.1) (map_to_list (roles (match NewModel member_roles with Ok m => m | Err _ => empty_model end)))) as F.
  { apply (bool_decide_unpack _). vm_compute. exact I. }
  rewrite E in F. rewrite Forall_forall in F. exact (F _ Hn).
Qed.

Lemma fresh_shaped : shaped (committed fresh_world).
Proof.
  intros m k row Hm Hk. assert (m = ∅) as ->; [|by rewrite lookup_empty in Hk].
  cbn [committed fresh_world] in Hm. apply elem_of_list_to_map_2, list_elem_of_fmap in Hm as ([t d] & [= _ ->] & _). done.
Qed.

Definition first_grant : call := CBootstrapMember "ann" "registrar".
Definition granted_world : world := snd (run members_register first_grant fresh_world).


Definition registrar : Principal := mkPrincipal "ann" "Ann" "" "t" ["registrar"] "registrar" false {[ PermMembers ]}.
Definition last_revocation : call := CRevokeRole registrar "ann" "registrar" "leaving".

Lemma granted_world_ok : store_wf granted_world /\ txn granted_world = None /\ shaped (committed granted_world).
Proof.
  destruct (run members_register first_grant fresh_world) as [res w] eqn:E.
  assert (granted_world = w) as -> by (unfold granted_world; by rewrite E).
  destruct (@run_moves plain_runtime members_register plain_moves_one member_roles_named first_grant
    ltac:(split; [apply (bool_decide_unpack _); vm_compute; exact I|vm_compute; discriminate]) _ _ _ fresh_world_wf eq_refl E) as (W & R & _).
  split; [done|]. split; [exact (settles_run members_register first_grant fresh_world res w eq_refl E)|]. by apply R, fresh_shaped.
Qed.


(** Without the condition on names the last administrator can go: a
    subject that contains the separator, as those of some identity
    providers do, is revoked under a role nobody declared, which the
    check for the last administrator does not look at. *)
Definition piped_world : world := snd (run members_register (CBootstrapMember "auth0|7" "registrar") fresh_world).
Lemma separator_bypass :
  fst (run members_register (CRevokeRole registrar "auth0|7" "registrar" "x") piped_world) <> Ok tt /\
  fst (run members_register (CRevokeRole registrar "auth0" "7|registrar" "x") piped_world) = Ok tt /\
  grants (committed (snd (run members_register (CRevokeRole registrar "auth0" "7|registrar" "x") piped_world))) = ∅.
Proof. vm_compute. split_and!; done. Qed.
End demo.
