(* ===== verification/Invitations.v ===== *)
(** * Invitations are used once

    What an invitation's secret is good for: it opens only the invitation
    it was issued with, in its tenant, before it is spent, withdrawn or
    expired; every other attempt gets the same answer; and an invitation
    that was spent or withdrawn stays so whatever is called afterwards. *)

From S2P Require Import Prelude GoStrings Float64 Encoding Canon Json SqlText Sql Rbac JsonSchema Pack Model World Concrete Commit Replay Byok GoJson Records RecordsCorrect Landing Workflow WorkflowCorrect Identities Members MembersMoves MembersCorrect.
Local Open Scope Z_scope.

Section opening.
Context `{Runtime}.
Variable r : Register.

Lemma invite_row_total tenant id w m :
  answers_reads (visible w) -> wf_db (visible w) -> visible w !! "invites" = Some m ->
  invite_row tenant id w =
    (Ok (match m !! [SStr id] with
         | Some row => if matches [is_ "tenant" (VStr tenant)] row then Some row else None
         | None => None
         end), w).
Proof.
  intros A W Hm. unfold invite_row, select_one, query_one, query, run_stmt, mbind, M_bind.
  cbn [panics existsb is_ c_val lit_val orb]. rewrite A by (by exists m). rewrite Hm. cbn -[select_rows matches is_].
  change [is_ "id" (VStr id); is_ "tenant" (VStr tenant)] with (key_where "invites" [VStr id] ++ [is_ "tenant" (VStr tenant)]).
  rewrite select_key_and by first [by apply W|one_key]. change (lit <$> [VStr id]) with [SStr id].
  unfold mret, M_ret. destruct (m !! [SStr id]) as [row|]; [|done]. f_equal. f_equal.
  change (option_list (Some row)) with [row]. rewrite filter_cons, filter_nil.
  by destruct (matches _ row), (base.decide _).
Qed.

(** What an invitation's row says of its state at a time. *)
Definition withdrawn_or_used (row : Row) : bool := Bool row "revoked" || negb (String.eqb (Str row "used_by") "").
Definition usable (row : Row) (tenant secret : string) (at_ : Z) : bool :=
  matches [is_ "tenant" (VStr tenant)] row && String.eqb (sha256 secret) (Bytes row "secret_hash")
  && negb (withdrawn_or_used row) && (at_ <=? Int row "expires_at").

Lemma openInvite_total tenant id secret w m :
  answers_reads (visible w) -> wf_db (visible w) -> visible w !! "invites" = Some m ->
  exists w', same_db w w' /\
    openInvite tenant id secret w =
      (match m !! [SStr id] with
       | Some row => if usable row tenant secret (clock (tick w)) then Ok (invite_of_row row "open") else Err ErrInvite
       | None => Err ErrInvite
       end, w').
Proof.
  intros A W Hm. pose proof (invite_row_total tenant id w m A W Hm) as Hi.
  destruct (openInvite tenant id secret w) as [res w'] eqn:E. exists w'. split; [by eapply ro_openInvite|]. f_equal.
  apply (f_equal fst) in E. cbn [fst] in E. rewrite <- E. unfold openInvite, mbind, M_bind. rewrite Hi.
  destruct (m !! [SStr id]) as [row|]; [|done]. unfold usable, withdrawn_or_used.
  destruct (matches _ row); [|done]. unfold guard_, lift, refuse_if.
  destruct (String.eqb (sha256 secret) (Bytes row "secret_hash")); [|done]. cbn [negb andb].
  unfold decodeInvite. destruct (Bool row "revoked"); [done|]. destruct (String.eqb (Str row "used_by") ""); [|done].
  cbn [negb orb andb now]. unfold mbind, M_bind. cbn [now].
  destruct (Z.ltb_spec (Int row "expires_at") (clock (tick w))), (Z.leb_spec (clock (tick w)) (Int row "expires_at")); try lia; done.
Qed.
End opening.

(** C35. Every unusable invitation gets the same answer. Checking an
    invitation succeeds exactly when its row is of the tenant, holds the
    hash of the secret presented, has been neither withdrawn nor used, and
    has not expired; in every other case, an id that names no invitation
    among them, the answer is one and the same error, so it does not tell
    which guess was close; and checking changes nothing. *)
Theorem unusable_invitation `{Runtime} (tenant id secret : string) (w : world) (m : table) :
  answers_reads (visible w) -> wf_db (visible w) -> visible w !! "invites" = Some m ->
  exists w', same_ledger w w' /\
    CheckInvite tenant id secret w =
      (match m !! [SStr id] with
       | Some row => if usable row tenant secret (clock (tick w)) then Ok (invite_of_row row "open") else Err ErrInvite
       | None => Err ErrInvite
       end, w').
Proof.
  intros A W Hm. destruct (openInvite_total tenant id secret w m A W Hm) as (w1 & Hs & E).
  exists (set_txn None w1). split; [etrans; [by apply same_db_ledger|apply set_txn_ledger]|].
  unfold CheckInvite, Do. by rewrite E.
Qed.

(** ** Spent for good *)
Section spent.
Context `{Runtime}.
Variable r : Register.
Hypothesis one : commit_moves_one.
Variable id : string.

(** The invitation is there, and can no longer be opened. *)
Definition spent (db : tables) : Prop :=
  exists m row, db !! "invites" = Some m /\ m !! [SStr id] = Some row /\ withdrawn_or_used row = true.

Definition stays_spent (db db' : tables) : Prop := spent db -> spent db'.
#[global] Instance stays_spent_preorder : PreOrder stays_spent.
Proof. split; [intros db S; exact S|]. intros a b c H1 H2 S. apply H2, H1, S. Qed.

(** An entry that leaves the row alone, or spends it again. *)
Definition harmless (op : WriteOp) : Prop :=
  Table op <> "invites" \/ (forall txid, op_key txid op <> [SStr id]) \/
  (exists id' sub at_, op = spend_op id' sub at_ /\ sub <> "" /\ sub <> TxIDPlaceholder) \/ exists id', op = withdraw_op id'.

Lemma harmless_marks txid op row row' :
  harmless op -> Table op = "invites" -> op_key txid op = [SStr id] -> convertible txid op ->
  row_effect txid op (Some row) = Some row' -> withdrawn_or_used row' = true.
Proof.
  intros [H1|[H1|[(id' & sub & at_ & -> & Hs & Hp)|[id' ->]]]] Ht Hk Hc He; [done|by destruct (H1 txid)|..]; unfold withdrawn_or_used.
  - unfold Str. rewrite (effect_cell _ (spend_op id' sub at_) _ _ "used_by" (VStr sub) (CText 256) Hc eq_refl He eq_refl eq_refl)
      by by rewrite substitute_plain.
    rewrite substitute_plain by done. cbn. destruct (String.eqb_spec sub ""); [done|]. by rewrite orb_true_r.
  - unfold Bool. by rewrite (effect_cell _ (withdraw_op id') _ _ "revoked" (VBool true) (CInt 8 true) Hc eq_refl He eq_refl eq_refl I).
Qed.

Lemma spent_landed env ops w w' t :
  landed env ops w w' t -> Forall harmless ops -> stays_spent (committed w) (committed w').
Proof.
  intros L F (m & row & Hm & Hrow & Hs).
  destruct (landed_row _ _ _ _ _ "invites" m L) as (m' & Hm' & Hk); [done..|].
  specialize (Hk [SStr id]). rewrite Hrow in Hk.
  destruct L as (_ & _ & _ & _ & _ & rr & _ & _ & _ & _ & _ & Hconv).
  enough (exists row', row_effects (tx_TxID t) ops "invites" [SStr id] (Some row) = Some row' /\ withdrawn_or_used row' = true)
    as (row' & E & Hs') by (exists m', row'; split_and!; [done|congruence|done]).
  clear Hk Hrow Hm Hm'. revert row Hs. induction F as [|op ops Hop F IH]; intros row Hs; [by exists row|].
  apply Forall_cons in Hconv as [Hc Hconv]. unfold row_effects. cbn [fold_left].
  destruct (base.decide (Table op = "invites" /\ op_key (tx_TxID t) op = [SStr id])) as [[H1 H2]|_]; [|by apply IH].
  destruct (row_effect (tx_TxID t) op (Some row)) as [row1|] eqn:He; [|by destruct Hop as [?|[Hk|[(? & ? & ? & -> & _)|[? ->]]]]; [..|done]; [done|destruct (Hk (tx_TxID t))|]].
  apply IH; [done|]. by eapply harmless_marks.
Qed.

Lemma harmless_elsewhere op : Table op ∈ ["dek_keys"; "profiles"; "invite_recipients"] -> harmless op.
Proof.
  intros Hin. left. intros E. rewrite E in Hin. repeat (apply elem_of_cons in Hin as [Hin|Hin]; [discriminate Hin|]). by apply elem_of_nil in Hin.
Qed.
Lemma harmless_withdraw id' : harmless (withdraw_op id').
Proof. do 3 right. by exists id'. Qed.
Lemma harmless_spend id' sub at_ : sub <> "" -> sub <> TxIDPlaceholder -> harmless (spend_op id' sub at_).
Proof. intros Hs Hp. right. right. left. by exists id', sub, at_. Qed.

Lemma hex_plain s : hex_encode s <> TxIDPlaceholder.
Proof.
  intros E. assert (forall s, Nat.Even (String.length (hex_encode s))) as Hev.
  { intros x. induction x as [|a x [k IH]]; [by exists 0%nat|]. exists (S k). cbn. lia. }
  destruct (Hev s) as [k Hk]. rewrite E in Hk. cbn in Hk. lia.
Qed.

Lemma harmless_invite tenant hash inv raw : iv_ID inv = hex_encode raw -> hex_encode raw <> id -> harmless (invite_op tenant hash inv).
Proof.
  intros E Hne. right. left. intros txid. unfold op_key. cbn -[hex_encode]. rewrite E.
  destruct (String.eqb_spec (hex_encode raw) TxIDPlaceholder) as [Hp|_]; [by destruct (hex_plain raw)|]. intros [= Heq]. done.
Qed.

Lemma spent_grant t s : grant_moves r stays_spent harmless t s.
Proof.
  intros kind author role reason extra We F. unfold grant.
  moves_read. intros spec _. unfold member_rows. moves_read. intros held _.
  moves_read. intros _ _. moves_read. intros at_ _.
  apply moves_commit; [apply _|done|apply more_wf; [intros; apply member_op_wf|done]|].
  intros w w' t' _ L. eapply spent_landed; [exact L|]. apply Forall_cons_2; [by left|done].
Qed.
(** What a call must not do: draw the identifier again, or redeem for
    nobody that can be named. *)
Definition leaves_alone (c : call) (w : world) : Prop :=
  names_ok (opt_Tenant (opts r)) c /\
  match c with
  | CCreateInvite _ _ _ _ | CCreateEmailedInvite _ _ _ _ | CBootstrapInvite _ _ => hex_encode (entropy (rnd w) 8) <> id
  | _ => True
  end.

Lemma spent_run c w res w' :
  leaves_alone c w -> store_wf w -> txn w = None -> run r c w = (res, w') -> store_wf w' /\ stays_spent (committed w) (committed w').
Proof.
  intros [Hc Hid] W Ht E.
  enough (moves_at stays_spent w w (run r c)) as Hm by (apply Hm in E as (W' & S & _); done).
  clear E.
  assert (forall A (m : M A), moves stays_spent m -> moves_at stays_spent w w (drop m)) as Hdrop.
  { intros A m Hm. apply moves_at_then; [by apply moves_here|]. intros a. apply ro_ret. }
  assert (hex_encode (entropy (rnd w) 8) <> id -> forall author tenant role label validFor to,
    moves_at stays_spent w w (Do (createInvite r author tenant role label validFor to))) as Hi.
  { intros Hf author tenant role label validFor to. apply moves_at_Do.
    apply (moves_at_createInvite r one stays_spent _ spent_landed harmless_elsewhere); [done..|].
    intros hash inv Hinv. by eapply harmless_invite. }
  destruct c; cbn [run names_ok] in *; [apply Hdrop|apply Hdrop|apply Hdrop| | | |apply Hdrop|apply Hdrop|apply Hdrop|apply Hdrop| |apply Hdrop..].
  - apply (moves_GrantRole r one stays_spent _ spent_landed harmless_elsewhere), spent_grant.
  - apply (moves_BootstrapMember r stays_spent harmless), spent_grant.
  - unfold RevokeRole, revoke_tx. moves_read. intros _ _. apply moves_Do. moves_read. intros row _.
    moves_read. intros _ _. apply moves_bind; [apply _|apply moves_ro; [apply _|unfold otherAdministrators; ro_tac]|]. intros _ _.
    moves_read. intros at_ _. apply moves_commit; [apply _|done|apply one_wf; intros; apply revoke_op_wf|].
    intros w0 w0' t _ L. eapply spent_landed; [exact L|]. apply Forall_singleton. by left.
  - apply moves_at_then; [|intros a; apply ro_ret]. unfold CreateInvite.
    apply moves_at_bind; [apply _|done..|apply ro_guard|]. intros u wa [_ ->]%guard_Ok _. by apply Hi.
  - apply moves_at_then; [|intros a; apply ro_ret]. unfold CreateEmailedInvite.
    apply moves_at_bind; [apply _|done..|apply ro_guard|]. intros u wa [_ ->]%guard_Ok _.
    apply moves_at_bind; [apply _|done..|apply ro_guard|]. intros u2 wa [_ ->]%guard_Ok _. by apply Hi.
  - apply moves_at_then; [|intros a; apply ro_ret]. by apply Hi.
  - by apply (moves_RevokeInvite one stays_spent _ spent_landed harmless_elsewhere harmless_withdraw).
  - apply moves_Do, moves_ro; [apply _|apply ro_openInvite].
  - apply (moves_RedeemInvite r stays_spent harmless harmless_elsewhere harmless_spend); [apply spent_grant|by destruct Hc].
  - apply moves_Do, moves_ro; [apply _|]. unfold remind_row. ro_tac.
  - apply moves_here; [done..|]. by apply (moves_MarkReminded r one stays_spent _ spent_landed harmless_elsewhere).
  - by apply (moves_ForgetExpired r one stays_spent _ spent_landed harmless_elsewhere).
  - by apply (moves_SeeIdentity r one stays_spent _ spent_landed harmless_elsewhere).
  - by apply (moves_EraseProfile one stays_spent _ spent_landed harmless_elsewhere).
Qed.

(** Worlds reachable by such calls, each succeeding or failing. *)
Definition later (w w' : world) : Prop := exists c res, leaves_alone c w /\ run r c w = (res, w').

Lemma spent_later w w' :
  rtc later w w' -> store_wf w -> txn w = None -> spent (committed w) ->
  store_wf w' /\ txn w' = None /\ spent (committed w').
Proof.
  induction 1 as [w|w w1 w' (c & res & Hc & E) _ IH]; [done|]. intros W Ht S.
  pose proof (settles_run r c _ _ _ Ht E) as Ht1. destruct (spent_run c w res w1 Hc W Ht E) as [W1 K]. apply IH; [done..|by apply K].
Qed.
End spent.

(** ** Redeeming *)
Section redeeming.
Context `{Runtime}.
Variable r : Register.

(** Opening succeeds only on a usable row. *)
Lemma openInvite_inv tenant id secret w inv w' :
  wf_db (visible w) -> openInvite tenant id secret w = (Ok inv, w') ->
  same_db w w' /\ exists m row, visible w !! "invites" = Some m /\ m !! [SStr id] = Some row /\
    usable row tenant secret (clock (tick w)) = true /\ inv = invite_of_row row "open".
Proof.
  intros W E. split; [by eapply ro_openInvite|]. unfold openInvite in E.
  apply M_bind_Ok in E as (o & w1 & Ei & E). unfold invite_row in Ei.
  change [is_ "id" (VStr id); is_ "tenant" (VStr tenant)] with (key_where "invites" [VStr id] ++ [is_ "tenant" (VStr tenant)]) in Ei.
  apply select_one_key_and in Ei as (-> & m & Hm & ->); [|done|one_key]. change (lit <$> [VStr id]) with [SStr id] in E.
  destruct (m !! [SStr id]) as [row|] eqn:Hrow; [|discriminate E].
  destruct (matches [is_ "tenant" (VStr tenant)] row) eqn:Hmt; [|discriminate E].
  apply M_bind_Ok in E as (u & w2 & Eg & E). apply guard_Ok in Eg as [Hh ->].
  apply M_bind_Ok in E as (iv & w2 & Ed & E). apply M_bind_Ok in E as (u2 & w3 & Eg & E). apply guard_Ok in Eg as [Hst ->].
  apply M_ret_inv in E as [[= ->] ->]. unfold decodeInvite in Ed.
  destruct (Bool row "revoked") eqn:Hr; [apply M_ret_inv in Ed as [[= ->] _]; done|].
  destruct (negb (String.eqb (Str row "used_by") "")) eqn:Hu; [apply M_ret_inv in Ed as [[= ->] _]; done|].
  apply M_bind_Ok in Ed as (at_ & w4 & En & Ed). injection En as <- <-. apply M_ret_inv in Ed as [[= ->] _].
  destruct (Z.ltb_spec (Int row "expires_at") (clock (tick w))); [done|]. exists m, row. split_and!; try done.
  unfold usable, withdrawn_or_used. rewrite Hmt, Hr, Hu. apply negb_false_iff in Hh. rewrite Hh.
  cbn [orb andb negb]. destruct (Z.leb_spec (clock (tick w)) (Int row "expires_at")); [done|lia].
Qed.

Lemma spent_closed id db m row : spent id db -> db !! "invites" = Some m -> m !! [SStr id] = Some row -> withdrawn_or_used row = true.
Proof. intros (m' & row' & H1 & H2 & H3) Hm Hrow. congruence. Qed.

(** What is spent opens no more. *)
Lemma spent_refused id tenant secret w inv w' :
  wf_db (visible w) -> spent id (visible w) -> openInvite tenant id secret w = (Ok inv, w') -> False.
Proof.
  intros W S E. apply openInvite_inv in E as (_ & m & row & Hm & Hrow & Hu & _); [|done].
  unfold usable in Hu. rewrite (spent_closed _ _ _ _ S Hm Hrow), andb_false_r in Hu. done.
Qed.
End redeeming.

Section once.
Context `{Runtime}.
Variable r : Register.
Hypothesis one : commit_moves_one.
Variables (tenant sub id secret : string).
Hypothesis id_plain : id <> TxIDPlaceholder.
Hypothesis sub_named : TrimSpace sub <> "" /\ TrimSpace sub <> TxIDPlaceholder.

Lemma spend_op_key txid s at_ : op_key txid (spend_op id s at_) = [SStr id].
Proof using id_plain. unfold op_key. cbn. by destruct (String.eqb_spec id TxIDPlaceholder). Qed.

(** What a redemption writes: the membership, the mark on the invitation,
    and what forgets its recipient. *)
Definition redemption_ops (role : string) (a at_ : Z) (forget : list WriteOp) : list WriteOp :=
  member_op tenant (TrimSpace sub) role (TrimSpace sub) a :: spend_op id (TrimSpace sub) at_ :: forget.
(** What forgets a recipient touches no membership and no invitation. *)
Definition forgets (forget : list WriteOp) : Prop :=
  Forall (fun op => Table op ∈ ["dek_keys"; "profiles"; "invite_recipients"]) forget.

(** What a redemption that lands leaves behind. *)
Lemma redeemed_rows env role a at_ forget wa w' t invites members :
  landed env (redemption_ops role a at_ forget) wa w' t -> forgets forget ->
  committed wa !! "invites" = Some invites -> is_Some (invites !! [SStr id]) -> committed wa !! "members" = Some members ->
  spent id (committed w') /\ exists m row, committed w' !! "members" = Some m /\ m !! [SStr (memberID tenant (TrimSpace sub) role)] = Some row.
Proof using id_plain sub_named.
  intros L F Hi [row Hrow] Hm.
  assert (forall tbl, tbl ∉ ["dek_keys"; "profiles"; "invite_recipients"] -> forall txid k,
    Forall (fun o => Table o = tbl -> op_key txid o <> k) forget) as Helse.
  { intros tbl Ht txid k. eapply Forall_impl; [exact F|]. intros o Ho E. cbn beta in Ho. by rewrite E in Ho. }
  split.
  - destruct (landed_entry _ [member_op tenant (TrimSpace sub) role (TrimSpace sub) a] _ _ _ _ _ invites L) as (m' & Hm' & Hc & Hk);
      [done|done|done|apply Helse; by apply (bool_decide_unpack _)|].
    rewrite spend_op_key in Hk. rewrite row_effects_other in Hk by (by apply Forall_singleton). rewrite Hrow in Hk.
    destruct (row_effect (tx_TxID t) (spend_op id (TrimSpace sub) at_) (Some row)) as [row'|] eqn:He; [|done].
    exists m', row'. split_and!; try done. destruct sub_named.
    eapply (harmless_marks id); [by apply harmless_spend|done|apply spend_op_key|done|exact He].
  - destruct (landed_entry _ [] _ (spend_op id (TrimSpace sub) at_ :: forget) _ _ _ members L) as (m' & Hm' & Hc & Hk); [done..| |].
    { apply Forall_cons_2; [done|]. apply Helse. by apply (bool_decide_unpack _). }
    rewrite member_key in Hk. eexists m', _. split; [done|]. exact Hk.
Qed.

Lemma redeem_tx_inv w inv t w' :
  store_wf w -> txn w = None -> redeem_tx r tenant (TrimSpace sub) id secret w = (Ok (inv, t), w') ->
  exists invites row, committed w !! "invites" = Some invites /\ invites !! [SStr id] = Some row /\
    usable row tenant secret (clock (tick w)) = true /\ iv_Role inv = Str row "role" /\ iv_UsedBy inv = TrimSpace sub /\
    ((exists env a at_ forget, forgets forget /\ repeated env (redemption_ops (iv_Role inv) a at_ forget) w w') \/ version w' = to_uint64 (version w + 1) /\ spent id (committed w') /\
      exists m mrow, committed w' !! "members" = Some m /\ m !! [SStr (memberID tenant (TrimSpace sub) (Str row "role"))] = Some mrow).
Proof using one id_plain sub_named.
  intros W Ht E. unfold redeem_tx in E. pose proof (visible_closed w Ht) as Hv.
  apply M_bind_Ok in E as (inv0 & w1 & Eo & E). apply openInvite_inv in Eo as (Hs & invites & row & Hi & Hrow & Hu & ->); [|by apply store_wf_visible].
  rewrite Hv in Hi. exists invites, row. do 3 (split; [done|]).
  apply M_bind_Ok in E as (at1 & w2 & En & E). pose proof (ro_now _ _ _ En) as Hs2.
  apply M_bind_Ok in E as (forget & w3 & Ef & E). pose proof (ro_forgetRecipient _ _ _ _ _ Ef) as Hs3.
  apply M_bind_Ok in E as (txn' & w4 & Eg & E). apply M_bind_Ok in E as (u & w5 & Efo & E). apply M_ret_inv in E as [[= -> ->] ->].
  split; [done|]. split; [done|].
  assert (same_ledger w4 w5) as Hl by (destruct (negb _); [by injection Efo as _ <-|by apply M_ret_inv in Efo as [_ ->]]).
  assert (same_db w w3) as Hs4 by (etrans; [done|]; by etrans).
  destruct (forget_ops_wf (fun op => Table op ∈ ["dek_keys"; "profiles"; "invite_recipients"]) (fun _ Hin => Hin) _ _ _ _ _ Ef) as [Wf Ff].
  unfold grant in Eg. apply M_bind_Ok in Eg as (spec & wa & Es & Eg). apply lift_Ok in Es as [_ ->].
  apply M_bind_Ok in Eg as (held & wa & Eh & Eg). apply select_elem in Eh as (-> & members & Hm & _).
  apply M_bind_Ok in Eg as (u2 & wa & Ec & Eg). apply lift_Ok in Ec as [_ ->].
  apply M_bind_Ok in Eg as (at2 & wa & En2 & Eg). pose proof (ro_now _ _ _ En2) as Hs5.
  assert (same_db w wa) as Hs6 by (by etrans).
  pose proof Hs4 as (Hc3 & _ & _ & Ht3 & _). rewrite (visible_closed w3) in Hm by congruence. rewrite Hc3 in Hm.
  pose proof Hs6 as (Hca & Hva & _).
  apply (commit_lands _ _ w) in Eg as [Hsame|L]; try done.
  - left. eexists _, _, _, _. split; [exact Ff|]. eapply repeated_then; [exact Hsame|done].
  - right. pose proof (landed_version _ _ _ _ _ L) as Hver. destruct Hl as (-> & -> & _). rewrite Hver, Hva. split; [done|].
    eapply redeemed_rows; [exact L|done|by rewrite Hca|by eexists|by rewrite Hca].
  - apply more_wf; [intros; apply member_op_wf|]. apply more_wf; [intros; apply spend_op_wf|done].
Qed.
End once.

(** C8. An invitation is redeemed once. Redeeming succeeds only with the
    invitation's own secret, in its tenant, while it is open at the time the
    clock reads; what is redeemed is one ledger version, in which the person
    it was redeemed by holds the role it names; and from then on, whatever
    calls are made and however they end, neither checking nor redeeming it
    ever succeeds again, for anybody and with any secret. The one exception
    is a redemption whose very transaction is in the log already: then
    nothing changes. The calls after it must not draw the identifier of the
    invitation again for a new one, and name people and roles without the
    separator, which keeps a membership's identifier its own. *)
Theorem redeemed_once `{Runtime} (r : Register) (tenant sub id secret : string) (w w1 : world) (inv : Invite) (t : Transaction) :
  commit_moves_one -> (forall n spec, role_spec r n = Some spec -> named n) ->
  named tenant -> TrimSpace sub <> TxIDPlaceholder -> id <> TxIDPlaceholder ->
  store_wf w -> txn w = None -> shaped (committed w) ->
  RedeemInvite r tenant sub id secret w = (Ok (inv, t), w1) ->
  (exists invites row, committed w !! "invites" = Some invites /\ invites !! [SStr id] = Some row /\
     usable row tenant secret (clock (tick w)) = true /\ iv_Role inv = Str row "role" /\ iv_UsedBy inv = TrimSpace sub) /\
  ((exists env a at_ forget, forgets forget /\ repeated env (redemption_ops tenant sub id (iv_Role inv) a at_ forget) w w1) \/
   version w1 = to_uint64 (version w + 1) /\
   (no_bar (iv_Role inv) -> (tenant, TrimSpace sub, iv_Role inv) ∈ grants (committed w1)) /\
   forall w2, rtc (later r id) w1 w2 -> forall tenant' sub' secret',
     is_ok (fst (CheckInvite tenant' id secret' w2)) = false /\ is_ok (fst (RedeemInvite r tenant' sub' id secret' w2)) = false).
Proof.
  intros Hone Hroles Hten Hsub Hid W Ht Sh E.
  assert (run r (CRedeemInvite tenant sub id secret) w = (Ok tt, w1)) as Erun by (cbn [run]; unfold drop, mbind, M_bind; by rewrite E).
  destruct (run_moves r Hone Hroles (CRedeemInvite tenant sub id secret) (conj Hten Hsub) _ _ _ W Ht Erun) as (W1 & R & Ht1).
  destruct (R Sh) as [Sh1 _]. specialize (Ht1 eq_refl).
  unfold RedeemInvite in E. apply M_bind_Ok in E as (u & wa & Eg & E). apply guard_Ok in Eg as [Hne ->]. bool_hyps.
  apply Do_inv in E as (wb & E & ->).
  apply redeem_tx_inv in E as (invites & row & Hi & Hrow & Hu & Hr & Hub & Hend); [|done..].
  split; [by exists invites, row|].
  destruct Hend as [(env & a & at_ & forget & Hf & Hl)|(Hv & Hsp & m & mrow & Hm & Hmrow)];
    [left; exists env, a, at_, forget; split; [done|]; eapply repeated_then; [done|apply set_txn_ledger]|].
  right. split; [done|]. split.
  - intros Hb. apply (grants_elem _ m); [done|done|exact (proj1 Hten)|done|]. exists mrow. by rewrite Hr.
  - intros w2 S tenant' sub' secret'. destruct (spent_later r Hone id _ _ S W1 Ht1 Hsp) as (W2 & Ht2 & Hsp2).
    rewrite <- (visible_closed w2 Ht2) in Hsp2. pose proof (store_wf_visible _ W2) as Wv. split.
    + unfold CheckInvite, Do. destruct (openInvite tenant' id secret' w2) as [[i|e] w3] eqn:Eo; [|done].
      exfalso. by eapply spent_refused.
    + destruct (RedeemInvite r tenant' sub' id secret' w2) as [[i|e] w3] eqn:Eo; [|done]. exfalso.
      unfold RedeemInvite in Eo. apply M_bind_Ok in Eo as (u2 & wx & Eg & Eo). apply guard_Ok in Eg as [_ ->].
      apply Do_inv in Eo as (wy & Eo & ->). unfold redeem_tx in Eo. apply M_bind_Ok in Eo as (i2 & wz & Eo & _). by eapply spent_refused.
Qed.

Section issued.
Context `{Runtime}.
Variable r : Register.
Hypothesis one : commit_moves_one.

Lemma invite_op_key txid tenant hash inv raw : iv_ID inv = hex_encode raw -> op_key txid (invite_op tenant hash inv) = [SStr (iv_ID inv)].
Proof.
  intros E. unfold op_key. cbn -[hex_encode]. rewrite E.
  by destruct (String.eqb_spec (hex_encode raw) TxIDPlaceholder) as [Hp|_]; [destruct (hex_plain raw)|].
Qed.

Lemma invite_lifetime_Ok validFor v : invite_lifetime validFor = Ok v ->
  0 < v <= MaxInviteLifetime /\ (validFor <= 0 -> v = DefaultInviteLifetime) /\ (0 < validFor -> v = validFor).
Proof.
  unfold invite_lifetime. intros E. destruct (Z.leb_spec validFor 0); res_inv; bool_hyps; unfold MaxInviteLifetime, DefaultInviteLifetime, second in *; lia.
Qed.

(** The row an invitation is issued as. *)
Definition issued_as (inv : Invite) (tenant secret : string) (db : tables) : Prop :=
  exists m row, db !! "invites" = Some m /\ m !! [SStr (iv_ID inv)] = Some row /\
    matches [is_ "tenant" (VStr tenant)] row = true /\ Bytes row "secret_hash" = sha256 secret /\
    withdrawn_or_used row = false /\ invite_of_row row "open" = inv.

Definition plain_names (tenant : string) (inv : Invite) : Prop :=
  Forall (fun s => s <> TxIDPlaceholder) [tenant; iv_Role inv; iv_Label inv; iv_CreatedBy inv].

Lemma issued_row txid tenant secret inv o row id label_role by_ c e :
  inv = mkInvite id label_role.1 label_role.2 by_ c e "" 0 "open" -> plain_names tenant inv ->
  convertible txid (invite_op tenant (sha256 secret) inv) -> row_effect txid (invite_op tenant (sha256 secret) inv) o = Some row ->
  cell row "id" = SStr id ->
  matches [is_ "tenant" (VStr tenant)] row = true /\ Bytes row "secret_hash" = sha256 secret /\
  withdrawn_or_used row = false /\ invite_of_row row "open" = inv.
Proof.
  intros -> F Hc He Hid. set (op := invite_op _ _ _) in *.
  apply Forall_cons in F as [F1 F]. apply Forall_cons in F as [F2 F]. apply Forall_cons in F as [F3 F].
  apply Forall_cons in F as [F4 _]. cbn [iv_Role iv_Label iv_CreatedBy] in *.
  assert (forall col v n, obj_get col (Values op) = Some (VStr v) -> v <> TxIDPlaceholder -> column_type "invites" col = Some (CText n) ->
    cell row col = SStr v) as Ht.
  { intros col v n Hg Hv Hn. rewrite (effect_cell _ op _ row col (VStr v) (CText n) Hc eq_refl He Hg Hn); by rewrite substitute_plain. }
  assert (forall col z, obj_get col (Values op) = Some (VInt z) -> column_type "invites" col = Some (CInt 64 true) -> cell row col = SInt z) as Hz.
  { intros col z Hg Hn. rewrite (effect_cell _ op _ row col (VInt z) (CInt 64 true) Hc eq_refl He Hg Hn I).
    pose proof (effect_typed _ op col (VInt z) (CInt 64 true) Hc eq_refl Hg Hn I) as Hty. cbn [substitute lit lit_val] in *. done. }
  assert (forall col z, obj_get col (Values op) = Some (VInt z) -> column_type "invites" col = Some (CInt 64 true) -> Int row col = z) as Hi.
  { intros col z Hg Hn. unfold Int. rewrite (Hz col z Hg Hn).
    pose proof (effect_typed _ op col (VInt z) (CInt 64 true) Hc eq_refl Hg Hn I) as Hty. by apply int64_typed. }
  unfold matches, withdrawn_or_used, invite_of_row, Bytes, Bool, Str. cbn [forallb].
  rewrite (cond_text _ _ _ tenant) by (by apply (Ht "tenant" tenant 64)). rewrite bool_decide_eq_true_2 by done.
  rewrite (effect_cell _ op _ row "secret_hash" (VBinary (sha256 secret)) (CBytes 32) Hc eq_refl He eq_refl eq_refl I).
  rewrite (effect_cell _ op _ row "revoked" (VBool false) (CInt 8 true) Hc eq_refl He eq_refl eq_refl I).
  rewrite (Ht "used_by" "" 256), (Ht "role" label_role.1 64), (Ht "label" label_role.2 128), (Ht "created_by" by_ 256), Hid by done.
  rewrite (Hi "created_at" c), (Hi "expires_at" e), (Hi "used_at" 0) by done. done.
Qed.

(** What issuing answers, and the row it leaves. *)
Lemma createInvite_inv author tenant role label validFor to w inv secret w' :
  store_wf w -> txn w = None -> is_Some (committed w !! "invites") ->
  createInvite r author tenant role label validFor to w = (Ok (inv, secret), w') ->
  (exists v raw rawSecret, invite_lifetime validFor = Ok v /\ iv_ID inv = hex_encode raw /\ secret = base64_rawurl rawSecret /\
     inv = mkInvite (iv_ID inv) role (TrimSpace label) (au_Sub author) (iv_CreatedAt inv) (iv_CreatedAt inv + whole_seconds v) "" 0 "open") /\
  rune_count (iv_Label inv) <= 96 /\ is_Some (role_spec r role) /\
  ((exists env more, repeated env (invite_op tenant (sha256 secret) inv :: more) w w') \/ version w' = to_uint64 (version w + 1) /\
   (plain_names tenant inv -> issued_as inv tenant secret (committed w'))).
Proof using one.
  intros W Ht [m Hm] E. unfold createInvite in E.
  apply M_bind_Ok in E as (spec & wa & Es & E). apply lift_Ok in Es as [Hspec ->]. apply of_option_Ok in Hspec.
  apply M_bind_Ok in E as (v & wa & Ev & E). apply lift_Ok in Ev as [Hlife ->].
  apply M_bind_Ok in E as (u & wa & Eg & E). apply guard_Ok in Eg as [Hlab ->]. bool_hyps.
  apply M_bind_Ok in E as (rawID & w1 & E1 & E). pose proof (ro_random _ _ _ _ E1) as Hs1.
  apply M_bind_Ok in E as (rawSecret & w2 & E2 & E). pose proof (ro_random _ _ _ _ E2) as Hs2.
  apply M_bind_Ok in E as (at_ & w3 & E3 & E). pose proof (ro_now _ _ _ E3) as Hs3.
  apply M_bind_Ok in E as (more & w4 & Em & E).
  assert (same_db w3 w4 /\ ops_wf more /\ Forall (fun op => Table op ∈ ["dek_keys"; "profiles"; "invite_recipients"]) more) as (Hs4 & Wm & Fm).
  { destruct to; [|apply M_ret_inv in Em as [[= ->] ->]; split_and!; [done|apply none_wf|apply Forall_nil_2]].
    split; [by eapply ro_sealRecipient|]. by eapply (sealRecipient_wf r _ (fun _ Hin => Hin)). }
  apply M_bind_Ok in E as (t & w5 & Ec & E). apply M_ret_inv in E as [[= -> ->] ->]. cbn [iv_ID iv_CreatedAt iv_Label].
  split; [exists v, rawID, rawSecret; split_and!; [exact Hlife|reflexivity..]|]. split; [exact Hlab|]. split; [by exists spec|].
  assert (same_db w w4) as Hs by (repeat (etrans; [eassumption|]); reflexivity). pose proof Hs as (Hca & Hva & _).
  pose proof (keeps_commit _ _ _ _ _ (store_wf_same _ _ Hs W) Ec) as [Wk _].
  apply (commit_lands _ _ w) in Ec as [Hsame|L]; try done; [left; by eexists _, _|right|apply more_wf; [intros; apply invite_op_wf|done]].
  rewrite (landed_version _ _ _ _ _ L), Hva. split; [done|].
  destruct (landed_entry _ [] _ more _ _ _ m L) as (m' & Hm' & Hc & Hk); [done|done|by rewrite Hca|..].
  { eapply Forall_impl; [exact Fm|]. intros o Ho Eq. cbn beta in Ho. rewrite Eq in Ho. exfalso. revert Ho. by apply (bool_decide_unpack _). }
  rewrite (invite_op_key _ _ _ _ rawID) in Hk by done. cbn [iv_ID] in Hk.
  match type of Hk with _ = row_effect ?x ?op ?o => destruct (row_effect x op o) as [row|] eqn:He; [|done] end.
  intros Hp. exists m', row. split; [done|]. split; [done|]. pose proof Hk as Hk'.
  eapply (issued_row _ _ _ _ _ _ _ (role, TrimSpace label)); [done|done|exact Hc|exact He|].
  destruct (Wk _ _ Hm' _ _ Hk') as [Hpk _]. by injection Hpk.
Qed.
End issued.

(** An issued invitation opens until it expires. Issuing refuses a role
    the pack does not declare, a label of more than 96 characters and a
    lifetime of more than thirty days; an invitation lives for the time
    asked for, in whole seconds, or fourteen days when none is. It is one
    ledger version, which holds only the hash of the secret, and from then
    on, until it expires, checking it with that secret gives back exactly
    what was issued. *)
Lemma issued_invitation_opens `{Runtime} (r : Register) (author : Author) (tenant role label : string) (validFor : Z)
    (to : option InviteRecipient) (w w1 : world) (inv : Invite) (secret : string) :
  commit_moves_one -> store_wf w -> txn w = None -> is_Some (committed w !! "invites") ->
  Do (createInvite r author tenant role label validFor to) w = (Ok (inv, secret), w1) ->
  is_Some (role_spec r role) /\ iv_Role inv = role /\ iv_Label inv = TrimSpace label /\ rune_count (iv_Label inv) <= 96 /\
  iv_CreatedAt inv <= iv_ExpiresAt inv <= iv_CreatedAt inv + 30 * 24 * 3600 /\
  (validFor <= 0 -> iv_ExpiresAt inv = iv_CreatedAt inv + 14 * 24 * 3600) /\
  (0 < validFor -> iv_ExpiresAt inv = iv_CreatedAt inv + validFor / second) /\
  ((exists env more, repeated env (invite_op tenant (sha256 secret) inv :: more) w w1) \/
   version w1 = to_uint64 (version w + 1) /\
   (plain_names tenant inv -> forall w2, same_db w1 w2 -> answers_reads (visible w2) -> clock (tick w2) <= iv_ExpiresAt inv ->
      exists w3, CheckInvite tenant (iv_ID inv) secret w2 = (Ok inv, w3))).
Proof.
  intros Hone W Ht Hi E. apply Do_inv in E as (w0 & E & ->). pose proof E as E'.
  apply createInvite_inv in E as ((v & raw & rs & Hlife & Hid & Hsec & Hinv) & Hlab & Hspec & Hend); [|done..].
  apply invite_lifetime_Ok in Hlife as (Hb & H14 & Hv).
  assert (iv_Role inv = role /\ iv_Label inv = TrimSpace label /\ iv_ExpiresAt inv = iv_CreatedAt inv + v / second) as (H1 & H2 & H3)
    by (split_and!; by rewrite Hinv at 1).
  split; [done|]. do 2 (split; [done|]). split; [done|].
  split; [rewrite H3; unfold MaxInviteLifetime, second in *; Z.to_euclidean_division_equations; lia|].
  split; [intros Hn; by rewrite H3, (H14 Hn)|]. split; [intros Hp; by rewrite H3, (Hv Hp)|].
  destruct Hend as [(env & more & Hl)|[Hver Hrow]]; [left; exists env, more; eapply repeated_then; [done|apply set_txn_ledger]|]. right. split; [done|].
  intros Hp w2 Hs2 A Hclock. destruct (Hrow Hp) as (m & row & Hm & Hr & Hmt & Hh & Hun & Hinv').
  pose proof Hs2 as (Hc & _ & _ & Ht2 & _). cbn [committed set_txn txn] in Hc, Ht2.
  assert (visible w2 = committed w0) as Hvis by (by rewrite visible_closed).
  assert (keeps (createInvite r author tenant role label validFor to)) as Hk.
  { unfold createInvite. keeps_tac. }
  destruct (Hk _ _ _ W E') as [W0 _].
  destruct (openInvite_total tenant (iv_ID inv) secret w2 m) as (w3 & _ & Eo); [done|by rewrite Hvis|by rewrite Hvis|].
  exists (set_txn None w3). unfold CheckInvite, Do. rewrite Eo, Hr. unfold usable. rewrite Hmt, Hh, Hun, String.eqb_refl.
  cbn [andb negb]. assert (Int row "expires_at" = iv_ExpiresAt inv) as -> by (by rewrite <- Hinv').
  destruct (Z.leb_spec (clock (tick w2)) (iv_ExpiresAt inv)); [|lia]. by rewrite Hinv'.
Qed.

(** ** Instances *)
Section demo.
#[local] Existing Instance plain_runtime.

(** A first administrator's invitation, on the empty register. *)
Definition issue : M (Invite * string) := Do (createInvite members_register (systemAuthor (opts members_register) "configure") "t" "registrar" "First administrator" 0 None).
Definition issued_world : world := snd (issue fresh_world).
Definition id_of (out : res (Invite * string)) : string := match out with Ok (inv, _) => iv_ID inv | Err _ => "" end.
Definition secret_of (out : res (Invite * string)) : string := match out with Ok (_, secret) => secret | Err _ => "" end.
Definition issued_id : string := id_of (fst (issue fresh_world)).
Definition issued_secret : string := secret_of (fst (issue fresh_world)).

Lemma issued_invitation_opens_witness : exists inv secret w1, issue fresh_world = (Ok (inv, secret), w1) /\
  exists w3, CheckInvite "t" (iv_ID inv) secret w1 = (Ok inv, w3).
Proof.
  destruct (runs_ok (issue fresh_world)) as ([inv secret] & w1 & E & Hw); [vm_compute; reflexivity|].
  assert (version (snd (issue fresh_world)) = 2 /\ txn (snd (issue fresh_world)) = None /\
    match fst (issue fresh_world) with
    | Ok (inv, _) => bool_decide (plain_names "t" inv) && (clock (tick (snd (issue fresh_world))) <=? iv_ExpiresAt inv)
    | Err _ => false
    end = true) as (Hv & Ht & Hp).
  { vm_compute. split_and!; reflexivity. }
  rewrite E in Hp. rewrite <- Hw in Hv, Ht. cbn [fst snd] in Hp. apply andb_true_iff in Hp as [Hp Hc].
  exists inv, secret, w1. split; [exact E|].
  destruct (@issued_invitation_opens plain_runtime members_register _ "t" "registrar" "First administrator" 0 None fresh_world w1 inv secret
    plain_moves_one fresh_world_wf eq_refl ltac:(eexists; reflexivity) E) as (_ & _ & _ & _ & _ & _ & _ & H).
  eapply moved_by in H; [|intros (? & ? & Hq); exact (proj1 Hq)|rewrite Hv; discriminate]. destruct H as [_ H].
  apply H; [exact (proj1 (bool_decide_eq_true _) Hp)|reflexivity|apply plain_answers|exact (proj1 (Z.leb_le _ _) Hc)].
Defined.

Lemma issued_world_wf : store_wf issued_world.
Proof.
  unfold issued_world. destruct (issue fresh_world) as [x y] eqn:E. unfold issue in E.
  assert (keeps (Do (createInvite members_register (systemAuthor (opts members_register) "configure") "t" "registrar" "First administrator" 0 None))) as K.
  { apply keeps_Do. unfold createInvite. keeps_tac. }
  eapply K; [exact fresh_world_wf|exact E].
Qed.

Lemma unusable_invitation_witness : exists w', CheckInvite "t" issued_id "guess" issued_world = (Err ErrInvite, w') /\
  exists w2, CheckInvite "t" "nothing" issued_secret issued_world = (Err ErrInvite, w2).
Proof.
  destruct (there (committed issued_world !! "invites")) as [m Hm]; [vm_compute; reflexivity|].
  assert (txn issued_world = None) as Ht by (vm_compute; reflexivity).
  assert (match committed issued_world !! "invites" with
    | Some m => match m !! [SStr issued_id] with Some row => negb (usable row "t" "guess" (clock (tick issued_world))) | None => false end
                && bool_decide (m !! [SStr "nothing"] = None)
    | None => false end = true) as Hu by (vm_compute; reflexivity).
  rewrite Hm in Hu. apply andb_true_iff in Hu as [Hu Hn]. apply bool_decide_eq_true in Hn.
  pose proof (visible_closed issued_world Ht) as Hv. pose proof issued_world_wf as W. rewrite <- Hv in Hm.
  destruct (@unusable_invitation plain_runtime "t" issued_id "guess" issued_world m (plain_answers _) (store_wf_visible _ W) Hm)
    as (w' & _ & E).
  destruct (@unusable_invitation plain_runtime "t" "nothing" issued_secret issued_world m (plain_answers _) (store_wf_visible _ W) Hm)
    as (w2 & _ & E2).
  rewrite Hn in E2. exists w'. split; [|exists w2; exact E2]. destruct (m !! [SStr issued_id]) as [row|]; [|discriminate Hu].
  apply negb_true_iff in Hu. rewrite Hu in E. exact E.
Defined.

Definition redemption := RedeemInvite members_register "t" "ann" issued_id issued_secret.

Lemma issued_shaped : shaped (committed issued_world).
Proof.
  intros m k row Hm Hk. assert (match committed issued_world !! "members" with Some m => bool_decide (m = ∅) | None => false end = true) as Hb
    by (vm_compute; reflexivity).
  rewrite Hm in Hb. clear Hm. apply bool_decide_eq_true in Hb. rewrite Hb, lookup_empty in Hk. discriminate Hk.
Qed.

Lemma redeemed_once_witness : exists out w1, redemption issued_world = (Ok out, w1) /\
  ("t", "ann", "registrar") ∈ grants (committed w1) /\ is_ok (fst (redemption w1)) = false.
Proof.
  destruct (runs_ok (redemption issued_world)) as ([inv t] & w1 & E & Hw); [vm_compute; reflexivity|].
  assert (version (snd (redemption issued_world)) = 3 /\ version issued_world = 2 /\ txn issued_world = None /\
    match fst (redemption issued_world) with Ok (inv, _) => String.eqb (iv_Role inv) "registrar" | Err _ => false end = true)
    as (Hv & Hv0 & Ht & Hr) by (vm_compute; split_and!; reflexivity).
  rewrite E in Hr. cbn [fst] in Hr. apply String.eqb_eq in Hr. rewrite <- Hw in Hv.
  destruct (@redeemed_once plain_runtime members_register "t" "ann" issued_id issued_secret issued_world w1 inv t
    plain_moves_one member_roles_named ltac:(apply (bool_decide_unpack _); vm_compute; exact I) ltac:(vm_compute; discriminate)
    ltac:(vm_compute; discriminate) issued_world_wf Ht issued_shaped E) as [_ H].
  eapply moved_by in H; [|intros (? & ? & ? & ? & _ & Hq); exact (proj1 Hq)|rewrite Hv, Hv0; discriminate]. destruct H as (_ & Hg & H).
  exists (inv, t), w1. split; [exact E|]. rewrite Hr in Hg. split.
  - apply Hg. apply (bool_decide_unpack _). vm_compute. exact I.
  - apply (H w1); reflexivity.
Defined.
End demo.
