(* ===== verification/Retention.v ===== *)
(** * Retention and erasure

    [retention.go]: pruning the content of versions that have passed their
    policy's window, erasing a subject by destroying its key, and the
    report of what is past its horizon. *)

From S2P Require Import Prelude GoStrings Float64 Encoding Canon Json SqlText Sql Rbac JsonSchema Pack Model World Concrete Commit Replay Byok GoJson Records RecordsCorrect Landing Workflow WorkflowCorrect Identities.
Local Open Scope Z_scope.

Record PruneRequest := mkPruneRequest {
  pr_PolicyID : string;
  pr_ObjectID : string;
  pr_Message : string;
  pr_DryRun : bool;
  pr_CollectHistory : bool;
}.

Record PruneResult := mkPruneResult {
  ps_PolicyID : string;
  ps_Horizon : Z;
  ps_Versions : Z;
  ps_Objects : Z;
  ps_DryRun : bool;
  ps_Transaction : option Transaction;
  ps_LedgerVersions : Z;
}.

Record ErasureRequest := mkErasureRequest {
  er_ObjectID : string;
  er_PolicyID : string;
  er_Reason : string;
  er_Message : string;
}.

Record ErasureResult := mkErasureResult {
  es_ObjectID : string;
  es_Scope : string;
  es_Versions : Z;
  es_Transaction : Transaction;
}.

Record PruneHorizon := mkPruneHorizon {
  ph_PolicyID : string;
  ph_Title : string;
  ph_Class : string;
  ph_Scope : string;
  ph_Days : Z;
  ph_Horizon : Z;
  ph_Eligible : Z;
  ph_Pruned : Z;
}.

Section retention.
Context `{Runtime} `{GoFormats}.
Variable r : Register.
(** The ledger's own history, below a version: how many records the
    engine deletes, or its error. *)
Variable ledger_prune : tables -> Z -> res Z.

(** The moment a window of days reaches back to. *)
Definition horizon_of (at_ days : Z) : Z := to_int64 (at_ - days * 24 * 3600).

(** The versions a prune selects: a version and its object. *)
Definition expired_version (horizon : Z) (policy : RetentionPolicy) : list cond :=
  [mkCond "created_at" OLt (VInt horizon); is_ "pruned" (VBool false)]
  ++ (if String.eqb (r_Scope policy) ScopePII then [mkCond "enc_scope" ONe (VStr "")] else []).
Definition pruned_object (tenant : string) (class : Class_) (objectID : string) : list cond :=
  [is_ "class" (VStr (c_Name class)); is_ "tenant" (VStr tenant)]
  ++ (if String.eqb objectID "" then [] else [is_ "id" (VStr objectID)]).
Definition prune_join (tenant : string) (class : Class_) (policy : RetentionPolicy) (objectID : string) (horizon : Z) : join :=
  mkJoin "record_versions" "objects" ("object_id", "id")
    (expired_version horizon policy) (pruned_object tenant class objectID) [("version", OLt, "head_version")]
    [mkOrder "object_id" false; mkOrder "version" false] (Some 5000%nat).

(** The two entries of a pruned version. *)
Definition prune_version_op (policy : RetentionPolicy) (objectID : string) (version : Z) : WriteOp :=
  upsert "record_versions" [("object_id", VStr objectID); ("version", VInt version)]
    [("payload", VBinary ""); ("pruned", VBool true); ("prune_policy", VStr (r_ID policy))].
Definition prune_mark_op (policy : RetentionPolicy) (i : Z) (objectID : string) (from_ to_ : Z) (reason : string) (at_ : Z) : WriteOp :=
  upsert "prune_marks" [("txid", VStr TxIDPlaceholder); ("idx", VInt i)]
    [("object_id", VStr objectID); ("from_version", VInt from_); ("to_version", VInt to_);
     ("policy_id", VStr (r_ID policy)); ("reason", VStr reason); ("created_at", VInt at_)].
Definition prune_ops_of (policy : RetentionPolicy) (at_ : Z) (i : nat) (row : Row) : list WriteOp :=
  let objectID := Str row "object_id" in
  let version := Uint row "version" in
  [prune_version_op policy objectID version;
   prune_mark_op policy (Z.of_nat i) objectID version version "retention" at_].
Definition prune_ops (policy : RetentionPolicy) (at_ : Z) (rows : list Row) : list WriteOp :=
  concat (imap (prune_ops_of policy at_) rows).

Definition prune_env (p : Principal) (class : Class_) (policy : RetentionPolicy) (req : PruneRequest) (n at_ horizon : Z) : Envelope :=
  let summary := if String.eqb (pr_Message req) ""
                 then "Prune " +:+ itoa n +:+ " " +:+ c_Name class +:+ " versions per policy " +:+ r_ID policy
                 else pr_Message req in
  mkEnvelope KindRetentionPrune (p_Tenant p) (c_Name class) ""
    (if String.eqb (pr_ObjectID req) "" then [] else [pr_ObjectID req]) (principalAuthor p) at_
    (composeMessage (clip summary MaxSummary)
       ("Policy " +:+ r_ID policy +:+ " (" +:+ r_Title policy +:+ ") keeps " +:+ r_Scope policy +:+ " versions of " +:+ c_Name class
        +:+ " for " +:+ itoa (r_WindowDays policy) +:+ " days." +:+ nl +:+ "Horizon " +:+ format_rfc3339 horizon
        +:+ ": everything committed before it is removed.")) [].

(** [Prune]. *)
Definition collect_history (collect : bool) (txn : Transaction) : M Z :=
  if collect then
    db ← gets committed;
    deleted ← wrapping "register: collect ledger history: %w" [] (lift (ledger_prune db (tx_VersionBefore txn)));
    _ ← modify (fun w => set_horizon (Z.max (tx_VersionBefore txn) (horizon w)) w);
    mret deleted
  else mret 0.
Definition prune_tx (p : Principal) (req : PruneRequest) (policy : RetentionPolicy) (class : Class_) : M PruneResult :=
  at_ ← now;
  let horizon := horizon_of at_ (r_WindowDays policy) in
  rows ← query (SJoin (prune_join (p_Tenant p) class policy (pr_ObjectID req) horizon));
  let n := Z.of_nat (length rows) in
  let objects := Z.of_nat (size (list_to_set ((fun row => Str row "object_id") <$> rows) : gset string)) in
  let result := mkPruneResult (r_ID policy) horizon n objects (pr_DryRun req) in
  if pr_DryRun req || (n =? 0) then mret (result None 0) else
  txn ← commit (prune_env p class policy req n at_ horizon) (prune_ops policy at_ rows);
  deleted ← collect_history (pr_CollectHistory req) txn;
  mret (result (Some txn) deleted).
Definition Prune (p : Principal) (req : PruneRequest) : M PruneResult :=
  _ ← guard_ (negb (Can p PermRetention)) (Errorf "%s may not run retention" [Acting p]);
  policy ← lift (of_option (Policy (pk r) (pr_PolicyID req)) (Errorf "no retention policy %q" [pr_PolicyID req]));
  class ← lift (of_option (Class (pk r) (r_Class policy))
                  (Errorf "policy %s targets class %q, which this pack no longer declares" [r_ID policy; r_Class policy]));
  Do (prune_tx p req policy class).

(** [Erase]. *)
Definition erase_object_op (objectID : string) (at_ : Z) : WriteOp :=
  upsert "objects" [("id", VStr objectID)] [("erased", VBool true); ("updated_at", VInt at_); ("updated_tx", VStr TxIDPlaceholder)].
Definition erase_env (p : Principal) (class : Class_) (policy : RetentionPolicy) (req : ErasureRequest) (scope : string) (affected at_ : Z) : Envelope :=
  mkEnvelope KindErasure (p_Tenant p) (c_Name class) "" [er_ObjectID req] (principalAuthor p) at_
    (composeMessage (clip (if String.eqb (er_Message req) "" then "Erase personal data of " +:+ er_ObjectID req else er_Message req) MaxSummary)
       (composeMessage (er_Reason req)
          ("Key " +:+ scope +:+ " destroyed under policy " +:+ r_ID policy +:+ " (" +:+ r_Title policy +:+ "). " +:+ itoa affected
           +:+ " record versions are affected; their commitments and history are unchanged and still verify."))) [].
Definition erase_ops (policy : RetentionPolicy) (scope objectID : string) (head_ at_ : Z) : list WriteOp :=
  [destroy_op scope at_; erase_object_op objectID at_; prune_mark_op policy 0 objectID 1 head_ "erasure" at_].
Definition erase_tx (p : Principal) (req : ErasureRequest) (policy : RetentionPolicy) : M ErasureResult :=
  let objectID := er_ObjectID req in
  row ← objectRow (p_Tenant p) objectID;
  class ← lift (of_option (Class (pk r) (Str row "class")) (Errorf "this register no longer declares class %q" [Str row "class"]));
  _ ← guard_ (negb (String.eqb (c_Name class) (r_Class policy)))
        (Errorf "policy %s covers %s records, and %s is a %s" [r_ID policy; r_Class policy; objectID; c_Name class]);
  _ ← guard_ (negb (String.eqb (c_Encryption class) EncSubject))
        (Errorf "%s records do not have a key per subject, so erasing one would erase every record sharing its key" [c_Name class]);
  _ ← guard_ (Bool row "erased") (Errorf "%s has already been erased" [objectID]);
  let scope := dekScope (p_Tenant p) class objectID in
  key ← select_one "dek_keys" [is_ "scope" (VStr scope)];
  _ ← guard_ (match key with None => true | Some _ => false end) (Errorf "%s has no personal data to erase" [objectID]);
  affected ← count "record_versions" [is_ "enc_scope" (VStr scope)];
  at_ ← now;
  txn ← commit (erase_env p class policy req scope affected at_) (erase_ops policy scope objectID (Uint row "head_version") at_);
  _ ← Forget scope;
  mret (mkErasureResult objectID scope affected txn).
Definition Erase (p : Principal) (req : ErasureRequest) : M ErasureResult :=
  _ ← guard_ (negb (Can p PermErasure)) (Errorf "%s may not carry out erasures" [Acting p]);
  policy ← lift (of_option (Policy (pk r) (er_PolicyID req)) (Errorf "no retention policy %q" [er_PolicyID req]));
  _ ← guard_ (negb (r_Erasure policy)) (Errorf "policy %s does not permit erasure" [r_ID policy]);
  Do (erase_tx p req policy).

(** [Horizons]. *)
Definition eligible_join (policy : RetentionPolicy) (horizon : Z) : join :=
  mkJoin "record_versions" "objects" ("object_id", "id")
    [mkCond "created_at" OLt (VInt horizon); is_ "pruned" (VBool false)] [is_ "class" (VStr (r_Class policy))]
    [("version", OLt, "head_version")] [] None.
Definition policy_horizon (at_ : Z) (policy : RetentionPolicy) : M PruneHorizon :=
  let horizon := horizon_of at_ (r_WindowDays policy) in
  eligible ← query (SJoin (eligible_join policy horizon));
  pruned ← count "record_versions" [is_ "prune_policy" (VStr (r_ID policy))];
  mret (mkPruneHorizon (r_ID policy) (r_Title policy) (r_Class policy) (r_Scope policy) (r_WindowDays policy) horizon
          (Z.of_nat (length eligible)) pruned).
Definition Horizons (p : Principal) : M (list PruneHorizon) :=
  _ ← guard_ (negb (Can p PermRetention) && negb (Can p PermExplorer)) (Errorf "%s may not read the retention report" [Acting p]);
  Do (at_ ← now; traverse (policy_horizon at_) (pk_Retention (pk r))).
End retention.
