(* ===== verification/RetentionCorrect.v ===== *)
(** * Retention removes history, and only what has expired

    What a prune selects is spelt out from its statement, what it leaves
    of the versions follows row by row, and an erasure leaves the record,
    its versions and its hashes as they were, with the key gone. *)

From S2P Require Import Prelude GoStrings Float64 Encoding Canon Json SqlText Sql Rbac JsonSchema Pack Model World Concrete Commit Replay Byok GoJson Records RecordsCorrect Landing Workflow WorkflowCorrect Identities Retention.
Local Open Scope Z_scope.

(** ** Rows that are complete

    Every column of the layout holds a value of its type, as the rows
    inserted with all their columns do. *)
Definition full_row (t : string) (row : Row) : Prop :=
  forall c ty, column_type t c = Some ty -> has_type ty (cell row c).
Definition full_rows (t : string) (m : table) : Prop := forall k row, m !! k = Some row -> full_row t row.

Lemma full_text t row c n : full_row t row -> column_type t c = Some (CText n) -> exists s, cell row c = SStr s /\ Str row c = s.
Proof. intros F Hc. specialize (F _ _ Hc). unfold Str. destruct (cell row c); try done. by eexists. Qed.
Lemma full_int t row c b s :
  full_row t row -> column_type t c = Some (CInt b s) -> exists z, cell row c = SInt z /\ int_min b s <= z <= int_max b s.
Proof. intros F Hc. specialize (F _ _ Hc). destruct (cell row c); try done. by eexists. Qed.

Lemma cond_text_ne `{SqlEngine} row c x v : cell row c = SStr x -> cond_holds row (mkCond c ONe (VStr v)) = bool_decide (x <> v).
Proof.
  intros Hc. unfold cond_holds. cbn [c_op c_col c_val]. rewrite Hc. change (lit (VStr v)) with (SStr v). cbn [sql_compare].
  destruct (String.compare x v) eqn:E; cbn; symmetry.
  - apply String.compare_eq_iff in E as ->. apply bool_decide_eq_false. intros X. by apply X.
  - apply bool_decide_eq_true. intros ->. by rewrite string_compare_refl in E.
  - apply bool_decide_eq_true. intros ->. by rewrite string_compare_refl in E.
Qed.

Section joins.
Context `{Runtime}.

Lemma join_Ok j w l w' : query (SJoin j) w = (Ok l, w') ->
  w' = w /\ exists left right, visible w !! j_left j = Some left /\ visible w !! j_right j = Some right /\ l = join_rows j left right.
Proof.
  intros E. apply query_read in E as (-> & db & E); [|done]. split; [done|]. run_inv E. res_inv.
  by eexists _, _.
Qed.

(** The rows of a join: left rows with a partner, all of them when they
    fit the limit. *)
Definition partnered (j : join) (left right : table) (row : Row) : Prop :=
  row ∈ rows left /\ exists b, b ∈ rows right /\ joins j row b = true.

Lemma join_rows_elem j left right row : row ∈ join_rows j left right -> partnered j left right row.
Proof.
  unfold join_rows. intros Hin.
  set (l := sql_scan _) in Hin.
  assert (row ∈ l) as Hl.
  { assert (row ∈ match j_orders j with [] => l | os => merge_sort (orders_le os) l end) as Hin'.
    { destruct (j_limit j); [by apply (subseteq_take n) in Hin|done]. }
    destruct (j_orders j); [done|]. by rewrite merge_sort_Permutation in Hin'. }
  subst l. rewrite sql_scan_perm in Hl. apply list_elem_of_bind in Hl as (a & Hin2 & Ha).
  apply list_elem_of_fmap in Hin2 as (b & -> & Hb). apply list_elem_of_filter in Hb as [Hj Hb]. split; [done|]. by exists b.
Qed.

Lemma join_rows_all j left right n row :
  j_limit j = Some n -> (length (join_rows j left right) < n)%nat -> partnered j left right row -> row ∈ join_rows j left right.
Proof.
  unfold join_rows. intros ->. set (l := sql_scan _). set (l2 := match j_orders j with [] => l | os => merge_sort (orders_le os) l end).
  intros Hlen (Hin & b & Hb & Hj). rewrite length_take in Hlen.
  rewrite take_ge by lia. assert (l2 ≡ₚ l) as -> by (subst l2; destruct (j_orders j); [done|apply merge_sort_Permutation]).
  subst l. rewrite sql_scan_perm. apply list_elem_of_bind. exists row. split; [|done].
  apply list_elem_of_fmap. exists b. split; [done|]. by apply list_elem_of_filter.
Qed.

Lemma join_rows_length j left right n : j_limit j = Some n -> (length (join_rows j left right) <= n)%nat.
Proof. unfold join_rows. intros ->. rewrite length_take. lia. Qed.
End joins.

(** ** What a prune selects *)

(** A version past its window, of an object of the class and the tenant
    that has gone on since; for a policy about personal data, one that
    has some. *)
Record expired (horizon : Z) (policy : RetentionPolicy) (class : Class_) (tenant objectID : string) (row obj : Row) : Prop := {
  ex_object : Str obj "id" = Str row "object_id";
  ex_class : Str obj "class" = c_Name class;
  ex_tenant : Str obj "tenant" = tenant;
  ex_asked : objectID = "" \/ Str obj "id" = objectID;
  ex_window : Int row "created_at" < horizon;
  ex_unpruned : Bool row "pruned" = false;
  ex_history : Uint row "version" < Uint obj "head_version";
  ex_personal : r_Scope policy = ScopePII -> Str row "enc_scope" <> "";
}.

Lemma int_reads row c z : cell row c = SInt z -> - 2 ^ 63 <= z < 2 ^ 63 -> Int row c = z.
Proof. intros Hc Hz. unfold Int. rewrite Hc. cbn [AsInt]. unfold to_int64. rewrite Z.mod_small; lia. Qed.

Section selection.
Context `{Runtime} `{GoFormats}.

Lemma joins_expired horizon policy class tenant objectID row obj :
  full_row "record_versions" row -> full_row "objects" obj ->
  joins (prune_join tenant class policy objectID horizon) row obj = true <-> expired horizon policy class tenant objectID row obj.
Proof.
  intros Fr Fo.
  destruct (full_text _ _ "object_id" 96 Fr eq_refl) as (oid & C1 & S1), (full_text _ _ "enc_scope" 191 Fr eq_refl) as (es & C2 & S2).
  destruct (full_int _ _ "created_at" 64 true Fr eq_refl) as (ca & C3 & B3), (full_int _ _ "pruned" 8 true Fr eq_refl) as (pr & C4 & B4).
  destruct (full_int _ _ "version" 64 false Fr eq_refl) as (ve & C5 & B5), (full_int _ _ "head_version" 64 false Fo eq_refl) as (hv & D1 & E1).
  destruct (full_text _ _ "id" 96 Fo eq_refl) as (id & D2 & T2), (full_text _ _ "class" 64 Fo eq_refl) as (cl & D3 & T3).
  destruct (full_text _ _ "tenant" 64 Fo eq_refl) as (te & D4 & T4).
  unfold int_min, int_max in *.
  assert (Int row "created_at" = ca) as I3 by (apply int_reads; [done|lia]).
  assert (Bool row "pruned" = negb (pr =? 0)) as I4.
  { unfold Bool. change (AsInt (cell row "pruned")) with (Int row "pruned"). rewrite (int_reads row "pruned" pr); [done|done|lia]. }
  assert (Uint row "version" = ve /\ Uint obj "head_version" = hv) as [I5 I6].
  { unfold Uint. rewrite C5, D1. destruct (Z.ltb_spec ve 0), (Z.ltb_spec hv 0); lia. }
  assert (cond_holds row (mkCond "created_at" OLt (VInt horizon)) = (ca <? horizon)) as H3.
  { unfold cond_holds. cbn [c_op c_col c_val]. rewrite C3. unfold Z.ltb. cbn. by destruct (ca ?= horizon). }
  assert (cond_holds row (is_ "pruned" (VBool false)) = (pr =? 0)) as H4.
  { unfold cond_holds. cbn [is_ c_op c_col c_val]. rewrite C4. cbn. destruct (Z.compare_spec pr 0), (Z.eqb_spec pr 0); try done; lia. }
  assert (joins (prune_join tenant class policy objectID horizon) row obj =
    (bool_decide (id = oid) && ((ca <? horizon) && ((pr =? 0) && (if String.eqb (r_Scope policy) ScopePII then bool_decide (es <> "") else true)))
     && (bool_decide (cl = c_Name class) && (bool_decide (te = tenant) && (if String.eqb objectID "" then true else bool_decide (id = objectID))))
     && (ve <? hv))) as ->.
  { unfold joins, prune_join, expired_version, pruned_object. cbn [j_on j_left_where j_right_where j_cross fst snd].
    rewrite D2, C1. cbn [sql_compare]. rewrite string_compare_eqb.
    assert (bool_decide (SStr id = SStr oid) = bool_decide (id = oid)) as -> by (apply bool_decide_ext; split; [by intros [= ->]|by intros ->]).
    unfold matches. rewrite !forallb_app. cbn [forallb fst snd]. rewrite H3, H4, (cond_text _ _ _ _ D3), (cond_text _ _ _ _ D4), C5, D1.
    assert (cmp_holds OLt (sql_compare (SInt ve) (SInt hv)) = (ve <? hv)) as -> by (cbn; unfold Z.ltb; by destruct (ve ?= hv)).
    destruct (String.eqb (r_Scope policy) ScopePII), (String.eqb objectID ""); cbn [forallb]; rewrite ?(cond_text_ne _ _ _ _ C2), ?(cond_text _ _ _ _ D2);
      rewrite ?andb_true_r, ?andb_assoc; done. }
  rewrite !andb_true_iff, !bool_decide_eq_true, !Z.ltb_lt, Z.eqb_eq. split.
  - intros [[(X1 & X2 & X3 & X4) (X5 & X6 & X7)] X8]. split; rewrite ?S1, ?S2, ?I3, ?I4, ?I5, ?I6, ?T2, ?T3, ?T4; try done.
    + destruct (String.eqb_spec objectID ""); [by left|right]. by apply bool_decide_eq_true in X7.
    + by rewrite X3.
    + intros Hs. rewrite Hs, String.eqb_refl in X4. by apply bool_decide_eq_true in X4.
  - intros [X1 X2 X3 X4 X5 X6 X7 X8]. rewrite S1, T2 in X1. rewrite T3 in X2. rewrite T4 in X3. rewrite T2 in X4.
    rewrite I3 in X5. rewrite I4 in X6. rewrite I5, I6 in X7. rewrite S2 in X8. apply negb_false_iff, Z.eqb_eq in X6. split_and!; try done.
    + destruct (String.eqb_spec (r_Scope policy) ScopePII); [by apply bool_decide_eq_true, X8|done].
    + destruct (String.eqb_spec objectID ""); [done|]. apply bool_decide_eq_true. by destruct X4.
Qed.
End selection.

(** ** What a prune leaves *)

(** A version with its content gone: everything else is as it was. *)
Definition emptied (policy : RetentionPolicy) (row row' : Row) : Prop :=
  (forall c, c <> "payload" -> c <> "pruned" -> c <> "prune_policy" -> row' !! c = row !! c) /\
  cell row' "payload" = SStr "" /\ Bool row' "pruned" = true /\
  (r_ID policy <> TxIDPlaceholder -> Str row' "prune_policy" = r_ID policy).

Section pruning.
Context `{Runtime} `{GoFormats}.

Lemma emptied_trans policy a b c : emptied policy a b -> emptied policy b c -> emptied policy a c.
Proof. intros (K1 & _) (K2 & P2). split; [|done]. intros x H1 H2 H3. by rewrite K2, K1. Qed.

Lemma prune_effect txid policy oid v row row' :
  convertible txid (prune_version_op policy oid v) -> row_effect txid (prune_version_op policy oid v) (Some row) = Some row' ->
  emptied policy row row'.
Proof.
  intros Hc He. split_and!.
  - intros c H1 H2 H3. apply (effect_keeps _ _ _ _ c He). cbn.
    by rewrite !(proj2 (String.eqb_neq _ _)) by congruence.
  - by rewrite (effect_cell _ _ _ _ "payload" (VBinary "") (CBytes 16777215) Hc eq_refl He) by done.
  - unfold Bool. by rewrite (effect_cell _ _ _ _ "pruned" (VBool true) (CInt 8 true) Hc eq_refl He) by done.
  - intros Hp. unfold Str. rewrite (effect_cell _ _ _ _ "prune_policy" (VStr (r_ID policy)) (CText 64) Hc eq_refl He); try done;
      by rewrite substitute_plain.
Qed.

(** Where a selected version is filed. *)
Definition version_key (row : Row) : list sqlval := [SStr (Str row "object_id"); SInt (Uint row "version")].

Lemma prune_key txid policy oid v : oid <> TxIDPlaceholder -> op_key txid (prune_version_op policy oid v) = [SStr oid; SInt v].
Proof. intros Ho. unfold op_key. cbn. by destruct (String.eqb_spec oid TxIDPlaceholder). Qed.

Lemma filed_version m k row : wf_table "record_versions" m -> m !! k = Some row -> k = version_key row.
Proof.
  intros W Hk. destruct (W _ _ Hk) as [-> Hw]. unfold version_key, pk_of. cbn.
  apply Forall_cons in Hw as [(ty1 & T1 & H1) Hw]. apply Forall_cons in Hw as [(ty2 & T2 & H2) _].
  injection T1 as <-. injection T2 as <-. unfold Str, Uint.
  destruct (cell row "object_id"); try done. destruct (cell row "version") as [| |z|]; try done.
  unfold has_type, int_min, int_max in H2. destruct (Z.ltb_spec z 0); [lia|done].
Qed.

(** The entries of a prune, one by one. *)
Lemma prune_ops_elem policy at_ l op : op ∈ prune_ops policy at_ l ->
  exists i row, row ∈ l /\ (op = prune_version_op policy (Str row "object_id") (Uint row "version") \/
    op = prune_mark_op policy (Z.of_nat i) (Str row "object_id") (Uint row "version") (Uint row "version") "retention" at_).
Proof.
  unfold prune_ops. rewrite list_elem_of_In, in_concat. intros (ops & Hops & Hin). rewrite <- !list_elem_of_In in *.
  apply elem_of_lookup_imap in Hops as (i & row & -> & Hrow). exists i, row. split; [by eapply list_elem_of_lookup_2|].
  unfold prune_ops_of in Hin. rewrite !elem_of_cons in Hin. destruct Hin as [?|[?|Hin]]; [by left|by right|by apply elem_of_nil in Hin].
Qed.

Lemma prune_ops_has policy at_ l row :
  row ∈ l -> prune_version_op policy (Str row "object_id") (Uint row "version") ∈ prune_ops policy at_ l.
Proof.
  intros [i Hi]%list_elem_of_lookup_1. unfold prune_ops. rewrite list_elem_of_In, in_concat.
  exists (prune_ops_of policy at_ i row). rewrite <- !list_elem_of_In. split; [|apply list_elem_of_here].
  apply elem_of_lookup_imap. by exists i, row.
Qed.

Lemma prune_ops_wf policy at_ l : ops_wf (prune_ops policy at_ l).
Proof.
  intros txid. apply Forall_forall. intros op (i & row & _ & [->| ->])%prune_ops_elem; built.
Qed.

(** Row by row: emptied when its version was selected, else alone. *)
Lemma pruned_row txid policy at_ l k row :
  Forall (fun row => Str row "object_id" <> TxIDPlaceholder) l ->
  Forall (convertible txid) (prune_ops policy at_ l) ->
  (k ∉ version_key <$> l -> forall o, row_effects txid (prune_ops policy at_ l) "record_versions" k o = o) /\
  (k ∈ version_key <$> l -> exists row', row_effects txid (prune_ops policy at_ l) "record_versions" k (Some row) = Some row' /\ emptied policy row row').
Proof.
  intros Hp Hconv. rewrite Forall_forall in Hp. split.
  - intros Hk o. apply row_effects_miss. apply Forall_forall. intros op (i & x & Hx & [->| ->])%prune_ops_elem; [|done].
    intros _. rewrite prune_key by by apply Hp. intros <-. apply Hk. apply list_elem_of_fmap. by exists x.
  - intros (x & -> & Hx)%list_elem_of_fmap. apply (row_effects_hit (emptied policy)); [apply emptied_trans| |].
    + apply Forall_forall. intros op Hop. rewrite Forall_forall in Hconv. specialize (Hconv _ Hop).
      apply prune_ops_elem in Hop as (i & y & _ & [->| ->]); [|done]. intros _ _ row0.
      destruct (row_effect txid _ (Some row0)) as [row1|] eqn:He; [|done]. exists row1. split; [done|]. by eapply prune_effect.
    + apply Exists_exists. eexists. split; [by apply prune_ops_has|]. split; [done|]. apply prune_key. by apply Hp.
Qed.

(** What a prune selects. *)
Lemma pruned_selection horizon policy class tenant objectID versions objects l :
  full_rows "record_versions" versions -> full_rows "objects" objects ->
  l = join_rows (prune_join tenant class policy objectID horizon) versions objects ->
  let gone row := exists k obj, objects !! k = Some obj /\ expired horizon policy class tenant objectID row obj in
  Forall (fun row => row ∈ rows versions /\ gone row) l /\
  ((length l < 5000)%nat -> forall row, row ∈ rows versions -> gone row -> row ∈ l).
Proof.
  intros Fv Fo Hl gone.
  assert (forall row, partnered (prune_join tenant class policy objectID horizon) versions objects row <->
    row ∈ rows versions /\ gone row) as Hpart.
  { intros row. unfold partnered, gone. split.
    - intros (Hin & b & Hb & Hj). split; [done|]. apply rows_elem in Hin as [k Hrow], Hb as [k' Hb].
      exists k', b. split; [done|]. apply joins_expired; [by eapply Fv|by eapply Fo|done].
    - intros (Hin & k' & b & Hb & Hx). split; [done|]. exists b. split; [apply rows_elem; by exists k'|].
      apply rows_elem in Hin as [k Hrow]. apply joins_expired; [by eapply Fv|by eapply Fo|done]. }
  split.
  - apply Forall_forall. intros row Hin. apply Hpart, join_rows_elem. by rewrite <- Hl.
  - intros Hlt row Hin Hg. rewrite Hl. apply (join_rows_all _ _ _ 5000); [done|by rewrite <- Hl|by apply Hpart].
Qed.

(** The table a prune leaves. *)
Lemma pruned_table (policy : RetentionPolicy) (at_ : Z) (versions versions' : table) (l : list Row) (txid : string) :
  wf_table "record_versions" versions -> (forall k row, versions !! k = Some row -> Str row "object_id" <> TxIDPlaceholder) ->
  Forall (fun row => row ∈ rows versions) l -> Forall (convertible txid) (prune_ops policy at_ l) ->
  (forall k, versions' !! k = row_effects txid (prune_ops policy at_ l) "record_versions" k (versions !! k)) ->
  (forall k, versions !! k = None -> versions' !! k = None) /\
  (forall k row, versions !! k = Some row ->
     exists row', versions' !! k = Some row' /\ (row' = row /\ row ∉ l \/ row ∈ l /\ emptied policy row row')).
Proof.
  intros Wv Hp Hsel Hconv Hk. rewrite Forall_forall in Hsel.
  assert (Forall (fun row => Str row "object_id" <> TxIDPlaceholder) l) as Hpl.
  { apply Forall_forall. intros row Hin%Hsel. apply rows_elem in Hin as [k Hrow]. by eapply Hp. }
  assert (forall k row, versions !! k = Some row -> k ∈ version_key <$> l <-> row ∈ l) as Hkey.
  { intros k row Hrow. rewrite list_elem_of_fmap. split; [|intros Hin; exists row; split; [by eapply filed_version|done]].
    intros (x & -> & Hx). pose proof (Hsel x Hx) as Hin. apply rows_elem in Hin as [k' Hx'].
    pose proof (filed_version _ _ _ Wv Hx') as ->. congruence. }
  split.
  - intros k Hnone. rewrite Hk, Hnone. apply (proj1 (pruned_row txid policy at_ l k ∅ Hpl Hconv)).
    intros (x & -> & Hx)%list_elem_of_fmap. pose proof (Hsel x Hx) as Hin. apply rows_elem in Hin as [k' Hx'].
    pose proof (filed_version _ _ _ Wv Hx') as ->. congruence.
  - intros k row Hrow. rewrite Hk, Hrow. destruct (pruned_row txid policy at_ l k row Hpl Hconv) as [H1 H2].
    destruct (base.decide (row ∈ l)) as [Hin|Hout].
    + destruct H2 as (row' & -> & He); [by apply (Hkey k row)|]. exists row'. split; [done|]. by right.
    + exists row. split; [apply H1; by rewrite (Hkey k row)|]. by left.
Qed.
End pruning.

(** Collecting the ledger's history moves nothing the ledger stands at. *)
Lemma collected ledger_prune collect t w n w' : collect_history ledger_prune collect t w = (Ok n, w') -> same_ledger w w'.
Proof.
  unfold collect_history. destruct collect; [|by intros [_ ->]%M_ret_inv].
  intros E. apply M_bind_Ok in E as (db & w4 & [= _ <-] & E). apply M_bind_Ok in E as (d & w5 & Ew & E).
  apply wrapping_Ok, lift_Ok in Ew as [_ ->]. apply M_bind_Ok in E as (u & w6 & [= _ <-] & E). by apply M_ret_inv in E as [_ ->].
Qed.

(** C18. A prune removes history, and only what has expired. It is for those
    who may run retention, under a policy and a class the pack declares,
    and reaches back from the time the clock reads by the policy's window.
    What it selects are at most five thousand versions that have expired:
    past the window, not the one their object stands at, and of an object
    of the class and tenant asked for; it selects every one of them when
    they are fewer than five thousand, and reports how many. A dry run
    changes nothing, nor does a prune that selects nothing, of which there
    is then nothing to remove. Any other is one ledger version, in which
    every version is left exactly as it was, or has expired and has its
    content emptied and nothing else changed, and no expired version is
    left below the bound; the objects stay as they are. The one exception
    is a prune whose very transaction, these entries at this time, is in
    the log already: then nothing changes. *)
Theorem prune_removes_expired `{Runtime} `{GoFormats} (r : Register) (ledger_prune : tables -> Z -> res Z) (p : Principal)
    (req : PruneRequest) (w w' : world) (result : PruneResult) (versions objects : table) :
  commit_moves_one -> store_wf w -> txn w = None ->
  committed w !! "record_versions" = Some versions -> committed w !! "objects" = Some objects ->
  full_rows "record_versions" versions -> full_rows "objects" objects ->
  (forall k row, versions !! k = Some row -> Str row "object_id" <> TxIDPlaceholder) ->
  Prune r ledger_prune p req w = (Ok result, w') ->
  Can p PermRetention = true /\
  exists policy class, Policy (pk r) (pr_PolicyID req) = Some policy /\ Class (pk r) (r_Class policy) = Some class /\
    ps_Horizon result = horizon_of (clock (tick w)) (r_WindowDays policy) /\ ps_DryRun result = pr_DryRun req /\
    let gone row := exists k obj, objects !! k = Some obj /\
      expired (ps_Horizon result) policy class (p_Tenant p) (pr_ObjectID req) row obj in
    exists l, ps_Versions result = Z.of_nat (length l) /\ (length l <= 5000)%nat /\
      Forall (fun row => row ∈ rows versions /\ gone row) l /\
      ((length l < 5000)%nat -> forall row, row ∈ rows versions -> gone row -> row ∈ l) /\
      if pr_DryRun req || bool_decide (l = []) then same_ledger w w' /\ ps_Transaction result = None
      else
        (exists env, repeated env (prune_ops policy (clock (tick w)) l) w w') \/
        version w' = to_uint64 (version w + 1) /\ committed w' !! "objects" = Some objects /\
        exists versions', committed w' !! "record_versions" = Some versions' /\
          (forall k, versions !! k = None -> versions' !! k = None) /\
          (forall k row, versions !! k = Some row ->
             exists row', versions' !! k = Some row' /\
               (row' = row /\ ((length l < 5000)%nat -> ~ gone row) \/ row ∈ l /\ emptied policy row row')).
Proof.
  intros Hone W Ht Hv Ho Fv Fo Hp E. unfold Prune in E.
  apply M_bind_Ok in E as (u & w1 & Eg & E). apply guard_Ok in Eg as [Hcan ->]. apply negb_false_iff in Hcan.
  apply M_bind_Ok in E as (policy & w1 & El & E). apply lift_Ok in El as [Hpol ->]. apply of_option_Ok in Hpol.
  apply M_bind_Ok in E as (class & w1 & El & E). apply lift_Ok in El as [Hcl ->]. apply of_option_Ok in Hcl.
  apply Do_inv in E as (w1 & E & ->). split; [done|]. exists policy, class. do 2 (split; [done|]).
  unfold prune_tx in E. apply M_bind_Ok in E as (at_ & wn & En & E). pose proof (ro_now _ _ _ En) as Hs. injection En as <- <-.
  apply M_bind_Ok in E as (l & wl & Eq & E). apply join_Ok in Eq as (-> & left & right & Hl & Hr & Hlist).
  pose proof Hs as (Hc & Hver & _ & Htn & _). rewrite visible_closed, Hc in Hl, Hr by congruence.
  cbn [j_left j_right prune_join] in Hl, Hr. rewrite Hv in Hl. rewrite Ho in Hr. injection Hl as <-. injection Hr as <-.
  destruct (pruned_selection _ _ _ _ _ _ _ _ Fv Fo Hlist) as [Hsel Hall].
  pose proof (join_rows_length (prune_join (p_Tenant p) class policy (pr_ObjectID req) (horizon_of (clock (tick w)) (r_WindowDays policy)))
    versions objects 5000 eq_refl) as Hlen. rewrite <- Hlist in Hlen. cbv zeta in E.
  assert ((Z.of_nat (length l) =? 0) = bool_decide (l = [])) as Hz by (destruct l; [done|symmetry; by apply bool_decide_eq_false_2]).
  rewrite Hz in E. destruct (pr_DryRun req || bool_decide (l = [])) eqn:Hd.
  { apply M_ret_inv in E as [[= ->] ->]. do 2 (split; [done|]). exists l. do 4 (split; [done|]). rewrite Hd. split; [|done].
    etrans; [by apply same_db_ledger|apply set_txn_ledger]. }
  apply M_bind_Ok in E as (t & w2 & Ec & E). apply M_bind_Ok in E as (n & w3 & Eh & E).
  apply M_ret_inv in E as [[= ->] ->]. do 2 (split; [done|]). exists l. do 4 (split; [done|]). rewrite Hd.
  apply collected in Eh as H23.
  apply (commit_lands _ _ w) in Ec as [Hsame|L]; try done; [left; eexists; eapply repeated_then; [exact Hsame|]; etrans; [exact H23|apply set_txn_ledger]
    |right|apply prune_ops_wf].
  pose proof H23 as (Hc3 & Hv3 & _). cbn [version committed set_txn]. rewrite Hc3, Hv3, (landed_version _ _ _ _ _ L), Hver. split; [done|].
  split.
  { rewrite (landed_other _ _ _ _ _ "objects" L); [by rewrite Hc|done|done|].
    apply Forall_forall. by intros op (i & row & _ & [->| ->])%prune_ops_elem. }
  destruct (landed_row _ _ _ _ _ "record_versions" versions L) as (versions' & Hv' & Hk); [done|done|by rewrite Hc|].
  exists versions'. split; [done|].
  destruct (pruned_table policy (clock (tick w)) versions versions' l (tx_TxID t)) as [H1 H2]; try done.
  - exact (proj1 W _ _ Hv).
  - eapply Forall_impl; [exact Hsel|]. by intros row [? _].
  - destruct L as (_ & _ & _ & _ & _ & rr & _ & _ & _ & _ & _ & Hconv). exact Hconv.
  - split; [done|]. intros k row Hrow. destruct (H2 k row Hrow) as (row' & Hr' & [[-> Hout]|?]); [|by exists row'; split; [|right]].
    exists row. split; [done|]. left. split; [done|]. intros Hlt Hg. apply Hout, Hall; [done| |done]. apply rows_elem. by exists k.
Qed.

(** ** Erasure *)
Section erasing.
Context `{Runtime} `{GoFormats}.
Variable r : Register.

Lemma objectRow_inv tenant id w row w' :
  wf_db (visible w) -> objectRow tenant id w = (Ok row, w') ->
  w' = w /\ exists m, visible w !! "objects" = Some m /\ m !! [SStr id] = Some row /\ matches [is_ "tenant" (VStr tenant)] row = true.
Proof.
  intros W E. unfold objectRow in E. apply M_bind_Ok in E as (o & w1 & Es & E).
  change [is_ "id" (VStr id); is_ "tenant" (VStr tenant)] with (key_where "objects" [VStr id] ++ [is_ "tenant" (VStr tenant)]) in Es.
  apply select_one_key_and in Es as (-> & m & Hm & ->); [|done|one_key]. apply lift_Ok in E as [E ->]. apply of_option_Ok in E.
  split; [done|]. exists m. split; [done|]. change (lit <$> [VStr id]) with [SStr id] in E.
  destruct (m !! [SStr id]) as [x|]; [|done]. destruct (matches _ x) eqn:Hx; [|done]. by injection E as ->.
Qed.

Lemma erase_ops_wf policy scope id head_ at_ : ops_wf (erase_ops policy scope id head_ at_).
Proof.
  intros txid. unfold erase_ops. apply Forall_cons_2; [apply destroy_op_wf|]. apply Forall_cons_2; [built|]. apply Forall_cons_2; [built|apply Forall_nil_2].
Qed.

Lemma subject_scope_plain tenant class id :
  c_Encryption class = EncSubject -> dekScope tenant class id = tenant +:+ "/subject/" +:+ id /\ dekScope tenant class id <> TxIDPlaceholder.
Proof.
  intros Hc. assert (dekScope tenant class id = tenant +:+ "/subject/" +:+ id) as -> by (unfold dekScope; by rewrite Hc).
  split; [done|]. intros E. apply (f_equal String.length) in E. rewrite !string_length_app in E. cbn in E. lia.
Qed.

(** An object's row, marked erased. *)
Definition marked_erased (row row' : Row) : Prop :=
  Bool row' "erased" = true /\ forall c, c <> "erased" -> c <> "updated_at" -> c <> "updated_tx" -> row' !! c = row !! c.

Lemma erased_effect txid id at_ row row' :
  convertible txid (erase_object_op id at_) -> row_effect txid (erase_object_op id at_) (Some row) = Some row' -> marked_erased row row'.
Proof.
  intros Hc He. split.
  - unfold Bool. by rewrite (effect_cell _ _ _ _ "erased" (VBool true) (CInt 8 true) Hc eq_refl He) by done.
  - intros c H1 H2 H3. apply (effect_keeps _ _ _ _ c He). cbn. by rewrite !(proj2 (String.eqb_neq _ _)) by congruence.
Qed.

(** What a landed erasure leaves. *)
Lemma erasure_landed env policy scope id head_ at_ wa wb t objects row :
  scope <> TxIDPlaceholder -> id <> TxIDPlaceholder -> is_Some (committed wa !! "dek_keys") ->
  committed wa !! "objects" = Some objects -> objects !! [SStr id] = Some row ->
  landed env (erase_ops policy scope id head_ at_) wa wb t ->
  committed wb !! "record_versions" = committed wa !! "record_versions" /\
  (exists objects' row', committed wb !! "objects" = Some objects' /\ objects' !! [SStr id] = Some row' /\ marked_erased row row') /\
  exists key', key_row (committed wb) scope key' /\ Int key' "destroyed_at" = at_ /\ cell key' "op_wrap" = SStr "" /\ cell key' "rec_wrap" = SStr "".
Proof.
  intros Hs Hi Hk Ho Hrow L. split; [|split].
  - apply (landed_other _ _ _ _ _ "record_versions" L); [done|done|]. repeat (apply Forall_cons_2; [done|]). apply Forall_nil_2.
  - destruct (landed_entry _ [destroy_op scope at_] (erase_object_op id at_) [prune_mark_op policy 0 id 1 head_ "erasure" at_] _ _ _ objects L)
      as (m' & Hm' & Hc & Hr); [done|done|done|by apply Forall_singleton|].
    assert (op_key (tx_TxID t) (erase_object_op id at_) = [SStr id]) as Hok.
    { unfold op_key. cbn. by destruct (String.eqb_spec id TxIDPlaceholder). }
    rewrite Hok, row_effects_other in Hr by (by apply Forall_singleton). rewrite Hrow in Hr.
    destruct (row_effect (tx_TxID t) (erase_object_op id at_) (Some row)) as [row'|] eqn:He; [|done].
    exists m', row'. split; [done|]. split; [done|]. by eapply erased_effect.
  - eapply (destroyed_marked _ [] scope at_ [erase_object_op id at_; prune_mark_op policy 0 id 1 head_ "erasure" at_]); [done|done| |exact L].
    repeat (apply Forall_cons_2; [done|]). apply Forall_nil_2.
Qed.

(** A version sealed under a destroyed key gives its clear half alone. *)
Lemma readVersion_dead p class row w key stored enc :
  answers_reads (visible w) -> wf_db (visible w) -> key_row (visible w) (Str row "enc_scope") key -> Int key "destroyed_at" <> 0 ->
  Bool row "pruned" = false -> decode_stored (Bytes row "payload") = Ok stored -> sp_Enc stored = Some enc ->
  readVersion r p class row w =
    (Ok (with_payload (version_of_row row) (sp_Clear stored) (PIIFields (Compiled class)) (negb (not_cleared p))), w).
Proof.
  intros A W K Hd Hp Hst Henc. unfold readVersion. change (rv_Pruned (version_of_row row)) with (Bool row "pruned"). rewrite Hp.
  unfold wrapping, lift, mbind, M_bind. rewrite Hst, Henc. destruct (not_cleared p); [done|].
  change (rv_EncScope (version_of_row row)) with (Str row "enc_scope"). by rewrite (live_key_dead _ _ key).
Qed.
End erasing.

(** C19. Erasure takes the key and leaves the rest. It needs the permission, a
    policy that permits it and covers the record's class, a class with a
    key per subject, and a record of the tenant that is not erased yet and
    has a key. It is one ledger version that empties both wraps of the
    subject's key, marks it destroyed and drops it from the keyring, and
    marks the record erased; every version of every record stays as it was,
    its hash among it. The one exception is an erasure whose very
    transaction, these entries at the time the clock read, is in the log
    already: then nothing changes. From then on, however many transactions
    follow, as long as none makes the key again, no reader, however cleared,
    is given more of a version sealed for the subject than its clear half. *)
Theorem erasure_takes_the_key `{Runtime} `{GoFormats} (r : Register) (p : Principal) (req : ErasureRequest)
    (w w' : world) (result : ErasureResult) :
  commit_moves_one -> store_wf w -> txn w = None -> (forall n, 0 < clock n) -> er_ObjectID req <> TxIDPlaceholder ->
  Erase r p req w = (Ok result, w') ->
  Can p PermErasure = true /\
  exists policy class objects row, Policy (pk r) (er_PolicyID req) = Some policy /\ r_Erasure policy = true /\
    Class (pk r) (Str row "class") = Some class /\ c_Name class = r_Class policy /\ c_Encryption class = EncSubject /\
    committed w !! "objects" = Some objects /\ objects !! [SStr (er_ObjectID req)] = Some row /\
    matches [is_ "tenant" (VStr (p_Tenant p))] row = true /\ Bool row "erased" = false /\
    es_Scope result = p_Tenant p +:+ "/subject/" +:+ er_ObjectID req /\
    (exists key, key_row (committed w) (es_Scope result) key) /\
    let at_ := clock (tick w) in
    ((exists n, repeated (erase_env p class policy req (es_Scope result) n at_)
        (erase_ops policy (es_Scope result) (er_ObjectID req) (Uint row "head_version") at_) w w') \/
     version w' = to_uint64 (version w + 1) /\ cache w' !! es_Scope result = None /\
     committed w' !! "record_versions" = committed w !! "record_versions" /\
     (exists objects' row', committed w' !! "objects" = Some objects' /\ objects' !! [SStr (er_ObjectID req)] = Some row' /\ marked_erased row row') /\
     key_destroyed (committed w') (es_Scope result) /\
     forall w2, followed (spares_key (es_Scope result)) w' w2 -> store_wf w2 -> txn w2 = None -> answers_reads (visible w2) ->
       forall reader version_row stored enc, Str version_row "enc_scope" = es_Scope result -> Bool version_row "pruned" = false ->
         decode_stored (Bytes version_row "payload") = Ok stored -> sp_Enc stored = Some enc ->
         readVersion r reader class version_row w2 =
           (Ok (with_payload (version_of_row version_row) (sp_Clear stored) (PIIFields (Compiled class)) (negb (not_cleared reader))), w2)).
Proof.
  intros Hone W Ht Hclock Hid E. unfold Erase in E.
  apply M_bind_Ok in E as (u & w1 & Eg & E). apply guard_Ok in Eg as [Hcan ->]. apply negb_false_iff in Hcan.
  apply M_bind_Ok in E as (policy & w1 & El & E). apply lift_Ok in El as [Hpol ->]. apply of_option_Ok in Hpol.
  apply M_bind_Ok in E as (u2 & w1 & Eg & E). apply guard_Ok in Eg as [Her ->]. apply negb_false_iff in Her.
  apply Do_inv in E as (w1 & E & ->). split; [done|]. unfold erase_tx in E. pose proof (visible_closed w Ht) as Hv.
  apply M_bind_Ok in E as (row & wa & Eo & E). apply objectRow_inv in Eo as (-> & objects & Ho & Hrow & Htn); [|by apply store_wf_visible].
  apply M_bind_Ok in E as (class & wa & El & E). apply lift_Ok in El as [Hcl ->]. apply of_option_Ok in Hcl.
  apply M_bind_Ok in E as (u3 & wa & Eg & E). apply guard_Ok in Eg as [Hpc ->]. apply negb_false_iff, String.eqb_eq in Hpc.
  apply M_bind_Ok in E as (u4 & wa & Eg & E). apply guard_Ok in Eg as [Hen ->]. apply negb_false_iff, String.eqb_eq in Hen.
  apply M_bind_Ok in E as (u5 & wa & Eg & E). apply guard_Ok in Eg as [Hne ->].
  destruct (subject_scope_plain (p_Tenant p) class (er_ObjectID req) Hen) as [Hsc Hplain].
  apply M_bind_Ok in E as (key & wa & Ek & E). apply select_scope in Ek as (-> & keys & Hkeys & ->); [|by apply store_wf_visible].
  apply M_bind_Ok in E as (u6 & wa & Eg & E). apply guard_Ok in Eg as [Hkey ->].
  apply M_bind_Ok in E as (n & wa & Ec & E). apply count_Ok in Ec as (-> & _).
  apply M_bind_Ok in E as (at_ & wn & En & E). pose proof (ro_now _ _ _ En) as Hs. injection En as <- <-.
  apply M_bind_Ok in E as (t & wc & Ec & E). apply M_bind_Ok in E as (u7 & wd & Ef & E). apply M_ret_inv in E as [[= ->] ->].
  injection Ef as _ <-. rewrite Hv in *. exists policy, class, objects, row. do 9 (split; [done|]). split; [done|]. cbn [es_Scope].
  change (lit <$> [VStr (dekScope (p_Tenant p) class (er_ObjectID req))]) with [SStr (dekScope (p_Tenant p) class (er_ObjectID req))] in Hkey.
  split; [destruct (keys !! _) as [key|] eqn:Hk0; [by exists key, keys|done]|]. clear Hkey. cbv zeta.
  pose proof (proj1 (keeps_commit _ _ _ _ _ (store_wf_same _ _ Hs W) Ec)) as Wc.
  apply (commit_lands _ _ w) in Ec as [Hsame|L]; try done; [left; eexists; eapply repeated_then; [exact Hsame|done]|right|apply erase_ops_wf].
  destruct (erasure_landed _ _ _ _ _ _ _ _ _ objects row Hplain Hid ltac:(by exists keys) Ho Hrow L) as (Hrv & Hobj & key' & Hk & Hd & Hop & Hrec).
  split; [exact (landed_version _ _ _ _ _ L)|]. split; [cbn; by rewrite lookup_delete_eq|]. split; [exact Hrv|]. split; [exact Hobj|].
  assert (key_destroyed (committed wc) (dekScope (p_Tenant p) class (er_ObjectID req))) as Hdead.
  { exists key'. split; [done|]. split; [|done]. pose proof (Hclock (tick w)). lia. }
  split; [exact Hdead|]. intros w2 Hf W2 Ht2 A reader vrow stored enc Hscope Hp Hst Henc. pose proof (visible_closed w2 Ht2) as Hv2.
  assert (key_destroyed (committed w2) (dekScope (p_Tenant p) class (er_ObjectID req))) as (key2 & Hk2 & Hd2 & _).
  { eapply (followed_keeps _ (fun db => key_destroyed db _)); [intros; by eapply destroyed_stays|exact Hf|exact Hdead]. }
  eapply (readVersion_dead r reader class vrow w2 key2); try done; [by apply store_wf_visible|by rewrite Hv2, Hscope].
Qed.

(** ** Instances *)
Section demo.
#[local] Existing Instance plain_runtime.
#[local] Existing Instance plain_formats.

Lemma full_row_check t row : Forall (fun ct => has_type ct.2 (cell row ct.1)) (ddl_columns (ddl_of t)) -> full_row t row.
Proof.
  intros F c ty Hc. unfold column_type in Hc. rewrite Forall_forall in F. apply (F (c, ty)). clear F. revert Hc.
  induction (ddl_columns (ddl_of t)) as [|[k x] l IH]; [done|]. cbn [assoc]. destruct (String.eqb_spec c k) as [->|_].
  - intros [= ->]. apply list_elem_of_here.
  - intros E. apply list_elem_of_further. by apply IH.
Qed.

(** One record, two versions from long ago, and its key. *)
Definition old_version (v : Z) : Row :=
  list_to_map [("object_id", SStr "person-1"); ("version", SInt v); ("txid", SStr "tx"); ("schema_id", SStr "person/v1");
    ("created_at", SInt 5); ("status", SStr "active"); ("payload_hash", SStr "sha256:00"); ("payload", SStr "{}");
    ("enc_scope", SStr "t/subject/person-1"); ("pruned", SInt 0); ("prune_policy", SStr "")].
Definition old_object : Row := <["head_version" := SInt 2]> demo_object.
Definition old_key : Row :=
  list_to_map [("scope", SStr "t/subject/person-1"); ("tenant", SStr "t"); ("kind", SStr "subject"); ("subject", SStr "person-1");
    ("op_wrap", SStr "wrapped"); ("rec_wrap", SStr ""); ("kek_id", SStr ""); ("created_at", SInt 5); ("destroyed_at", SInt 0); ("txid", SStr "tx")].
Definition old_versions : table :=
  <[[SStr "person-1"; SInt 1] := old_version 1]> {[ [SStr "person-1"; SInt 2] := old_version 2 ]}.
Definition old_objects : table := {[ [SStr "person-1"] := old_object ]}.
Definition old_keys : table := {[ [SStr "t/subject/person-1"] := old_key ]}.
Definition old_world : world :=
  mkWorld (<["record_versions" := old_versions]> (<["objects" := old_objects]> (<["dek_keys" := old_keys]> empty_tables))) 7 "root 7" None ∅ None 0 0 [] ∅ 0.

(** A table whose rows are complete and filed under their keys. *)
Definition whole (t : string) (m : table) : Prop :=
  map_Forall (fun k row => k = pk_of t row /\ Forall (fun ct => has_type ct.2 (cell row ct.1)) (ddl_columns (ddl_of t))) m.

Lemma whole_full t m : whole t m -> full_rows t m.
Proof. intros H k row Hk. apply full_row_check. by apply (H k row Hk). Qed.
Lemma whole_wf t m : Forall (fun c => is_Some (column_type t c)) (primary_key t) -> whole t m -> wf_table t m.
Proof.
  intros Hp H k row Hk. split; [by apply (H k row Hk)|]. unfold wf_row. eapply Forall_impl; [exact Hp|].
  intros c [ty Hty]. exists ty. split; [done|]. by apply (whole_full _ _ H k row Hk).
Qed.

Lemma old_wholes : whole "record_versions" old_versions /\ whole "objects" old_objects /\ whole "dek_keys" old_keys.
Proof. apply (bool_decide_unpack _). vm_compute. exact I. Qed.

Lemma old_world_wf : store_wf old_world.
Proof.
  destruct old_wholes as (H1 & H2 & H3). split; [|done].
  assert (forall t, Forall (fun c => is_Some (column_type t c)) (primary_key t) -> forall m, whole t m -> wf_table t m) as Hw by (intros; by apply whole_wf).
  apply wf_db_insert; [apply wf_db_insert; [apply wf_db_insert; [apply empty_tables_wf|]|]|]; eapply Hw; try eassumption;
    apply (bool_decide_unpack _); vm_compute; exact I.
Qed.

Definition officer : Principal := mkPrincipal "dpo" "" "" "t" ["dpo"] "dpo" true {[ PermErasure; PermRetention ]}.
Definition no_history (db : tables) (v : Z) : res Z := Ok 0.
Definition prune_request : PruneRequest := mkPruneRequest "pii" "" "" false true.

Lemma prune_removes_expired_witness : exists result w' versions' row',
  Prune demo_register no_history officer prune_request old_world = (Ok result, w') /\ ps_Versions result = 1 /\
  committed w' !! "record_versions" = Some versions' /\ versions' !! [SStr "person-1"; SInt 2] = Some (old_version 2) /\
  versions' !! [SStr "person-1"; SInt 1] = Some row' /\ cell row' "payload" = SStr "".
Proof.
  destruct (runs_ok (Prune demo_register no_history officer prune_request old_world)) as (result & w' & E & Hw); [vm_compute; reflexivity|].
  assert (version (snd (Prune demo_register no_history officer prune_request old_world)) = 8 /\
    match fst (Prune demo_register no_history officer prune_request old_world) with Ok x => ps_Versions x = 1 /\ ps_Horizon x = 1697408000 | Err _ => False end) as [Hv Hn]
    by (vm_compute; split_and!; reflexivity).
  rewrite <- Hw in Hv. rewrite E in Hn. cbn [fst] in Hn. destruct Hn as [Hn Hh]. destruct old_wholes as (H1 & H2 & H3).
  assert (forall (k : list sqlval) (row : Row), old_versions !! k = Some row -> Str row "object_id" <> TxIDPlaceholder) as Hp.
  { assert (map_Forall (fun (_ : list sqlval) row => Str row "object_id" <> TxIDPlaceholder) old_versions) as Hm
      by (apply (bool_decide_unpack _); vm_compute; exact I). exact Hm. }
  destruct (@prune_removes_expired plain_runtime plain_formats demo_register no_history officer prune_request old_world w' result
    old_versions old_objects plain_moves_one old_world_wf eq_refl eq_refl eq_refl (whole_full _ _ H1) (whole_full _ _ H2) Hp E)
    as (_ & policy & class & Hpol & Hcl & _ & _ & H). cbn zeta in H. destruct H as (l & Hl & _ & Hsel & _ & H). rewrite Hn in Hl.
  destruct (pr_DryRun prune_request || _) eqn:Hd.
  { exfalso. destruct H as [(_ & Hsame & _) _]. rewrite Hv in Hsame. discriminate Hsame. }
  eapply moved_by in H; [|intros [? Hq]; exact (proj1 Hq)|rewrite Hv; discriminate]. destruct H as (_ & _ & versions' & Hv' & _ & Hrows).
  rewrite Forall_forall in Hsel.
  destruct (Hrows [SStr "person-1"; SInt 2] (old_version 2) eq_refl) as (row2 & Hr2 & Hc2).
  destruct (Hrows [SStr "person-1"; SInt 1] (old_version 1) eq_refl) as (row1 & Hr1 & Hc1).
  exists result, w', versions', row1. split; [exact E|]. split; [exact Hn|]. split; [exact Hv'|].
  destruct Hc2 as [[-> _]|[Hin _]]; [|apply Hsel in Hin as [_ (k & obj & Hobj & Hx)]].
  2:{ exfalso. unfold old_objects in Hobj. apply lookup_singleton_Some in Hobj as [_ <-]. apply ex_history in Hx. vm_compute in Hx. discriminate. }
  split; [exact Hr2|]. split; [exact Hr1|]. destruct Hc1 as [[_ Hnot]|[_ He]]; [|by destruct He as (_ & He & _)].
  exfalso. apply Hnot; [lia|]. exists [SStr "person-1"], old_object. split; [done|].
  injection Hpol as <-. injection Hcl as <-. rewrite Hh.
  split; try (vm_compute; reflexivity); [by left|]. intros _. vm_compute. discriminate.
Defined.

Definition erasure_request : ErasureRequest := mkErasureRequest "person-1" "pii" "asked to" "".

Lemma erasure_takes_the_key_witness : exists result w', Erase demo_register officer erasure_request old_world = (Ok result, w') /\
  committed w' !! "record_versions" = Some old_versions /\
  exists key', key_row (committed w') "t/subject/person-1" key' /\ cell key' "op_wrap" = SStr "".
Proof.
  destruct (runs_ok (Erase demo_register officer erasure_request old_world)) as (result & w' & E & Hw); [vm_compute; reflexivity|].
  assert (version (snd (Erase demo_register officer erasure_request old_world)) = 8) as Hv by (vm_compute; reflexivity).
  rewrite <- Hw in Hv. exists result, w'. split; [exact E|].
  destruct (@erasure_takes_the_key plain_runtime plain_formats demo_register officer erasure_request old_world w' result
    plain_moves_one old_world_wf eq_refl plain_clock ltac:(discriminate) E)
    as (_ & policy & class & objects & row & _ & _ & _ & _ & _ & _ & _ & _ & _ & Hs & _ & H).
  cbv zeta in H. eapply moved_by in H; [|intros [? Hq]; exact (proj1 Hq)|rewrite Hv; discriminate].
  destruct H as (_ & _ & Hrv & _ & (key' & Hk & _ & Ho & _) & _).
  split; [exact Hrv|]. exists key'. rewrite Hs in Hk. split; [exact Hk|exact Ho].
Defined.
End demo.

(** ** What the log keeps

    The write set of every transaction stays in the log, the wraps of the
    keys it made among it. So the holder of the database and of the
    register's key can open, from the log, a profile that was erased. *)
Section remains.
#[local] Existing Instance plain_runtime.

Definition logged_ops (db : tables) : list WriteOp :=
  rows (default ∅ (db !! "transactions")) ≫= (fun row => match decodeTransaction row with Ok t => tx_WriteSet t | Err _ => [] end).
Definition logged_bytes (db : tables) (table col : string) : option string :=
  head (omap (fun op => if String.eqb (Table op) table then
                          match obj_get col (Values op) ≫= DecodeBinary with Some b => if String.eqb b "" then None else Some b | None => None end
                        else None) (logged_ops db)).
Definition reopened (db : tables) (scope id : string) : res string :=
  wrap ← of_option (logged_bytes db "dek_keys" "op_wrap") (Errorf "no wrap" []);
  dek ← openAEAD (wrapKey (mat demo_register)) wrap ("dek:" +:+ scope);
  sealed ← of_option (logged_bytes db "profiles" "sealed") (Errorf "nothing sealed" []);
  ct ← read_ciphertext sealed;
  Decrypt dek ct id 0.

Definition erased_world : world := snd (EraseProfile eraser "ann-7" "asked to" seen_world).

Lemma erased_profile_reopens :
  match fst (profileIn demo_register "ann-7" erased_world) with Ok held => pf_Erased held | Err _ => false end = true /\
  reopened (committed erased_world) (profileScope demo_register "ann-7") (profileID "ann-7")
    = Ok (sealedProfile "ann@example.org" "Ann <A> & Co").
Proof. vm_compute. split; reflexivity. Qed.
End remains.
