(* ===== verification/Anchors.v ===== *)
(** * Evidence and anchors ([internal/checkpoint], [audit.go], [store.go])

    What the register signs and what anyone can check with a public key
    and no store: signed checkpoints, evidence bundles, and the fold of
    recorded roots through the ledger's link function. The ledger itself
    is not part of the repository: its proofs, its history chain and the
    key-value backend under it are the parameter [Ledger]. *)

From S2P Require Import Prelude GoStrings Float64 Encoding Canon Json Decimal SqlText Sql Model World Concrete Byok GoJson.
Local Open Scope Z_scope.

(** ** The ledger *)

(** The state a ledger answers from: its tables, version and root, and
    the version before which its history is pruned. *)
Record position := mkPosition {
  ps_tables : tables;
  ps_version : Z;
  ps_root : string;
  ps_horizon : Z;
}.
Definition position_of (w : world) : position := mkPosition (committed w) (version w) (root w) (horizon w).

(** [sqlledger.VerifiedGet]: the ledger key of a row, its value and its
    columns when it is there. *)
Record verified_row := mkVerified { vr_Key : string; vr_Value : option string; vr_Row : option (list value) }.
(** [ledger.Change]. *)
Record ledger_change := mkLedgerChange { lc_Path : string; lc_Deleted : bool; lc_Value : string }.

(** The records of a backend in a key range, in byte order. *)
Definition in_range (lo hi k : string) : bool := String.leb lo k && negb (String.leb hi k).
Definition range (b : gmap string string) (lo hi : string) : list (string * string) :=
  merge_sort key_le (map_to_list (filter (fun kv => in_range lo hi kv.1 = true) b)).

(** [copy] into a [[32]byte]. *)
Definition bytes32 (s : string) : string := str_take 32 (s +:+ of_bytes (repeat "000"%char 32)).

(** The laws are what the ledger documents: a proof survives its
    encoding and, taken of the live state, holds against the live root
    and shows whether the key is there; a verified read returns a row
    exactly when its key is there; a scan returns the first records of a
    range in key order; a write that succeeds stores the record. *)
Class Ledger `{Crypto} := {
  commitment_key : string;
  proof : Set;
  proof_encode : proof -> string;
  proof_decode : string -> res proof;
  proof_leaf : proof -> option string;
  ledger_verify : string -> string -> proof -> res bool;
  ledger_prove : position -> string -> res proof;
  ledger_get : position -> string -> res (option string);
  verified_get : position -> string -> list value -> res verified_row;
  HistoryLink : string -> string -> Z -> string;
  HistoryKey : string;
  history_enabled : bool;
  history_head : position -> res (string * Z);
  root_at : position -> Z -> res string;
  changes_at : position -> Z -> res (list ledger_change);
  verify_history : position -> Z -> string -> option error;
  history_prune : position -> Z -> res (Z * Z);
  backend_write : gmap string string -> string -> string -> res (gmap string string);
  backend_scan : gmap string string -> string -> string -> nat -> res (list (string * string));
  proof_decode_encode : forall p, proof_decode (proof_encode p) = Ok p;
  prove_verifies : forall ps key pf raw, ledger_prove ps key = Ok pf -> hex_decode (ps_root ps) = Some raw ->
    exists v, ledger_get ps key = Ok v /\ ledger_verify raw (bytes32 (hmac_sha256 commitment_key ("p" +:+ key))) pf = Ok (bool_decide (is_Some v));
  verified_get_present : forall ps t pk v, verified_get ps t pk = Ok v ->
    exists x, ledger_get ps (vr_Key v) = Ok x /\ (is_Some (vr_Row v) <-> is_Some x);
  backend_write_Ok : forall b k v b', backend_write b k v = Ok b' -> b' = <[k := v]> b;
  backend_scan_Ok : forall b lo hi n l, backend_scan b lo hi n = Ok l -> l = take n (range b lo hi);
}.

(** [fmt.Errorf("...: %w", err)]. *)
Definition wrapped {A} (fmt : string) (args : list string) (r : res A) : res A :=
  match r with Ok a => Ok a | Err e => Err (Wrapf fmt args e) end.

Lemma wrapped_Ok {A} fmt args (r : res A) a : wrapped fmt args r = Ok a <-> r = Ok a.
Proof. destruct r; naive_solver. Qed.

(** [store.ParseHash]. *)
Definition ParseHash (encoded : string) : res string :=
  raw ← of_option (hex_decode encoded) (Errorf "encoding/hex: invalid" []);
  _ ← refuse_if (negb (len raw =? 32)) (Errorf "expected 32 bytes, got %d" [itoa (len raw)]);
  Ok raw.

(** ** Signatures *)

Definition Algorithm := "ed25519".
Definition PublicKeySize : Z := 32.

Section checkpoint.
Context `{Crypto}.

(** [checkpoint.Sign]. *)
Definition Sign (signer keyID : string) (cp : Checkpoint) : res SignedCheckpoint :=
  body ← Marshal (checkpoint_value cp);
  Ok (mkSigned cp keyID Algorithm (base64_encode (ed25519_sign signer body))).

(** [checkpoint.VerifyCheckpoint]. *)
Definition VerifyCheckpoint (pub : string) (sc : SignedCheckpoint) : res unit :=
  _ ← refuse_if (negb (String.eqb (sc_Algorithm sc) Algorithm)) (Errorf "checkpoint: unsupported algorithm %q" [sc_Algorithm sc]);
  body ← Marshal (checkpoint_value (sc_Checkpoint sc));
  sig ← of_option (base64_decode (sc_Signature sc)) (Wrapf "checkpoint: signature: %w" [] (Errorf "illegal base64 data" []));
  refuse_if (negb (ed25519_verify pub body sig)) (Errorf "checkpoint: signature does not verify" []).

Definition signed_by (keyID signature : string) (b : EvidenceBundle) : EvidenceBundle :=
  mkBundle (eb_Register b) (eb_Statement b) (eb_Table b) (eb_PrimaryKey b) (eb_Present b) (eb_Row b) (eb_LedgerKey b)
    (eb_LedgerValue b) (eb_Path b) (eb_Proof b) (eb_Root b) (eb_Version b) (eb_IssuedAt b) (eb_Checkpoint b)
    keyID Algorithm signature.
Definition unsigned (b : EvidenceBundle) : EvidenceBundle :=
  mkBundle (eb_Register b) (eb_Statement b) (eb_Table b) (eb_PrimaryKey b) (eb_Present b) (eb_Row b) (eb_LedgerKey b)
    (eb_LedgerValue b) (eb_Path b) (eb_Proof b) (eb_Root b) (eb_Version b) (eb_IssuedAt b) (eb_Checkpoint b)
    (eb_KeyID b) (eb_Algorithm b) "".

(** [checkpoint.SignBundle]. *)
Definition SignBundle (signer keyID : string) (b : EvidenceBundle) : res EvidenceBundle :=
  body ← Marshal (bundle_value (signed_by keyID "" b));
  Ok (signed_by keyID (base64_encode (ed25519_sign signer body)) b).

(** [checkpoint.VerifyBundleSignature]. *)
Definition VerifyBundleSignature (pub : string) (b : EvidenceBundle) : res unit :=
  _ ← refuse_if (negb (String.eqb (eb_Algorithm b) Algorithm)) (Errorf "bundle: unsupported algorithm %q" [eb_Algorithm b]);
  sig ← of_option (base64_decode (eb_Signature b)) (Wrapf "bundle: signature: %w" [] (Errorf "illegal base64 data" []));
  body ← Marshal (bundle_value (unsigned b));
  refuse_if (negb (ed25519_verify pub body sig)) (Errorf "bundle: signature does not verify" []).

(** [checkpoint.VerifyBundleProof]. *)
Definition hash_field (encoded : string) (e : error) : res string :=
  match hex_decode encoded with
  | Some raw => if len raw =? 32 then Ok (bytes32 raw) else Err e
  | None => Err e
  end.
Definition VerifyBundleProof `{!Ledger} (b : EvidenceBundle) : res unit :=
  root ← hash_field (eb_Root b) (Errorf "bundle: root is not a 32-byte hex value" []);
  path ← hash_field (eb_Path b) (Errorf "bundle: path is not a 32-byte hex value" []);
  bytes ← of_option (hex_decode (eb_Proof b)) (Wrapf "bundle: proof: %w" [] (Errorf "encoding/hex: invalid" []));
  pf ← wrapped "bundle: proof: %w" [] (proof_decode bytes);
  present ← wrapped "bundle: proof does not hold: %w" [] (ledger_verify root path pf);
  refuse_if (negb (Bool.eqb present (eb_Present b)))
    (if eb_Present b then Errorf "bundle: claims the row is present, the proof shows it absent" []
     else Errorf "bundle: claims the row is absent, the proof shows it present" []).

(** [checkpoint.VerifyBundleAgainstCheckpoint]. *)
Definition VerifyBundleAgainstCheckpoint (b : EvidenceBundle) (cp : Checkpoint) : res unit :=
  _ ← refuse_if (negb (cp_Version cp =? eb_Version b))
        (Errorf "bundle: read at version %d, checkpoint covers version %d" [itoa (eb_Version b); itoa (cp_Version cp)]);
  refuse_if (negb (String.eqb (cp_Root cp) (eb_Root b)))
    (Errorf "bundle: the checkpoint's root is not the root the row was read at" []).

(** [checkpoint.ParsePublicKey]. *)
Definition ParsePublicKey (encoded : string) : res string :=
  raw ← of_option (base64_decode encoded) (Wrapf "checkpoint: public key: %w" [] (Errorf "illegal base64 data" []));
  _ ← refuse_if (negb (len raw =? PublicKeySize))
        (Errorf "checkpoint: public key is %d bytes, expected %d" [itoa (len raw); itoa PublicKeySize]);
  Ok raw.

(** What [Sign] signs verifies. *)
Lemma Sign_verifies signer keyID cp sc :
  Sign signer keyID cp = Ok sc -> sc_Checkpoint sc = cp /\ VerifyCheckpoint (ed25519_public signer) sc = Ok tt.
Proof.
  unfold Sign. intros E. res_inv. split; [done|]. unfold VerifyCheckpoint. cbn [sc_Algorithm sc_Checkpoint sc_Signature].
  match goal with H : Marshal _ = Ok ?b |- _ => rewrite H end. rewrite base64_roundtrip.
  cbn -[ed25519_verify ed25519_sign ed25519_public]. by rewrite ed25519_verify_sign.
Qed.

Lemma SignBundle_verifies signer keyID b b' :
  SignBundle signer keyID b = Ok b' ->
  (exists s, b' = signed_by keyID s b) /\ VerifyBundleSignature (ed25519_public signer) b' = Ok tt.
Proof.
  unfold SignBundle. intros E. res_inv. split; [by eexists|]. unfold VerifyBundleSignature.
  cbn [eb_Algorithm eb_Signature signed_by]. change (unsigned (signed_by keyID ?s b)) with (signed_by keyID "" b).
  match goal with H : Marshal _ = Ok ?b |- _ => rewrite H end. rewrite base64_roundtrip.
  cbn -[ed25519_verify ed25519_sign ed25519_public]. by rewrite ed25519_verify_sign.
Qed.
End checkpoint.

(** ** The lineage *)
Section lineage.
Context `{Ledger}.

(** The loop of [register.VerifyAnchors]: the head and the root after
    the recorded roots, the first of which is at [version]. *)
Fixpoint fold_roots (head prevRoot : string) (version : Z) (roots : list string) : res (string * string) :=
  match roots with
  | [] => Ok (head, prevRoot)
  | encoded :: roots =>
      root ← wrapped "lineage: root at version %d: %w" [itoa version] (ParseHash encoded);
      fold_roots (HistoryLink head prevRoot version) root (to_uint64 (version + 1)) roots
  end.

(** [register.VerifyAnchors]. *)
Definition VerifyAnchors (from to_ : Checkpoint) (roots : list string) : res unit :=
  _ ← refuse_if (String.eqb (cp_Head from) "" || String.eqb (cp_Head to_) "")
        (Errorf "lineage: an anchor without a head cannot be chained; this register predates the lineage chain" []);
  _ ← refuse_if (cp_Version to_ <? cp_Version from)
        (Errorf "lineage: the later anchor is at version %d, before %d" [itoa (cp_Version to_); itoa (cp_Version from)]);
  let n := Z.of_nat (length roots) in
  _ ← refuse_if (negb (to_uint64 n =? to_uint64 (cp_Version to_ - cp_Version from)))
        (Errorf "lineage: %d roots supplied for %d versions" [itoa n; itoa (to_uint64 (cp_Version to_ - cp_Version from))]);
  head ← wrapped "lineage: anchor head: %w" [] (ParseHash (cp_Head from));
  prevRoot ← wrapped "lineage: anchor root: %w" [] (ParseHash (cp_Root from));
  reached ← fold_roots head prevRoot (to_uint64 (cp_Version from + 1)) roots;
  want ← wrapped "lineage: later anchor head: %w" [] (ParseHash (cp_Head to_));
  _ ← refuse_if (negb (String.eqb reached.1 want))
        (Errorf "lineage: the roots from version %d do not lead to the head anchored at version %d; the recorded history is not the one that anchor commits to"
           [itoa (cp_Version from); itoa (cp_Version to_)]);
  prevRoot ← ParseHash (cp_Root to_);
  match last roots with
  | None => Ok tt
  | Some encoded =>
      final ← ParseHash encoded;
      refuse_if (negb (String.eqb final prevRoot))
        (Errorf "lineage: the last root in the range is not the root the later anchor names" [])
  end.

(** The arguments the fold gives the link function, in order. *)
Fixpoint links (head prevRoot : string) (version : Z) (raw : list string) : list (string * string * Z) :=
  match raw with
  | [] => []
  | x :: raw => (head, prevRoot, version) :: links (HistoryLink head prevRoot version) x (to_uint64 (version + 1)) raw
  end.

(** Two folds that give the link function different arguments at one
    step and get one head from it. *)
Definition collide (l1 l2 : list (string * string * Z)) : Prop :=
  exists i a b, l1 !! i = Some a /\ l2 !! i = Some b /\ a <> b /\ HistoryLink a.1.1 a.1.2 a.2 = HistoryLink b.1.1 b.1.2 b.2.

Definition parsed (roots : list string) (raw : list string) : Prop := Forall2 (fun e x => ParseHash e = Ok x) roots raw.

(** The head reached by folding the roots [raw] recorded before it. *)
Fixpoint head_after (head prevRoot : string) (version : Z) (raw : list string) : string :=
  match raw with [] => head | x :: raw => head_after (HistoryLink head prevRoot version) x (to_uint64 (version + 1)) raw end.

Lemma fold_roots_Ok head prevRoot version roots h r :
  fold_roots head prevRoot version roots = Ok (h, r) ->
  exists raw, parsed roots raw /\ h = head_after head prevRoot version raw /\ r = default prevRoot (last raw).
Proof.
  revert head prevRoot version. induction roots as [|e roots IH]; intros head prevRoot version E; cbn [fold_roots] in E.
  - injection E as <- <-. exists []. split; [constructor|done].
  - res_inv. match goal with H : wrapped _ _ _ = _ |- _ => apply wrapped_Ok in H end.
    match goal with H : fold_roots _ _ _ _ = _ |- _ => apply IH in H as (raw & Hp & -> & ->) end.
    exists (x :: raw). split; [by constructor|]. split; [done|]. rewrite last_cons. by destruct (last raw).
Qed.
End lineage.

(** ** A ledger to compute with *)
Section plain_ledger.

Definition plain_key (t : string) (pk : list string) : string := t +:+ "/" +:+ Join pk "/".
Definition plain_cell (v : sqlval) : string :=
  match v with SNull => "" | SInt z => itoa z | SFloat f => FormatFloat_g f | SStr s => s end.
Definition plain_has (ps : position) (key : string) : bool :=
  existsb (fun tm => existsb (fun kr => String.eqb (plain_key tm.1 (plain_cell <$> kr.1)) key) (map_to_list tm.2))
    (map_to_list (ps_tables ps)).
Definition plain_get (ps : position) (key : string) : option string := if plain_has ps key then Some key else None.

Definition plain_link (h r : string) (v : Z) : string := bytes32 (plain_hash (h +:+ r +:+ itoa v)).
Fixpoint plain_head (n : nat) : string :=
  match n with
  | O => bytes_le 32 0
  | S n => plain_link (plain_head n) (bytes_le 32 (Z.of_nat n)) (Z.of_nat (S n))
  end.

#[program] Definition plain_ledger : Ledger (H := plain_crypto) := {|
  commitment_key := "ck";
  proof := bool;
  proof_encode b := if b then "1" else "0";
  proof_decode s := Ok (String.eqb s "1");
  proof_leaf _ := None;
  ledger_verify _ _ p := Ok p;
  ledger_prove ps key := Ok (plain_has ps key);
  ledger_get ps key := Ok (plain_get ps key);
  verified_get ps t pk :=
    let key := plain_key t (Sprint <$> pk) in
    Ok (mkVerified key (plain_get ps key) ((fun _ => pk) <$> plain_get ps key));
  HistoryLink := plain_link;
  HistoryKey := "history";
  history_enabled := true;
  history_head ps := Ok (plain_head (Z.to_nat (ps_version ps)), ps_version ps);
  root_at ps v := if (ps_horizon ps <=? v) && (v <=? ps_version ps) then Ok (bytes_le 32 v) else Err (Errorf "no such version" []);
  changes_at ps v := Ok [mkLedgerChange (bytes_le 32 v) false "row"];
  verify_history ps v head := if String.eqb head (plain_head (Z.to_nat v)) then None else Some (Errorf "the lineage does not verify" []);
  history_prune ps v := Ok (v, v);
  backend_write b k v := Ok (<[k := v]> b);
  backend_scan b lo hi n := Ok (take n (range b lo hi));
|}.
Next Obligation. by intros []. Qed.
Next Obligation.
  intros ps key pf raw [= <-] _. exists (plain_get ps key). split; [done|]. f_equal. unfold plain_get.
  destruct (plain_has ps key); [by rewrite bool_decide_true|]. rewrite bool_decide_false; [done|]. by intros [? ?].
Qed.
Next Obligation.
  intros ps t pk v [= <-]. eexists. split; [done|]. cbn. destruct (plain_get _ _); cbn; [by split; eauto|]. split; by intros [? ?].
Qed.
Next Obligation. by intros b k v b' [= <-]. Qed.
Next Obligation. by intros b lo hi n l [= <-]. Qed.

Definition plain_anchor (v : nat) : Checkpoint :=
  mkCheckpoint "r" (Z.of_nat v) (plain_root (Z.of_nat v)) (hex_encode (plain_head v)) 0 "event" "" 0 [] None.
End plain_ledger.

(** ** What two anchors commit to *)
Section bind.
Context `{Ledger}.

Lemma heads_bind raw1 : forall raw2 h1 r1 h2 r2 v,
  length raw1 = length raw2 -> head_after h1 r1 v raw1 = head_after h2 r2 v raw2 ->
  (h1 = h2 /\ raw1 = raw2 /\ (raw1 <> [] -> r1 = r2)) \/ collide (links h1 r1 v raw1) (links h2 r2 v raw2) \/
  (raw1 <> [] /\ default r1 (last raw1) <> default r2 (last raw2)).
Proof.
  induction raw1 as [|x raw1 IH]; intros [|y raw2] h1 r1 h2 r2 v Hl E; try discriminate Hl; [by left|].
  cbn [head_after] in E. injection Hl as Hl. rewrite !last_cons.
  destruct (IH raw2 _ _ _ _ _ Hl E) as [(Eh & -> & Hr)|[(i & a & b & ?)|[Hne Hd]]]; [|right; left; by exists (S i), a, b|].
  - destruct (decide (h1 = h2 /\ r1 = r2)) as [[-> ->]|Hne].
    + destruct (decide (x = y)) as [->|Hxy]; [by left|]. destruct raw2 as [|z raw2].
      * right; right. cbn. split; congruence.
      * exfalso. by apply Hxy, Hr.
    + right; left. exists O, (h1, r1, v), (h2, r2, v). split_and!; [done|done| |done]. intros [= -> ->]. by apply Hne.
  - right; right. split; [done|]. cbn [default]. intros Hq. apply Hd.
    destruct (last raw1) eqn:E1; [|by apply last_None in E1]. destruct (last raw2) eqn:E2; [done|].
    apply last_None in E2 as ->. by destruct raw1.
Qed.

Lemma VerifyAnchors_Ok from to_ roots :
  VerifyAnchors from to_ roots = Ok tt -> Z.of_nat (length roots) < 2 ^ 64 ->
  exists h r h' r' raw, ParseHash (cp_Head from) = Ok h /\ ParseHash (cp_Root from) = Ok r /\
    ParseHash (cp_Head to_) = Ok h' /\ ParseHash (cp_Root to_) = Ok r' /\ parsed roots raw /\
    head_after h r (to_uint64 (cp_Version from + 1)) raw = h' /\ (raw <> [] -> default r (last raw) = r') /\
    Z.of_nat (length roots) = to_uint64 (cp_Version to_ - cp_Version from) /\ cp_Version from <= cp_Version to_.
Proof.
  unfold VerifyAnchors. intros E Hn. cbv zeta in E. res_inv. bool_hyps.
  repeat match goal with H : wrapped _ _ _ = _ |- _ => apply wrapped_Ok in H end.
  match goal with H : fold_roots _ _ _ _ = Ok ?p |- _ => destruct p; apply fold_roots_Ok in H as (raw & Hp & -> & ->) end. cbn [fst] in *.
  do 4 eexists. exists raw. split_and!; try done.
  - intros Hne. apply Forall2_last in Hp. destruct (last raw) as [lastRoot|] eqn:El; [|by apply last_None in El].
    destruct (last roots) as [e|]; [|by inversion Hp]. inversion Hp as [? ? Hx|]; subst. res_inv. bool_hyps. cbn. congruence.
  - match goal with H : to_uint64 _ = to_uint64 _ |- _ => rewrite <- H end. unfold to_uint64. rewrite Z.mod_small; lia.
Qed.

(** C31. Two signed anchors bind the history between them. If an auditor
    accepts two lists of roots leading from anchors at one version to the
    same later anchor, the lists name the same roots and the earlier
    anchors the same head (and, when the version moved, the same root),
    unless folding the two lists exhibits two different arguments that the
    link function sends to one head. *)
Theorem anchors_bind_history (from1 from2 to_ : Checkpoint) (roots1 roots2 : list string) :
  cp_Version from1 = cp_Version from2 ->
  Z.of_nat (length roots1) < 2 ^ 64 -> Z.of_nat (length roots2) < 2 ^ 64 ->
  VerifyAnchors from1 to_ roots1 = Ok tt -> VerifyAnchors from2 to_ roots2 = Ok tt ->
  exists h1 r1 h2 r2 raw1 raw2,
    ParseHash (cp_Head from1) = Ok h1 /\ ParseHash (cp_Root from1) = Ok r1 /\ parsed roots1 raw1 /\
    ParseHash (cp_Head from2) = Ok h2 /\ ParseHash (cp_Root from2) = Ok r2 /\ parsed roots2 raw2 /\
    ((raw1 = raw2 /\ h1 = h2 /\ (roots1 <> [] -> r1 = r2)) \/
     let v := to_uint64 (cp_Version from1 + 1) in collide (links h1 r1 v raw1) (links h2 r2 v raw2)).
Proof.
  intros Hv Hn1 Hn2 E1 E2.
  apply VerifyAnchors_Ok in E1 as (h1 & r1 & t1 & u1 & raw1 & Eh1 & Er1 & Et1 & Eu1 & Hp1 & Ha1 & Hl1 & Hc1 & _); [|done].
  apply VerifyAnchors_Ok in E2 as (h2 & r2 & t2 & u2 & raw2 & Eh2 & Er2 & Et2 & Eu2 & Hp2 & Ha2 & Hl2 & Hc2 & _); [|done].
  assert (length raw1 = length raw2) as Hl.
  { apply Forall2_length in Hp1, Hp2. rewrite <- Hp1, <- Hp2. rewrite Hv, <- Hc2 in Hc1. lia. }
  rewrite Hv in Ha1. rewrite Et1 in Et2. injection Et2 as <-. rewrite Eu1 in Eu2. injection Eu2 as <-.
  exists h1, r1, h2, r2, raw1, raw2. split_and!; try done. cbv zeta. rewrite Hv.
  destruct (heads_bind raw1 raw2 h1 r1 h2 r2 _ Hl (eq_trans Ha1 (eq_sym Ha2))) as [(-> & -> & Hr)|[Hc|[Hne Hd]]]; [|by right|].
  - left. split_and!; try done. intros Hne. apply Hr. intros ->. apply Hne. by inversion Hp1.
  - exfalso. apply Hd. rewrite Hl1 by done. symmetry. apply Hl2. intros ->. by destruct raw1.
Qed.

(** Between two anchors at one version nothing ties the roots they name. *)
Lemma VerifyAnchors_same_version from to_ h r r' :
  cp_Version from = cp_Version to_ -> cp_Head from = cp_Head to_ -> cp_Head from <> "" ->
  ParseHash (cp_Head from) = Ok h -> ParseHash (cp_Root from) = Ok r -> ParseHash (cp_Root to_) = Ok r' ->
  VerifyAnchors from to_ [] = Ok tt.
Proof.
  intros Hv Hh Hne Eh Er Er'. unfold VerifyAnchors. rewrite <- Hv, <- Hh. apply String.eqb_neq in Hne.
  rewrite Hne, Z.ltb_irrefl, Z.sub_diag. cbn -[ParseHash to_uint64]. rewrite Eh, Er, Er'.
  change (to_uint64 0 =? to_uint64 0) with true. cbn. by rewrite String.eqb_refl.
Qed.
End bind.

Definition plain_roots : list string := plain_root <$> [4; 5; 6].

Lemma anchors_bind_history_witness :
  let from := plain_anchor 3 in let to_ := plain_anchor 6 in
  @VerifyAnchors plain_crypto plain_ledger from to_ plain_roots = Ok tt /\
  exists h1 r1 h2 r2 raw1 raw2,
    ParseHash (cp_Head from) = Ok h1 /\ ParseHash (cp_Root from) = Ok r1 /\ parsed plain_roots raw1 /\
    ParseHash (cp_Head from) = Ok h2 /\ ParseHash (cp_Root from) = Ok r2 /\ parsed plain_roots raw2 /\
    ((raw1 = raw2 /\ h1 = h2 /\ (plain_roots <> [] -> r1 = r2)) \/
     let v := to_uint64 (cp_Version from + 1) in
     @collide plain_crypto plain_ledger (@links plain_crypto plain_ledger h1 r1 v raw1) (@links plain_crypto plain_ledger h2 r2 v raw2)).
Proof.
  cbv zeta. assert (@VerifyAnchors plain_crypto plain_ledger (plain_anchor 3) (plain_anchor 6) plain_roots = Ok tt) as E
    by (vm_compute; reflexivity).
  split; [exact E|]. exact (@anchors_bind_history plain_crypto plain_ledger (plain_anchor 3) (plain_anchor 3) (plain_anchor 6)
    plain_roots plain_roots eq_refl ltac:(vm_compute; reflexivity) ltac:(vm_compute; reflexivity) E E).
Defined.
