(* ===== verification/Checkpoints.v ===== *)
(** * Root checkpoints ([internal/register/checkpoints.go])

    A checkpoint is the register's signed statement of its current
    version, root and lineage head. Checkpoints are kept beside the
    ledger, in the backend, under big-endian version keys; each names the
    one before it. This file models issuing, storing and reading them
    back; what holds of them is in CheckpointsCorrect.v. *)

From S2P Require Import Prelude GoStrings Float64 Encoding Canon Json Decimal SqlText Sql Rbac JsonSchema Pack Model World Concrete Commit Byok GoJson Records Anchors.
Local Open Scope Z_scope.

Definition ReasonScheduled := "scheduled".
Definition ReasonEvent := "event".
Definition ReasonManual := "manual".
Definition ReasonBootstrap := "bootstrap".
Definition ReasonAudit := "audit".

Definition checkpointPrefix : string := "K".
(** The first key past the prefix. *)
Definition checkpointEnd : string := "L".

(** [binary.BigEndian.AppendUint64]. *)
Fixpoint be_bytes (n : nat) (v : Z) : string :=
  match n with O => "" | S n => String (Z_byte (v / 256 ^ Z.of_nat n)) (be_bytes n v) end.
Definition checkpointKey (v : Z) : string := checkpointPrefix +:+ be_bytes 8 v.

(** ** The stored form

    [json.Unmarshal] into a [SignedCheckpoint]. *)
Definition ParseUint64 (s : string) : option Z :=
  match parse_udec s with Some z => if z <? 2 ^ 64 then Some z else None | None => None end.
Definition step_uint (held : Z) (v : value) : option Z :=
  match v with VNumber s => ParseUint64 s | VNull => Some held | _ => None end.
Definition get_uint : string -> object -> res Z := read_field step_uint 0.
Definition decode_previous (m : object) : res (option CheckpointRef) :=
  p ← get_pointer "previous" m;
  match p with
  | None => Ok None
  | Some o => v ← get_uint "version" o; rt ← get_str "root" o; Ok (Some (mkCheckpointRef v rt))
  end.
Definition decode_checkpoint (m : object) : res Checkpoint :=
  register ← get_str "register" m; version ← get_uint "version" m; root ← get_str "root" m; head ← get_str "head" m;
  issued ← get_int "issued_at" m; reason ← get_str "reason" m; image ← get_str "image_digest" m; seq ← get_uint "tx_seq" m;
  summary ← get_map "summary" m; summary ← floatify_obj summary; previous ← decode_previous m;
  Ok (mkCheckpoint register version root head issued reason image seq summary previous).
Definition decode_signed (v : value) : res SignedCheckpoint :=
  m ← as_obj v; cp ← get_struct "checkpoint" m; cp ← decode_checkpoint cp;
  id ← get_str "key_id" m; alg ← get_str "alg" m; sig ← get_str "signature" m;
  Ok (mkSigned cp id alg sig).
Definition read_record (raw : string) : res SignedCheckpoint := v ← parse_raw raw; decode_signed v.

Section checkpoints.
Context `{Runtime} `{!Ledger}.
Variable r : Register.

Definition LatestCheckpoint : M (option SignedCheckpoint) := gets lastCkpt.

(** [Tx.HistoryHead]. *)
Definition HistoryHead : M (string * Z) :=
  if negb history_enabled then mret ("", 0)
  else ps ← gets position_of; hv ← lift (history_head ps); mret (hex_encode hv.1, hv.2).

(** [checkpointSummary]: the members in key order, as they are printed. *)
Definition checkpointSummary : M (object * Z) :=
  transactions ← count "transactions" [];
  objects ← count "objects" [];
  pruned ← count "record_versions" [is_ "pruned" (VBool true)];
  destroyed ← count "dek_keys" [mkCond "destroyed_at" ONe (VInt 0)];
  row ← attempt (query_one (SSelect "transactions" [] (Some (mkOrder "seq" true)) (Some 1%nat)));
  let seq := match row with Some (Some row) => Uint row "seq" | _ => 0 end in
  mret ([("commitment_key_from", VStr (opt_KeySource (opts r))); ("destroyed_keys", VInt destroyed); ("objects", VInt objects);
         ("pack", VStr (pk_Name (pk r) +:+ " " +:+ pk_Version (pk r))); ("pruned_versions", VInt pruned);
         ("transactions", VInt transactions)], seq).

Definition ref_of (sc : SignedCheckpoint) : CheckpointRef :=
  mkCheckpointRef (cp_Version (sc_Checkpoint sc)) (cp_Root (sc_Checkpoint sc)).

(** [issueCheckpoint]: nothing when the state has not moved. *)
Definition record_checkpoint (v : Z) (sc : SignedCheckpoint) : M unit :=
  body ← lift (go_json (signed_value sc));
  b ← gets backend;
  b ← wrapping "register: record checkpoint: %w" [] (lift (backend_write b (checkpointKey v) body));
  _ ← modify (set_backend b);
  modify (set_lastCkpt (Some sc)).
Definition issueCheckpoint (reason : string) : M (option SignedCheckpoint) :=
  at_root ← current;
  let '(rt, v) := at_root in
  previous ← LatestCheckpoint;
  if (match previous with Some p => cp_Version (sc_Checkpoint p) =? v | None => false end) then mret None else
  summary ← checkpointSummary;
  head ← HistoryHead;
  at_ ← now;
  let cp := mkCheckpoint (opt_Name (opts r)) v rt head.1 at_ reason (opt_ImageDigest (opts r)) summary.2 summary.1
              (ref_of <$> previous) in
  signed ← lift (Sign (mat_Signer (mat r)) (mat_KeyID (mat r)) cp);
  _ ← record_checkpoint v signed;
  mret (Some signed).

(** [IssueCheckpoint] and [anchorCurrentState]. *)
Definition notify_checkpoint (sc : SignedCheckpoint) : M unit := modify (fun w => set_notes (notes w ++ [CheckpointIssued sc]) w).
Definition IssueCheckpoint (reason : string) : M (option SignedCheckpoint) :=
  signed ← Do (issueCheckpoint reason);
  match signed with
  | None => LatestCheckpoint
  | Some sc => _ ← notify_checkpoint sc; mret (Some sc)
  end.
Definition anchorCurrentState : M (option SignedCheckpoint) :=
  signed ← issueCheckpoint ReasonEvent;
  match signed with
  | Some sc => _ ← notify_checkpoint sc; mret (Some sc)
  | None => LatestCheckpoint
  end.

(** [readCheckpoints]: the keyspace in pages of 256, the next page from
    just past the last key. [None] is a scan still going. *)
Definition read_page (kvs : list (string * string)) : res (list SignedCheckpoint) :=
  collect (map (fun kv => wrapped "register: checkpoint record: %w" [] (read_record kv.2)) kvs).
Fixpoint scan_pages (fuel : nat) (b : gmap string string) (start : string) (out : list SignedCheckpoint)
    : option (res (list SignedCheckpoint)) :=
  match fuel with
  | O => None
  | S fuel =>
      match wrapped "register: read checkpoints: %w" [] (backend_scan b start checkpointEnd 256) with
      | Err e => Some (Err e)
      | Ok kvs =>
          match last kvs with
          | None => Some (Ok out)
          | Some final =>
              match read_page kvs with
              | Err e => Some (Err e)
              | Ok page => scan_pages fuel b (final.1 +:+ String "000" "") (out ++ page)
              end
          end
      end
  end.

(** One page more than the backend has records is always enough. *)
Definition diverges : error := Errorf "the scan did not end" [].
Definition scan_all (b : gmap string string) : res (list SignedCheckpoint) :=
  default (Err diverges) (scan_pages (S (size b)) b checkpointPrefix []).
Definition cut (limit : Z) (l : list SignedCheckpoint) : list SignedCheckpoint :=
  if (0 <? limit) && (limit <? Z.of_nat (length l)) then take (Z.to_nat limit) l else l.
Definition readCheckpoints (limit : Z) (newestFirst : bool) : M (list SignedCheckpoint) :=
  b ← gets backend;
  out ← lift (scan_all b);
  mret (cut limit (if newestFirst then rev out else out)).

Definition loadLastCheckpoint : M unit :=
  Do (l ← readCheckpoints 1 true;
      match l with [] => mret tt | sc :: _ => modify (set_lastCkpt (Some sc)) end).

(** [clampLimit]. *)
Definition clampLimit (n : Z) : Z := if n <=? 0 then 50 else if 500 <? n then 500 else n.

Definition Checkpoints (p : Principal) (limit : Z) : M (list SignedCheckpoint) :=
  _ ← guard_ (negb (Can p PermCheckpoints)) (Errorf "%s may not read checkpoints" [Acting p]);
  Do (readCheckpoints (clampLimit limit) true).

Definition VerificationKey : string * string :=
  (mat_KeyID (mat r), base64_encode (ed25519_public (mat_Signer (mat r)))).
End checkpoints.
