(* ===== verification/Ranges.v ===== *)
(** * Keys in byte order

    The backend answers a scan in the byte order of its keys. This file
    proves what the checkpoint reader relies on: big-endian version keys
    are ordered like the versions, the key just past a key is the key
    followed by a zero byte, and a scan continued from there is what was
    left of the range. *)

From S2P Require Import Prelude GoStrings Float64 Encoding Canon Json Decimal SqlText Sql Rbac JsonSchema Pack Model World Concrete Commit Byok GoJson Records Anchors Checkpoints.
Local Open Scope Z_scope.

(** ** Version keys *)

Lemma ascii_compare a b : Ascii.compare a b = (byte_Z a ?= byte_Z b).
Proof. unfold Ascii.compare, byte_Z. by rewrite N2Z.inj_compare. Qed.

Lemma compare_digits q1 q2 r1 r2 B : 0 <= r1 < B -> 0 <= r2 < B ->
  (r1 + B * q1 ?= r2 + B * q2) = match q1 ?= q2 with Eq => r1 ?= r2 | c => c end.
Proof.
  intros H1 H2. destruct (Z.compare_spec q1 q2) as [->|Hq|Hq].
  - by rewrite !(Z.add_comm _ (B * q2)), Z.add_compare_mono_l.
  - apply Z.compare_lt_iff. nia.
  - apply Z.compare_gt_iff. nia.
Qed.

Lemma compare_be n : forall v1 v2,
  String.compare (be_bytes n v1) (be_bytes n v2) = (v1 mod 256 ^ Z.of_nat n ?= v2 mod 256 ^ Z.of_nat n).
Proof.
  induction n as [|n IH]; intros v1 v2.
  - change (256 ^ Z.of_nat 0) with 1. by rewrite !Z.mod_1_r.
  - cbn [be_bytes String.compare]. rewrite ascii_compare, !byte_Z_Z_byte, IH.
    rewrite Nat2Z.inj_succ, Z.pow_succ_r, (Z.mul_comm 256) by lia.
    assert (0 < 256 ^ Z.of_nat n) by (apply Z.pow_pos_nonneg; lia).
    rewrite !Z.rem_mul_r by lia. rewrite compare_digits by (apply Z.mod_pos_bound; lia). done.
Qed.

Lemma compare_checkpointKey v1 v2 : 0 <= v1 < 2 ^ 64 -> 0 <= v2 < 2 ^ 64 ->
  String.compare (checkpointKey v1) (checkpointKey v2) = (v1 ?= v2).
Proof.
  intros H1 H2. change (String.compare (checkpointKey v1) (checkpointKey v2)) with (String.compare (be_bytes 8 v1) (be_bytes 8 v2)).
  rewrite compare_be. change (256 ^ Z.of_nat 8) with (2 ^ 64). by rewrite !Z.mod_small.
Qed.

Lemma checkpointKey_range v : in_range checkpointPrefix checkpointEnd (checkpointKey v) = true.
Proof. done. Qed.

Lemma checkpointKey_le v1 v2 : 0 <= v1 < 2 ^ 64 -> 0 <= v2 < 2 ^ 64 ->
  String.le (checkpointKey v1) (checkpointKey v2) <-> v1 <= v2.
Proof.
  intros H1 H2. unfold String.le, String.leb. rewrite compare_checkpointKey by done.
  destruct (Z.compare_spec v1 v2); split; try done; lia.
Qed.

Lemma checkpointKey_inj v1 v2 : 0 <= v1 < 2 ^ 64 -> 0 <= v2 < 2 ^ 64 -> checkpointKey v1 = checkpointKey v2 -> v1 = v2.
Proof.
  intros H1 H2 E. pose proof (compare_checkpointKey v1 v2 H1 H2) as C. rewrite E in C.
  rewrite compare_checkpointKey, Z.compare_refl in C by done. by apply eq_sym, Z.compare_eq_iff in C.
Qed.

(** ** The key just past a key *)

Lemma leb_succ a : forall b, String.leb (a +:+ String "000" "") b = negb (String.leb b a).
Proof.
  induction a as [|x a IH]; intros [|c b]; try done.
  - change ("" +:+ String "000" "") with (String "000" ""). unfold String.leb. cbn [String.compare].
    rewrite ascii_compare. change (byte_Z "000") with 0. pose proof (byte_Z_range c).
    destruct (Z.compare_spec 0 (byte_Z c)); [by destruct b|done|lia].
  - rewrite string_app_cons. unfold String.leb in *. cbn [String.compare]. rewrite (ascii_compare x c), (ascii_compare c x).
    rewrite (Z.compare_antisym (byte_Z c)). destruct (byte_Z c ?= byte_Z x); cbn [CompOpp]; [apply IH|done|done].
Qed.

(** ** Ranges *)

Lemma StronglySorted_filter {A} (R : relation A) (P : A -> Prop) `{!forall x, Decision (P x)} l :
  StronglySorted R l -> StronglySorted R (filter P l).
Proof.
  induction 1 as [|x l Hs IH Hx]; [constructor|]. rewrite filter_cons. destruct (decide (P x)); [|done].
  constructor; [done|]. apply Forall_forall. intros y [_ Hy]%list_elem_of_filter. by eapply Forall_forall in Hx.
Qed.

Lemma range_perm b lo hi : range b lo hi ≡ₚ map_to_list (filter (fun kv => in_range lo hi kv.1 = true) b).
Proof. apply merge_sort_Permutation. Qed.
Lemma range_nodup b lo hi : NoDup (range b lo hi).*1.
Proof. rewrite range_perm. apply NoDup_fst_map_to_list. Qed.
Lemma range_sorted b lo hi : StronglySorted key_le (range b lo hi).
Proof.
  assert (Transitive (@key_le string)) by (intros x y z; unfold key_le; apply String.le_po).
  assert (Total (@key_le string)) by (intros x y; unfold key_le; apply String.le_total).
  by apply StronglySorted_merge_sort.
Qed.
Lemma range_elem b lo hi kv : kv ∈ range b lo hi <-> b !! kv.1 = Some kv.2 /\ in_range lo hi kv.1 = true.
Proof.
  rewrite range_perm. destruct kv as [k v]. rewrite elem_of_map_to_list, map_lookup_filter_Some. done.
Qed.
Lemma range_length b lo hi : (length (range b lo hi) <= size b)%nat.
Proof.
  rewrite range_perm, length_map_to_list. apply map_subseteq_size, map_filter_subseteq.
Qed.

(** A list sorted by distinct keys that holds the records of a range is
    that range. *)
Lemma range_unique b lo hi l :
  StronglySorted key_le l -> NoDup l.*1 ->
  (forall kv, kv ∈ l <-> b !! kv.1 = Some kv.2 /\ in_range lo hi kv.1 = true) -> range b lo hi = l.
Proof.
  intros Hs Hn He. rewrite <- (merge_sort_sorted l Hn Hs). rewrite <- (merge_sort_sorted (range b lo hi)) by
    (apply range_nodup || apply range_sorted).
  apply merge_sort_key_perm; [apply range_nodup|]. apply NoDup_Permutation.
  - apply (NoDup_fmap_1 fst), range_nodup.
  - by apply (NoDup_fmap_1 fst).
  - intros kv. by rewrite range_elem, He.
Qed.

(** A page, and the scan that starts just past it. *)
Lemma range_next b lo hi n final :
  last (take n (range b lo hi)) = Some final -> range b (final.1 +:+ String "000" "") hi = drop n (range b lo hi).
Proof.
  intros Hl. pose proof (range_sorted b lo hi) as Hs. pose proof (range_nodup b lo hi) as Hn.
  pose proof (fun kv => range_elem b lo hi kv) as He. apply last_Some in Hl as [l1 Hl].
  set (l2 := drop n (range b lo hi)). assert (range b lo hi = (l1 ++ [final]) ++ l2) as E by (unfold l2; by rewrite <- Hl, take_drop).
  clearbody l2. clear Hl. rewrite E in Hs, Hn. setoid_rewrite E in He. clear E.
  apply StronglySorted_app in Hs as (Hx & Hs1 & Hs2). rewrite fmap_app, NoDup_app in Hn. destruct Hn as (_ & Hd & Hn2).
  assert (forall kv, kv ∈ l1 ++ [final] -> String.leb kv.1 final.1 = true) as Hle.
  { intros kv Hkv. apply StronglySorted_app in Hs1 as (Hxf & _ & _). apply elem_of_app in Hkv as [Hkv|Hkv].
    - apply Is_true_true, (Hxf kv final Hkv). by apply list_elem_of_singleton.
    - apply list_elem_of_singleton in Hkv as ->. apply Is_true_true. by apply (reflexivity (R := String.le)). }
  assert (forall kv, kv ∈ l2 -> String.leb kv.1 final.1 = false) as Hgt.
  { intros kv Hkv. destruct (String.leb kv.1 final.1) eqn:E; [exfalso|done].
    assert (key_le final kv) as Hk by (apply Hx; [apply elem_of_app; right; by apply list_elem_of_singleton|done]).
    assert (final.1 = kv.1) as Ek by (apply (anti_symm String.le); [done|by apply Is_true_true]).
    apply (Hd final.1); [|rewrite Ek; by apply list_elem_of_fmap_2]. apply list_elem_of_fmap_2.
    apply elem_of_app. right. by apply list_elem_of_singleton. }
  apply range_unique; [done..|]. intros kv. unfold in_range. rewrite leb_succ. split.
  - intros Hkv. rewrite (Hgt _ Hkv). cbn. assert (kv ∈ (l1 ++ [final]) ++ l2) as Hall by (apply elem_of_app; by right).
    apply He in Hall as [H1 H2]. unfold in_range in H2. apply andb_true_iff in H2 as [_ H2]. done.
  - intros [H1 H2]. apply andb_true_iff in H2 as [H2 H3]. apply negb_true_iff in H2.
    assert (kv ∈ (l1 ++ [final]) ++ l2) as Hall.
    { apply He. split; [done|]. unfold in_range. rewrite H3, andb_true_r. apply Is_true_true.
      assert (final ∈ (l1 ++ [final]) ++ l2) as Hf.
      { rewrite !elem_of_app. left; right. by apply list_elem_of_singleton. }
      apply He in Hf as [_ Hf]. unfold in_range in Hf. apply andb_true_iff in Hf as [Hf _].
      trans final.1; [by apply Is_true_true|]. destruct (String.leb_total final.1 kv.1) as [E|E]; [by apply Is_true_true|congruence]. }
    apply elem_of_app in Hall as [Hk|Hk]; [|done]. apply Hle in Hk. congruence.
Qed.

(** A record past every other joins the range at its end. *)
Lemma range_insert_last b lo hi k v :
  in_range lo hi k = true -> (forall kv, kv ∈ range b lo hi -> key_le kv (k, v) /\ kv.1 <> k) ->
  range (<[k := v]> b) lo hi = range b lo hi ++ [(k, v)].
Proof.
  intros Hin Hlt. apply range_unique.
  - apply StronglySorted_app. split_and!; [|apply range_sorted|repeat constructor].
    intros x y Hx Hy. apply list_elem_of_singleton in Hy as ->. by apply Hlt.
  - rewrite fmap_app, NoDup_app. split_and!; [apply range_nodup| |apply NoDup_singleton].
    intros x Hx Hy. apply list_elem_of_singleton in Hy as ->. apply list_elem_of_fmap in Hx as (kv & E & Hkv).
    by apply (Hlt _ Hkv).
  - intros [k' v']. cbn [fst snd]. rewrite elem_of_app, range_elem, list_elem_of_singleton. cbn [fst snd].
    destruct (decide (k' = k)) as [->|Hne].
    + rewrite lookup_insert_eq. split.
      * intros [[Hb Hr]|[= ->]]; [|done]. exfalso. apply (Hlt (k, v')); [by apply range_elem|done].
      * intros [[= ->] _]. by right.
    + rewrite lookup_insert_ne by done. split; [intros [?|[= -> ->]]; done|]. by left.
Qed.
