(* ===== verification/CheckpointChain.v ===== *)
(** * The chain of checkpoints

    Across issues, commits and restarts, the checkpoints the register
    holds are one chain: each genuine, each naming the version and root of
    the one before it, the newest being the one the register links the
    next to. *)

From S2P Require Import Prelude GoStrings Float64 Encoding Canon Json Decimal SqlText Sql Rbac JsonSchema Pack Model World Concrete Commit Replay Byok GoJson Records Landing Anchors Checkpoints Ranges CheckpointsCorrect.
Local Open Scope Z_scope.

(** Newest first, each checkpoint names the one after it in the list. *)
Fixpoint linked (l : list SignedCheckpoint) : Prop :=
  match l with
  | [] => True
  | sc :: l =>
      cp_Previous (sc_Checkpoint sc) = ref_of <$> head l /\
      (forall p, head l = Some p -> cp_Version (sc_Checkpoint p) < cp_Version (sc_Checkpoint sc)) /\ linked l
  end.

Section chain.
Context `{Runtime} `{!Ledger}.
Variable r : Register.
Abbreviation pub := (ed25519_public (mat_Signer (mat r))).

(** The configuration is text. *)
Record register_text : Prop := {
  rt_name : valid_utf8 (opt_Name (opts r)) = true;
  rt_image : valid_utf8 (opt_ImageDigest (opts r)) = true;
  rt_source : valid_utf8 (opt_KeySource (opts r)) = true;
  rt_pack : valid_utf8 (pk_Name (pk r) +:+ " " +:+ pk_Version (pk r)) = true;
  rt_key : valid_utf8 (mat_KeyID (mat r)) = true;
}.

(** A state a checkpoint can be taken of: a 64-bit version, a root in
    text, well-formed tables of fewer than 10^15 rows. *)
Record issuable (w : world) : Prop := {
  is_version : uint64 (version w);
  is_root : valid_utf8 (root w) = true;
  is_store : store_wf w;
  is_small : forall t m, visible w !! t = Some m -> Z.of_nat (size m) < 10 ^ 15;
}.

Definition text_of_record (sc : SignedCheckpoint) : string := match go_json (signed_value sc) with Ok t => t | Err _ => "" end.
Definition record_of (sc : SignedCheckpoint) : string * string := (checkpointKey (cp_Version (sc_Checkpoint sc)), text_of_record sc).

(** The invariant: the records are the texts of a chain of genuine
    checkpoints, none past the current version, of which the latest in
    memory is the newest. *)
Definition holds_chain (w : world) (l : list SignedCheckpoint) : Prop :=
  linked l /\ Forall (fun sc => storable sc /\ VerifyCheckpoint pub sc = Ok tt) l /\
  records (backend w) = rev (map record_of l) /\ (ref_of <$> lastCkpt w) = (ref_of <$> head l) /\
  (forall p, head l = Some p -> cp_Version (sc_Checkpoint p) <= version w).

Lemma linked_below l : linked l -> forall sc p, head l = Some p -> sc ∈ l -> cp_Version (sc_Checkpoint sc) <= cp_Version (sc_Checkpoint p).
Proof.
  induction l as [|x l IH]; [done|]. intros (_ & Hlt & Hl) sc p [= <-] [->|Hsc]%elem_of_cons; [lia|].
  destruct l as [|y l]; [by apply elem_of_nil in Hsc|]. specialize (Hlt y eq_refl). specialize (IH Hl sc y eq_refl Hsc). lia.
Qed.

(** ** One checkpoint *)

Lemma hex_ascii s : is_ascii (hex_encode s) = true.
Proof.
  induction s as [|a s IH]; [done|]. cbn [hex_encode]. unfold is_ascii in *. cbn [bytes_of forallb]. rewrite IH, andb_true_r.
  pose proof (byte_Z_range a). assert (forall n, 0 <= n < 16 -> (byte_Z (hex_digit n) <? 128) = true) as Hd.
  { intros n Hn. unfold hex_digit. apply Z.ltb_lt. destruct (n <? 10); rewrite byte_Z_Z_byte, Z.mod_small by lia; lia. }
  rewrite !Hd; [done|apply Z.mod_pos_bound; lia|apply byte_hi_range].
Qed.

Lemma count_small c t w n w' : issuable w -> count t c w = (Ok n, w') -> 0 <= n < 10 ^ 15.
Proof.
  intros Hw E. apply count_Ok in E as (_ & m & Hm & ->). pose proof (is_small _ Hw _ _ Hm). split; [lia|].
  enough (length (select_rows c None None m) <= size m)%nat by lia. unfold select_rows. cbv zeta.
  etrans; [apply length_filter|]. rewrite sql_scan_perm. unfold rows. by rewrite length_fmap, length_map_to_list.
Qed.

Lemma seq_uint64 w m row : issuable w -> visible w !! "transactions" = Some m -> row ∈ rows m -> uint64 (Uint row "seq").
Proof.
  intros Hw Hm Hr. unfold rows in Hr. apply list_elem_of_fmap in Hr as ([k r'] & -> & Hr). apply elem_of_map_to_list in Hr.
  destruct (store_wf_visible _ (is_store _ Hw) _ _ Hm _ _ Hr) as [_ Ht]. unfold wf_row in Ht. rewrite Forall_forall in Ht.
  destruct (Ht "seq") as (ty & Ety & Hty); [by apply list_elem_of_singleton|]. injection Ety as <-. unfold Uint. cbn [snd].
  destruct (cell r' "seq") as [|z|?|?]; try done. change (0 <= z <= 2 ^ 64 - 1) in Hty. unfold uint64.
  destruct (Z.ltb_spec z 0); lia.
Qed.

Lemma issued_storable reason w sc w' :
  register_text -> issuable w -> valid_utf8 reason = true ->
  (forall p, ref_of <$> lastCkpt w = Some p -> uint64 (cr_Version p) /\ valid_utf8 (cr_Root p) = true) ->
  issued r reason w sc w' -> storable sc.
Proof.
  intros Hr Hw Hreason Hprev (summary & seq & hd & body & b & Es & Eh & Ec & Esign & _).
  apply summary_shape in Es as (d & o & pr & t & -> & Et & Eo & Ep & Ed & Hseq).
  apply (count_small _ _ _ _ _ Hw) in Et, Eo, Ep, Ed.
  assert (sc_KeyID sc = mat_KeyID (mat r) /\ sc_Algorithm sc = Algorithm /\ valid_utf8 (sc_Signature sc) = true) as (Hk & Ha & Hs).
  { unfold Sign in Esign. res_inv. match goal with H : mkSigned _ _ _ _ = sc |- _ => rewrite <- H end. split_and!; try done. apply ascii_to_valid, base64_ascii. }
  split; rewrite ?Hk, ?Ha, ?Ec; cbn [cp_Version cp_IssuedAt cp_TxSeq cp_Register cp_Root cp_Head cp_Reason cp_ImageDigest cp_Summary cp_Previous];
    try by apply Hr. all: try by apply Hw.
  - apply clock_int64.
  - destruct Hseq as [->|(m & row & Hm & Hrow & ->)]; [by unfold uint64|]. by eapply seq_uint64.
  - unfold HistoryHead in Eh. destruct history_enabled; cbn [negb] in Eh.
    + rewrite gets_bind, lift_bind in Eh. destruct (history_head _); [|done]. apply M_ret_inv in Eh as [[= ->] _]. apply ascii_to_valid, hex_ascii.
    + by apply M_ret_inv in Eh as [[= ->] _].
  - done.
  - apply (bool_decide_unpack _). vm_compute. exact I.
  - repeat apply Forall_cons_2; try apply Forall_nil_2; cbn [fst snd]; (split; [split; vm_compute; reflexivity|]); constructor; try done; by apply Hr.
  - exact Hprev.
  - done.
  - done.
Qed.

(** ** Steps *)

Lemma records_issue b v t :
  uint64 v -> (forall kv, kv ∈ records b -> exists v', uint64 v' /\ v' < v /\ kv.1 = checkpointKey v') ->
  records (<[checkpointKey v := t]> b) = records b ++ [(checkpointKey v, t)].
Proof.
  intros Hv Hb. apply range_insert_last; [apply checkpointKey_range|]. intros [k x] Hkv.
  destruct (Hb _ Hkv) as (v' & Hv' & Hlt & E). cbn [fst] in E. subst k.
  split; [|cbn; intros E; apply checkpointKey_inj in E; [lia|done|done]]. unfold key_le. cbn [fst]. apply checkpointKey_le; [done|done|lia].
Qed.

(** The newest checkpoint of a chain is of an earlier version than a
    state that has moved since. *)
Lemma unmoved_head w l p :
  holds_chain w l -> unmoved w = false -> head l = Some p -> storable p /\ cp_Version (sc_Checkpoint p) < version w.
Proof.
  intros (Hl & Hf & Hb & Hc & Hv) Hu Ep. rewrite Forall_forall in Hf. split; [apply Hf, (head_Some_elem_of _ _ Ep)|].
  specialize (Hv p Ep). unfold unmoved in Hu. rewrite Ep in Hc. destruct (lastCkpt w) as [q|]; [|done].
  cbn in Hc. injection Hc as Hc _. apply Z.eqb_neq in Hu. lia.
Qed.

Lemma holds_issued reason w sc w' l :
  register_text -> issuable w -> valid_utf8 reason = true -> holds_chain w l ->
  unmoved w = false -> issued r reason w sc w' -> holds_chain w' (sc :: l).
Proof.
  intros Hr Hw Hre Hch Hu Hi. pose proof (fun p => unmoved_head w l p Hch Hu) as Hp. destruct Hch as (Hl & Hf & Hb & Hc & Hv).
  assert (storable sc) as Hst.
  { eapply issued_storable; try done. intros p Ep. rewrite Hc in Ep. destruct (head l) as [q|] eqn:Eq; [|done].
    injection Ep as <-. destruct (Hp q eq_refl) as [Hq _]. split; apply Hq. }
  destruct Hi as (summary & seq & hd & body & b & _ & _ & Ec & Esign & Ej & Ew & ->).
  apply backend_write_Ok in Ew as ->. apply Sign_verifies in Esign as [_ Hver].
  unfold holds_chain. cbn [lastCkpt backend version set_lastCkpt set_backend set_tick head map rev linked].
  rewrite records_issue; [|apply Hw|].
  - split_and!; [by rewrite Ec|intros p Ep; rewrite Ec; by apply Hp|done|by constructor| |done|intros p [= <-]; by rewrite Ec].
    rewrite Hb. f_equal. unfold record_of, text_of_record. by rewrite Ej, Ec.
  - intros kv Hkv. rewrite Hb in Hkv. apply list_elem_of_In, in_rev, list_elem_of_In in Hkv.
    apply list_elem_of_In, in_map_iff in Hkv as (p & <- & Hpl). apply list_elem_of_In in Hpl.
    exists (cp_Version (sc_Checkpoint p)). rewrite Forall_forall in Hf. split; [by apply Hf|]. split; [|done].
    destruct (head l) as [q|] eqn:Eq; [|destruct l; [by apply elem_of_nil in Hpl|done]].
    pose proof (linked_below l Hl p q Eq Hpl). destruct (Hp q eq_refl). lia.
Qed.

(** Issuing keeps a chain, and a chain is kept by whatever leaves the
    records and the latest checkpoint alone and does not turn the version
    back. *)
Lemma holds_aside w w' l :
  backend w' = backend w -> lastCkpt w' = lastCkpt w -> version w <= version w' -> holds_chain w l -> holds_chain w' l.
Proof.
  intros Eb El Ev (Hl & Hf & Hb & Hc & Hv). unfold holds_chain. rewrite Eb, El. split_and!; try done.
  intros p Ep. specialize (Hv p Ep). lia.
Qed.

Lemma holds_issue reason w res w' l :
  register_text -> issuable w -> valid_utf8 reason = true -> holds_chain w l ->
  issueCheckpoint r reason w = (res, w') -> exists l', holds_chain w' l'.
Proof.
  intros Hr Hw Hre Hch E.
  assert ((forall sc, res <> Ok (Some sc)) -> exists l', holds_chain w' l') as Hother.
  { intros Hn. apply issueCheckpoint_other in E as ((_ & Ev & _ & _ & El & _) & Ebk & _); [|done].
    exists l. apply (holds_aside w); [done|done|lia|done]. }
  destruct res as [[sc|]|e]; [|by apply Hother..]. apply issueCheckpoint_Some in E as [Hu Hi].
  exists (sc :: l). by eapply holds_issued.
Qed.

(** What the records decode to. *)
Lemma read_records w l : holds_chain w l -> read_page (records (backend w)) = Ok (rev (map reload l)).
Proof.
  intros (_ & Hf & Hb & _). rewrite Hb, <- map_rev. unfold read_page. rewrite map_map. apply collect_Forall2.
  rewrite <- map_rev. assert (Forall storable (rev l)) as Hs.
  { apply Forall_rev. eapply Forall_impl; [exact Hf|]. by intros sc [? _]. }
  induction Hs as [|sc l' Hsc _ IH]; [constructor|]. cbn [map]. constructor; [|exact IH].
  destruct (read_record_text sc Hsc) as (t & Et & Er). unfold record_of, text_of_record. cbn [snd]. rewrite Et. by apply wrapped_Ok.
Qed.
(** ** The life of a register *)

(** A checkpoint is issued; something else happens that leaves the
    records and the latest checkpoint alone; or the process restarts and
    loads the latest checkpoint back. *)
Inductive chain_step : world -> world -> Prop :=
  | step_issue reason res w w' :
      issuable w -> valid_utf8 reason = true -> IssueCheckpoint r reason w = (res, w') -> chain_step w w'
  | step_other w w' :
      backend w' = backend w -> lastCkpt w' = lastCkpt w -> version w <= version w' -> chain_step w w'
  | step_restart w w' : loadLastCheckpoint (set_lastCkpt None w) = (Ok tt, w') -> chain_step w w'.

(** Every commit is such a step. *)
Lemma commit_step env ops res w w' : commit env ops w = (res, w') -> version w <= version w' -> chain_step w w'.
Proof. intros E Hv. pose proof (same_aside_commit _ _ _ _ _ E) as Ha. injection Ha as _ El Eb _. by apply step_other. Qed.

Lemma moved_step w db v rt : version w <= v -> chain_step w (set_ledger db v rt w).
Proof. intros Hv. by apply step_other. Qed.

Lemma set_ledger_committed db v rt w : committed (set_ledger db v rt w) = db.
Proof. done. Qed.

Lemma ref_reload (o : option SignedCheckpoint) : ref_of <$> (reload <$> o) = ref_of <$> o.
Proof. by destruct o. Qed.
Lemma head_map {A B} (f : A -> B) l : head (map f l) = f <$> head l.
Proof. by destruct l. Qed.

Lemma linked_reload l : linked l -> linked (map reload l).
Proof.
  induction l as [|sc l IH]; [done|]. intros (Hp & Hlt & Hl). cbn [map linked]. rewrite head_map, ref_reload. split_and!; [done| |by apply IH].
  intros p Ep. destruct (head l) as [q|]; [|done]. injection Ep as <-. by apply (Hlt q).
Qed.

Lemma reading w l limit : (forall b, answers b) -> holds_chain w l -> readCheckpoints limit true w = (Ok (cut limit (map reload l)), w).
Proof.
  intros Ha Hch. unfold readCheckpoints. rewrite gets_bind, lift_bind, scan_all_records by done.
  rewrite (read_records _ _ Hch), rev_involutive. done.
Qed.

Lemma cut_one sc l : cut 1 (sc :: l) = [sc].
Proof. unfold cut. destruct l as [|x l]; [done|]. cbn [length]. destruct (Z.ltb_spec 1 (Z.of_nat (S (S (length l))))); [done|lia]. Qed.

Lemma holds_restart w w' l :
  (forall b, answers b) -> holds_chain w l -> loadLastCheckpoint (set_lastCkpt None w) = (Ok tt, w') -> holds_chain w' l.
Proof.
  intros Ha Hch E. assert (readCheckpoints 1 true (set_lastCkpt None w) = (Ok (cut 1 (map reload l)), set_lastCkpt None w)) as Er.
  { unfold readCheckpoints. rewrite gets_bind, lift_bind, scan_all_records by done. cbn [backend set_lastCkpt].
    by rewrite (read_records _ _ Hch), rev_involutive. }
  unfold loadLastCheckpoint, Do, mbind, M_bind in E. rewrite Er in E. destruct Hch as (Hl & Hf & Hb & Hc & Hv).
  destruct l as [|sc l].
  - injection E as <-. unfold holds_chain. by split_and!.
  - assert (exists rest, cut 1 (map reload (sc :: l)) = reload sc :: rest) as [rest Ec] by (eexists; apply cut_one).
    rewrite Ec in E. injection E as <-. unfold holds_chain. by split_and!.
Qed.

(** C14. The register's checkpoints are one chain. From a register that has
    none, through any sequence of issues, commits (and other operations
    that leave the checkpoints alone) and restarts, reading them back
    newest first gives a list in which every checkpoint verifies under
    the published key, states an earlier version than the one before it
    in the list, and names the version and root of the next; the first
    states no version past the current one and is the one the next
    checkpoint will name. *)
Theorem checkpoint_chain (w w' : world) :
  register_text -> (forall b, answers b) -> backend w = ∅ -> lastCkpt w = None -> rtc chain_step w w' ->
  exists l, readCheckpoints 0 true w' = (Ok l, w') /\ linked l /\ Forall (fun sc => VerifyCheckpoint pub sc = Ok tt) l /\
    ref_of <$> lastCkpt w' = ref_of <$> head l /\ (forall p, head l = Some p -> cp_Version (sc_Checkpoint p) <= version w').
Proof.
  intros Hr Ha Hb0 Hc0 Hrun. assert (exists l, holds_chain w l) as Hinit.
  { exists []. unfold holds_chain. rewrite Hb0, Hc0. split_and!; done. }
  assert (exists l, holds_chain w' l) as [l Hch].
  { clear Hb0 Hc0. induction Hrun as [|w w1 w' Hs _ IH]; [done|]. apply IH. destruct Hinit as [l Hch]. destruct Hs as [reason res w w1 Hi Hre E|w w1|w w1].
    - unfold IssueCheckpoint, Do, mbind, M_bind in E. destruct (issueCheckpoint r reason w) as [res1 w2] eqn:E1.
      destruct (holds_issue _ _ _ _ _ Hr Hi Hre Hch E1) as [l' Hl']. exists l'. apply (holds_aside w2); [..|exact Hl'].
      all: destruct res1 as [[sc|]|e]; injection E as _ <-; (done || cbn; lia).
    - exists l. by eapply holds_aside.
    - exists l. by eapply holds_restart. }
  exists (map reload l). pose proof (reading w' l 0 Ha Hch) as Er. destruct Hch as (Hl & Hf & _ & Hc & Hv). split_and!.
  - exact Er.
  - by apply linked_reload.
  - apply Forall_map. eapply Forall_impl; [exact Hf|]. cbn beta. intros sc [Hs Hver]. unfold compose. by rewrite reload_verifies.
  - by rewrite head_map, ref_reload.
  - intros p Ep. rewrite head_map in Ep. destruct (head l) as [q|]; [|done]. injection Ep as <-. by apply (Hv q).
Qed.
End chain.

(** ** A run *)
Lemma plain_scans (b : gmap string string) : @answers plain_runtime plain_ledger b.
Proof. intros lo. by eexists. Qed.

Lemma anchor_register_text : register_text anchor_register.
Proof. split; vm_compute; reflexivity. Qed.

Lemma empty_issuable w : committed w = empty_tables -> txn w = None -> uint64 (version w) -> valid_utf8 (root w) = true -> issuable w.
Proof.
  intros Hc Ht Hv Hr. split; [done|done| |].
  - split; [rewrite Hc; apply (@empty_tables_wf plain_engine)|by rewrite Ht].
  - unfold visible. rewrite Ht, Hc. intros t m Hm. apply elem_of_list_to_map_2 in Hm. apply list_elem_of_fmap in Hm as ([t' d] & [= -> ->] & _).
    change (Z.of_nat (size (∅ : table))) with 0. lia.
Qed.

Definition chain_run_issue (w : world) : res (option SignedCheckpoint) * world :=
  @IssueCheckpoint plain_runtime plain_ledger anchor_register ReasonEvent w.
Definition chain_issue (w : world) : world := (chain_run_issue w).2.
(** A checkpoint, a commit's worth of movement, another checkpoint. *)
Definition chain1 : world := chain_issue fresh_world.
Definition chain2 : world := set_ledger empty_tables 2 (plain_root 2) chain1.
Definition chain3 : world := chain_issue chain2.

Lemma chain2_tables : committed chain2 = empty_tables.
Proof. exact (set_ledger_committed empty_tables 2 (plain_root 2) chain1). Qed.

Lemma chain_run : rtc (@chain_step plain_runtime plain_ledger anchor_register) fresh_world chain3.
Proof.
  eapply rtc_l; [|eapply rtc_l; [|eapply rtc_l; [|apply rtc_refl]]].
  - apply (@step_issue plain_runtime plain_ledger anchor_register ReasonEvent (chain_run_issue fresh_world).1 fresh_world chain1).
    + apply empty_issuable; [done|done|split; vm_compute; [discriminate|reflexivity]|vm_compute; reflexivity].
    + vm_compute. reflexivity.
    + apply surjective_pairing.
  - exact (@moved_step plain_runtime plain_ledger anchor_register chain1 empty_tables 2 (plain_root 2) ltac:(vm_compute; discriminate)).
  - apply (@step_issue plain_runtime plain_ledger anchor_register ReasonEvent (chain_run_issue chain2).1 chain2 chain3).
    + apply empty_issuable; [exact chain2_tables|reflexivity|split; vm_compute; [discriminate|reflexivity]|vm_compute; reflexivity].
    + vm_compute. reflexivity.
    + apply surjective_pairing.
Qed.

Lemma checkpoint_chain_witness :
  rtc (@chain_step plain_runtime plain_ledger anchor_register) fresh_world chain3 /\
  exists l, @readCheckpoints plain_runtime plain_ledger 0 true chain3 = (Ok l, chain3) /\ linked l /\
    Forall (fun sc => @VerifyCheckpoint plain_crypto "signer" sc = Ok tt) l /\
    ref_of <$> lastCkpt chain3 = ref_of <$> head l /\ (forall p, head l = Some p -> cp_Version (sc_Checkpoint p) <= version chain3).
Proof.
  split; [exact chain_run|].
  exact (@checkpoint_chain plain_runtime plain_ledger anchor_register fresh_world chain3 anchor_register_text plain_scans eq_refl eq_refl chain_run).
Defined.
