(* ===== verification/Auditing.v ===== *)
(** * Evidence and the audit surface ([query.go], [audit.go], [store.go])

    Verified reads: a row with the proof that it is part of the register's
    authenticated state, signed and anchored to a checkpoint of exactly
    that state. And what an auditor asks of the register: its position in
    its own history, the recorded roots, the changes of one commit, and
    closing an audit period, in which verification gates the prune. *)

From S2P Require Import Prelude GoStrings Float64 Encoding Canon Json Decimal SqlText Sql Rbac JsonSchema Pack Model World Concrete Commit Byok GoJson Records Workflow Anchors Checkpoints.
Local Open Scope Z_scope.

Record LineageReport := mkLineage {
  ln_Enabled : bool;
  ln_Head : string;
  ln_Version : Z;
  ln_Root : string;
  ln_Path : string;
  ln_Proof : string;
  ln_Anchor : option SignedCheckpoint;
}.
Record RootRange := mkRootRange { rr_From : Z; rr_To : Z; rr_Roots : list string }.
Record Change := mkChange { ch_Path : string; ch_Deleted : bool; ch_Bytes : Z; ch_Digest : string; ch_Value : string }.
Record Transition := mkTransition { tn_Version : Z; tn_Root : string; tn_Changes : list Change }.
Record AuditRequest := mkAuditRequest { aq_FromVersion : Z; aq_FromHead : string; aq_Collect : bool; aq_Message : string }.
Record AuditResult := mkAuditResult {
  as_Verified : bool;
  as_FromVersion : Z;
  as_ToVersion : Z;
  as_Anchor : option SignedCheckpoint;
  as_Collected : bool;
  as_RecordsRemoved : Z;
  as_Transaction : option Transaction;
}.

(** [MaxRootRange]. *)
Definition MaxRootRange : Z := 5000.

(** [verifiedColumns] and [tableColumns]. *)
Definition verifiedColumns : list (string * list string) := [
  ("record_versions", ["object_id"; "version"; "txid"; "schema_id"; "created_at"; "status";
     "payload_hash"; "payload"; "enc_scope"; "pruned"; "prune_policy"]);
  ("natural_keys", ["tenant"; "class"; "natural_key"; "object_id"; "updated_at"]);
  ("objects", ["id"; "tenant"; "class"; "natural_key"; "head_version"; "status";
     "created_at"; "updated_at"; "created_tx"; "updated_tx"; "erased"])].
Definition tableColumns (table : string) (n : nat) : list string :=
  let unnamed := (fun i => "column_" +:+ itoa (Z.of_nat i)) <$> seq 0 n in
  match assoc table verifiedColumns with
  | Some cols => if (length cols =? n)%nat then cols else unnamed
  | None => unnamed
  end.

Section audit.
Context `{Runtime} `{!Ledger}.
Variable r : Register.

(** [Tx.Prove]. *)
Definition ledger_path (key : string) : string := bytes32 (hmac_sha256 commitment_key ("p" +:+ key)).
Definition Prove (key : string) : M (string * proof) :=
  ps ← gets position_of;
  pf ← lift (ledger_prove ps key);
  let path := ledger_path key in
  let disagrees := match proof_leaf pf with
                   | Some leaf => negb (String.eqb leaf path) && (match ledger_get ps key with Ok (Some _) => true | _ => false end)
                   | None => false
                   end in
  _ ← guard_ disagrees (Errorf "store: leaf position disagrees with the ledger for key %q" [key]);
  mret (path, pf).

(** [Tx.VerifyHistory]: an empty head is the genesis head of zeros. *)
Definition VerifyHistory (fromVersion : Z) (fromHead : string) : M unit :=
  _ ← guard_ (negb history_enabled) (Errorf "store: this register has no lineage chain" []);
  head ← lift (if negb (String.eqb fromHead "") then wrapped "store: anchor head: %w" [] (ParseHash fromHead)
               else if negb (fromVersion =? 0) then Err (Errorf "store: an anchor at version %d needs its head" [itoa fromVersion])
               else Ok (bytes32 ""));
  ps ← gets position_of;
  lift (match verify_history ps fromVersion head with Some e => Err e | None => Ok tt end).

(** [Tx.RootAt]. *)
Definition RootAt (v : Z) : M string := ps ← gets position_of; rt ← lift (root_at ps v); mret (hex_encode rt).

(** ** Verified reads ([query.go]) *)

(** [Evidence]. *)
Definition evidence_row (table : string) (row : option (list value)) : object :=
  match row with Some cells => zip (tableColumns table (length cells)) cells | None => [] end.
Definition evidence_tx (table : string) (pk : list value) (statement : string) : M EvidenceBundle :=
  anchor ← anchorCurrentState r;
  ps ← gets position_of;
  verified ← lift (verified_get ps table pk);
  proved ← Prove (vr_Key verified);
  at_root ← current;
  at_ ← now;
  let bundle := mkBundle (opt_Name (opts r)) statement table pk (match vr_Row verified with Some _ => true | None => false end)
    (evidence_row table (vr_Row verified)) (hex_encode (vr_Key verified)) (hex_encode (default "" (vr_Value verified)))
    (hex_encode proved.1) (hex_encode (proof_encode proved.2)) at_root.1 at_root.2 at_ anchor "" "" "" in
  lift (SignBundle (mat_Signer (mat r)) (mat_KeyID (mat r)) bundle).
Definition Evidence (p : Principal) (table : string) (pk : list value) (statement : string) : M EvidenceBundle :=
  _ ← guard_ (negb (Can p PermProofs)) (Errorf "%s may not fetch proofs" [Acting p]);
  Do (evidence_tx table pk statement).

(** [RecordEvidence] and [NaturalKeyEvidence]. *)
Definition RecordEvidence (p : Principal) (objectID : string) (version : Z) : M EvidenceBundle :=
  Evidence p "record_versions" [VStr objectID; VInt version] ("version " +:+ itoa version +:+ " of record " +:+ objectID).
Definition NaturalKeyEvidence (p : Principal) (class naturalKey : string) : M EvidenceBundle :=
  c ← lift (of_option (Class (pk r) class) (Errorf "no class named %q" [class]));
  _ ← guard_ (String.eqb (c_NaturalKey c) "") (Errorf "%s records have no natural key" [class]);
  Evidence p "natural_keys" [VStr (p_Tenant p); VStr class; VStr naturalKey]
    ("whether " +:+ c_NaturalKey c +:+ " " +:+ strconv_Quote naturalKey +:+ " is registered").

(** ** The audit surface ([audit.go]) *)

(** [Lineage]. *)
Definition lineage_tx : M LineageReport :=
  if negb history_enabled then mret (mkLineage false "" 0 "" "" "" None)
  else
    hv ← HistoryHead;
    at_root ← current;
    proved ← Prove HistoryKey;
    mret (mkLineage true hv.1 hv.2 at_root.1 (hex_encode proved.1) (hex_encode (proof_encode proved.2)) None).
Definition Lineage (p : Principal) : M LineageReport :=
  _ ← guard_ (negb (Can p PermCheckpoints) && negb (Can p PermProofs)) (Errorf "%s may not read the lineage" [Acting p]);
  out ← Do lineage_tx;
  anchor ← LatestCheckpoint;
  mret (mkLineage (ln_Enabled out) (ln_Head out) (ln_Version out) (ln_Root out) (ln_Path out) (ln_Proof out) anchor).

(** [Roots]: the roots recorded for the versions (from, to]. *)
Definition root_of_version (v : Z) : M string :=
  wrapping "version %d: %w (history before the last audit is pruned)" [itoa v] (RootAt v).
Definition roots_tx (from to_ : Z) : M RootRange :=
  at_root ← current;
  let to_ := if (to_ =? 0) || (at_root.2 <? to_) then at_root.2 else to_ in
  _ ← guard_ (to_ <? from) (Errorf "from_version %d is after to_version %d" [itoa from; itoa to_]);
  _ ← guard_ (MaxRootRange <? to_ - from)
        (Errorf "range of %d versions exceeds the %d this endpoint serves at once" [itoa (to_ - from); itoa MaxRootRange]);
  roots ← traverse root_of_version (seqZ (from + 1) (to_ - from));
  mret (mkRootRange from to_ roots).
Definition Roots (p : Principal) (from to_ : Z) : M RootRange :=
  _ ← guard_ (negb (Can p PermProofs) && negb (Can p PermCheckpoints)) (Errorf "%s may not read the root sequence" [Acting p]);
  Do (roots_tx from to_).

(** [VerifyLineage]. *)
Definition VerifyLineage (p : Principal) (fromVersion : Z) (fromHead : string) : M unit :=
  _ ← guard_ (negb (Can p PermCheckpoints)) (Errorf "%s may not verify the lineage" [Acting p]);
  Do (VerifyHistory fromVersion fromHead).

(** [ChangesAt]. *)
Definition change_of (withValues : bool) (c : ledger_change) : Change :=
  if lc_Deleted c then mkChange (hex_encode (lc_Path c)) true 0 "" ""
  else mkChange (hex_encode (lc_Path c)) false (len (lc_Value c)) (hex_encode (sha256 (lc_Value c)))
         (if withValues then hex_encode (lc_Value c) else "").
Definition ChangesAt (p : Principal) (v : Z) (withValues : bool) : M Transition :=
  _ ← guard_ (negb (Can p PermExplorer) && negb (Can p PermProofs)) (Errorf "%s may not read transitions" [Acting p]);
  _ ← guard_ (withValues && negb (PII p && Can p PermAdmin))
        (Errorf "%s may not read raw values: that needs both the administrative permission and clearance for personal data" [Acting p]);
  Do (ps ← gets position_of;
      changes ← lift (changes_at ps v);
      rt ← RootAt v;
      mret (mkTransition v rt (change_of withValues <$> changes))).

(** [Audit]: verify, anchor, commit, and only then prune. *)
Definition audit_env (p : Principal) (req : AuditRequest) (anchor : Checkpoint) (at_ : Z) : Envelope :=
  let toVersion := cp_Version anchor in
  let summary := if String.eqb (aq_Message req) "" then "Close audit at version " +:+ itoa toVersion else aq_Message req in
  let body := "Lineage verified from version " +:+ itoa (aq_FromVersion req) +:+ " to " +:+ itoa toVersion
    +:+ " against the anchored head." +:+ nl +:+ "Root " +:+ cp_Root anchor +:+ "." +:+ nl +:+ "Head " +:+ cp_Head anchor +:+ "." in
  let body := if aq_Collect req
    then body +:+ nl +:+ "Audited history collected: superseded and erased content before this version is physically removed, and this anchor stands in for it."
    else body in
  mkEnvelope KindAudit (p_Tenant p) "" "" [] (principalAuthor p) at_ (composeMessage (clip summary MaxSummary) body) [].
(** [Ledger.Prune]: the history before [v] goes. *)
Definition PruneHistory (v : Z) : M (Z * Z) :=
  ps ← gets position_of;
  stats ← wrapping "collect audited history: %w" [] (lift (history_prune ps v));
  _ ← modify (fun w => set_horizon (Z.max v (horizon w)) w);
  mret stats.
Definition audit_anchor : M SignedCheckpoint :=
  issued ← issueCheckpoint r ReasonAudit;
  latest ← LatestCheckpoint;
  lift (of_option (match issued with Some sc => Some sc | None => latest end) (Errorf "the audit produced no anchor" [])).
Definition audit_tx (p : Principal) (req : AuditRequest) : M AuditResult :=
  _ ← guard_ (negb history_enabled)
        (Errorf "this register has no lineage chain, so there is nothing to audit against; the chain is fixed when a register is created" []);
  _ ← wrapping "lineage from version %d does not verify: %w" [itoa (aq_FromVersion req)]
        (VerifyHistory (aq_FromVersion req) (aq_FromHead req));
  anchor ← audit_anchor;
  at_ ← now;
  txn ← commit (audit_env p req (sc_Checkpoint anchor) at_) [];
  let toVersion := cp_Version (sc_Checkpoint anchor) in
  if aq_Collect req then
    stats ← PruneHistory toVersion;
    mret (mkAuditResult true (aq_FromVersion req) toVersion (Some anchor) true (to_uint64 (stats.1 + stats.2)) (Some txn))
  else mret (mkAuditResult true (aq_FromVersion req) toVersion (Some anchor) false 0 (Some txn)).
Definition Audit (p : Principal) (req : AuditRequest) : M AuditResult :=
  _ ← guard_ (negb (Can p PermCheckpoints) || negb (Can p PermRetention))
        (Errorf "%s may not close an audit: it needs both the checkpoint and the retention permissions" [Acting p]);
  result ← Do (audit_tx p req);
  _ ← (match as_Anchor result with Some sc => notify_checkpoint sc | None => mret tt end);
  mret result.
End audit.
