(* ===== verification/AuditCorrect.v ===== *)
(** * What evidence proves and what an audit keeps

    A bundle the register returns passes every offline check; and an audit
    prunes only what it has verified and anchored. *)

From S2P Require Import Prelude GoStrings Float64 Encoding Canon Json Decimal SqlText Sql Rbac JsonSchema Pack Model World Concrete Commit Replay Byok GoJson Records Landing Workflow Anchors Checkpoints Ranges CheckpointsCorrect Auditing.
Local Open Scope Z_scope.

Section evidence.
Context `{Runtime} `{!Ledger}.
Variable r : Register.
Abbreviation pub := (ed25519_public (mat_Signer (mat r))).

Lemma bytes32_id s : len s = 32 -> bytes32 s = s.
Proof. unfold len. intros Hl. unfold bytes32. replace 32%nat with (String.length s) by lia. apply str_take_app_l. Qed.

Lemma str_take_length n : forall s, (n <= String.length s)%nat -> String.length (str_take n s) = n.
Proof.
  induction n as [|n IH]; intros [|c s] Hn; cbn [String.length] in Hn; try done; [lia|].
  rewrite str_take_S. cbn [String.length]. rewrite IH; lia.
Qed.

Lemma bytes32_length s : len (bytes32 s) = 32.
Proof.
  unfold len, bytes32. rewrite str_take_length; [done|]. rewrite string_length_app.
  change (String.length (of_bytes (repeat "000"%char 32))) with 32%nat. lia.
Qed.

Lemma hash_field_hex raw e : len raw = 32 -> hash_field (hex_encode raw) e = Ok raw.
Proof. intros Hl. unfold hash_field. rewrite hex_roundtrip, Hl. cbn [Z.eqb Pos.eqb]. by rewrite bytes32_id. Qed.

(** What the latest checkpoint must be for evidence to be anchored to it:
    genuine, and of the current root if it is of the current version. *)
Definition latest_sound (w : world) : Prop :=
  forall sc, lastCkpt w = Some sc -> VerifyCheckpoint pub sc = Ok tt /\
    (cp_Version (sc_Checkpoint sc) = version w -> cp_Root (sc_Checkpoint sc) = root w).

(** Anchoring leaves a checkpoint of exactly the current state. *)
Lemma anchor_covers w o w' :
  latest_sound w -> anchorCurrentState r w = (Ok o, w') ->
  exists sc, o = Some sc /\ VerifyCheckpoint pub sc = Ok tt /\ cp_Version (sc_Checkpoint sc) = version w /\
    cp_Root (sc_Checkpoint sc) = root w /\ position_of w' = position_of w.
Proof.
  intros Hs E. unfold anchorCurrentState in E. apply M_bind_Ok in E as (issued & w1 & Ei & E). destruct issued as [sc1|].
  - apply M_bind_Ok in E as (u & w2 & Hn & E). apply M_ret_inv in E as [[= ->] ->]. exists sc1.
    apply issueCheckpoint_Some in Ei as [_ (? & ? & ? & ? & ? & _ & _ & Ec & Esign & _ & _ & ->)].
    apply Sign_verifies in Esign as [_ Hv]. unfold notify_checkpoint, modify in Hn. injection Hn as _ <-. by rewrite Ec.
  - apply issueCheckpoint_None in Ei as [-> Hu]. injection E as <- <-. unfold unmoved in Hu.
    destruct (lastCkpt w) as [sc|] eqn:El; [|done]. apply Z.eqb_eq in Hu. exists sc. destruct (Hs sc El) as [Hver Hroot].
    split_and!; [done|done|done|by apply Hroot|done].
Qed.

(** The proof of a key, taken of the live state. *)
Lemma Prove_Ok key w path pf w' :
  Prove key w = (Ok (path, pf), w') -> w' = w /\ path = ledger_path key /\ ledger_prove (position_of w) key = Ok pf.
Proof.
  unfold Prove. intros E. rewrite gets_bind, lift_bind in E. destruct (ledger_prove _ _) as [pf0|] eqn:Ep; [|done].
  cbv zeta in E. apply M_bind_Ok in E as (u & w1 & [_ ->]%guard_Ok & E). by apply M_ret_inv in E as [[= -> ->] ->].
Qed.

(** What holds of a bundle the register returns: its proof folds to the
    root it names and shows the row present exactly when it says so; its
    signature verifies; it carries a genuine checkpoint of the version and
    root the row was read at; and producing it moved neither. *)
Lemma evidence_verifies (p : Principal) (table : string) (key : list value) (statement : string) (w w' : world) (raw : string) (b : EvidenceBundle) :
  root w = hex_encode raw -> len raw = 32 -> latest_sound w ->
  Evidence r p table key statement w = (Ok b, w') ->
  VerifyBundleProof b = Ok tt /\ VerifyBundleSignature pub b = Ok tt /\
  (exists sc, eb_Checkpoint b = Some sc /\ VerifyBundleAgainstCheckpoint b (sc_Checkpoint sc) = Ok tt /\ VerifyCheckpoint pub sc = Ok tt) /\
  eb_Version b = version w /\ eb_Root b = root w /\ eb_Table b = table /\ eb_PrimaryKey b = key /\
  position_of w' = position_of w.
Proof.
  intros Hroot Hraw Hs E. unfold Evidence in E. apply M_bind_Ok in E as (u & w1 & [_ ->]%guard_Ok & E).
  unfold Do in E. destruct (evidence_tx r table key statement w) as [res w1] eqn:Et. injection E as -> <-.
  unfold evidence_tx in Et. apply M_bind_Ok in Et as (o & w2 & Ea & Et).
  destruct (anchor_covers _ _ _ Hs Ea) as (sc & -> & Hver & Hv & Hrt & Hpos).
  rewrite gets_bind, lift_bind in Et. destruct (verified_get (position_of w2) table key) as [vr|] eqn:Eg; [|done].
  apply M_bind_Ok in Et as ([path pf] & w3 & Ep & Et). apply Prove_Ok in Ep as (-> & -> & Ep).
  unfold current in Et. rewrite gets_bind in Et. apply M_bind_Ok in Et as (at_ & w4 & [= <- <-] & Et). cbv zeta in Et. cbn [fst snd] in Et.
  apply lift_inv in Et as [Eb ->]. apply SignBundle_verifies in Eb as [[sig ->] Hsig].
  assert (root w2 = root w /\ version w2 = version w) as [Hr2 Hv2] by (unfold position_of in Hpos; injection Hpos; done).
  assert (hex_decode (ps_root (position_of w2)) = Some raw) as Hhex by (cbn [ps_root position_of]; rewrite Hr2, Hroot; apply hex_roundtrip).
  destruct (prove_verifies _ _ _ _ Ep Hhex) as (x & Hx & Hverify).
  destruct (verified_get_present _ _ _ _ Eg) as (x' & Hx' & Hpres). rewrite Hx in Hx'. injection Hx' as <-.
  cbn [signed_by eb_Checkpoint eb_Version eb_Root eb_Table eb_PrimaryKey]. rewrite Hv2, Hr2 in Hsig |- *. split_and!; try done.
  - unfold VerifyBundleProof. cbn [eb_Root eb_Path eb_Proof eb_Present signed_by]. rewrite Hroot, !hash_field_hex by (done || apply bytes32_length).
    rewrite hex_roundtrip. cbn [of_option mbind res_bind]. rewrite proof_decode_encode. cbn [wrapped mbind res_bind].
    unfold ledger_path. rewrite Hverify. cbn [wrapped mbind res_bind].
    assert (bool_decide (is_Some x) = match vr_Row vr with Some _ => true | None => false end) as ->; [|by destruct (vr_Row vr)].
    destruct (vr_Row vr); [apply bool_decide_true; by apply Hpres|apply bool_decide_false]. intros Hx1%Hpres. by destruct Hx1.
  - exists sc. split; [done|]. unfold VerifyBundleAgainstCheckpoint. cbn [eb_Version eb_Root signed_by]. rewrite Hv, Hrt, Z.eqb_refl, String.eqb_refl. done.
Qed.
End evidence.

(** ** A register to ask *)
Definition auditor : Principal := mkPrincipal "a" "A" "" "t" ["auditor"] "auditor" false {[PermProofs; PermCheckpoints; PermRetention]}.
Definition car_world : world :=
  mkWorld (<["natural_keys" := {[ [SStr "t"; SStr "car"; SStr "A1"] := ∅ ]}]> empty_tables) 1 (plain_root 1) None ∅ None 0 0 [] ∅ 0.
