(* ===== verification/AuditGate.v ===== *)
(** * Verification gates the prune

    Closing an audit verifies the lineage, anchors it, commits and only
    then prunes. Whatever fails on the way, the ledger's history is
    intact; and a lineage that does not verify changes nothing at all. *)

From S2P Require Import Prelude GoStrings Float64 Encoding Canon Json Decimal SqlText Sql Rbac JsonSchema Pack Model World Concrete Commit Replay Byok GoJson Records Landing Workflow Anchors Checkpoints Ranges CheckpointsCorrect Auditing AuditCorrect.
Local Open Scope Z_scope.

Section gate.
Context `{Runtime} `{!Ledger}.
Variable r : Register.
Abbreviation pub := (ed25519_public (mat_Signer (mat r))).

(** Operations that leave the ledger's history alone. *)
Definition keeps_history {A} (m : M A) : Prop := forall w res w', m w = (res, w') -> horizon w' = horizon w.

Lemma keeps_history_bind {A B} (m : M A) (k : A -> M B) : keeps_history m -> (forall a, keeps_history (k a)) -> keeps_history (m ≫= k).
Proof.
  intros Hm Hk w res w' E. unfold mbind, M_bind in E. destruct (m w) as [[a|e] w1] eqn:Em.
  - rewrite (Hk _ _ _ _ E). by eapply Hm.
  - injection E as _ <-. by eapply Hm.
Qed.
Lemma keeps_history_aside {A} (m : M A) : same_aside m -> keeps_history m.
Proof. intros Hm w res w' E. apply Hm in E. by injection E. Qed.
Lemma keeps_history_issue reason : keeps_history (issueCheckpoint r reason).
Proof.
  intros w res w' E. destruct res as [[sc|]|e].
  - by apply issueCheckpoint_Some in E as [_ (? & ? & ? & ? & ? & _ & _ & _ & _ & _ & _ & ->)].
  - by apply issueCheckpoint_None in E as [-> _].
  - by apply issueCheckpoint_other in E as (_ & _ & ? & _).
Qed.

Lemma keeps_history_now : keeps_history now.
Proof. by intros w res w' [= _ <-]. Qed.

(** A check of the lineage reads and nothing more. *)
Lemma VerifyHistory_still v head w res w' : VerifyHistory v head w = (res, w') -> w' = w.
Proof.
  unfold VerifyHistory. intros E. unfold guard_ in E. rewrite lift_bind in E. destruct (refuse_if _ _); [|by injection E].
  rewrite lift_bind in E. destruct (if negb _ then _ else _); [|by injection E]. rewrite gets_bind in E. by apply lift_inv in E as [_ ->].
Qed.

(** The part of an audit before the prune. *)
Definition audit_prefix (p : Principal) (req : AuditRequest) : M (SignedCheckpoint * Transaction) :=
  _ ← guard_ (negb history_enabled)
        (Errorf "this register has no lineage chain, so there is nothing to audit against; the chain is fixed when a register is created" []);
  _ ← wrapping "lineage from version %d does not verify: %w" [itoa (aq_FromVersion req)]
        (VerifyHistory (aq_FromVersion req) (aq_FromHead req));
  anchor ← audit_anchor r;
  at_ ← now;
  txn ← commit (audit_env p req (sc_Checkpoint anchor) at_) [];
  mret (anchor, txn).
Definition audit_result (req : AuditRequest) (at_ : SignedCheckpoint * Transaction) : M AuditResult :=
  let toVersion := cp_Version (sc_Checkpoint at_.1) in
  if aq_Collect req then
    stats ← PruneHistory toVersion;
    mret (mkAuditResult true (aq_FromVersion req) toVersion (Some at_.1) true (to_uint64 (stats.1 + stats.2)) (Some at_.2))
  else mret (mkAuditResult true (aq_FromVersion req) toVersion (Some at_.1) false 0 (Some at_.2)).

Lemma audit_tx_split p req w : audit_tx r p req w = (audit_prefix p req ≫= audit_result req) w.
Proof.
  unfold audit_tx, audit_prefix, mbind, M_bind. destruct (guard_ _ _ w) as [[[]|e] w1]; [|done].
  destruct (wrapping _ _ _ w1) as [[[]|e] w2]; [|done]. destruct (audit_anchor r w2) as [[sc|e] w3]; [|done].
  destruct (now w3) as [[at_|e] w4]; [|done]. by destruct (commit _ _ w4) as [[txn|e] w5].
Qed.

Lemma keeps_history_prefix p req : keeps_history (audit_prefix p req).
Proof.
  unfold audit_prefix. apply keeps_history_bind; [apply keeps_history_aside, same_aside_lift|intros _].
  apply keeps_history_bind; [|intros _].
  { intros w res w' E. unfold wrapping in E. destruct (VerifyHistory _ _ w) as [[u|e] w1] eqn:Ev; apply VerifyHistory_still in Ev as ->; by injection E as _ <-. }
  apply keeps_history_bind; [|intros sc].
  { unfold audit_anchor. apply keeps_history_bind; [apply keeps_history_issue|intros o].
    apply keeps_history_bind; [apply keeps_history_aside, same_aside_gets|intros l]. apply keeps_history_aside, same_aside_lift. }
  apply keeps_history_bind; [apply keeps_history_now|intros at_].
  apply keeps_history_bind; [apply keeps_history_aside, same_aside_commit|intros txn]. apply keeps_history_aside, same_aside_ret.
Qed.

Lemma horizon_txn x w : horizon (set_txn x w) = horizon w.
Proof. done. Qed.

(** The anchor an audit commits against covers the state it verified. *)
Lemma prefix_Ok p req w sc txn w' :
  latest_sound r w -> audit_prefix p req w = (Ok (sc, txn), w') ->
  VerifyHistory (aq_FromVersion req) (aq_FromHead req) w = (Ok tt, w) /\
  VerifyCheckpoint pub sc = Ok tt /\ cp_Version (sc_Checkpoint sc) = version w /\ cp_Root (sc_Checkpoint sc) = root w /\
  exists at_ w1, position_of w1 = position_of w /\ commit (audit_env p req (sc_Checkpoint sc) at_) [] w1 = (Ok txn, w').
Proof.
  intros Hs E. unfold audit_prefix in E. apply M_bind_Ok in E as (u & w1 & [_ ->]%guard_Ok & E).
  apply M_bind_Ok in E as ([] & w2 & Ev & E). unfold wrapping in Ev. destruct (VerifyHistory _ _ w) as [[[]|e] w3] eqn:Ev'; [|done]. injection Ev as ->.
  pose proof (VerifyHistory_still _ _ _ _ _ Ev') as ->. split; [done|]. clear Ev' u.
  apply M_bind_Ok in E as (sc1 & w4 & Ea & E). apply M_bind_Ok in E as (at_ & w5 & [= <- <-] & E).
  apply M_bind_Ok in E as (txn1 & w6 & Ec & E). apply M_ret_inv in E as [[= -> ->] ->].
  enough (VerifyCheckpoint pub sc1 = Ok tt /\ cp_Version (sc_Checkpoint sc1) = version w /\ cp_Root (sc_Checkpoint sc1) = root w /\
    position_of w4 = position_of w) as (H1 & H2 & H3 & H4) by (split_and!; [done..|]; do 2 eexists; split; [|exact Ec]; done).
  clear Ec. unfold audit_anchor in Ea. apply M_bind_Ok in Ea as (o & w7 & Ei & Ea). unfold LatestCheckpoint in Ea. rewrite gets_bind in Ea.
  apply lift_inv in Ea as [Ea ->]. apply of_option_Ok in Ea. destruct o as [sc2|].
  - injection Ea as ->. apply issueCheckpoint_Some in Ei as [_ (? & ? & ? & ? & ? & _ & _ & Ecp & Esign & _ & _ & ->)].
    apply Sign_verifies in Esign as [_ Hv]. by rewrite Ecp.
  - apply issueCheckpoint_None in Ei as [-> Hu]. unfold unmoved in Hu. rewrite Ea in Hu. apply Z.eqb_eq in Hu.
    destruct (Hs _ Ea) as [? Hr]. split_and!; [done|done|by apply Hr|done].
Qed.

(** C20. An audit prunes only what it has verified and anchored. A lineage
    that does not verify from the previous anchor is refused and changes
    nothing but closing the session. An audit that fails anywhere leaves
    the ledger's history as it was. One that succeeds has verified the
    lineage in the state it found, returns a genuine checkpoint of
    exactly that version and root, has landed its commit from that
    state, and has pruned no further than the anchored version, and not
    at all unless asked to collect. *)
Theorem audit_gates_prune (p : Principal) (req : AuditRequest) (w w' : world) (res : res AuditResult) :
  latest_sound r w -> Audit r p req w = (res, w') ->
  ((forall w1, VerifyHistory (aq_FromVersion req) (aq_FromHead req) w <> (Ok tt, w1)) ->
   (exists e, res = Err e) /\ (w' = w \/ w' = set_txn None w)) /\
  match res with
  | Err _ => horizon w' = horizon w
  | Ok a =>
      VerifyHistory (aq_FromVersion req) (aq_FromHead req) w = (Ok tt, w) /\ as_Verified a = true /\ as_ToVersion a = version w /\
      (exists sc, as_Anchor a = Some sc /\ VerifyCheckpoint pub sc = Ok tt /\
         cp_Version (sc_Checkpoint sc) = version w /\ cp_Root (sc_Checkpoint sc) = root w /\
         exists txn at_ w1 w2, as_Transaction a = Some txn /\ position_of w1 = position_of w /\
           commit (audit_env p req (sc_Checkpoint sc) at_) [] w1 = (Ok txn, w2)) /\
      as_Collected a = aq_Collect req /\
      horizon w' = (if aq_Collect req then Z.max (version w) (horizon w) else horizon w)
  end.
Proof.
  intros Hs E. unfold Audit in E. unfold guard_ in E. rewrite lift_bind in E.
  destruct (refuse_if _ _) as [u|e]; [|injection E as <- <-; split; [intros _; split; [by eexists|by left]|done]].
  unfold mbind, M_bind in E. unfold Do in E. destruct (audit_tx r p req w) as [res1 w1] eqn:Et. rewrite audit_tx_split in Et.
  split.
  { intros Hv. assert (exists e, audit_prefix p req w = (Err e, w)) as [e Ep].
    { unfold audit_prefix. unfold guard_. rewrite lift_bind. destruct (refuse_if _ _); [|by eexists]. unfold mbind, M_bind, wrapping.
      destruct (VerifyHistory _ _ w) as [[[]|e] w2] eqn:Ev; [by destruct (Hv w2)|]. apply VerifyHistory_still in Ev as ->. by eexists. }
    unfold mbind, M_bind in Et. rewrite Ep in Et. injection Et as <- <-. injection E as <- <-. split; [by eexists|by right]. }
  unfold mbind, M_bind in Et. destruct (audit_prefix p req w) as [[[sc txn]|e] w2] eqn:Ep.
  2:{ injection Et as <- <-. injection E as <- <-. by apply keeps_history_prefix in Ep. }
  pose proof (keeps_history_prefix _ _ _ _ _ Ep) as Hh.
  destruct (prefix_Ok _ _ _ _ _ _ Hs Ep) as (Hv & Hver & Hvn & Hrt & at_ & w3 & Hpos & Hc).
  unfold audit_result in Et. cbn [fst snd] in Et. cbv zeta in Et. destruct (aq_Collect req).
  - unfold PruneHistory in Et. unfold mbind, M_bind, wrapping, lift, gets in Et. destruct (history_prune _ _) as [stats|e].
    + injection Et as <- <-. injection E as <- <-. cbn. rewrite Hh, Hvn. split_and!; try done. exists sc. split_and!; try done. by exists txn, at_, w3, w2.
    + injection Et as <- <-. injection E as <- <-. exact Hh.
  - injection Et as <- <-. injection E as <- <-. cbn. split_and!; try done. exists sc. split_and!; try done. by exists txn, at_, w3, w2.
Qed.
End gate.

(** ** An audit from genesis *)
Definition genesis_audit : AuditRequest := mkAuditRequest 0 "" true "".
Definition audit_run : res AuditResult * world := @Audit plain_runtime plain_ledger anchor_register auditor genesis_audit fresh_world.

Lemma audit_gates_prune_witness :
  is_ok audit_run.1 = true /\ horizon audit_run.2 = 1 /\
  ((forall w1, @VerifyHistory plain_runtime plain_ledger 0 "" fresh_world <> (Ok tt, w1)) ->
   (exists e, audit_run.1 = Err e) /\ (audit_run.2 = fresh_world \/ audit_run.2 = set_txn None fresh_world)) /\
  match audit_run.1 with
  | Err _ => horizon audit_run.2 = horizon fresh_world
  | Ok a =>
      @VerifyHistory plain_runtime plain_ledger 0 "" fresh_world = (Ok tt, fresh_world) /\ as_Verified a = true /\ as_ToVersion a = version fresh_world /\
      (exists sc, as_Anchor a = Some sc /\ @VerifyCheckpoint plain_crypto "signer" sc = Ok tt /\
         cp_Version (sc_Checkpoint sc) = version fresh_world /\ cp_Root (sc_Checkpoint sc) = root fresh_world /\
         exists txn at_ w1 w2, as_Transaction a = Some txn /\ position_of w1 = position_of fresh_world /\
           @commit plain_runtime (audit_env auditor genesis_audit (sc_Checkpoint sc) at_) [] w1 = (Ok txn, w2)) /\
      as_Collected a = aq_Collect genesis_audit /\
      horizon audit_run.2 = (if aq_Collect genesis_audit then Z.max (version fresh_world) (horizon fresh_world) else horizon fresh_world)
  end.
Proof.
  split; [vm_compute; reflexivity|]. split; [vm_compute; reflexivity|].
  exact (@audit_gates_prune plain_runtime plain_ledger anchor_register auditor genesis_audit fresh_world audit_run.2 audit_run.1
    ltac:(intros sc E; discriminate E) (surjective_pairing audit_run)).
Defined.
