(* ===== verification/Verifier.v ===== *)
(** * The offline verifier ([cmd/register-verify/main.go])

    A program of its own that checks exported evidence with the
    register's public key and nothing else: a bundle, a checkpoint, a
    list of checkpoints with the transaction log, or the lineage between
    two anchors. What it prints is a report; what it decides is its exit
    status. The files it is given are read through [ReadFile]. *)

From S2P Require Import Prelude GoStrings Float64 Encoding Canon Json Decimal SqlText Sql Rbac JsonSchema Pack Model World Concrete Commit Byok GoJson Records Anchors Checkpoints.
Local Open Scope Z_scope.

(** ** The host

    [os.ReadFile], and [sort.Slice] of the Go library, which sorts by a
    strict weak order and promises nothing about equal elements. *)
Class Host := {
  ReadFile : string -> res string;
  sort_Slice : forall {A : Type}, (A -> A -> bool) -> list A -> list A;
  sort_Slice_perm : forall A (less : A -> A -> bool) l, sort_Slice less l ≡ₚ l;
  sort_Slice_sorted : forall A (f : A -> Z) l, StronglySorted (fun a b => f a <= f b) (sort_Slice (fun a b => f a <? f b) l);
}.

(** ** The report *)

Inductive line :=
  | Headline (text : string)
  | Checked (name : string) (failure : option error) (success : string)
  | Unknown (name why : string)
  | Noted (text : string)
  | Detail (title : string) (v : value).

Record report := mkReport { rp_lines : list line; rp_failed : bool }.
Definition V (A : Type) : Type := report -> res A * report.
#[export] Instance V_ret : MRet V := fun _ a rp => (Ok a, rp).
#[export] Instance V_bind : MBind V := fun _ _ k m rp =>
  match m rp with (Ok a, rp') => k a rp' | (Err e, rp') => (Err e, rp') end.
Definition say (l : line) : V unit := fun rp => (Ok tt, mkReport (rp_lines rp ++ [l]) (rp_failed rp)).
Definition need {A} (r : res A) : V A := fun rp => (r, rp).

Definition headline (text : string) : V unit := say (Headline text).
Definition check (name : string) (failure : option error) (success : string) : V unit := fun rp =>
  (Ok tt, mkReport (rp_lines rp ++ [Checked name failure success]) (rp_failed rp || bool_decide (is_Some failure))).
Definition unknown (name why : string) : V unit := say (Unknown name why).
Definition detail (title : string) (v : value) : V unit := say (Detail title v).

(** [strings.Fields]. *)
Fixpoint fields_go (word : string) (l : list (Z * string)) : list string :=
  match l with
  | [] => if String.eqb word "" then [] else [word]
  | (c, s) :: l =>
      if is_space c then (if String.eqb word "" then [] else [word]) ++ fields_go "" l
      else fields_go (word +:+ s) l
  end.
Definition Fields (s : string) : list string := fields_go "" (segments s).

(** [wrap]: words on lines of [width] bytes, a longer word on its own. *)
Fixpoint wrap_words (width : Z) (line : Z) (words : list string) : string :=
  match words with
  | [] => ""
  | word :: words =>
      if (0 <? line) && (width <? line + len word + 1) then nl +:+ word +:+ wrap_words width (len word) words
      else if 0 <? line then " " +:+ word +:+ wrap_words width (line + 1 + len word) words
      else word +:+ wrap_words width (line + len word) words
  end.
Definition wrap (text : string) (width : Z) : string := wrap_words width 0 (Fields text).
Definition note (text : string) : V unit := say (Noted (wrap text 74)).

(** [finish]: the exit status. *)
Definition finish (rp : report) : Z := if rp_failed rp then 1 else 0.

Definition failure (r : res unit) : option error := match r with Ok _ => None | Err e => Some e end.
Definition shorten (hash : string) : string := if len hash <=? 16 then hash else str_take 16 hash +:+ "…".
Definition presence (present : bool) : string := if present then "present" else "absent".

(** ** Reading the documents *)

Definition read_json `{Host} {A} (decode : value -> res A) (path : string) : res A :=
  raw ← ReadFile path;
  wrapped "%s: %w" [path] (v ← parse_raw raw; decode v).

Definition decode_optional (k : string) (m : object) : res (option SignedCheckpoint) :=
  p ← get_pointer k m;
  match p with None => Ok None | Some o => sc ← decode_signed (VObj o); Ok (Some sc) end.
Definition decode_bundle (v : value) : res EvidenceBundle :=
  m ← as_obj v;
  register ← get_str "register" m; statement ← get_str "statement" m; table ← get_str "table" m;
  pk ← get_list "primary_key" m; pk ← collect (map floatify pk); present ← get_bool "present" m;
  row ← get_map "row" m; row ← floatify_obj row;
  key ← get_str "ledger_key" m; val ← get_str "ledger_value" m; path ← get_str "path" m; pf ← get_str "proof" m;
  root ← get_str "root" m; version ← get_uint "version" m; issued ← get_int "issued_at" m;
  cp ← decode_optional "checkpoint" m;
  id ← get_str "key_id" m; alg ← get_str "alg" m; sig ← get_str "signature" m;
  Ok (mkBundle register statement table pk present row key val path pf root version issued cp id alg sig).
Definition decode_transaction (v : value) : res Transaction :=
  m ← as_obj v;
  seq ← get_uint "seq" m; txid ← get_str "txid" m; env ← get_struct "envelope" m; env ← decode_env (VObj env);
  ops ← get_list "write_set" m; ops ← decode_ops (VArr ops); state ← get_str "state" m;
  rb ← get_str "root_before" m; vb ← get_uint "version_before" m; va ← get_uint "version_after" m;
  Ok (mkTransaction seq txid env ops state rb vb va).
Definition decode_array {A} (decode : value -> res A) (v : value) : res (list A) :=
  match v with VArr l => collect (map decode l) | VNull => Ok [] | _ => Err (type_error "") end.
Definition decode_member {A} (k : string) (decode : value -> res A) (v : value) : res (list A) :=
  m ← as_obj v; l ← get_list k m; collect (map decode l).

Section verifier.
Context `{Host} `{Ledger} `{!GoUnicode}.

(** [loadKey]: the key itself, a file holding it, or a file holding the
    JSON the service answers. *)
Definition loadKey (ref : string) : res string :=
  _ ← refuse_if (String.eqb ref "") (Errorf "--key is required" []);
  let encoded :=
    match ReadFile ref with
    | Err _ => ref
    | Ok raw =>
        match (v ← parse_raw raw; m ← as_obj v; get_str "public_key" m) with
        | Ok k => if String.eqb k "" then TrimSpace raw else k
        | Err _ => TrimSpace raw
        end
    end in
  ParsePublicKey encoded.

(** ** The commands *)

Definition verifyBundle (path keyRef anchorPath : string) : V unit :=
  pub ← need (loadKey keyRef);
  bundle ← need (read_json decode_bundle path);
  _ ← headline (eb_Statement bundle);
  _ ← check "Merkle proof" (failure (VerifyBundleProof bundle))
        ("the proof folds to root " +:+ shorten (eb_Root bundle) +:+ " and shows the entry " +:+ presence (eb_Present bundle));
  _ ← check "Register signature" (failure (VerifyBundleSignature pub bundle)) ("signed by key " +:+ shorten (eb_KeyID bundle));
  anchor ← (if String.eqb anchorPath "" then mret (eb_Checkpoint bundle)
            else held ← need (read_json decode_signed anchorPath);
                 _ ← check "Held checkpoint" (failure (VerifyCheckpoint pub held))
                       ("your checkpoint for version " +:+ itoa (cp_Version (sc_Checkpoint held)) +:+ " is genuine");
                 mret (Some held));
  _ ← (match anchor with
       | None => unknown "Anchor" "the bundle carries no checkpoint, and none was supplied"
       | Some anchor =>
           _ ← check "Anchor" (failure (VerifyBundleAgainstCheckpoint bundle (sc_Checkpoint anchor)))
                 ("the state this was read at is the state checkpoint " +:+ itoa (cp_Version (sc_Checkpoint anchor)) +:+ " attests");
           if String.eqb anchorPath "" then
             _ ← check "Bundled checkpoint" (failure (VerifyCheckpoint pub anchor)) "the bundled checkpoint is genuine";
             note "The checkpoint came with the bundle. Anchoring against one you already held is what rules out a register replaying an older state."
           else mret tt
       end);
  match eb_Row bundle with [] => mret tt | row => detail "Row" (VObj row) end.

Definition verifyCheckpoint (path keyRef : string) : V unit :=
  pub ← need (loadKey keyRef);
  sc ← need (read_json decode_signed path);
  let cp := sc_Checkpoint sc in
  _ ← headline ("Checkpoint " +:+ itoa (cp_Version cp) +:+ " of register " +:+ strconv_Quote (cp_Register cp));
  _ ← check "Signature" (failure (VerifyCheckpoint pub sc))
        ("root " +:+ shorten (cp_Root cp) +:+ " at ledger version " +:+ itoa (cp_Version cp));
  detail "Checkpoint" (checkpoint_value cp).

(** [highestVersion]. *)
Definition highestVersion (txs : list Transaction) : Z :=
  foldl (fun highest tx => if highest <? tx_VersionAfter tx then tx_VersionAfter tx else highest) 0 txs.

(** The loop of [verifyLogCompleteness]: what is wrong with each entry. *)
Definition entry_gaps (seen : gset Z) (prev : option Z) (tx : Transaction) : list string :=
  let seq := tx_Seq tx in
  (if bool_decide (seq ∈ seen) then ["sequence " +:+ itoa seq +:+ " appears twice"] else [])
  ++ (match prev with
      | Some prev => if seq =? to_uint64 (prev + 1) then []
                     else [itoa (to_uint64 (seq - prev - 1)) +:+ " entries missing between " +:+ itoa prev +:+ " and " +:+ itoa seq]
      | None => []
      end)
  ++ (if negb (tx_VersionAfter tx =? 0) && negb (tx_VersionAfter tx =? to_uint64 (tx_VersionBefore tx + 1))
      then ["entry " +:+ itoa seq +:+ " spans versions " +:+ itoa (tx_VersionBefore tx) +:+ " to " +:+ itoa (tx_VersionAfter tx) +:+ ", not one commit"]
      else []).
Fixpoint log_gaps (seen : gset Z) (prev : option Z) (txs : list Transaction) : list string :=
  match txs with
  | [] => []
  | tx :: txs => entry_gaps seen prev tx ++ log_gaps ({[tx_Seq tx]} ∪ seen) (Some (tx_Seq tx)) txs
  end.

(** A checkpoint that attests more entries than the log holds. *)
Definition attests_more (highest : Z) (txs : list Transaction) (sc : SignedCheckpoint) : bool :=
  let cp := sc_Checkpoint sc in
  negb (cp_TxSeq cp =? 0) && (highest <? cp_TxSeq cp) && (cp_Version cp <=? highestVersion txs).

Fixpoint checks {A} (f : A -> V unit) (l : list A) : V unit :=
  match l with [] => mret tt | x :: l => _ ← f x; checks f l end.

Definition read_log (path : string) : res (list Transaction) :=
  match read_json (decode_member "transactions" decode_transaction) path with
  | Ok l => Ok l
  | Err e => match read_json (decode_array decode_transaction) path with Ok l => Ok l | Err _ => Err e end
  end.
Definition log_report (anchors : list SignedCheckpoint) (txs : list Transaction) (lowest highest : Z) : V unit :=
  _ ← (match log_gaps ∅ None txs with
       | [] => check "Log continuity" None ("entries " +:+ itoa lowest +:+ " to " +:+ itoa highest +:+ ", none missing")
       | gaps => checks (fun gap => check "Log continuity" (Some (Errorf "%s" [gap])) "") gaps
       end);
  let short := List.filter (attests_more highest txs) anchors in
  _ ← checks (fun sc => check ("Checkpoint " +:+ itoa (cp_Version (sc_Checkpoint sc)))
                 (Some (Errorf "attests %d entries, the log holds %d" [itoa (cp_TxSeq (sc_Checkpoint sc)); itoa highest])) "") short;
  match short with
  | [] => if lowest =? 1 then check "Log completeness" None "the log is as long as every signed checkpoint says it was"
          else unknown "Log completeness" ("the log starts at entry " +:+ itoa lowest +:+
                 "; earlier entries were collected by an audit and the anchor stands in for them")
  | _ => mret tt
  end.
Definition verifyLogCompleteness (logPath : string) (anchors : list SignedCheckpoint) : V unit :=
  txs ← need (read_log logPath);
  match sort_Slice (fun a b => tx_Seq a <? tx_Seq b) txs with
  | [] => need (Err (Errorf "no transactions in %s" [logPath]))
  | (first :: _) as txs => log_report anchors txs (tx_Seq first) (match last txs with Some tx => tx_Seq tx | None => 0 end)
  end.

(** The loop of [verifyChain]: every signature, and every version with
    one root. What it answers is whether all was well. *)
Fixpoint chain_checks (pub : string) (seen : gmap Z string) (good : bool) (list_ : list SignedCheckpoint) : V bool :=
  match list_ with
  | [] => mret good
  | sc :: list_ =>
      let cp := sc_Checkpoint sc in
      good ← (match VerifyCheckpoint pub sc with
              | Err e => _ ← check ("Checkpoint " +:+ itoa (cp_Version cp)) (Some e) ""; mret false
              | Ok _ => mret good
              end);
      good ← (match seen !! cp_Version cp with
              | Some root =>
                  if String.eqb root (cp_Root cp) then mret good
                  else _ ← check ("Version " +:+ itoa (cp_Version cp))
                             (Some (Errorf "two checkpoints claim different roots for the same version: %s and %s" [shorten root; shorten (cp_Root cp)])) "";
                       mret false
              | None => mret good
              end);
      chain_checks pub (<[cp_Version cp := cp_Root cp]> seen) good list_
  end.
Definition read_chain (path : string) : res (list SignedCheckpoint) :=
  match read_json (decode_array decode_signed) path with
  | Ok l => Ok l
  | Err e => match read_json (decode_member "checkpoints" decode_signed) path with Ok l => Ok l | Err _ => Err e end
  end.
Definition verifyChain (path keyRef logPath : string) : V unit :=
  pub ← need (loadKey keyRef);
  l ← need (read_chain path);
  match sort_Slice (fun a b => cp_Version (sc_Checkpoint a) <? cp_Version (sc_Checkpoint b)) l with
  | [] => need (Err (Errorf "no checkpoints in %s" [path]))
  | (first :: _) as l =>
      let n := Z.of_nat (length l) in
      _ ← headline ("Checkpoint chain of register " +:+ strconv_Quote (cp_Register (sc_Checkpoint first)) +:+ ", " +:+ itoa n +:+ " entries");
      good ← chain_checks pub ∅ true l;
      _ ← (if good : bool then
             _ ← check "Signatures" None ("all " +:+ itoa n +:+ " checkpoints are genuine");
             check "Consistency" None "no version is claimed with two different roots"
           else mret tt);
      let final := default first (last l) in
      _ ← note ("Covers ledger versions " +:+ itoa (cp_Version (sc_Checkpoint first)) +:+ " to " +:+ itoa (cp_Version (sc_Checkpoint final)) +:+ ".");
      if negb (String.eqb logPath "") then verifyLogCompleteness logPath l
      else note "Pass --log with the transaction log to check that no entry has been removed from it."
  end.

Record lineage_doc := mkLineageDoc { ld_From : option SignedCheckpoint; ld_To : option SignedCheckpoint; ld_Roots : list string }.
Definition decode_lineage (v : value) : res lineage_doc :=
  m ← as_obj v; from ← decode_optional "from" m; to_ ← decode_optional "to" m;
  roots ← get_list "roots" m; roots ← collect (map as_str roots);
  Ok (mkLineageDoc from to_ roots).
Definition verifyLineage (path keyRef : string) : V unit :=
  pub ← need (loadKey keyRef);
  doc ← need (read_json decode_lineage path);
  match ld_From doc, ld_To doc with
  | Some from, Some to_ =>
      let cf := sc_Checkpoint from in
      let ct := sc_Checkpoint to_ in
      _ ← headline ("Lineage of register " +:+ strconv_Quote (cp_Register ct) +:+ ", versions " +:+ itoa (cp_Version cf) +:+ " to " +:+ itoa (cp_Version ct));
      _ ← check "Earlier anchor" (failure (VerifyCheckpoint pub from)) ("genuine, head " +:+ shorten (cp_Head cf));
      _ ← check "Later anchor" (failure (VerifyCheckpoint pub to_)) ("genuine, head " +:+ shorten (cp_Head ct));
      _ ← check "Chain" (failure (VerifyAnchors cf ct (ld_Roots doc)))
            (itoa (Z.of_nat (length (ld_Roots doc))) +:+ " recorded roots fold from the earlier head to the later one");
      note "Only the signatures come from the register. The fold is a pure function over public values, so a rewritten history cannot reach the anchored head."
  | _, _ => need (Err (Errorf "%s needs a `from` anchor, a `to` anchor and the `roots` between them" [path]))
  end.

(** [main], its flags parsed: the exit status and the report. *)
Definition run (command : string) (positional : list string) (keyRef anchorPath logPath : string) : Z * report :=
  let empty := mkReport [] false in
  match positional with
  | [path] =>
      let cmd : option (V unit) :=
        if String.eqb command "bundle" then Some (verifyBundle path keyRef anchorPath)
        else if String.eqb command "checkpoint" then Some (verifyCheckpoint path keyRef)
        else if String.eqb command "chain" then Some (verifyChain path keyRef logPath)
        else if String.eqb command "lineage" then Some (verifyLineage path keyRef)
        else None in
      match cmd with
      | None => (2, empty)
      | Some m => match m empty with (Ok _, rp) => (finish rp, rp) | (Err _, rp) => (2, rp) end
      end
  | _ => (2, empty)
  end.
End verifier.
