(* ===== verification/VerifierCorrect.v ===== *)
(** * What the offline verifier decides

    The exit status is exactly what the documents say: a list of
    checkpoints passes when every signature verifies and no version has
    two roots; a log passes when its entries are numbered densely, each is
    one commit, and no checkpoint within its versions attests more
    entries. A log cut short at its end is not among what it finds. *)

From S2P Require Import Prelude GoStrings Float64 Encoding Canon Json Decimal SqlText Sql Rbac JsonSchema Pack Model World Concrete Commit Byok GoJson Records Anchors Checkpoints Ranges CheckpointsCorrect CheckpointChain Verifier.
Local Open Scope Z_scope.

(** ** Reports *)

(** A run that says what it finds and answers. *)
Definition finds {A} (m : V A) (a : A) (bad : bool) : Prop :=
  forall rp, exists lines, m rp = (Ok a, mkReport (rp_lines rp ++ lines) (rp_failed rp || bad)).

Lemma finds_ret {A} (a : A) : finds (mret a) a false.
Proof. intros [l f]. exists []. cbn. by rewrite app_nil_r, orb_false_r. Qed.
Lemma finds_say l : finds (say l) tt false.
Proof. intros rp. exists [l]. unfold say. by rewrite orb_false_r. Qed.
Lemma finds_note t : finds (note t) tt false.
Proof. apply finds_say. Qed.
Lemma finds_check name e s : finds (check name e s) tt (bool_decide (is_Some e)).
Proof. intros rp. by eexists. Qed.
Lemma finds_bind {A B} (m : V A) (k : A -> V B) a b bad1 bad2 :
  finds m a bad1 -> finds (k a) b bad2 -> finds (m ≫= k) b (bad1 || bad2).
Proof.
  intros H1 H2 rp. destruct (H1 rp) as [l1 E1]. unfold mbind, V_bind. rewrite E1.
  destruct (H2 (mkReport (rp_lines rp ++ l1) (rp_failed rp || bad1))) as [l2 E2]. rewrite E2. exists (l1 ++ l2). cbn. by rewrite app_assoc, orb_assoc.
Qed.
Lemma finds_then {A B} (m : V A) (k : A -> V B) a b bad : finds m a false -> finds (k a) b bad -> finds (m ≫= k) b bad.
Proof. apply finds_bind. Qed.
Lemma finds_need {A B} (r : res A) (k : A -> V B) a b bad : r = Ok a -> finds (k a) b bad -> finds (need r ≫= k) b bad.
Proof. intros -> H rp. apply H. Qed.
Lemma finds_checks {A} (f : A -> V unit) (l : list A) :
  (forall x, finds (f x) tt true) -> finds (checks f l) tt (negb (bool_decide (l = []))).
Proof.
  intros Hf. induction l as [|x l IH]; [apply finds_ret|]. cbn [checks].
  change (negb (bool_decide (x :: l = []))) with (true || negb (bool_decide (l = []))). by eapply finds_bind.
Qed.

(** What a command that runs to its end makes of its exit status. *)
Lemma finds_status (m : V unit) bad : finds m tt bad ->
  exists rp, m (mkReport [] false) = (Ok tt, rp) /\ finish rp = (if bad then 1 else 0).
Proof. intros H. destruct (H (mkReport [] false)) as [l E]. rewrite E. by eexists. Qed.

(** ** Chains *)
Section chains.
Context `{Host} `{Ledger} `{!GoUnicode}.

Definition genuine (pub : string) (l : list SignedCheckpoint) : Prop := Forall (fun sc => VerifyCheckpoint pub sc = Ok tt) l.
(** No two checkpoints of the list give one version two roots. *)
Definition unforked (l : list SignedCheckpoint) : Prop :=
  forall a b, a ∈ l -> b ∈ l -> cp_Version (sc_Checkpoint a) = cp_Version (sc_Checkpoint b) -> cp_Root (sc_Checkpoint a) = cp_Root (sc_Checkpoint b).

Fixpoint agrees (seen : gmap Z string) (l : list SignedCheckpoint) : bool :=
  match l with
  | [] => true
  | sc :: l =>
      let cp := sc_Checkpoint sc in
      match seen !! cp_Version cp with Some rt => String.eqb rt (cp_Root cp) | None => true end
      && agrees (<[cp_Version cp := cp_Root cp]> seen) l
  end.
Definition verifies (pub : string) (sc : SignedCheckpoint) : bool := match VerifyCheckpoint pub sc with Ok _ => true | Err _ => false end.

Lemma chain_checks_finds pub l : forall seen good,
  finds (chain_checks pub seen good l) (good && (forallb (verifies pub) l && agrees seen l)) (negb (forallb (verifies pub) l && agrees seen l)).
Proof.
  induction l as [|sc l IH]; intros seen good; cbn [chain_checks forallb agrees]; [rewrite andb_true_r; apply finds_ret|].
  set (cp := sc_Checkpoint sc). set (seen' := <[_ := _]> seen).
  assert (finds (match VerifyCheckpoint pub sc with
     | Err e => _ ← check ("Checkpoint " +:+ itoa (cp_Version cp)) (Some e) ""; mret false | Ok _ => mret good end)
     (good && verifies pub sc) (negb (verifies pub sc))) as Hsig.
  { unfold verifies. destruct (VerifyCheckpoint pub sc) as [u|e]; [rewrite andb_true_r; apply finds_ret|]. rewrite andb_false_r.
    change (negb false) with (true || false). eapply finds_bind; [apply finds_check|apply finds_ret]. }
  set (same := match seen !! cp_Version cp with Some rt => String.eqb rt (cp_Root cp) | None => true end).
  assert (forall good, finds (match seen !! cp_Version cp with
     | Some root => if String.eqb root (cp_Root cp) then mret good
         else _ ← check ("Version " +:+ itoa (cp_Version cp))
                 (Some (Errorf "two checkpoints claim different roots for the same version: %s and %s" [shorten root; shorten (cp_Root cp)])) "";
              mret false
     | None => mret good end) (good && same) (negb same)) as Hver.
  { intros g. unfold same. destruct (seen !! cp_Version cp) as [rt|]; [|rewrite andb_true_r; apply finds_ret].
    destruct (String.eqb rt (cp_Root cp)); [rewrite andb_true_r; apply finds_ret|]. rewrite andb_false_r.
    change (negb false) with (true || false). eapply finds_bind; [apply finds_check|apply finds_ret]. }
  assert (forall a b c d e : bool, a && ((b && c) && (d && e)) = (a && b && d) && (c && e)) as Hgood by (by intros [] [] [] [] []).
  assert (forall b c d e : bool, negb ((b && c) && (d && e)) = negb b || (negb d || negb (c && e))) as Hbad by (by intros [] [] [] []).
  rewrite Hgood, Hbad. eapply finds_bind; [exact Hsig|]. eapply finds_bind; [exact (Hver _)|]. apply IH.
Qed.

Lemma agrees_spec l : forall seen, agrees seen l = true <->
  (forall a rt, a ∈ l -> seen !! cp_Version (sc_Checkpoint a) = Some rt -> rt = cp_Root (sc_Checkpoint a)) /\ unforked l.
Proof.
  induction l as [|sc l IH]; intros seen; cbn [agrees].
  - split; [intros _; split|done]; [intros a rt Ha|intros a b Ha]; by apply elem_of_nil in Ha.
  - rewrite andb_true_iff, IH. set (v := cp_Version (sc_Checkpoint sc)). set (rt0 := cp_Root (sc_Checkpoint sc)). split.
    + intros (Hs & Hl & Hu).
      assert (forall a, a ∈ l -> cp_Version (sc_Checkpoint a) = v -> rt0 = cp_Root (sc_Checkpoint a)) as Hv
        by (intros a Ha Ea; apply (Hl a rt0 Ha); rewrite Ea; apply lookup_insert_eq).
      split.
      * intros a rt [->|Ha]%elem_of_cons Ert; [fold v in Ert; rewrite Ert in Hs; by apply String.eqb_eq in Hs|].
        destruct (decide (cp_Version (sc_Checkpoint a) = v)) as [Ea|Hne].
        -- rewrite Ea in Ert. rewrite Ert in Hs. apply String.eqb_eq in Hs. rewrite Hs. by apply Hv.
        -- apply (Hl a rt Ha). by rewrite lookup_insert_ne by congruence.
      * intros a b [->|Ha]%elem_of_cons [->|Hb]%elem_of_cons E; [done|by apply Hv|symmetry; by apply Hv|by apply Hu].
    + intros [Hl Hu]. split_and!.
      * destruct (seen !! v) as [rt|] eqn:E; [|done]. apply String.eqb_eq. apply (Hl sc rt); [left|done].
      * intros a rt Ha Ert. destruct (decide (cp_Version (sc_Checkpoint a) = v)) as [Ea|Hne].
        -- rewrite Ea, lookup_insert_eq in Ert. injection Ert as <-. apply (Hu sc a); [left|by right|done].
        -- rewrite lookup_insert_ne in Ert by congruence. apply (Hl a rt); [by right|done].
      * intros a b Ha Hb. apply Hu; by right.
Qed.

Lemma verifies_spec pub l : forallb (verifies pub) l = true <-> genuine pub l.
Proof.
  unfold genuine, verifies. rewrite forallb_forall, Forall_forall. setoid_rewrite list_elem_of_In.
  split; intros Hl sc Hsc; specialize (Hl sc Hsc); destruct (VerifyCheckpoint pub sc) as [[]|]; done.
Qed.
Lemma sorted_nonempty {A} less (l : list A) : l <> [] -> exists x l', sort_Slice less l = x :: l' /\ x :: l' ≡ₚ l.
Proof.
  intros Hl. pose proof (sort_Slice_perm A less l) as Hp. destruct (sort_Slice less l) as [|x l']; [|by exists x, l'].
  by apply Permutation_nil_l in Hp.
Qed.

(** C29. A register that served two histories is found out. Given any list
    of checkpoints, the offline verifier exits with 0 exactly when every
    one is signed with the key and no two of them give one version two
    different roots, and with 1 otherwise. *)
Theorem chain_detects_forks (path keyRef pub : string) (l : list SignedCheckpoint) :
  loadKey keyRef = Ok pub -> read_chain path = Ok l -> l <> [] ->
  let status := (run "chain" [path] keyRef "" "").1 in
  (status = 0 <-> genuine pub l /\ unforked l) /\ (status = 0 \/ status = 1).
Proof.
  intros Hk Hr Hl. cbv zeta. set (bad := negb (forallb (verifies pub) l && agrees ∅ l)).
  assert (finds (verifyChain path keyRef "") tt bad) as Hf.
  { unfold verifyChain. eapply finds_need; [exact Hk|]. eapply finds_need; [exact Hr|].
    destruct (sorted_nonempty (fun a b => cp_Version (sc_Checkpoint a) <? cp_Version (sc_Checkpoint b)) l Hl) as (x & l' & -> & Hp).
    assert (forallb (verifies pub) (x :: l') && agrees ∅ (x :: l') = forallb (verifies pub) l && agrees ∅ l) as Hsame.
    { apply eq_iff_eq_true. rewrite !andb_true_iff, !verifies_spec, !agrees_spec. unfold genuine, unforked.
      rewrite Hp. setoid_rewrite Hp. done. }
    pose proof (chain_checks_finds pub (x :: l') ∅ true) as Hc. rewrite Hsame in Hc. fold bad in Hc.
    eapply finds_then; [apply finds_say|]. rewrite <- (orb_false_r bad).
    eapply finds_bind; [exact Hc|]. eapply finds_then; [|eapply finds_then; apply finds_note].
    destruct (true && _); [|apply finds_ret]. eapply finds_then; apply (finds_check _ None). }
  destruct (finds_status _ _ Hf) as (rp & E & Es). unfold run. rewrite String.eqb_refl.
  change (String.eqb "chain" "bundle") with false. change (String.eqb "chain" "checkpoint") with false. cbv iota beta zeta. rewrite E. cbn [fst].
  rewrite Es. assert (bad = false <-> genuine pub l /\ unforked l) as Hb.
  { unfold bad. rewrite negb_false_iff, andb_true_iff, verifies_spec, agrees_spec. split; [tauto|]. intros [? ?]. split_and!; [done| |done].
    intros a rt _ Ha. by rewrite lookup_empty in Ha. }
  destruct bad; split; try (by auto); rewrite <- Hb; split; done.
Qed.
End chains.

(** ** The log *)
Section log.
Context `{Host} `{Ledger} `{!GoUnicode}.

Lemma parse_digits_nonneg s : forall acc z, 0 <= acc -> parse_digits acc s = Some z -> 0 <= z.
Proof.
  induction s as [|a s IH]; intros acc z Ha E; cbn [parse_digits] in E; [congruence|].
  destruct (digit_val a) as [d|] eqn:Ed; [|done]. apply IH in E; [done|]. unfold digit_val in Ed. cbv zeta in Ed.
  destruct (_ && _) eqn:Eb in Ed; [|done]. injection Ed as <-. lia.
Qed.
Lemma get_uint_uint64 k m z : get_uint k m = Ok z -> uint64 z.
Proof.
  unfold get_uint, read_field. assert (uint64 0) as Hz by (split; lia). revert Hz. generalize 0 as held.
  induction (all_named k m) as [|v vs IH]; intros held Hh E; cbn in E; [by injection E as <-|].
  destruct (step_uint held v) as [n|] eqn:En; [|done]. apply (IH n); [|exact E].
  unfold step_uint in En. destruct v; try done; [by injection En as <-|]. unfold ParseUint64 in En.
  destruct (parse_udec s) as [i|] eqn:Ei; [|done]. destruct (i <? 2 ^ 64) eqn:Eb; [|done]. injection En as <-.
  unfold parse_udec in Ei. destruct s as [|a s]; [done|]. apply parse_digits_nonneg in Ei; [split; lia|done].
Qed.

(** The fields of an entry fit their Go types. *)
Definition sized (tx : Transaction) : Prop := uint64 (tx_Seq tx) /\ uint64 (tx_VersionBefore tx) /\ uint64 (tx_VersionAfter tx).
Lemma decode_transaction_sized v tx : decode_transaction v = Ok tx -> sized tx.
Proof.
  unfold decode_transaction. intros E. res_inv. cbn [tx_Seq tx_VersionBefore tx_VersionAfter sized].
  split_and!; by eapply get_uint_uint64.
Qed.
Lemma collect_sized l txs : collect (map decode_transaction l) = Ok txs -> Forall sized txs.
Proof.
  revert txs. induction l as [|v l IH]; intros txs E; cbn in E; res_inv; [constructor|].
  constructor; [by eapply decode_transaction_sized|by apply IH].
Qed.
Lemma read_log_sized path txs : read_log path = Ok txs -> Forall sized txs.
Proof.
  unfold read_log, read_json. destruct (ReadFile path) as [raw|e]; cbn; [|done]. destruct (parse_raw raw) as [v|e]; cbn; [|done].
  unfold decode_member, decode_array. destruct (m ← as_obj v; _) as [l|e] eqn:E1; cbn.
  - intros [= <-]. res_inv. by eapply collect_sized.
  - destruct v; cbn; try done; try (by intros [= <-]). destruct (collect _) eqn:E2; cbn; [|done]. intros [= <-]. by eapply collect_sized.
Qed.

(** An entry that is one commit of the ledger. *)
Definition one_commit (tx : Transaction) : Prop := tx_VersionAfter tx = 0 \/ tx_VersionAfter tx = to_uint64 (tx_VersionBefore tx + 1).

Lemma entry_gaps_nil seen prev tx :
  entry_gaps seen prev tx = [] <->
  (tx_Seq tx ∉ seen) /\ (forall p, prev = Some p -> tx_Seq tx = to_uint64 (p + 1)) /\ one_commit tx.
Proof.
  assert (forall (b : bool) (s : string), (if b then [s] else []) = [] <-> b = false) as Hif by (by intros []).
  unfold entry_gaps, one_commit. rewrite !app_nil, !Hif, bool_decide_eq_false, andb_false_iff, !negb_false_iff, !Z.eqb_eq.
  assert ((match prev with
     | Some p => if tx_Seq tx =? to_uint64 (p + 1) then []
         else [itoa (to_uint64 (tx_Seq tx - p - 1)) +:+ " entries missing between " +:+ itoa p +:+ " and " +:+ itoa (tx_Seq tx)]
     | None => [] end) = [] <-> (forall p, prev = Some p -> tx_Seq tx = to_uint64 (p + 1))) as ->; [|done].
  destruct prev as [p|]; [|done]. destruct (tx_Seq tx =? to_uint64 (p + 1)) eqn:E; split; try done.
  - intros _ q [= <-]. lia.
  - intros Hq. specialize (Hq p eq_refl). lia.
Qed.

(** Entries sorted by number, after an entry [p]: no gap is found exactly
    when the numbers follow [p] one by one. *)
Lemma log_gaps_next txs : forall seen p,
  Forall sized txs -> StronglySorted (fun a b => tx_Seq a <= tx_Seq b) txs -> Forall (fun tx => p <= tx_Seq tx) txs ->
  uint64 p -> (forall q, q ∈ seen -> q <= p) ->
  log_gaps seen (Some p) txs = [] <-> tx_Seq <$> txs = seqZ (p + 1) (Z.of_nat (length txs)) /\ Forall one_commit txs.
Proof.
  induction txs as [|tx txs IH]; intros seen p Hz Hs Hp Hu Hseen; [split; [by split|done]|]. cbn [log_gaps].
  apply Forall_cons in Hz as [Hztx Hz], Hp as [Hptx Hp]. apply StronglySorted_inv in Hs as [Hs Hle].
  rewrite app_nil, entry_gaps_nil, length_cons, Nat2Z.inj_succ, seqZ_cons, Z.pred_succ by lia. cbn [fmap list_fmap]. rewrite Forall_cons.
  assert (forall q, q ∈ ({[tx_Seq tx]} ∪ seen : gset Z) -> q <= tx_Seq tx) as Hseen'.
  { intros q [->%elem_of_singleton|Hq%Hseen]%elem_of_union; [done|]. lia. }
  rewrite (IH _ (tx_Seq tx)) by (try done; apply Hztx). split.
  - intros ((_ & Hn & Hc) & Ht & Hf). specialize (Hn p eq_refl). assert (tx_Seq tx = p + 1) as E.
    { unfold to_uint64 in Hn. destruct (decide (p + 1 < 2 ^ 64)) as [Hlt|Hge]; [rewrite Z.mod_small in Hn by (unfold uint64 in Hu; lia); done|].
      exfalso. assert (p + 1 = 2 ^ 64) as Ep by (unfold uint64 in Hu; lia). rewrite Ep, Z.mod_same in Hn by done. unfold uint64 in Hu. lia. }
    split; [|done]. rewrite Ht, E. f_equal.
  - intros ([= E Ht] & Hc & Hf). split_and!; try done.
    + intros Hin%Hseen. lia.
    + intros q [= <-]. unfold to_uint64. rewrite Z.mod_small; [done|]. destruct Hztx as [Hs0 _]. unfold uint64 in Hs0. lia.
    + rewrite Ht, E. f_equal; lia.
Qed.
Lemma log_gaps_nil tx txs :
  Forall sized (tx :: txs) -> StronglySorted (fun a b => tx_Seq a <= tx_Seq b) (tx :: txs) ->
  log_gaps ∅ None (tx :: txs) = [] <->
  tx_Seq <$> (tx :: txs) = seqZ (tx_Seq tx) (Z.of_nat (length (tx :: txs))) /\ Forall one_commit (tx :: txs).
Proof.
  intros Hz Hs. cbn [log_gaps]. apply Forall_cons in Hz as [Hztx Hz]. apply StronglySorted_inv in Hs as [Hs Hle].
  rewrite app_nil, entry_gaps_nil, length_cons, Nat2Z.inj_succ, seqZ_cons, Z.pred_succ by lia. cbn [fmap list_fmap]. rewrite Forall_cons.
  rewrite log_gaps_next; [|done|done|done|apply Hztx|].
  - rewrite <- Z.add_1_r. split.
    + intros ((_ & _ & ?) & -> & ?). done.
    + intros ([= ->] & ? & ?). by split_and!.
  - intros q [->%elem_of_singleton|Hq]%elem_of_union; [done|]. set_solver.
Qed.

Lemma highestVersion_spec txs v : 0 < v -> v <= highestVersion txs <-> exists tx, tx ∈ txs /\ v <= tx_VersionAfter tx.
Proof.
  intros Hv. unfold highestVersion.
  assert (forall acc, v <= foldl (fun highest tx => if highest <? tx_VersionAfter tx then tx_VersionAfter tx else highest) acc txs
    <-> v <= acc \/ exists tx, tx ∈ txs /\ v <= tx_VersionAfter tx) as Hg.
  { induction txs as [|tx txs IH]; intros acc; cbn [foldl].
    - split; [by left|]. intros [?|(tx & Ht & _)]; [done|]. by apply elem_of_nil in Ht.
    - rewrite IH. setoid_rewrite elem_of_cons. destruct (acc <? tx_VersionAfter tx) eqn:E; split.
      + intros [?|(t & ? & ?)]; right; [by exists tx; auto|by exists t; auto].
      + intros [?|(t & [->|?] & ?)]; [left; lia|left; lia|right; by exists t].
      + intros [?|(t & ? & ?)]; [by left|right; by exists t; auto].
      + intros [?|(t & [->|?] & ?)]; [by left|left; lia|right; by exists t]. }
  rewrite Hg. split; [intros [?|?]; [lia|done]|by right].
Qed.
Lemma seqZ_sorted n : forall m, StronglySorted Z.le (seqZ m (Z.of_nat n)).
Proof.
  induction n as [|n IH]; intros m; [constructor|]. rewrite Nat2Z.inj_succ, seqZ_cons, Z.pred_succ by lia.
  constructor; [apply IH|]. apply Forall_forall. intros x Hx%elem_of_seqZ. lia.
Qed.

(** What a checkpoint says of a log that holds its entries: it attests
    none, or no more than the log holds, or it was taken after the last
    version the log reaches. *)
Definition covered (txs : list Transaction) (sc : SignedCheckpoint) : Prop :=
  let cp := sc_Checkpoint sc in
  cp_TxSeq cp = 0 \/ (exists tx, tx ∈ txs /\ cp_TxSeq cp <= tx_Seq tx) \/
  (0 < cp_Version cp /\ forall tx, tx ∈ txs -> tx_VersionAfter tx < cp_Version cp).

Definition last_seq (txs : list Transaction) : Z := match last txs with Some tx => tx_Seq tx | None => 0 end.
Lemma last_seq_le tx txs v :
  StronglySorted (fun a b => tx_Seq a <= tx_Seq b) (tx :: txs) ->
  v <= last_seq (tx :: txs) <-> exists t, t ∈ tx :: txs /\ v <= tx_Seq t.
Proof.
  intros Hs. split.
  - intros Hv. unfold last_seq in Hv. destruct (last (tx :: txs)) as [t|] eqn:E; [|by apply last_None in E]. exists t. split; [|done].
    by apply last_Some_elem_of in E.
  - intros (t & Ht & Hv). revert tx Hs Ht. induction txs as [|u txs IH]; intros tx Hs Ht.
    + apply list_elem_of_singleton in Ht as ->. done.
    + apply StronglySorted_inv in Hs as [Hs Hle]. change (last_seq (tx :: u :: txs)) with (last_seq (u :: txs)).
      apply elem_of_cons in Ht as [->|Ht]; [|by apply IH].
      rewrite Forall_forall in Hle. destruct (last (u :: txs)) as [y|] eqn:E; [|by apply last_None in E].
      unfold last_seq. rewrite E. apply last_Some_elem_of in E. specialize (Hle y E). lia.
Qed.
Lemma attests_more_covered tx txs sc :
  StronglySorted (fun a b => tx_Seq a <= tx_Seq b) (tx :: txs) ->
  attests_more (last_seq (tx :: txs)) (tx :: txs) sc = false <-> covered (tx :: txs) sc.
Proof.
  intros Hs. unfold attests_more, covered. set (cp := sc_Checkpoint sc). rewrite !andb_false_iff, negb_false_iff, Z.eqb_eq, Z.ltb_ge, Z.leb_gt, (last_seq_le _ _ _ Hs).
  assert (0 <= highestVersion (tx :: txs)) as H0'.
  { unfold highestVersion. assert (forall l acc, 0 <= acc -> 0 <= foldl (fun highest tx => if highest <? tx_VersionAfter tx then tx_VersionAfter tx else highest) acc l) as Hg; [|by apply Hg].
    induction l as [|t l IH]; intros acc Ha; [done|]. apply IH. destruct (acc <? _) eqn:E; lia. }
  assert (highestVersion (tx :: txs) < cp_Version cp <-> 0 < cp_Version cp /\ forall t, t ∈ tx :: txs -> tx_VersionAfter t < cp_Version cp) as ->; [|tauto].
  split.
  - intros Hv. split; [lia|]. intros t Ht. apply Z.nle_gt. intros Hle. assert (cp_Version cp <= highestVersion (tx :: txs)); [|lia].
    apply highestVersion_spec; [lia|]. by exists t.
  - intros [Hv Ht]. apply Z.nle_gt. intros Hle. apply highestVersion_spec in Hle as (t & Hin & Hle); [|done]. specialize (Ht t Hin). lia.
Qed.

Lemma filter_nil {A} (f : A -> bool) l : List.filter f l = [] <-> Forall (fun x => f x = false) l.
Proof. induction l as [|x l IH]; cbn; [done|]. rewrite Forall_cons. destruct (f x) eqn:E; [split; [done|naive_solver]|]. rewrite IH. naive_solver. Qed.

Lemma log_report_finds anchors txs lowest highest :
  finds (log_report anchors txs lowest highest) tt
    (negb (bool_decide (log_gaps ∅ None txs = [])) || negb (bool_decide (List.filter (attests_more highest txs) anchors = []))).
Proof.
  unfold log_report. eapply finds_bind.
  - destruct (log_gaps ∅ None txs) as [|g gaps]; [apply finds_check|]. apply (finds_checks _ (g :: gaps)). intros x. apply finds_check.
  - set (short := List.filter _ _). replace (negb (bool_decide (short = []))) with (negb (bool_decide (short = [])) || false) by by rewrite orb_false_r.
    eapply finds_bind; [apply finds_checks; intros x; apply finds_check|].
    destruct short; [|apply finds_ret]. destruct (lowest =? 1); [apply finds_check|apply finds_say].
Qed.

Lemma dense_sorted tx txs l :
  tx :: txs ≡ₚ l -> StronglySorted (fun a b => tx_Seq a <= tx_Seq b) (tx :: txs) ->
  tx_Seq <$> (tx :: txs) = seqZ (tx_Seq tx) (Z.of_nat (length (tx :: txs))) <-> exists lo, tx_Seq <$> l ≡ₚ seqZ lo (Z.of_nat (length l)).
Proof.
  intros Hp Hs. split.
  - intros E. exists (tx_Seq tx). rewrite <- Hp, E. by rewrite Hp.
  - intros [lo Hd]. rewrite <- Hp in Hd at 1. rewrite <- (Permutation_length Hp) in Hd.
    assert (tx_Seq <$> (tx :: txs) = seqZ lo (Z.of_nat (length (tx :: txs)))) as E.
    { apply (StronglySorted_unique Z.le); [|apply seqZ_sorted|exact Hd]. by eapply StronglySorted_fmap; [|exact Hs]. }
    rewrite E. f_equal. rewrite length_cons, Nat2Z.inj_succ, seqZ_cons in E by lia. by injection E.
Qed.

(** What the command finds, and nothing else. *)
Lemma log_verdict path anchors txs :
  read_log path = Ok txs -> txs <> [] ->
  exists bad, finds (verifyLogCompleteness path anchors) tt bad /\
    (bad = false <-> (exists lowest, tx_Seq <$> txs ≡ₚ seqZ lowest (Z.of_nat (length txs))) /\
       Forall one_commit txs /\ Forall (covered txs) anchors).
Proof.
  intros Hr Hne. pose proof (read_log_sized _ _ Hr) as Hz.
  pose proof (sort_Slice_sorted _ tx_Seq txs) as Hs. destruct (sorted_nonempty (fun a b => tx_Seq a <? tx_Seq b) txs Hne) as (tx & l & El & Hp).
  rewrite El in Hs. rewrite <- Hp in Hz. eexists. split.
  { unfold verifyLogCompleteness. eapply finds_need; [exact Hr|]. rewrite El. apply log_report_finds. }
  fold (last_seq (tx :: l)).
  rewrite !orb_false_iff, !negb_false_iff, !bool_decide_eq_true, filter_nil, log_gaps_nil, (dense_sorted _ _ _ Hp Hs) by done.
  assert (forall sc, attests_more (last_seq (tx :: l)) (tx :: l) sc = false <-> covered txs sc) as Hcov.
  { intros sc. rewrite attests_more_covered by done. unfold covered. by setoid_rewrite Hp. }
  assert (Forall (fun sc => attests_more (last_seq (tx :: l)) (tx :: l) sc = false) anchors <-> Forall (covered txs) anchors) as ->
    by (rewrite !Forall_forall; by setoid_rewrite Hcov).
  rewrite Hp. tauto.
Qed.

(** C30. The log is checked for what it can be checked for. Whatever log and
    checkpoints it is given, the verifier finds no fault exactly when the
    entries are numbered one by one with no number missing or repeated,
    every entry is one commit of the ledger, and every checkpoint attests
    no more entries than the log holds, unless its version lies after
    every version in the log. *)
Theorem log_checked (path : string) (anchors : list SignedCheckpoint) (txs : list Transaction) (rp : report) :
  read_log path = Ok txs -> txs <> [] ->
  exists rp', verifyLogCompleteness path anchors rp = (Ok tt, rp') /\
    (rp_failed rp' = false <->
     rp_failed rp = false /\ (exists lowest, tx_Seq <$> txs ≡ₚ seqZ lowest (Z.of_nat (length txs))) /\
     Forall one_commit txs /\ Forall (covered txs) anchors).
Proof.
  intros Hr Hne. destruct (log_verdict path anchors txs Hr Hne) as (bad & Hf & Hb). destruct (Hf rp) as [lines E].
  eexists. split; [exact E|]. cbn [rp_failed]. by rewrite orb_false_iff, Hb.
Qed.

(** The log of a register: entries from 1 on, each the next commit, and
    checkpoints each taken after the last entry it attests. *)
Record genuine_log (full : list Transaction) (anchors : list SignedCheckpoint) : Prop := {
  gl_dense : tx_Seq <$> full = seqZ 1 (Z.of_nat (length full));
  gl_commits : Forall one_commit full;
  gl_versions : StronglySorted (fun a b => tx_VersionAfter a < tx_VersionAfter b) full;
  gl_after : Forall (fun sc => exists tx, tx ∈ full /\ tx_Seq tx = cp_TxSeq (sc_Checkpoint sc) /\ tx_VersionAfter tx <= cp_Version (sc_Checkpoint sc)) anchors;
}.

(** A log cut short passes: whatever is removed from its end, the
    checkpoints that attest the removed entries lie after every version
    left, and are not held against it. *)
Lemma truncated_log_passes path full anchors k rp :
  genuine_log full anchors -> (0 < k <= length full)%nat -> read_log path = Ok (take k full) ->
  exists rp', verifyLogCompleteness path anchors rp = (Ok tt, rp') /\ (rp_failed rp = false -> rp_failed rp' = false).
Proof.
  intros [Hd Hc Hv Ha] Hk Hr. assert (length (take k full) = k) as Hlen by (rewrite length_take; lia).
  assert (take k full <> []) as Hne by (intros E; rewrite E in Hlen; cbn in Hlen; lia).
  destruct (log_verdict path anchors (take k full) Hr Hne) as (bad & Hf & Hbad). destruct (Hf rp) as [lines E].
  eexists. split; [exact E|]. cbn [rp_failed]. intros ->. apply Hbad. pose proof (read_log_sized _ _ Hr) as Hz. split_and!.
  - exists 1. rewrite Hlen, fmap_take, Hd. rewrite <- (take_drop k full) at 1. rewrite length_app, Hlen, Nat2Z.inj_add, seqZ_app by lia.
    rewrite take_app_le by (rewrite length_seqZ; lia). rewrite take_ge by (rewrite length_seqZ; lia). done.
  - by apply Forall_take.
  - rewrite Forall_forall in Ha. apply Forall_forall. intros sc Hsc. destruct (Ha sc Hsc) as (tx & Htx & Eseq & Hver). unfold covered. cbv zeta.
    rewrite <- (take_drop k full) in Htx. apply elem_of_app in Htx as [Htx|Htx]; [right; left; exists tx; split; [done|lia]|].
    right; right. rewrite <- (take_drop k full) in Hv. apply StronglySorted_app in Hv as (Hv & _ & _).
    assert (forall t, t ∈ take k full -> tx_VersionAfter t < cp_Version (sc_Checkpoint sc)) as Hall by (intros t Ht; specialize (Hv t tx Ht Htx); lia).
    split; [|done]. destruct (take k full) as [|t l]; [done|]. specialize (Hall t ltac:(left)).
    apply Forall_cons in Hz as [(_ & _ & Ht) _]. unfold uint64 in Ht. lia.
Qed.
End log.

(** ** Documents to compute with *)

#[program] Definition plain_host (files : list (string * string)) : Host := {|
  ReadFile path := of_option (assoc path files) (Errorf "open: no such file" []);
  sort_Slice A less l := merge_sort (fun a b => negb (less b a)) l;
|}.
Next Obligation. intros. apply merge_sort_Permutation. Qed.
Next Obligation.
  intros files A f l. cbv beta. set (R := fun a b : A => negb (f b <? f a)).
  assert (Transitive R) by (unfold R; intros a b c Hab Hbc; destruct (f b <? f a) eqn:?, (f c <? f b) eqn:?; try done; destruct (f c <? f a) eqn:?; [lia|done]).
  assert (Total R) by (unfold R; intros a b; destruct (f b <? f a) eqn:?, (f a <? f b) eqn:?; auto; lia).
  pose proof (StronglySorted_merge_sort R l) as Hs. rewrite <- (list_fmap_id (merge_sort _ l)). eapply (StronglySorted_fmap id); [|exact Hs].
  intros a b Hab. unfold id. unfold R in Hab. destruct (f b <? f a) eqn:?; [done|lia].
Qed.

Definition demo_key : string := "0123456789abcdef0123456789abcdef".
Definition demo_signed (cp : Checkpoint) : SignedCheckpoint :=
  match @Sign plain_crypto demo_key "key" cp with Ok sc => sc | Err _ => mkSigned cp "" "" "" end.
Definition text_of (v : value) : string := match go_json v with Ok t => t | Err _ => "" end.
(** Two checkpoints of one history, and a third that gives the second's
    version another root. *)
Definition demo_anchor (v seq : Z) (rt : string) : SignedCheckpoint :=
  demo_signed (mkCheckpoint "r" v rt "" 1700000000 "event" "" seq [] None).
Definition demo_chain : list SignedCheckpoint := [demo_anchor 4 2 (plain_root 4); demo_anchor 3 1 (plain_root 3)].
Definition demo_fork : list SignedCheckpoint := demo_chain ++ [demo_anchor 4 2 (plain_root 5)].
Definition demo_entry (seq : Z) : value :=
  VObj [("seq", VInt seq); ("txid", VStr "t"); ("state", VStr "applied"); ("version_before", VInt (seq + 1)); ("version_after", VInt (seq + 2))].
Definition demo_files : list (string * string) := [
  ("register.key", base64_encode demo_key);
  ("chain.json", text_of (VArr (signed_value <$> demo_chain)));
  ("fork.json", text_of (VArr (signed_value <$> demo_fork)));
  ("log.json", text_of (VArr (demo_entry <$> [3; 1])));
  ("short.json", text_of (VArr (demo_entry <$> [1])))].
#[local] Instance demo_unicode : GoUnicode := rt_unicode (Runtime := plain_runtime).
Definition demo_run (cmd file log : string) : Z * report :=
  @run (plain_host demo_files) plain_crypto plain_ledger demo_unicode cmd [file] "register.key" "" log.

(** Two roots for one version are found; the log that lacks an entry is
    found; the log that ends early is not. *)
Example fork_found : (demo_run "chain" "chain.json" "").1 = 0 /\ (demo_run "chain" "fork.json" "").1 = 1.
Proof. vm_compute. done. Qed.
Example gap_found : (demo_run "chain" "chain.json" "log.json").1 = 1 /\ (demo_run "chain" "chain.json" "short.json").1 = 0.
Proof. vm_compute. done. Qed.

Lemma chain_detects_forks_witness :
  let status := (demo_run "chain" "fork.json" "").1 in
  @read_chain (plain_host demo_files) "fork.json" = Ok demo_fork /\
  (status = 0 <-> @genuine plain_crypto demo_key demo_fork /\ unforked demo_fork) /\ (status = 0 \/ status = 1).
Proof.
  cbv zeta. assert (@loadKey (plain_host demo_files) "register.key" = Ok demo_key) as Hk by (vm_compute; reflexivity).
  assert (@read_chain (plain_host demo_files) "fork.json" = Ok demo_fork) as Hr by (vm_compute; reflexivity).
  split; [exact Hr|].
  exact (@chain_detects_forks (plain_host demo_files) plain_crypto plain_ledger demo_unicode "fork.json" "register.key" demo_key demo_fork Hk Hr ltac:(discriminate)).
Defined.

Definition demo_log : list Transaction := match @read_log (plain_host demo_files) "short.json" with Ok l => l | Err _ => [] end.
Lemma log_checked_witness :
  let rp := mkReport [] false in
  exists rp', @verifyLogCompleteness (plain_host demo_files) "short.json" demo_chain rp = (Ok tt, rp') /\
    (rp_failed rp' = false <->
     rp_failed rp = false /\ (exists lowest, tx_Seq <$> demo_log ≡ₚ seqZ lowest (Z.of_nat (length demo_log))) /\
     Forall one_commit demo_log /\ Forall (covered demo_log) demo_chain).
Proof.
  assert (@read_log (plain_host demo_files) "short.json" = Ok demo_log) as Hr by (vm_compute; reflexivity).
  exact (@log_checked (plain_host demo_files) "short.json" demo_chain demo_log (mkReport [] false) Hr ltac:(vm_compute; discriminate)).
Defined.
