(* ===== verification/BundleCorrect.v ===== *)
(** * From the register to the verifier

    The whole way of a piece of evidence: the register reads a row,
    proves it, signs the bundle and prints it as JSON; the offline
    verifier, a program of its own, reads that text back and accepts it.
    Reading changes numbers into floats and bytes into text; neither
    touches what was signed. *)

From S2P Require Import Prelude GoStrings Float64 Encoding Canon Json Decimal SqlText Sql Rbac JsonSchema Pack Model World Concrete Commit Replay Byok GoJson Records Anchors Checkpoints Ranges CheckpointsCorrect Auditing AuditCorrect Verifier VerifierCorrect.
Local Open Scope Z_scope.

(** ** A bundle as text *)

(** A cell of a row as JSON carries it: text, a counter a [float64]
    holds, a truth value, nothing, or bytes. *)
Inductive cell : value -> Prop :=
  | cell_counter v : counter v -> cell v
  | cell_null : cell VNull
  | cell_bool b : cell (VBool b)
  | cell_bytes s : cell (VBytes s).

Definition reload_cell (v : value) : value :=
  match v with VInt z => VFloat (of_Z z) | VBytes s => VStr (base64_encode s) | _ => v end.

Lemma cell_jsonable v : cell v -> jsonable v.
Proof. destruct 1; [by apply counter_jsonable|constructor..]. Qed.
Lemma cell_floatify v : cell v -> floatify (shape v) = Ok (reload_cell v).
Proof.
  destruct 1 as [v [s _|z Hz]| | |]; try done. cbn [shape floatify reload_cell].
  by rewrite ParseFloat_itoa by (assert (10 ^ 15 < 2 ^ 53) by (vm_compute; done); lia).
Qed.
Lemma cell_normalise v : cell v -> normalise (reload_cell v) = normalise v.
Proof.
  destruct 1 as [v Hc| | |s]; [|done|done|].
  - rewrite <- (reload_normalise v Hc). by destruct Hc.
  - cbn [reload_cell normalise]. by rewrite to_valid_id by apply ascii_to_valid, base64_ascii.
Qed.

Definition reload_row (m : object) : object := map (fun kv => (kv.1, reload_cell kv.2)) m.
Definition reload_bundle (b : EvidenceBundle) : EvidenceBundle :=
  mkBundle (eb_Register b) (eb_Statement b) (eb_Table b) (map reload_cell (eb_PrimaryKey b)) (eb_Present b) (reload_row (eb_Row b))
    (eb_LedgerKey b) (eb_LedgerValue b) (eb_Path b) (eb_Proof b) (eb_Root b) (eb_Version b) (eb_IssuedAt b) (reload <$> eb_Checkpoint b)
    (eb_KeyID b) (eb_Algorithm b) (eb_Signature b).

(** A bundle whose fields are of their Go types and in UTF-8. *)
Record exportable (b : EvidenceBundle) : Prop := {
  ex_text : Forall (fun s => valid_utf8 s = true)
    [eb_Register b; eb_Statement b; eb_Table b; eb_LedgerKey b; eb_LedgerValue b; eb_Path b; eb_Proof b; eb_Root b; eb_KeyID b; eb_Algorithm b; eb_Signature b];
  ex_key : Forall cell (eb_PrimaryKey b);
  ex_names : NoDup (eb_Row b).*1;
  ex_row : Forall (fun kv => plain_name kv.1 /\ cell kv.2) (eb_Row b);
  ex_version : uint64 (eb_Version b);
  ex_issued : int64_min <= eb_IssuedAt b <= int64_max;
  ex_checkpoint : forall sc, eb_Checkpoint b = Some sc -> storable sc;
}.

Lemma floatify_row m :
  Forall (fun kv => plain_name kv.1 /\ cell kv.2) m -> floatify_obj (map (fun kv => (kv.1, shape kv.2)) m) = Ok (reload_row m).
Proof.
  intros Hf. unfold floatify_obj. cbn [floatify]. rewrite !map_map. cbn [fst snd].
  rewrite (collect_Forall2 _ (reload_row m)); [done|]. unfold reload_row.
  induction Hf as [|[k v] m [_ Hc] _ IH]; [constructor|]. cbn [map fst snd] in *. constructor; [|exact IH]. by rewrite cell_floatify.
Qed.
Lemma floatify_key l : Forall cell l -> collect (map floatify (map shape l)) = Ok (map reload_cell l).
Proof.
  intros Hf. rewrite map_map. apply collect_Forall2. induction Hf as [|v l Hv _ IH]; constructor; [|exact IH]. by apply cell_floatify.
Qed.

Ltac names_tac := apply (bool_decide_unpack _); vm_compute; exact I.
Ltac plain_tac := split; vm_compute; reflexivity.

Lemma bundle_jsonable b : exportable b -> jsonable (bundle_value b).
Proof.
  intros [Ht Hk Hn Hr _ _ Hc]. unfold bundle_value, omit_str.
  assert (jsonable (match eb_PrimaryKey b with [] => VNull | l => VArr l end)) as Hkj.
  { destruct (eb_PrimaryKey b); [constructor|]. constructor. eapply Forall_impl; [exact Hk|]. apply cell_jsonable. }
  assert (jsonable (VObj (eb_Row b))) as Hrj.
  { constructor; [done|]. eapply Forall_impl; [exact Hr|]. cbn beta. intros kv [? ?]. split; [done|]. by apply cell_jsonable. }
  assert (forall sc, eb_Checkpoint b = Some sc -> jsonable (signed_value sc)) as Hcj by (intros sc E; apply signed_jsonable; by apply Hc).
  rewrite !Forall_cons in Ht. destruct Ht as (? & ? & ? & ? & ? & ? & ? & ? & ? & ? & ? & _).
  constructor.
  - destruct (String.eqb _ _), (eb_Row _), (eb_Checkpoint _); names_tac.
  - rewrite !Forall_app. destruct (String.eqb _ _), (eb_Row _), (eb_Checkpoint _) as [sc|]; split_and!;
      repeat first [apply Forall_nil_2|apply Forall_cons_2]; cbn [fst snd]; (split; [plain_tac|]);
      first [by constructor|done|by apply Hcj].
Qed.

(** The text decodes to the bundle, its values as JSON has them. *)
Lemma decode_bundle_shape b : exportable b -> decode_bundle (shape (bundle_value b)) = Ok (reload_bundle b).
Proof.
  intros [_ Hk _ Hr Hv%ParseUint64_itoa Hi%ParseInt64_itoa Hc]. apply floatify_row in Hr. apply floatify_key in Hk.
  assert (forall sc, eb_Checkpoint b = Some sc -> decode_signed (shape (signed_value sc)) = Ok (reload sc)) as Hd
    by (intros sc E; apply decode_signed_shape; by apply Hc).
  destruct b as [register statement table key present row lkey lval path pf rt v issued cp id alg sig].
  cbn [eb_Version eb_IssuedAt eb_Row eb_PrimaryKey eb_Checkpoint] in *. clear Hc.
  assert (forall sc, exists m, shape (signed_value sc) = VObj m) as Hm by (intros sc; by eexists).
  unfold bundle_value, reload_bundle, omit_str.
  cbn [eb_Register eb_Statement eb_Table eb_PrimaryKey eb_Present eb_Row eb_LedgerKey eb_LedgerValue eb_Path eb_Proof eb_Root eb_Version eb_IssuedAt eb_Checkpoint eb_KeyID eb_Algorithm eb_Signature].
  destruct (String.eqb_spec lval ""), row as [|kv row], cp as [sc|], key as [|kx key]; subst;
    try (specialize (Hd sc eq_refl); destruct (Hm sc) as [ms Ems]);
    cbn [app shape map fst snd]; try rewrite Ems in *;
    unfold decode_bundle, get_str, get_uint, get_int, get_bool, get_list, get_map, decode_optional, get_pointer; cbn [as_obj mbind res_bind]; own_fields;
    cbn -[ParseUint64 ParseInt64 floatify_obj floatify collect reload_row reload_cell itoa decode_signed shape signed_value];
    cbn [map fst snd] in Hk, Hr; rewrite ?Hk; cbn -[ParseUint64 ParseInt64 floatify_obj floatify collect reload_row reload_cell itoa decode_signed shape signed_value];
    rewrite ?Hr; cbn -[ParseUint64 ParseInt64 floatify_obj floatify collect reload_row reload_cell itoa decode_signed shape signed_value];
    rewrite Hv, Hi; cbn -[reload_row reload_cell decode_signed shape signed_value]; rewrite ?Hd; reflexivity.
Qed.

(** It is still the bundle that was signed. *)
Lemma normalise_elements l1 l2 : Forall2 (fun a b => normalise a = normalise b) l1 l2 -> normalise (VArr l1) = normalise (VArr l2).
Proof.
  intros F. cbn [normalise]. enough (map normalise l1 = map normalise l2) as -> by done. induction F as [|a b l1 l2 Hab _ IH]; [done|].
  cbn [map]. by rewrite Hab, IH.
Qed.
Lemma reload_signed sc : storable sc -> normalise (signed_value (reload sc)) = normalise (signed_value sc).
Proof.
  intros Hs. unfold signed_value. apply normalise_members. constructor; [|repeat constructor]. split; [done|]. cbn [snd].
  change (sc_Checkpoint (reload sc)) with (reload_checkpoint (sc_Checkpoint sc)). by apply reload_normalise_checkpoint.
Qed.
Lemma reload_bundle_Marshal b : exportable b -> Marshal (bundle_value (reload_bundle b)) = Marshal (bundle_value b).
Proof.
  intros [_ Hk _ Hr _ _ Hc]. unfold Marshal. f_equal. unfold bundle_value. apply normalise_members.
  assert (forall m : object, Forall2 (fun a b => a.1 = b.1 /\ normalise a.2 = normalise b.2) m m) as Hrefl by (intros m; induction m; by constructor).
  cbn [reload_bundle eb_Register eb_Statement eb_Table eb_PrimaryKey eb_Present eb_Row eb_LedgerKey eb_LedgerValue eb_Path eb_Proof eb_Root eb_Version eb_IssuedAt eb_Checkpoint eb_KeyID eb_Algorithm eb_Signature].
  apply Forall2_app; [|apply Forall2_app; [|repeat (apply Forall2_app; [apply Hrefl|]); apply Forall2_app; [|apply Hrefl]]].
  - do 3 (constructor; [done|]). constructor; [|apply Hrefl]. split; [done|]. cbn [snd].
    destruct (eb_PrimaryKey b) as [|v l]; [done|]. change (map reload_cell (v :: l)) with (reload_cell v :: map reload_cell l).
    apply (normalise_elements (map reload_cell (v :: l))). revert Hk. generalize (v :: l) as l'. induction 1; cbn [map]; constructor; [by apply cell_normalise|done].
  - destruct (eb_Row b) as [|kv m]; [constructor|]. change (reload_row (kv :: m)) with ((kv.1, reload_cell kv.2) :: reload_row m).
    constructor; [|constructor]. split; [done|]. cbn [snd]. apply (normalise_members (reload_row (kv :: m))).
    revert Hr. generalize (kv :: m) as l. induction 1 as [|[k v] l [_ Hv] _ IH]; cbn; [constructor|]. constructor; [|exact IH]. split; [done|]. by apply cell_normalise.
  - destruct (eb_Checkpoint b) as [sc|]; [|constructor]. constructor; [|constructor]. split; [done|]. by apply reload_signed, Hc.
Qed.

Section accepted.
Context `{Host} `{Runtime} `{!Ledger}.

Lemma reload_bundle_verifies pub b : exportable b -> VerifyBundleSignature pub (reload_bundle b) = VerifyBundleSignature pub b.
Proof.
  intros He. unfold VerifyBundleSignature. change (unsigned (reload_bundle b)) with (reload_bundle (unsigned b)).
  rewrite reload_bundle_Marshal; [done|]. destruct He as [Ht Hk Hn Hr Hv Hi Hc]. split; try done.
  rewrite !Forall_cons in Ht |- *. cbn [unsigned eb_Register eb_Statement eb_Table eb_LedgerKey eb_LedgerValue eb_Path eb_Proof eb_Root eb_KeyID eb_Algorithm eb_Signature].
  by destruct Ht as (? & ? & ? & ? & ? & ? & ? & ? & ? & ? & ? & _).
Qed.

(** The verifier accepts a bundle that carries its checkpoint when every
    check holds of what was printed. *)
Lemma bundle_accepted path keyRef pub b sc text :
  exportable b -> eb_Checkpoint b = Some sc ->
  VerifyBundleProof b = Ok tt -> VerifyBundleSignature pub b = Ok tt ->
  VerifyBundleAgainstCheckpoint b (sc_Checkpoint sc) = Ok tt -> VerifyCheckpoint pub sc = Ok tt ->
  go_json (bundle_value b) = Ok text -> ReadFile path = Ok text -> loadKey keyRef = Ok pub ->
  (run "bundle" [path] keyRef "" "").1 = 0.
Proof.
  intros He Hsc Hp Hs Ha Hv Ej Hf Hk. destruct (parse_go_json _ (bundle_jsonable b He)) as (t & Et & Epr). rewrite Ej in Et. injection Et as <-.
  assert (read_json decode_bundle path = Ok (reload_bundle b)) as Hr
    by (unfold read_json; rewrite Hf; cbn [mbind res_bind]; rewrite Epr; cbn [mbind res_bind]; by rewrite decode_bundle_shape).
  assert (finds (verifyBundle path keyRef "") tt false) as Hfinds.
  { unfold verifyBundle. eapply finds_need; [exact Hk|]. eapply finds_need; [exact Hr|].
    eapply finds_then; [apply finds_say|]. eapply finds_then.
    { change (VerifyBundleProof (reload_bundle b)) with (VerifyBundleProof b). rewrite Hp. apply (finds_check _ None). }
    eapply finds_then; [rewrite reload_bundle_verifies, Hs by done; apply (finds_check _ None)|].
    eapply finds_then; [apply finds_ret|]. eapply finds_then; [|destruct (eb_Row _); [apply finds_ret|apply finds_say]].
    cbn [reload_bundle eb_Checkpoint]. rewrite Hsc. cbn [fmap option_fmap option_map].
    eapply finds_then.
    { change (VerifyBundleAgainstCheckpoint _ (sc_Checkpoint (reload sc))) with (VerifyBundleAgainstCheckpoint b (sc_Checkpoint sc)).
      rewrite Ha. apply (finds_check _ None). }
    eapply finds_then; [|apply finds_note]. rewrite reload_verifies, Hv by (by apply (ex_checkpoint _ He)). apply (finds_check _ None). }
  destruct (finds_status _ _ Hfinds) as (rp & E & Es). unfold run. rewrite String.eqb_refl. cbv beta iota zeta. rewrite E. exact Es.
Qed.
End accepted.

(** ** The whole way *)
Section whole_way.
Context `{Runtime} `{!Ledger}.
Variable r : Register.
Abbreviation pub := (ed25519_public (mat_Signer (mat r))).

(** C9. Evidence goes the whole way. A bundle the register returns names
    the version and root the row was read at, and producing it moved
    neither; its proof folds to that root and shows the row present exactly
    when the bundle says so; its signature verifies under the published
    key; it carries a checkpoint, itself genuine, of that very version and
    root. And printed as JSON it is accepted by the offline verifier: on
    any host that has the text and the key, the exit status is 0. *)
Theorem evidence_accepted (p : Principal) (table : string) (key : list value) (statement : string) (w w' : world) (raw : string) (b : EvidenceBundle) :
  root w = hex_encode raw -> len raw = 32 -> latest_sound r w ->
  Evidence r p table key statement w = (Ok b, w') ->
  eb_Version b = version w /\ eb_Root b = root w /\ eb_Table b = table /\ eb_PrimaryKey b = key /\ position_of w' = position_of w /\
  VerifyBundleProof b = Ok tt /\ VerifyBundleSignature pub b = Ok tt /\
  (exists sc, eb_Checkpoint b = Some sc /\ VerifyBundleAgainstCheckpoint b (sc_Checkpoint sc) = Ok tt /\ VerifyCheckpoint pub sc = Ok tt) /\
  (exportable b -> exists text, go_json (bundle_value b) = Ok text /\
     forall (host : Host) path keyRef, ReadFile path = Ok text -> loadKey keyRef = Ok pub -> (run "bundle" [path] keyRef "" "").1 = 0).
Proof.
  intros Hroot Hraw Hs E.
  destruct (evidence_verifies _ _ _ _ _ _ _ _ _ Hroot Hraw Hs E) as (Hp & Hsig & (sc & Hsc & Ha & Hv) & ? & ? & ? & ? & ?).
  split_and!; try done; [by exists sc|]. intros He. destruct (parse_go_json _ (bundle_jsonable b He)) as (text & Et & _).
  exists text. split; [done|]. intros host path keyRef Hf Hk. by eapply bundle_accepted.
Qed.
End whole_way.

(** ** A run *)
Definition key_register : Register :=
  mkRegister demo_pack (mkOptions "r" "t" "sha256:1" "derived") (mkMaterial "master" demo_key "key").
Definition car_evidence (plate : string) : res EvidenceBundle * world :=
  @Evidence plain_runtime plain_ledger key_register auditor "natural_keys" [VStr "t"; VStr "car"; VStr plate] "a plate" car_world.
Definition bundle_in (x : res EvidenceBundle * world) : EvidenceBundle :=
  match x.1 with Ok b => b | Err _ => mkBundle "" "" "" [] false [] "" "" "" "" "" 0 0 None "" "" "" end.
Definition car_bundle : EvidenceBundle := Eval vm_compute in bundle_in (car_evidence "A1").
Lemma car_evidence_Ok : car_evidence "A1" = (Ok car_bundle, (car_evidence "A1").2).
Proof. vm_compute. reflexivity. Qed.
Lemma car_exportable : exportable car_bundle.
Proof.
  split.
  - repeat (apply Forall_cons_2; [vm_compute; reflexivity|]). apply Forall_nil_2.
  - repeat (apply Forall_cons_2; [by repeat constructor|]). apply Forall_nil_2.
  - apply (bool_decide_unpack _). vm_compute. exact I.
  - repeat (apply Forall_cons_2; [split; [split; vm_compute; reflexivity|by repeat constructor]|]). apply Forall_nil_2.
  - split; vm_compute; [discriminate|reflexivity].
  - split; vm_compute; discriminate.
  - intros sc [= <-]. split.
    1,3: split; vm_compute; [discriminate|reflexivity].
    all: try (match goal with |- valid_utf8 _ = true => vm_compute; reflexivity end).
    + split; vm_compute; discriminate.
    + apply (bool_decide_unpack _). vm_compute. exact I.
    + repeat (apply Forall_cons_2; [split; [split; vm_compute; reflexivity|constructor; (split; vm_compute; [discriminate|reflexivity]) || (vm_compute; reflexivity)]|]). apply Forall_nil_2.
    + intros q. discriminate.
Qed.

(** A row that is there, one that is not, and a run of the verifier on
    the printed bundle. *)
Definition car_files : list (string * string) := [("register.key", base64_encode demo_key); ("car.json", text_of (bundle_value car_bundle))].
Example car_verified : @run (plain_host car_files) plain_crypto plain_ledger demo_unicode "bundle" ["car.json"] "register.key" "" "" =
  (0, (@run (plain_host car_files) plain_crypto plain_ledger demo_unicode "bundle" ["car.json"] "register.key" "" "").2).
Proof. vm_compute. reflexivity. Qed.

Lemma evidence_accepted_witness :
  eb_Present car_bundle = true /\ eb_Present (bundle_in (car_evidence "B2")) = false /\ exportable car_bundle /\
  (let b := car_bundle in
   eb_Version b = version car_world /\ eb_Root b = root car_world /\ eb_Table b = "natural_keys" /\
   eb_PrimaryKey b = [VStr "t"; VStr "car"; VStr "A1"] /\ position_of (car_evidence "A1").2 = position_of car_world /\
   @VerifyBundleProof plain_crypto plain_ledger b = Ok tt /\ @VerifyBundleSignature plain_crypto demo_key b = Ok tt /\
   (exists sc, eb_Checkpoint b = Some sc /\ VerifyBundleAgainstCheckpoint b (sc_Checkpoint sc) = Ok tt /\
      @VerifyCheckpoint plain_crypto demo_key sc = Ok tt) /\
   (exportable b -> exists text, go_json (bundle_value b) = Ok text /\
      forall (host : Host) path keyRef, ReadFile path = Ok text -> loadKey keyRef = Ok demo_key ->
        (@run host plain_crypto plain_ledger demo_unicode "bundle" [path] keyRef "" "").1 = 0)).
Proof.
  split; [vm_compute; reflexivity|]. split; [vm_compute; reflexivity|]. split; [exact car_exportable|].
  exact (@evidence_accepted plain_runtime plain_ledger key_register auditor "natural_keys" [VStr "t"; VStr "car"; VStr "A1"] "a plate"
    car_world _ (bytes_le 32 1) _ eq_refl eq_refl ltac:(intros sc E; discriminate E) car_evidence_Ok).
Defined.
