(* ===== verification/Queries.v ===== *)
(** * The read surface ([internal/register/query.go])

    Listings of records, one record with its payload as one caller may
    see it, its history, the transaction log, and the saved queries of the
    pack. Verified reads, which the same file of the program holds, are in
    Auditing.v. *)

From S2P Require Import Prelude GoStrings Float64 Encoding Canon Json SqlText Sql Rbac JsonSchema Pack Model World Commit Byok Records Workflow Anchors Checkpoints.
Local Open Scope Z_scope.

(** [model.Object]. *)
Record Object_ := mkObject {
  ob_ID : string;
  ob_Tenant : string;
  ob_Class : string;
  ob_NaturalKey : string;
  ob_HeadVersion : Z;
  ob_Status : string;
  ob_CreatedAt : Z;
  ob_UpdatedAt : Z;
  ob_CreatedTx : string;
  ob_UpdatedTx : string;
  ob_Erased : bool;
}.
Definition decodeObject (row : Row) : Object_ :=
  mkObject (Str row "id") (Str row "tenant") (Str row "class") (Str row "natural_key") (Uint row "head_version")
    (Str row "status") (Int row "created_at") (Int row "updated_at") (Str row "created_tx") (Str row "updated_tx") (Bool row "erased").

Record ListFilter := mkListFilter {
  lf_Class : string;
  lf_Status : string;
  lf_Match : gmap string string;
  lf_Search : string;
  lf_Order : string;
  lf_Desc : bool;
  lf_Limit : Z;
  lf_Offset : Z;
}.
Record ObjectSummary := mkSummary { os_Object : Object_; os_Projection : gmap string sqlval }.
Record RecordView := mkView { vw_Object : Object_; vw_Version : RecordVersion }.
Record HistoryEntry := mkEntry {
  he_Version : RecordVersion;
  he_Transaction : option Transaction;
  he_Diff : gmap string (value * value);
}.
Record LogFilter := mkLogFilter {
  gf_Class : string;
  gf_ObjectID : string;
  gf_Author : string;
  gf_Role : string;
  gf_Kind : string;
  gf_RefType : string;
  gf_Target : string;
  gf_From : Z;
  gf_To : Z;
  gf_Limit : Z;
  gf_Offset : Z;
}.
Record TransactionDetail := mkTransactionDetail { td_Transaction : Transaction; td_Refs : list Ref }.

(** [escapeLike] deletes the wildcards. *)
Definition escapeLike (s : string) : string := ReplaceAll1 (ReplaceAll1 s "%"%char "") "_"%char "".

(** [diffPayloads]. *)
Definition diffPayloads (before after : RecordVersion) : gmap string (value * value) :=
  let old k := default VNull (obj_get k (rv_Payload before)) in
  let changed := omap (fun kv : string * value =>
    match obj_get kv.1 (rv_Payload before) with
    | Some o => if String.eqb (Sprint o) (Sprint kv.2) then None else Some (kv.1, (old kv.1, kv.2))
    | None => Some (kv.1, (old kv.1, kv.2))
    end) (rv_Payload after) in
  let gone := omap (fun kv : string * value =>
    match obj_get kv.1 (rv_Payload after) with Some _ => None | None => Some (kv.1, (kv.2, VNull)) end) (rv_Payload before) in
  let diff := list_to_map (changed ++ gone) in
  if String.eqb (rv_Status before) (rv_Status after) then diff
  else <["(status)" := (VStr (rv_Status before), VStr (rv_Status after))]> diff.

Section queries.
Context `{Runtime}.
Variable r : Register.
(** [strconv.ParseFloat(s, 64)] of a text a caller typed. *)
Variable parse_float : string -> option float64.

(** ** Listings *)

(** The clauses and the order of [ListObjects], from the filter. *)
Definition list_clauses (p : Principal) (class : Class_) (projections : list string) (f : ListFilter) : res (list string) :=
  matches ← collect (map (fun col =>
    if containsString projections col
    then Ok ("q." +:+ Ident col +:+ " = " +:+ lit_str (default "" (lf_Match f !! col)))
    else Err (Errorf "%s is not a queryable property of %s" [col; c_Name class])) (sort_strings (map_to_list (lf_Match f)).*1));
  Ok (["o.tenant = " +:+ lit_str (p_Tenant p); "o.class = " +:+ lit_str (c_Name class)]
      ++ (if String.eqb (lf_Status f) "" then [] else ["o.status = " +:+ lit_str (lf_Status f)])
      ++ (if String.eqb (lf_Search f) "" then [] else ["o.natural_key LIKE " +:+ lit_str (escapeLike (lf_Search f) +:+ "%")])
      ++ matches).
Definition list_order (class : Class_) (projections : list string) (f : ListFilter) : res string :=
  if String.eqb (lf_Order f) "" then Ok "o.updated_at"
  else if containsString ["natural_key"; "status"; "created_at"; "updated_at"] (lf_Order f) then Ok ("o." +:+ Ident (lf_Order f))
  else if containsString projections (lf_Order f) then Ok ("q." +:+ Ident (lf_Order f))
  else Err (Errorf "%s is not a sortable property of %s" [lf_Order f; c_Name class]).
Definition list_text (class : Class_) (clauses : list string) (ord : string) (f : ListFilter) : string :=
  "SELECT o.*, q.* FROM `objects` AS o JOIN " +:+ Ident (QueryTable class) +:+ " AS q ON q.object_id = o.id WHERE "
  +:+ Join clauses " AND " +:+ " ORDER BY " +:+ ord +:+ " " +:+ (if lf_Desc f then "DESC" else "ASC")
  +:+ " LIMIT " +:+ itoa (clampLimit (lf_Limit f)) +:+ " OFFSET " +:+ itoa (Z.max (lf_Offset f) 0).
Definition summary_of_row (projections : list string) (row : Row) : ObjectSummary :=
  mkSummary (decodeObject row) (filter (fun kv => kv.1 ∈ projections) row).
Definition ListObjects (p : Principal) (f : ListFilter) : M (list ObjectSummary) :=
  class ← lift (of_option (Class (pk r) (lf_Class f)) (Errorf "no class named %q" [lf_Class f]));
  _ ← guard_ (negb (CanOn p PermRead (c_Name class))) (Errorf "%s may not read %s records" [Acting p; c_Name class]);
  let projections := pj_Column <$> Projections (Compiled class) in
  clauses ← lift (list_clauses p class projections f);
  ord ← lift (list_order class projections f);
  rows ← Do (query (SQuery (list_text class clauses ord f)));
  mret (summary_of_row projections <$> rows).

(** ** One record *)

Definition versionAt (p : Principal) (class : Class_) (objectID : string) (version : Z) : M RecordVersion :=
  row ← select_one "record_versions" [is_ "object_id" (VStr objectID); is_ "version" (VInt version)];
  row ← lift (of_option row (Errorf "%s has no version %d" [objectID; itoa version]));
  _ ← guard_ (Bool row "pruned") (PruneError objectID version (Str row "prune_policy"));
  readVersion r (Some p) class row.
Definition GetObject (p : Principal) (objectID : string) : M RecordView :=
  Do (row ← objectRow (p_Tenant p) objectID;
      let obj := decodeObject row in
      class ← lift (of_option (Class (pk r) (ob_Class obj)) (Errorf "this register no longer declares class %q" [ob_Class obj]));
      _ ← guard_ (negb (CanOn p PermRead (c_Name class))) (Errorf "%s may not read %s records" [Acting p; c_Name class]);
      version ← versionAt p class objectID (ob_HeadVersion obj);
      mret (mkView obj version)).

(** The class of a record, for a caller who may read it. *)
Definition readable_class (p : Principal) (name : string) : M Class_ :=
  let refusal := Errorf "%s may not read %s records" [Acting p; name] in
  class ← lift (of_option (Class (pk r) name) refusal);
  _ ← guard_ (negb (CanOn p PermRead name)) refusal;
  mret class.
Definition GetVersion (p : Principal) (objectID : string) (version : Z) : M RecordView :=
  Do (row ← objectRow (p_Tenant p) objectID;
      class ← readable_class p (Str row "class");
      v ← versionAt p class objectID version;
      mret (mkView (decodeObject row) v)).

(** ** Its history *)

(** The loop of [History], oldest first. *)
Fixpoint history_entries (p : Principal) (class : Class_) (previous : option RecordVersion) (rows : list Row) : M (list HistoryEntry) :=
  match rows with
  | [] => mret []
  | row :: rows =>
      v ← readVersion r (Some p) class row;
      txn ← attempt (transactionByID (rv_TxID v));
      let entry := mkEntry v (mjoin txn) (match previous with Some b => diffPayloads b v | None => ∅ end) in
      entries ← history_entries p class (Some v) rows;
      mret (entry :: entries)
  end.
Definition History (p : Principal) (objectID : string) : M (list HistoryEntry) :=
  Do (row ← objectRow (p_Tenant p) objectID;
      class ← readable_class p (Str row "class");
      versions ← query (SSelect "record_versions" [is_ "object_id" (VStr objectID)] (Some (mkOrder "version" true)) None);
      entries ← history_entries p class None (rev versions);
      mret (rev entries)).

(** ** The log *)

(** [WHERE], without and with the table of references joined. *)
Definition when_set (v : string) (c : cond) : list cond := if String.eqb v "" then [] else [c].
Definition log_conds (p : Principal) (f : LogFilter) : list cond :=
  [is_ "tenant" (VStr (p_Tenant p))]
  ++ when_set (gf_Class f) (is_ "class" (VStr (gf_Class f)))
  ++ when_set (gf_ObjectID f) (is_ "object_id" (VStr (gf_ObjectID f)))
  ++ when_set (gf_Author f) (is_ "author_sub" (VStr (gf_Author f)))
  ++ when_set (gf_Role f) (is_ "author_role" (VStr (gf_Role f)))
  ++ when_set (gf_Kind f) (is_ "kind" (VStr (gf_Kind f)))
  ++ (if 0 <? gf_From f then [mkCond "created_at" OGe (VInt (gf_From f))] else [])
  ++ (if 0 <? gf_To f then [mkCond "created_at" OLe (VInt (gf_To f))] else []).
Definition ref_conds (f : LogFilter) : list cond :=
  when_set (gf_RefType f) (is_ "ref_type" (VStr (gf_RefType f))) ++ when_set (gf_Target f) (is_ "target" (VStr (gf_Target f))).

(** [LIMIT n OFFSET o] keeps the first [o + n] rows and drops [o]. *)
Definition log_offset (f : LogFilter) : nat := Z.to_nat (Z.max (gf_Offset f) 0).
Definition log_limit (f : LogFilter) : nat := Z.to_nat (clampLimit (gf_Limit f)).
Definition log_stmt (p : Principal) (f : LogFilter) : stmt :=
  let n := Some (log_offset f + log_limit f)%nat in
  match ref_conds f with
  | [] => SSelect "transactions" (log_conds p f) (Some (mkOrder "seq" true)) n
  | conds => SJoin (mkJoin "transactions" "tx_refs" ("txid", "txid") (log_conds p f) conds [] [mkOrder "seq" true] n)
  end.
Definition Log (p : Principal) (f : LogFilter) : M (list Transaction) :=
  _ ← guard_ (negb (Can p PermExplorer)) (Errorf "%s may not read the transaction log" [Acting p]);
  rows ← Do (query (log_stmt p f));
  lift (collect (map decodeTransaction (drop (log_offset f) rows))).

Definition ref_of_row (row : Row) : Ref := mkRef (Str row "ref_type") (Str row "target").
Definition Transaction_ (p : Principal) (txid : string) : M TransactionDetail :=
  _ ← guard_ (negb (Can p PermExplorer)) (Errorf "%s may not read the transaction log" [Acting p]);
  Do (txn ← transactionByID txid;
      txn ← lift (of_option txn (Errorf "no transaction %s" [txid]));
      rows ← query (SSelect "tx_refs" [is_ "txid" (VStr txid)] (Some (mkOrder "idx" false)) None);
      mret (mkTransactionDetail txn (ref_of_row <$> rows))).

(** ** Saved queries *)

Definition coerceParam (param : QueryParam) (raw : string) : res value :=
  if String.eqb (qp_Type param) "integer" then
    match ParseInt64 raw with
    | (n, true) => Ok (VInt n)
    | _ => Err (Errorf "%s must be a whole number" [orDefault (qp_Title param) (qp_Name param)])
    end
  else if String.eqb (qp_Type param) "number" then
    match parse_float raw with
    | Some x => Ok (VFloat x)
    | None => Err (Errorf "%s must be a number" [orDefault (qp_Title param) (qp_Name param)])
    end
  else Ok (VStr raw).
Definition param_value (name : string) (params : gmap string string) (param : QueryParam) : res value :=
  let raw := default "" (params !! qp_Name param) in
  if String.eqb raw "" then
    if qp_Required param then Err (Errorf "%s requires %s" [name; orDefault (qp_Title param) (qp_Name param)])
    else coerceParam param (qp_Default param)
  else coerceParam param raw.
Fixpoint query_context (name : string) (params : gmap string string) (l : list QueryParam) (ctx : object) : res object :=
  match l with
  | [] => Ok ctx
  | param :: l => v ← param_value name params param; query_context name params l (obj_set ("param." +:+ qp_Name param) v ctx)
  end.
Definition RunQuery (p : Principal) (name : string) (params : gmap string string) : M (list Row) :=
  q ← lift (of_option (Query (pk r) name) (Errorf "no query named %q" [name]));
  let roles := q_Roles q in
  _ ← guard_ (match roles with [] => false | _ => negb (containsString roles (Acting p)) end) (Errorf "%s may not run the %s query" [Acting p; name]);
  _ ← guard_ (match roles with [] => negb (CanOn p PermRead "*") | _ => false end) (Errorf "%s may not run queries" [Acting p]);
  ctx ← lift (query_context name params (q_Params q) [("tenant", VStr (p_Tenant p))]);
  text ← lift (renderSQL (q_SQL q) ctx);
  Do (query (SQuery text)).
End queries.
