(* ===== verification/Diffs.v ===== *)
(** * What two versions differ in

    A payload read from the store names each of its fields once, whatever
    document it was read from; and what [diffPayloads] gathers from two of
    them is, field by field, where they differ. *)

From S2P Require Import Prelude GoStrings Float64 Encoding Canon Json SqlText Sql Rbac JsonSchema Pack Model World Commit Replay Byok GoJson Records RecordsCorrect Queries.
Local Open Scope Z_scope.

(** ** Fields named once *)

(** Every object within a value names each of its members once. *)
Inductive distinct : value -> Prop :=
  | distinct_atom v : match v with VArr _ | VObj _ => False | _ => True end -> distinct v
  | distinct_arr l : Forall distinct l -> distinct (VArr l)
  | distinct_obj m : NoDup m.*1 -> Forall (fun kv => distinct kv.2) m -> distinct (VObj m).

Lemma distinct_members m : distinct (VObj m) -> NoDup m.*1 /\ Forall (fun kv => distinct kv.2) m.
Proof. inversion 1; by subst. Qed.
Lemma obj_set_all (P : value -> Prop) k v m :
  P v -> Forall (fun kv => P kv.2) m -> Forall (fun kv => P kv.2) (obj_set k v m).
Proof.
  intros Hv. induction m as [|[k' v'] m IH]; intros F; cbn; [by repeat constructor|]. apply Forall_cons in F as [F1 F].
  destruct (String.eqb k k'); constructor; auto.
Qed.
Lemma obj_set_distinct k v m : NoDup m.*1 -> NoDup (obj_set k v m).*1.
Proof. intros Hn. by apply obj_set_keys. Qed.
Lemma override_distinct l : forall m, NoDup m.*1 -> NoDup (fold_left (fun acc kv => obj_set kv.1 kv.2 acc) l m).*1.
Proof. induction l as [|[k v] l IH]; intros m Hn; [done|]. apply IH. by apply obj_set_distinct. Qed.

Lemma parse_distinct fuel :
  (forall s v r, parse_value fuel s = Some (v, r) -> distinct v) /\
  (forall acc s v r, Forall distinct acc -> parse_elements fuel acc s = Some (v, r) -> distinct v) /\
  (forall acc s v r, NoDup acc.*1 -> Forall (fun kv => distinct kv.2) acc -> parse_members fuel acc s = Some (v, r) -> distinct v).
Proof.
  induction fuel as [|fuel (IHv & IHe & IHm)]; [by split_and!|]. split_and!.
  - intros s v r E. cbn [parse_value] in E.
    repeat match type of E with
    | (if ?b then _ else _) = _ => destruct b
    | Some _ = Some _ => injection E as <- _; by constructor
    | None = Some _ => discriminate E
    | match parse_string ?x with _ => _ end = _ => destruct (parse_string x) as [[? ?]|]
    | match scan_number ?x with _ => _ end = _ => destruct (scan_number x) as [[[[? ?] ?] ?]|]
    | (let s := _ in _) = _ => cbv zeta in E
    end.
    destruct (skip_ws s) as [|a t]; [done|].
    destruct (Ascii.eqb a quote_char); [destruct (parse_string _) as [[x y]|]; [|done]; injection E as <- _; by constructor|].
    destruct (Ascii.eqb a "[").
    { assert (parse_elements fuel [] t = Some (v, r) \/ v = VArr []) as [Hp| ->]; [|by eapply IHe|by repeat constructor].
      destruct (skip_ws t) as [|[[] [] [] [] [] [] [] []] t']; auto; right; by injection E. }
    destruct (Ascii.eqb a "{").
    { assert (parse_members fuel [] t = Some (v, r) \/ v = VObj []) as [Hp| ->]; [|refine (IHm [] t v r _ _ Hp); [apply NoDup_nil_2|constructor]|by repeat constructor].
      destruct (skip_ws t) as [|[[] [] [] [] [] [] [] []] t']; auto; right; by injection E. }
    destruct (leading_zero _); [done|]. destruct (scan_number _) as [[[[? ?] ?] ?]|]; [|done]. injection E as <- _. by constructor.
  - intros acc s v r F E. cbn [parse_elements] in E. destruct (parse_value fuel s) as [[x t]|] eqn:Ev; [|done]. apply IHv in Ev.
    assert (Forall distinct (acc ++ [x])) as F' by (apply Forall_app; split; [done|by apply Forall_singleton]).
    assert ((exists t', parse_elements fuel (acc ++ [x]) t' = Some (v, r)) \/ v = VArr (acc ++ [x])) as [[t' Hp]| ->]; [|by eapply IHe|by constructor].
    destruct (skip_ws t) as [|[[] [] [] [] [] [] [] []] t']; try done; first [left; by exists t'|right; by injection E].
  - intros acc s v r Hn F E. cbn [parse_members] in E. destruct (parse_string _) as [[k t]|]; [|done]. destruct (expect ":" t) as [t1|]; [|done].
    destruct (parse_value fuel t1) as [[x t2]|] eqn:Ev; [|done]. apply IHv in Ev.
    pose proof (obj_set_distinct k x acc Hn) as Hn'. pose proof (obj_set_all distinct k x acc Ev F) as F'.
    assert ((exists t', parse_members fuel (obj_set k x acc) t' = Some (v, r)) \/ v = VObj (obj_set k x acc)) as [[t' Hp]| ->];
      [|by eapply IHm|by constructor].
    destruct (skip_ws t2) as [|[[] [] [] [] [] [] [] []] t']; try done; first [left; by exists t'|right; by injection E].
Qed.
Lemma parse_raw_distinct s v : parse_raw s = Ok v -> distinct v.
Proof.
  unfold parse_raw. destruct (parse_value _ s) as [[x r]|] eqn:E; [|done]. destruct (String.eqb _ _); [|done]. intros [= <-].
  exact (proj1 (parse_distinct _) _ _ _ E).
Qed.

Lemma floatify_keys m v : floatify (VObj m) = Ok v -> exists m', v = VObj m' /\ m'.*1 = m.*1.
Proof.
  cbn [floatify]. intros E. destruct (collect _) as [xs|] eqn:Ec; [|done]. injection E as <-. exists xs. split; [done|].
  revert xs Ec. induction m as [|[k x] m IH]; intros xs Ec; cbn in Ec; [by injection Ec as <-|]. res_inv. cbn. f_equal. by apply IH.
Qed.
Lemma floatify_obj_keys m m' : floatify_obj m = Ok m' -> m'.*1 = m.*1.
Proof.
  unfold floatify_obj. destruct (floatify (VObj m)) as [v|] eqn:E; [|done]. apply floatify_keys in E as (x & -> & Hx). by intros [= <-].
Qed.

(** A map read from a document. *)
Lemma get_map_distinct k m o : distinct (VObj m) -> get_map k m = Ok o -> NoDup o.*1.
Proof.
  intros [_ F]%distinct_members. unfold get_map, read_field.
  assert (Forall distinct (all_named k m)) as Fn.
  { apply Forall_forall. intros v Hv. unfold all_named in Hv. rewrite list_elem_of_In, in_map_iff in Hv. destruct Hv as (kv & <- & Hin).
    rewrite Forall_forall in F. apply F. apply filter_In in Hin as [Hin _]. by apply list_elem_of_In. }
  assert (NoDup ([] : object).*1) as H0 by apply NoDup_nil_2. revert H0. generalize ([] : object) as held.
  induction (all_named k m) as [|v vs IH]; intros held Hh E; cbn in E; [by injection E as <-|]. apply Forall_cons in Fn as [Fv Fn].
  destruct (step_map held v) as [h|] eqn:Es; [|done]. apply (IH Fn h); [|exact E]. unfold step_map in Es. destruct v; try done.
  - injection Es as <-. apply NoDup_nil_2.
  - apply distinct_members in Fv as [Hn _]. destruct held; injection Es as <-; [done|]. by apply override_distinct.
Qed.

Lemma as_obj_distinct v m : distinct v -> as_obj v = Ok m -> distinct (VObj m).
Proof. intros Hd E. destruct v; try done; injection E as <-; [|done]. constructor; [apply NoDup_nil_2|constructor]. Qed.
Lemma decode_stored_distinct raw st : decode_stored raw = Ok st -> NoDup (sp_Clear st).*1.
Proof.
  unfold decode_stored. intros E. res_inv. cbn [sp_Clear].
  match goal with H : floatify_obj _ = Ok _ |- _ => rewrite (floatify_obj_keys _ _ H) end.
  eapply get_map_distinct; [|eassumption]. eapply as_obj_distinct; [|eassumption]. by eapply parse_raw_distinct.
Qed.

(** So every payload the register shows does. *)
Lemma readVersion_distinct `{Runtime} r p class row w v w' : readVersion r p class row w = (Ok v, w') -> NoDup (rv_Payload v).*1.
Proof.
  unfold readVersion. cbv zeta. intros E. destruct (rv_Pruned _); [apply M_ret_inv in E as [[= ->] _]; apply NoDup_nil_2|].
  apply M_bind_Ok in E as (stored & w1 & Ed & E). apply wrapping_Ok, lift_Ok in Ed as [Ed _]. apply decode_stored_distinct in Ed.
  destruct (sp_Enc stored) as [enc|]; [|by apply M_ret_inv in E as [[= ->] _]].
  destruct (not_cleared p); [by apply M_ret_inv in E as [[= ->] _]|].
  apply M_bind_Ok in E as (key & w2 & _ & E). destruct key as [key|]; [|by apply M_ret_inv in E as [[= ->] _]].
  apply M_bind_Ok in E as (dek & w3 & _ & E). apply M_bind_Ok in E as (clear & w4 & _ & E). apply M_bind_Ok in E as (fields & w5 & _ & E).
  apply M_ret_inv in E as [[= ->] _]. cbn [rv_Payload with_payload]. by apply override_distinct.
Qed.

(** ** The difference, field by field *)

(** What two versions show of one field, when it is not the same: a field
    that is absent counts as [null], and two values are the same when
    [fmt.Sprint] prints the same text for them. *)
Definition shown_diff (before after : RecordVersion) (k : string) : option (value * value) :=
  if String.eqb k "(status)" && negb (String.eqb (rv_Status before) (rv_Status after))
  then Some (VStr (rv_Status before), VStr (rv_Status after))
  else match obj_get k (rv_Payload before), obj_get k (rv_Payload after) with
  | None, None => None
  | Some a, None => Some (a, VNull)
  | None, Some b => Some (VNull, b)
  | Some a, Some b => if String.eqb (Sprint a) (Sprint b) then None else Some (a, b)
  end.

Lemma omap_key_lookup {A} (f : string * value -> option (string * A)) (g : value -> option A) m k :
  NoDup m.*1 -> (forall kv, f kv = (fun x => (kv.1, x)) <$> f kv ≫= (fun y => Some y.2)) ->
  (forall v, (k, v) ∈ m -> snd <$> f (k, v) = g v) ->
  (list_to_map (omap f m) : gmap string A) !! k = obj_get k m ≫= g.
Proof.
  intros Hn Hf Hg. induction m as [|[k' v'] m IH]; [done|]. cbn [fmap list_fmap fst] in Hn. apply NoDup_cons in Hn as [Hk Hn].
  assert (forall v, (k, v) ∈ m -> snd <$> f (k, v) = g v) as Hg' by (intros v Hv; apply Hg; by apply list_elem_of_further).
  specialize (IH Hn Hg'). cbn [omap list_omap obj_get]. pose proof (Hf (k', v')) as Hfk. cbn [fst] in Hfk.
  destruct (String.eqb_spec k k') as [->|Hne].
  - cbn. rewrite <- (Hg v') by apply list_elem_of_here. destruct (f (k', v')) as [[n x]|]; cbn in *.
    + injection Hfk as ->. by rewrite lookup_insert_eq.
    + rewrite IH. destruct (obj_get k' m) as [y|] eqn:Ey; [|done]. destruct Hk. apply obj_get_elem_iff in Ey; [|done]. apply list_elem_of_fmap. by exists (k', y).
  - destruct (f (k', v')) as [[n x]|]; cbn in *; [|done]. injection Hfk as ->. by rewrite lookup_insert_ne.
Qed.

Lemma diffPayloads_exact before after k :
  NoDup (rv_Payload before).*1 -> NoDup (rv_Payload after).*1 -> diffPayloads before after !! k = shown_diff before after k.
Proof.
  intros Hb Ha. unfold diffPayloads, shown_diff. cbv zeta.
  match goal with |- context [list_to_map (?c ++ ?g)] => set (changed := c); set (gone := g) end.
  assert ((list_to_map (changed ++ gone) : gmap string (value * value)) !! k =
    match obj_get k (rv_Payload before), obj_get k (rv_Payload after) with
    | None, None => None | Some a, None => Some (a, VNull) | None, Some b => Some (VNull, b)
    | Some a, Some b => if String.eqb (Sprint a) (Sprint b) then None else Some (a, b)
    end) as Hl.
  { rewrite list_to_map_app, lookup_union. unfold changed, gone.
    rewrite (omap_key_lookup _ (fun v => match obj_get k (rv_Payload before) with
      | Some o => if String.eqb (Sprint o) (Sprint v) then None else Some (o, v) | None => Some (VNull, v) end)); [|done|..].
    2:{ intros [n v]. cbn. destruct (obj_get n (rv_Payload before)); [destruct (String.eqb _ _)|]; done. }
    2:{ intros v _. cbn. destruct (obj_get k (rv_Payload before)); [destruct (String.eqb _ _)|]; done. }
    rewrite (omap_key_lookup _ (fun v => match obj_get k (rv_Payload after) with Some _ => None | None => Some (v, VNull) end)); [|done|..].
    2:{ intros [n v]. cbn. by destruct (obj_get n (rv_Payload after)). }
    2:{ intros v _. cbn. by destruct (obj_get k (rv_Payload after)). }
    destruct (obj_get k (rv_Payload before)), (obj_get k (rv_Payload after)); cbn; try done. by destruct (String.eqb _ _). }
  destruct (String.eqb (rv_Status before) (rv_Status after)); cbn [negb andb]; [by rewrite andb_false_r|].
  rewrite andb_true_r. destruct (String.eqb_spec k "(status)") as [->|Hne]; [by rewrite lookup_insert_eq|].
  by rewrite lookup_insert_ne by congruence.
Qed.
