(* ===== verification/QueriesCorrect.v ===== *)
(** * What the read surface answers

    Reads stay within the caller's tenant and permissions and leave the
    tables as they are; a history is the versions of one record, newest
    first, with what each changed as far as the caller may see it; a page
    of the log misses nothing; and what a caller types into a saved query
    reaches the statement as literals of the declared types. *)

From S2P Require Import Prelude GoStrings Float64 Encoding Canon Json Decimal Shortest FloatText SqlText Sql Rbac JsonSchema Pack Model World Concrete Commit Replay Byok GoJson Records RecordsCorrect Landing Workflow WorkflowCorrect Identities Retention RetentionCorrect Anchors Checkpoints CheckpointsCorrect Queries Diffs.
Local Open Scope Z_scope.

(** ** Templates *)

(** The literal a placeholder stands for, and a template with each of its
    placeholders replaced by its literal. *)
Definition bound (ctx : object) (k : string) : value := match obj_get k ctx with Some v => sqlValue v | None => VNull end.
Inductive rendered (ctx : object) : string -> string -> Prop :=
  | rendered_end : rendered ctx "" ""
  | rendered_char a s u : placeholder (String a s) = None -> rendered ctx s u -> rendered ctx (String a s) (String a u)
  | rendered_hole s k t l u : placeholder s = Some (k, t) -> Lit (bound ctx k) = Ok l -> rendered ctx t u -> rendered ctx s (l +:+ u).

Lemma span_placeholder_length s : forall k t, span_placeholder s = (k, t) -> (String.length t <= String.length s)%nat.
Proof.
  induction s as [|a s IH]; intros k t E; cbn in E; [by injection E as <- <-|].
  destruct (placeholder_char a); [|by injection E as <- <-]. destruct (span_placeholder s) as [k' t'] eqn:Es. injection E as <- <-.
  specialize (IH _ _ eq_refl). cbn. lia.
Qed.
Lemma placeholder_length s k t : placeholder s = Some (k, t) -> (String.length t < String.length s)%nat.
Proof.
  intros E. unfold placeholder in E. destruct s as [|a s]; [done|]. destruct a as [[] [] [] [] [] [] [] []]; try done.
  destruct s as [|b s]; [done|]. destruct b as [[] [] [] [] [] [] [] []]; try done.
  destruct (span_placeholder s) as [k' t'] eqn:Es. apply span_placeholder_length in Es.
  destruct k' as [|c k']; [done|]. destruct t' as [|c1 t']; [done|]. destruct c1 as [[] [] [] [] [] [] [] []]; try done.
  destruct t' as [|c2 t']; [done|]. destruct c2 as [[] [] [] [] [] [] [] []]; try done. injection E as _ <-. cbn in *. lia.
Qed.
Lemma sql_hole_bound ctx k : sql_hole ctx k = Lit (bound ctx k).
Proof. unfold sql_hole, bound. by destruct (obj_get k ctx). Qed.

Lemma renderSQL_rendered tmpl ctx text : renderSQL tmpl ctx = Ok text -> rendered ctx tmpl text.
Proof.
  unfold renderSQL. assert (String.length tmpl < S (String.length tmpl))%nat as Hn by lia. revert Hn. generalize (S (String.length tmpl)) as n.
  intros n. revert tmpl text. induction n as [|n IH]; intros s text Hn E; [lia|]. cbn [replace_lits] in E. destruct (placeholder s) as [[k t]|] eqn:Ep.
  - pose proof (placeholder_length _ _ _ Ep). res_inv. rewrite sql_hole_bound in *.
    eapply rendered_hole; [exact Ep|done|]. apply IH; [lia|done].
  - destruct s as [|a s]; [injection E as <-; constructor|]. res_inv. constructor; [done|]. apply IH; [cbn in Hn; lia|done].
Qed.

(** A text lexes back from its literal to itself whatever follows its
    placeholder, short of a doubled quote. *)
Lemma text_literal s rest : not_head apos rest -> Lit (VStr s) = Ok (quote s) /\ read_literal (quote s +:+ rest) = Some (SStr s, rest).
Proof.
  intros Hr. split; [done|]. unfold quote. rewrite string_app_cons, string_app_assoc.
  change (match read_quoted (quote_bytes s +:+ String apos rest) with Some (x, r) => Some (SStr x, r) | None => None end = Some (SStr s, rest)).
  by rewrite read_quoted_quote.
Qed.
Lemma obj_get_set_eq k v m : obj_get k (obj_set k v m) = Some v.
Proof.
  induction m as [|[k' v'] m IH]; cbn [obj_set]; [cbn; by rewrite String.eqb_refl|].
  destruct (String.eqb k k') eqn:E; cbn [obj_get]; [by rewrite String.eqb_refl|by rewrite E].
Qed.
Lemma obj_get_set_ne k k' v m : k <> k' -> obj_get k (obj_set k' v m) = obj_get k m.
Proof.
  intros Hne. apply String.eqb_neq in Hne. induction m as [|[k1 v1] m IH]; cbn [obj_set obj_get]; [by rewrite Hne|].
  destruct (String.eqb_spec k' k1) as [<-|E]; cbn [obj_get]; [by rewrite Hne|]. by rewrite IH.
Qed.

Section queries.
Context `{Runtime}.
Variable r : Register.
Variable parse_float : string -> option float64.

(** The value of a text under a declared type: the integer or the number
    it spells, or the text itself. *)
Definition typed_as (ty raw : string) (v : value) : Prop :=
  if String.eqb ty "integer" then exists z, ParseInt64 raw = (z, true) /\ v = VInt z
  else if String.eqb ty "number" then exists x, parse_float raw = Some x /\ v = VFloat x
  else v = VStr raw.

Lemma coerceParam_typed param raw v : coerceParam parse_float param raw = Ok v -> typed_as (qp_Type param) raw v.
Proof.
  unfold coerceParam, typed_as. destruct (String.eqb (qp_Type param) "integer").
  - destruct (ParseInt64 raw) as [z []] eqn:E; [|done]. intros [= <-]. by exists z.
  - destruct (String.eqb (qp_Type param) "number"); [|by intros [= <-]]. destruct (parse_float raw) as [x|]; [|done]. intros [= <-]. by exists x.
Qed.
(** What a parameter is bound to: what was typed, or when nothing was the
    default, which a required one does not fall back to. *)
Definition bound_as (params : gmap string string) (param : QueryParam) (v : value) : Prop :=
  let typed := default "" (params !! qp_Name param) in
  (typed <> "" /\ typed_as (qp_Type param) typed v) \/
  (typed = "" /\ qp_Required param = false /\ typed_as (qp_Type param) (qp_Default param) v).
Lemma param_value_bound name params param v : param_value parse_float name params param = Ok v -> bound_as params param v.
Proof.
  unfold param_value, bound_as. cbv zeta. destruct (String.eqb_spec (default "" (params !! qp_Name param)) "") as [E|E].
  - destruct (qp_Required param); [done|]. intros Ev%coerceParam_typed. by right.
  - intros Ev%coerceParam_typed. by left.
Qed.

(** What the context binds, parameter by parameter. *)
Lemma query_context_spec name params l : forall ctx ctx', query_context parse_float name params l ctx = Ok ctx' ->
  Forall (fun param => exists v, param_value parse_float name params param = Ok v) l /\
  (forall k, (forall param, param ∈ l -> k <> "param." +:+ qp_Name param) -> obj_get k ctx' = obj_get k ctx) /\
  (NoDup (qp_Name <$> l) -> Forall (fun param => exists v, param_value parse_float name params param = Ok v /\ obj_get ("param." +:+ qp_Name param) ctx' = Some v) l).
Proof.
  induction l as [|param l IH]; intros ctx ctx' E; cbn [query_context] in E; [injection E as <-; split_and!; [constructor|done|constructor]|].
  res_inv. match goal with Hv : param_value _ _ _ _ = Ok ?v, E : query_context _ _ _ _ _ = _ |- _ => rename v into v0; rename Hv into Hv0; apply IH in E as (H1' & H2' & H3') end.
  split_and!.
  - constructor; [by eexists|done].
  - intros k Hk. rewrite H2' by (intros q Hq; apply Hk; by right). apply obj_get_set_ne. apply Hk. by left.
  - intros [Hn Hnd]%NoDup_cons. constructor; [|by apply H3']. exists v0. split; [done|].
    rewrite H2'; [apply obj_get_set_eq|]. intros q Hq Heq. apply Hn. apply list_elem_of_fmap. exists q. split; [|done].
    by injection Heq.
Qed.

(** C28. What a caller types into a saved query stays a value. A query that
    runs is one the pack declares and the caller may run. Each of its
    parameters (the pack naming each once) is bound to the value of the
    text typed for it under its declared type, or, when nothing was typed
    and it is not required, to the value of its default; and the tenant is
    bound to the caller's own. The statement that runs is the declared text
    with each placeholder replaced by exactly one literal, and from its
    literal a text, an integer and a float each read back as the very
    value, whatever follows the placeholder short of more of the same
    literal. Floats that are no numbers are the exception: the text NaN,
    typed for a number, is bound to NaN and its literal is an identifier
    ([nan_parameter] below). Running the query changes nothing. *)
Theorem saved_query_typed (p : Principal) (name : string) (params : gmap string string) (w w' : world) (l : list Row) :
  RunQuery r parse_float p name params w = (Ok l, w') ->
  w' = set_txn None w /\ exists q ctx text,
    Query (pk r) name = Some q /\
    (match q_Roles q with [] => CanOn p PermRead "*" = true | roles => Acting p ∈ roles end) /\
    obj_get "tenant" ctx = Some (VStr (p_Tenant p)) /\
    (NoDup (qp_Name <$> q_Params q) -> forall param, param ∈ q_Params q ->
       exists v, obj_get ("param." +:+ qp_Name param) ctx = Some v /\ bound_as params param v) /\
    rendered ctx (q_SQL q) text /\
    (forall k s, bound ctx k = VStr s -> Lit (bound ctx k) = Ok (quote s) /\
       forall rest, not_head apos rest -> read_literal (quote s +:+ rest) = Some (SStr s, rest)) /\
    (forall k z, bound ctx k = VInt z -> Lit (bound ctx k) = Ok (itoa z) /\
       forall rest, stops rest = true -> read_literal (itoa z +:+ rest) = Some (SInt z, rest)) /\
    (forall k f, bound ctx k = VFloat f -> finite f = true -> Lit (bound ctx k) = Ok (FormatFloat_g f) /\
       exists x, same_number x f /\ forall rest, stops rest = true -> read_literal (FormatFloat_g f +:+ rest) = Some (x, rest)) /\
    l = sql_query (visible w) text.
Proof.
  unfold RunQuery. intros E. apply M_bind_Ok in E as (q & w1 & [Hq ->]%lift_inv & E). apply of_option_Ok in Hq.
  apply M_bind_Ok in E as (u1 & w1 & [Hg1 ->]%guard_Ok & E). apply M_bind_Ok in E as (u2 & w1 & [Hg2 ->]%guard_Ok & E).
  apply M_bind_Ok in E as (ctx & w1 & [Hctx ->]%lift_inv & E). apply query_context_spec in Hctx as (Hall & Hrest & Hget).
  apply M_bind_Ok in E as (text & w1 & [Htext ->]%lift_inv & E).
  unfold Do in E. destruct (query (SQuery text) w) as [res w1] eqn:Eq. injection E as -> <-.
  apply query_read in Eq as [-> Eq]; [|done].
  split; [done|]. exists q, ctx, text. split_and!; [done|..].
  - destruct (q_Roles q) as [|x l']; [by apply negb_false_iff in Hg2|]. apply negb_false_iff in Hg1. by apply containsString_elem.
  - rewrite Hrest; [reflexivity|]. intros param _ Heq. discriminate.
  - intros Hn param Hin. specialize (Hget Hn). rewrite Forall_forall in Hget. destruct (Hget param Hin) as (v & Hv & Hb). exists v.
    split; [done|]. by apply param_value_bound in Hv.
  - by apply renderSQL_rendered.
  - intros k s ->. split; [done|]. intros rest Hs. by apply text_literal.
  - intros k z ->. split; [done|]. intros rest Hs. by apply read_literal_int.
  - intros k f -> Hf. split; [done|]. by apply read_literal_float.
  - destruct Eq as [db E]. run_inv E. by injection E as ->.
Qed.
(** ** Histories *)

(** A statement's order is total, whatever the engine makes of values of
    different kinds. *)
Lemma fcompare_opp x y : fcompare y x = CompOpp <$> fcompare x y.
Proof.
  destruct x as [m1 e1| | |], y as [m2 e2| | |]; try done; repeat match goal with s : bool |- _ => destruct s end; try done; cbn [fcompare fmap option_fmap option_map]; f_equal; try apply Z.compare_antisym.
  rewrite (Z.min_comm e2 e1). apply Z.compare_antisym.
Qed.
Lemma sql_compare_opp x y : sql_compare y x = CompOpp <$> sql_compare x y.
Proof.
  destruct x as [|x|x|x], y as [|y|y|y]; try done; cbn [sql_compare]; try apply fcompare_opp.
  - cbn. f_equal. apply Z.compare_antisym.
  - destruct (sql_mixed y (SInt x)) as [c|]; [|done]. cbn. by rewrite CompOpp_involutive.
  - destruct (sql_mixed y (SFloat x)) as [c|]; [|done]. cbn. by rewrite CompOpp_involutive.
  - cbn. f_equal. apply String.compare_antisym.
Qed.
#[local] Instance order_le_total o : Total (order_le o).
Proof.
  intros x y. unfold order_le. rewrite (sql_compare_opp (cell x (o_col o)) (cell y (o_col o))).
  destruct (o_desc o), (sql_compare (cell x (o_col o)) (cell y (o_col o))) as [[]|]; cbn; auto.
Qed.

(** What a version as read shows of its row: who wrote it and when it
    stood, and to a caller not cleared for personal data the clear half of
    what is stored, nothing more. *)
Definition shows (p : Principal) (row : Row) (v : RecordVersion) : Prop :=
  (rv_ObjectID v = Str row "object_id" /\ rv_Version v = Uint row "version" /\ rv_TxID v = Str row "txid" /\
   rv_Status v = Str row "status" /\ rv_Pruned v = Bool row "pruned") /\
  (rv_Pruned v = true -> rv_Payload v = []) /\
  (PII p = false -> rv_Pruned v = false -> exists stored, decode_stored (Bytes row "payload") = Ok stored /\ rv_Payload v = sp_Clear stored).

Lemma readVersion_shows p class row w v w' : readVersion r (Some p) class row w = (Ok v, w') -> shows p row v.
Proof.
  unfold readVersion. cbv zeta. intros E. destruct (rv_Pruned (version_of_row row)) eqn:Epr.
  { apply M_ret_inv in E as [[= ->] _]. split_and!; try done. intros _ Hpr. change (rv_Pruned (version_of_row row) = false) in Hpr. congruence. }
  apply M_bind_Ok in E as (stored & w1 & Ed & E). unfold wrapping, lift in Ed. destruct (decode_stored _) as [st|] eqn:Est; [|done]. injection Ed as -> <-.
  assert (forall payload red er, (PII p = false -> payload = sp_Clear stored) -> shows p row (with_payload (version_of_row row) payload red er)) as Hs.
  { intros payload red er Hp. split_and!; try done; [intros Hpr; change (rv_Pruned (version_of_row row) = true) in Hpr; congruence|]. intros Hpii _. exists stored. split; [done|]. by apply Hp. }
  destruct (sp_Enc stored) as [enc|]; [|apply M_ret_inv in E as [[= ->] _]; by apply Hs].
  unfold not_cleared in E. destruct (PII p) eqn:Ep; cbn [negb] in E; [|apply M_ret_inv in E as [[= ->] _]; by apply Hs].
  apply M_bind_Ok in E as (key & w2 & _ & E). destruct key as [key|]; [|apply M_ret_inv in E as [[= ->] _]; by apply Hs].
  apply M_bind_Ok in E as (dek & w3 & _ & E). apply M_bind_Ok in E as (clear & w4 & _ & E). apply M_bind_Ok in E as (fields & w5 & _ & E).
  apply M_ret_inv in E as [[= ->] _]. by apply Hs.
Qed.

(** The loop: one entry for each row, each with what changed since the
    entry before. *)
Definition diff_from (previous : option RecordVersion) (v : RecordVersion) : gmap string (value * value) :=
  match previous with Some b => diffPayloads b v | None => ∅ end.
Lemma history_entries_spec p class rows : forall previous w es w',
  history_entries r p class previous rows w = (Ok es, w') ->
  Forall2 (fun row e => shows p row (he_Version e)) rows es /\
  Forall (fun e => NoDup (rv_Payload (he_Version e)).*1) es /\
  (forall i e, es !! i = Some e -> he_Diff e = diff_from (match i with O => previous | S j => he_Version <$> es !! j end) (he_Version e)).
Proof.
  induction rows as [|row rows IH]; intros previous w es w' E; cbn [history_entries] in E.
  - apply M_ret_inv in E as [[= ->] _]. split_and!; [constructor|constructor|]. intros i e. by rewrite lookup_nil.
  - apply M_bind_Ok in E as (v & w1 & Ev & E). apply M_bind_Ok in E as (t & w2 & _ & E). cbv zeta in E.
    apply M_bind_Ok in E as (es' & w3 & Ees & E). apply M_ret_inv in E as [[= ->] _]. apply IH in Ees as (Hf & Hn & Hd). split_and!.
    + constructor; [by eapply readVersion_shows|done].
    + constructor; [by eapply readVersion_distinct|done].
    + intros [|i] e He; [by injection He as <-|]. cbn in He. rewrite (Hd i e He). destruct i as [|i]; reflexivity.
Qed.

Lemma ro_versions p class rows : forall previous, ro (history_entries r p class previous rows).
Proof.
  induction rows as [|row rows IH]; intros previous; [apply ro_ret|]. cbn [history_entries].
  apply ro_bind; [apply ro_readVersion|intros v]. apply ro_bind; [apply ro_attempt, ro_transactionByID|intros t].
  apply ro_bind; [apply IH|intros es; apply ro_ret].
Qed.

Lemma rev_reverse {A} (l : list A) : rev l = reverse l.
Proof. apply rev_alt. Qed.

(** C27. A history is one record's, whole, and as far as its reader is
    cleared. It is answered only for a record of the caller's tenant, of a
    class the caller may read; its entries are all the versions of that
    record and no others, newest first; to a caller not cleared for
    personal data each shows no more than the clear half of what is stored;
    each but the oldest carries exactly the difference to the version
    before it, as those two are shown to this caller: an entry for each
    field one of them has and the other lacks, and for each whose two
    values print differently, with the two values, and for nothing else
    (a change that prints the same, as of 1 to the text 1, is not a
    difference: see [same_text] below); the oldest carries none; and
    reading it changes no table. *)
Theorem history_faithful (p : Principal) (id : string) (w w' : world) (es : list HistoryEntry) :
  wf_db (visible w) -> History r p id w = (Ok es, w') ->
  (exists m row class, visible w !! "objects" = Some m /\ m !! [SStr id] = Some row /\
     matches [is_ "tenant" (VStr (p_Tenant p))] row = true /\
     Class (pk r) (Str row "class") = Some class /\ CanOn p PermRead (Str row "class") = true) /\
  (exists m newest, visible w !! "record_versions" = Some m /\
     newest ≡ₚ filter (fun row => matches [is_ "object_id" (VStr id)] row = true) (rows m) /\
     Sorted (order_le (mkOrder "version" true)) newest /\
     Forall2 (fun row e => shows p row (he_Version e)) newest es) /\
  (forall i e, es !! i = Some e -> match es !! S i with
     | None => he_Diff e = ∅
     | Some older => forall k, he_Diff e !! k = shown_diff (he_Version older) (he_Version e) k
     end) /\
  committed w' = committed w.
Proof.
  intros W E. unfold History, Do in E.
  match type of E with (let '(_, _) := ?m in _) = _ => destruct m as [res w1] eqn:Et end. injection E as -> <-.
  apply M_bind_Ok in Et as (row & w2 & Eo & Et). apply objectRow_inv in Eo as (-> & mo & Hmo & Hrow & Hten); [|done].
  apply M_bind_Ok in Et as (class & w2 & Ec & Et). unfold readable_class in Ec.
  apply M_bind_Ok in Ec as (c & w3 & [Hc ->]%lift_inv & Ec). apply of_option_Ok in Hc.
  apply M_bind_Ok in Ec as (u & w3 & [Hg ->]%guard_Ok & Ec). apply M_ret_inv in Ec as [[= ->] ->]. apply negb_false_iff in Hg.
  apply M_bind_Ok in Et as (versions & w3 & Eq & Et). apply select_Ok in Eq as (-> & mv & Hmv & ->).
  apply M_bind_Ok in Et as (entries & w4 & Eh & Et). apply M_ret_inv in Et as [[= ->] ->].
  pose proof (ro_versions _ _ _ _ _ _ _ Eh) as Hsame. apply history_entries_spec in Eh as (Hf & Hn & Hd).
  unfold select_rows in Hf. set (l := filter _ (sql_scan (rows mv))) in Hf. set (sorted := merge_sort _ l) in Hf.
  assert (forall i e, rev entries !! i = Some e -> he_Diff e = diff_from (he_Version <$> rev entries !! S i) (he_Version e)) as Hdiff.
  { intros i e Hi. rewrite rev_reverse in *. assert (i < length entries)%nat as Hlt by (rewrite <- length_reverse; by eapply lookup_lt_Some).
    rewrite reverse_lookup in Hi by done. rewrite (Hd _ _ Hi). f_equal. destruct (length entries - S i)%nat as [|j] eqn:Ej.
    - rewrite lookup_ge_None_2; [done|]. rewrite length_reverse. lia.
    - rewrite reverse_lookup by lia. replace (length entries - S (S i))%nat with j by lia. done. }
  split_and!.
  - by exists mo, row, c.
  - exists mv, sorted. split_and!; [done| | |].
    + unfold sorted. rewrite merge_sort_Permutation. unfold l. by rewrite sql_scan_perm.
    + apply (Sorted_merge_sort (order_le (mkOrder "version" true))).
    + rewrite !rev_reverse in *. apply Forall2_reverse in Hf. by rewrite reverse_involutive in Hf.
  - intros i e Hi. pose proof (Hdiff i e Hi) as Hde. rewrite rev_reverse in *. destruct (reverse entries !! S i) as [older|] eqn:Ho; [|done].
    intros k. rewrite Hde. cbn [diff_from fmap option_fmap option_map]. rewrite Forall_forall in Hn.
    apply list_elem_of_lookup_2 in Hi, Ho. rewrite elem_of_reverse in Hi, Ho. apply diffPayloads_exact; by apply Hn.
  - apply Hsame.
Qed.
(** ** The log *)

#[local] Instance orders_le_total o : Total (orders_le [o]).
Proof. intros x y. destruct (order_le_total o x y) as [?|?]; [left|right]; split; done. Qed.

Lemma Sorted_imp {A} (R1 R2 : relation A) l : (forall x y, R1 x y -> R2 x y) -> Sorted R1 l -> Sorted R2 l.
Proof. intros Hi Hs. induction Hs as [|x l Hs IH Hd]; constructor; [done|]. destruct Hd; constructor. by apply Hi. Qed.
Lemma collect_map_Ok {A B} (g : A -> res B) l : forall out, collect (map g l) = Ok out -> Forall2 (fun x y => g x = Ok y) l out.
Proof. induction l as [|x l IH]; intros out E; cbn in E; res_inv; constructor; [done|by apply IH]. Qed.

Definition log_join (p : Principal) (f : LogFilter) : join :=
  mkJoin "transactions" "tx_refs" ("txid", "txid") (log_conds p f) (ref_conds f) [] [mkOrder "seq" true] (Some (log_offset f + log_limit f)%nat).
(** The rows a filter admits: of the log alone, or one for each reference
    that fits when the filter asks for references. *)
Definition admitted (p : Principal) (f : LogFilter) (m refs : table) : list Row :=
  match ref_conds f with
  | [] => filter (fun row => matches (log_conds p f) row = true) (rows m)
  | _ => rows m ≫= (fun row => (fun _ => row) <$> filter (fun ref => joins (log_join p f) row ref = true) (rows refs))
  end.
Lemma admitted_own p f m refs row : row ∈ admitted p f m refs -> row ∈ rows m /\ matches (log_conds p f) row = true.
Proof.
  unfold admitted. destruct (ref_conds f); [intros [? ?]%list_elem_of_filter; done|].
  intros (a & Hx & Ha)%list_elem_of_bind. apply list_elem_of_fmap in Hx as (b & -> & [Hj _]%list_elem_of_filter). split; [done|].
  unfold joins in Hj. cbn [j_left_where log_join] in Hj. by apply andb_true_iff in Hj as [[[_ ?]%andb_true_iff _]%andb_true_iff _].
Qed.

(** A page of the log is exactly the page asked for. To a caller who
    may read the log it answers, newest first, the transactions from the
    given offset on, at most five hundred, of all those that fit every
    part of the filter; every one of them is of the caller's tenant; and
    the tables stay as they are. *)
Lemma log_page_exact (p : Principal) (f : LogFilter) (w w' : world) (txs : list Transaction) :
  Log p f w = (Ok txs, w') ->
  Can p PermExplorer = true /\ w' = set_txn None w /\ (1 <= log_limit f <= 500)%nat /\
  exists m refs all, visible w !! "transactions" = Some m /\ (ref_conds f <> [] -> visible w !! "tx_refs" = Some refs) /\
    all ≡ₚ admitted p f m refs /\ Sorted (order_le (mkOrder "seq" true)) all /\
    Forall2 (fun row tx => decodeTransaction row = Ok tx) (take (log_limit f) (drop (log_offset f) all)) txs /\
    Forall (fun row => row ∈ rows m /\ cond_holds row (is_ "tenant" (VStr (p_Tenant p))) = true) all.
Proof.
  unfold Log. intros E. apply M_bind_Ok in E as (u & w1 & [Hg ->]%guard_Ok & E). apply negb_false_iff in Hg.
  apply M_bind_Ok in E as (l & w1 & Eq & E). unfold Do in Eq. destruct (query (log_stmt p f) w) as [res w2] eqn:Eq2. injection Eq as -> <-.
  apply lift_inv in E as [Ec ->]. apply collect_map_Ok in Ec.
  assert (w2 = w /\ exists m refs all, visible w !! "transactions" = Some m /\ (ref_conds f <> [] -> visible w !! "tx_refs" = Some refs) /\
    all ≡ₚ admitted p f m refs /\ Sorted (order_le (mkOrder "seq" true)) all /\ l = take (log_offset f + log_limit f) all) as (-> & m & refs & all & Hm & Hr & Hp & Hs & ->).
  { unfold log_stmt, admitted in *. destruct (ref_conds f) as [|c cs] eqn:Ecs.
    - apply select_Ok in Eq2 as (-> & m & Hm & ->). split; [done|]. unfold select_rows. set (k := filter _ (sql_scan (rows m))).
      exists m, ∅, (merge_sort (order_le (mkOrder "seq" true)) k). split_and!; try done.
      + rewrite merge_sort_Permutation. unfold k. by rewrite sql_scan_perm.
      + apply (Sorted_merge_sort (order_le (mkOrder "seq" true))).
    - rewrite <- Ecs in *. change (mkJoin _ _ _ _ _ _ _ _) with (log_join p f) in Eq2. apply join_Ok in Eq2 as (-> & m & refs & Hm & Hr & ->). split; [done|].
      unfold join_rows. cbn [j_orders j_limit log_join]. set (k := sql_scan _).
      exists m, refs, (merge_sort (orders_le [mkOrder "seq" true]) k). split_and!; try done.
      + rewrite merge_sort_Permutation. unfold k. by rewrite sql_scan_perm.
      + apply (Sorted_imp (orders_le [mkOrder "seq" true])); [by intros x y [? _]|apply (Sorted_merge_sort (orders_le [mkOrder "seq" true]))]. }
  split; [done|]. split; [done|]. split; [unfold log_limit, clampLimit; destruct (gf_Limit f <=? 0) eqn:?, (500 <? gf_Limit f) eqn:?; lia|].
  exists m, refs, all. split_and!; try done.
  - rewrite take_drop_commute. exact Ec.
  - rewrite Forall_forall. intros row Hrow. rewrite Hp in Hrow. apply admitted_own in Hrow as [? Hc]. split; [done|].
    unfold log_conds in Hc. cbn [app matches forallb] in Hc. by apply andb_true_iff in Hc as [? _].
Qed.
End queries.

(** ** Reads to compute with *)

Definition query_sql : string := "SELECT * FROM q_person WHERE tenant = {{tenant}} AND name = {{param.name}} LIMIT {{param.n}}".
Definition query_pack : Pack :=
  mkPack "demo" "Demo" "1" "t" demo_roles [demo_class] [demo_workflow]
    [mkNamedQuery "named" ["clerk"] query_sql [mkQueryParam "name" "Name" "" true ""; mkQueryParam "n" "" "integer" false "10"]]
    [] None empty_model.
Definition query_register : Register := mkRegister query_pack (mkOptions "r" "t" "" "") (mkMaterial "master" "signer" "key").
Definition clerk : Principal := mkPrincipal "c" "C" "" "t" ["clerk"] "clerk" false {[PermRead; PermExplorer]}.
Definition no_float (s : string) : option float64 := None.
(** A text made to break out of its quotes. *)
Definition sly : string := of_bytes ["A"%char; apos; " "%char; "O"%char; "R"%char; apos].
Definition sly_params : gmap string string := <["name" := sly]> ∅.

Lemma saved_query_typed_witness :
  let w' := (@RunQuery plain_runtime query_register no_float clerk "named" sly_params fresh_world).2 in
  exists l, @RunQuery plain_runtime query_register no_float clerk "named" sly_params fresh_world = (Ok l, w') /\ w' = set_txn None fresh_world /\
  exists q ctx text, Query query_pack "named" = Some q /\ obj_get "tenant" ctx = Some (VStr "t") /\ rendered ctx (q_SQL q) text.
Proof.
  cbv zeta. destruct (@RunQuery plain_runtime query_register no_float clerk "named" sly_params fresh_world) as [[l|e] w'] eqn:E; [|vm_compute in E; discriminate E].
  exists l. split; [reflexivity|].
  destruct (@saved_query_typed plain_runtime query_register no_float clerk "named" sly_params fresh_world w' l E) as (Hw & q & ctx & text & Hq & _ & Ht & _ & Hr & _).
  split; [exact Hw|]. exists q, ctx, text. split; [exact Hq|]. split; [exact Ht|exact Hr].
Defined.

(** What is done with a call that answers. *)
Lemma answered {A} (m : M A) w (f : A -> bool) :
  (match (m w).1 with Ok a => f a | Err _ => false end) = true -> exists a w', m w = (Ok a, w') /\ f a = true.
Proof. destruct (m w) as [[a|e] w']; intros E; [|done]. by exists a, w'. Qed.

Lemma history_faithful_witness :
  exists es w', @History plain_runtime demo_register clerk "person-1" old_world = (Ok es, w') /\ length es = 2%nat /\
    (forall newer older, es = [newer; older] -> he_Diff older = ∅ /\ forall k, he_Diff newer !! k = shown_diff (he_Version older) (he_Version newer) k) /\
    (exists m newest, visible old_world !! "record_versions" = Some m /\
       newest ≡ₚ filter (fun row => @matches plain_engine [is_ "object_id" (VStr "person-1")] row = true) (rows m) /\
       Forall2 (fun row e => shows clerk row (he_Version e)) newest es).
Proof.
  destruct (answered (@History plain_runtime demo_register clerk "person-1") old_world (fun es => (length es =? 2)%nat) ltac:(vm_compute; reflexivity))
    as (es & w' & E & Hl). exists es, w'. split; [exact E|]. split; [by apply Nat.eqb_eq|].
  destruct (@history_faithful plain_runtime demo_register clerk "person-1" old_world w' es (store_wf_visible _ old_world_wf) E)
    as (_ & (m & newest & Hm & Hp & _ & Hf) & Hd & _).
  split; [intros newer older ->; split; [exact (Hd 1%nat older eq_refl)|exact (Hd 0%nat newer eq_refl)]|]. exists m, newest. split; [exact Hm|]. split; [exact Hp|exact Hf].
Defined.

Definition any_log : LogFilter := mkLogFilter "" "" "" "" "" "" "" 0 0 10 0.
Lemma log_page_exact_witness :
  let w := (demo_run).2 in
  exists txs w', @Log plain_runtime clerk any_log w = (Ok txs, w') /\ length txs = 1%nat /\ w' = set_txn None w /\
    exists m refs all, visible w !! "transactions" = Some m /\ all ≡ₚ @admitted plain_runtime clerk any_log m refs /\
      Forall2 (fun row tx => decodeTransaction row = Ok tx) (take (log_limit any_log) (drop (log_offset any_log) all)) txs.
Proof.
  cbv zeta. destruct (answered (@Log plain_runtime clerk any_log) (demo_run).2 (fun l => (length l =? 1)%nat) ltac:(vm_compute; reflexivity))
    as (txs & w' & E & Hl). exists txs, w'. split; [exact E|]. split; [by apply Nat.eqb_eq|].
  destruct (@log_page_exact plain_runtime clerk any_log (demo_run).2 w' txs E) as (_ & Hw & _ & m & refs & all & Hm & _ & Hp & _ & Hf & _).
  split; [exact Hw|]. exists m, refs, all. split; [exact Hm|]. split; [exact Hp|exact Hf].
Defined.

(** A transaction that refers to two others in one way is listed twice by
    a filter on that way. *)
Definition two_refs : table :=
  <[[SStr "x"; SInt 1] := list_to_map [("txid", SStr "x"); ("idx", SInt 1); ("ref_type", SStr "relates"); ("target", SStr "b")]]>
    {[ [SStr "x"; SInt 0] := list_to_map [("txid", SStr "x"); ("idx", SInt 0); ("ref_type", SStr "relates"); ("target", SStr "a")] ]}.
Definition two_log : table := {[ [SStr "x"] := list_to_map [("txid", SStr "x"); ("seq", SInt 1); ("tenant", SStr "t")] ]}.
Example listed_twice :
  length (@admitted plain_runtime clerk (mkLogFilter "" "" "" "" "" "relates" "" 0 0 10 0) two_log two_refs) = 2%nat.
Proof. vm_compute. reflexivity. Qed.

(** A value that changes into another of the same text is no difference. *)
Example same_text (v1 v2 : RecordVersion) : rv_Payload v1 = [("n", VInt 1)] -> rv_Payload v2 = [("n", VStr "1")] -> rv_Status v1 = rv_Status v2 ->
  diffPayloads v1 v2 = ∅.
Proof. intros H1 H2 H3. unfold diffPayloads. rewrite H1, H2, H3, String.eqb_refl. reflexivity. Qed.
(** [strconv.ParseFloat] reads NaN, and the literal of it is a bare name. *)
Example nan_parameter (parse_float : string -> option float64) : parse_float "NaN" = Some FNaN ->
  coerceParam parse_float (mkQueryParam "x" "" "number" false "") "NaN" = Ok (VFloat FNaN) /\ Lit (VFloat FNaN) = Ok "NaN" /\ read_literal "NaN" = None.
Proof. intros E. unfold coerceParam. cbn [qp_Type String.eqb]. rewrite E. by split_and!. Qed.
