(* ===== verification/Admin.v ===== *)
(** * Administration ([internal/register/admin.go])

    Customer keys and the recovery wraps only their holders can open,
    subscribers, the register's status, and the proposals a caller may
    see. Export and the warm standby are in Standby.v. *)

From S2P Require Import Prelude GoStrings Float64 Encoding Canon Json SqlText Sql Rbac JsonSchema Pack Model World Commit Byok Records Workflow Anchors Checkpoints.
Local Open Scope Z_scope.

Record Webhook := mkWebhook {
  wh_ID : string;
  wh_Tenant : string;
  wh_URL : string;
  wh_Events : list string;
  wh_Active : bool;
  wh_Created : Z;
  wh_Secret : string;
}.
Record RecoveryMaterial := mkRecovery { rm_Scope : string; rm_KEK : string; rm_Created : Z; rm_Wrap : string }.
Record Status := mkStatus {
  st_Name : string;
  st_Pack : string;
  st_PackVersion : string;
  st_Tenant : string;
  st_ImageDigest : string;
  st_KeySource : string;
  st_Root : string;
  st_HistoryChain : bool;
  st_HistoryHead : string;
  st_LedgerVersion : Z;
  st_Transactions : Z;
  st_Objects : Z;
  st_PendingTasks : Z;
  st_PendingTxns : Z;
  st_PrunedVersions : Z;
  st_DestroyedKeys : Z;
  st_LastCheckpoint : option SignedCheckpoint;
  st_CheckpointKeyID : string;
  st_CheckpointKey : string;
}.

(** [joinAnd]. *)
Fixpoint joinAnd_from (out : string) (clauses : list string) : string :=
  match clauses with [] => out | c :: clauses => joinAnd_from (out +:+ " AND " +:+ c) clauses end.
Definition joinAnd (clauses : list string) : string := match clauses with [] => "" | c :: clauses => joinAnd_from c clauses end.

Section admin.
Context `{Runtime} `{GoFormats} `{!Ledger}.
Variable r : Register.

(** ** Customer keys *)

Definition kek_op (k : KEK) (tenant : string) (at_ : Z) : WriteOp :=
  upsert "keks" [("id", VStr (kek_ID k))]
    [("tenant", VStr tenant); ("algo", VStr (kek_Algorithm k)); ("public_key", VBinary (kek_PublicKey k));
     ("enrolled_at", VInt at_); ("active", VBool true); ("txid", VStr TxIDPlaceholder)].
Definition retire_op (row : Row) : WriteOp := upsert "keks" [("id", VStr (Str row "id"))] [("active", VBool false)].
Definition kek_env (p : Principal) (k : KEK) (at_ : Z) : Envelope :=
  mkEnvelope KindKeyEnrol (p_Tenant p) "" "" [] (principalAuthor p) at_
    ("Enrol customer key " +:+ kek_ID k +:+ nl +:+ nl +:+ "Algorithm " +:+ kek_Algorithm k
     +:+ ". Data-encryption keys created from now on carry a recovery wrap only the holder of this key can open.") [].
Definition enrol_tx (p : Principal) (k : KEK) : M Transaction :=
  at_ ← now;
  previous ← query (SSelect "keks" [is_ "tenant" (VStr (p_Tenant p)); is_ "active" (VBool true); mkCond "id" ONe (VStr (kek_ID k))] None None);
  commit (kek_env p k at_) (kek_op k (p_Tenant p) at_ :: (retire_op <$> previous)).
Definition EnrolKEK (p : Principal) (id algo publicKeyB64 : string) : M Transaction :=
  _ ← guard_ (negb (Can p PermKeys)) (Errorf "%s may not enrol keys" [Acting p]);
  public ← lift (of_option (base64_decode publicKeyB64) (Wrapf "public key must be base64: %w" [] (Errorf "illegal base64 data" [])));
  kek ← lift (ParseKEK id algo public);
  Do (enrol_tx p kek).

Definition RecoveryWrap (p : Principal) (scope : string) : M RecoveryMaterial :=
  _ ← guard_ (negb (Can p PermKeys)) (Errorf "%s may not read key material" [Acting p]);
  Do (row ← select_one "dek_keys" [is_ "scope" (VStr scope); is_ "tenant" (VStr (p_Tenant p))];
      row ← lift (of_option row (Errorf "no key for scope %q" [scope]));
      _ ← guard_ (negb (Int row "destroyed_at" =? 0)) (Errorf "the key for %s was destroyed on %d" [scope; itoa (Int row "destroyed_at")]);
      let wrap := Bytes row "rec_wrap" in
      _ ← guard_ (len wrap =? 0) (Errorf "no recovery wrap for %s: no customer key was enrolled when it was created" [scope]);
      mret (mkRecovery scope (Str row "kek_id") (Int row "created_at") (base64_encode wrap))).

(** ** Subscribers *)

Definition webhook_op (hook : Webhook) (tenant secret : string) (at_ : Z) : WriteOp :=
  upsert "webhooks" [("id", VStr (wh_ID hook))]
    [("tenant", VStr tenant); ("url", VStr (wh_URL hook)); ("secret", VBinary secret);
     ("events", VStr (Join (wh_Events hook) ",")); ("active", VBool (wh_Active hook)); ("created_at", VInt at_);
     ("txid", VStr TxIDPlaceholder)].
Definition webhook_env (p : Principal) (hook : Webhook) (at_ : Z) : Envelope :=
  mkEnvelope KindWebhookSet (p_Tenant p) "" "" [] (principalAuthor p) at_
    (composeMessage (clip ("Register subscriber " +:+ wh_ID hook) MaxSummary)
       ("Notifications for " +:+ orDefault (Join (wh_Events hook) ", ") "every event" +:+ " go to " +:+ wh_URL hook
        +:+ "." +:+ nl +:+ "The signing secret is generated in the enclave and is not part of this record.")) [].
Definition SetWebhook (p : Principal) (hook : Webhook) : M (Webhook * Transaction) :=
  _ ← guard_ (negb (Can p PermAdmin)) (Errorf "%s may not manage subscribers" [Acting p]);
  _ ← guard_ (String.eqb (wh_ID hook) "" || String.eqb (wh_URL hook) "") (Errorf "a subscriber needs an id and a url" []);
  _ ← guard_ (negb (HasPrefix (wh_URL hook) "https://")) (Errorf "a subscriber url must be https" []);
  secret ← random 32;
  at_ ← now;
  txn ← Do (commit (webhook_env p hook at_) [webhook_op hook (p_Tenant p) secret at_]);
  mret (mkWebhook (wh_ID hook) (p_Tenant p) (wh_URL hook) (wh_Events hook) (wh_Active hook) at_ (base64_encode secret), txn).

(** [Webhooks]: the SELECT does not name the secret. *)
Definition webhook_of_row (row : Row) : Webhook :=
  mkWebhook (Str row "id") (Str row "tenant") (Str row "url")
    (if String.eqb (Str row "events") "" then [] else Split1 (Str row "events") ","%char) (Bool row "active") (Int row "created_at") "".
Definition Webhooks (p : Principal) : M (list Webhook) :=
  _ ← guard_ (negb (Can p PermAdmin)) (Errorf "%s may not manage subscribers" [Acting p]);
  rows ← Do (query (SSelect "webhooks" [is_ "tenant" (VStr (p_Tenant p))] None None));
  mret (webhook_of_row <$> rows).

(** ** Status *)

Definition pending_tasks_sql : string :=
  "SELECT COUNT(*) FROM `tasks` WHERE state IN ('awaiting_review','awaiting_counterparty','proposed')".
Definition Status_ : M Status :=
  latest ← LatestCheckpoint;
  Do (at_root ← current;
      head ← attempt HistoryHead;
      transactions ← count "transactions" [];
      objects ← count "objects" [];
      tasks ← count_query pending_tasks_sql;
      pending ← count "transactions" [is_ "state" (VStr "pending")];
      pruned ← count "record_versions" [is_ "pruned" (VBool true)];
      destroyed ← count "dek_keys" [mkCond "destroyed_at" ONe (VInt 0)];
      mret (mkStatus (opt_Name (opts r)) (pk_Name (pk r)) (pk_Version (pk r)) (opt_Tenant (opts r)) (opt_ImageDigest (opts r))
              (opt_KeySource (opts r)) at_root.1 history_enabled (match head with Some h => h.1 | None => "" end) at_root.2
              transactions objects tasks pending pruned destroyed latest (VerificationKey r).1 (VerificationKey r).2)).

(** ** Proposals *)

(** The clauses of [Tasks]: a caller who cannot decide sees their own. *)
Definition task_clauses (p : Principal) (state : string) : list string :=
  ["tenant = " +:+ lit_str (p_Tenant p)]
  ++ (if String.eqb state "" then [] else ["state = " +:+ lit_str state])
  ++ (if negb (CanOn p PermApprove "*") && negb (Can p PermExplorer)
      then ["(proposer_sub = " +:+ lit_str (Sub p) +:+ " OR counterparty = " +:+ lit_str (Sub p) +:+ ")"] else []).
Definition open_task (p : Principal) (row : Row) : M Task :=
  task ← lift (decodeTask row);
  opened ← openProposal r (Some p) (tk_Tenant task) (tk_ID task) (Bytes row "payload");
  mret (with_task_payload task opened.1 opened.2).
Definition Tasks (p : Principal) (state : string) (limit : Z) : M (list Task) :=
  rows ← Do (query (SQuery ("SELECT * FROM `tasks` WHERE " +:+ joinAnd (task_clauses p state)
                            +:+ " ORDER BY updated_at DESC LIMIT " +:+ itoa (clampLimit limit))));
  Do (traverse (open_task p) rows).

Definition Task_ (p : Principal) (id : string) : M Task :=
  Do (task ← taskByIDAs r (Some p) id;
      _ ← guard_ (negb (String.eqb (tk_Tenant task) (p_Tenant p))) (Errorf "no proposal %s" [id]);
      match Workflow_ (pk r) (tk_Workflow task) with
      | None => mret task
      | Some wf =>
          ctx ← templateContext p (tk_ID task) (tk_ObjectID task) (tk_Payload task);
          found ← evaluateConditions wf ctx;
          mret (with_blockers task (found.1 ++ (if String.eqb found.2 "" then [] else [found.2])))
      end).
End admin.
