(* ===== verification/AdminCorrect.v ===== *)
(** * Enrolling a customer key

    After an enrolment the key enrolled is the one every new data key is
    wrapped to: its row is active, every other active row of the tenant
    was retired in the same commit, and no data key was touched. *)

From S2P Require Import Prelude GoStrings Float64 Encoding Canon Json SqlText Sql Rbac JsonSchema Pack Model World Concrete Commit Replay Byok GoJson Records RecordsCorrect Landing Workflow WorkflowCorrect Identities Retention RetentionCorrect Anchors Checkpoints Admin.
Local Open Scope Z_scope.

Section enrolment.
Context `{Runtime} `{GoFormats}.

(** A row whose key is in use for a tenant. *)
Definition in_use (tenant : string) : where_ := [is_ "tenant" (VStr tenant); is_ "active" (VBool true)].

Lemma filed_kek m k row : wf_table "keks" m -> m !! k = Some row -> k = [SStr (Str row "id")] /\ cell row "id" = SStr (Str row "id").
Proof.
  intros W Hk. destruct (W _ _ Hk) as [-> Hw]. unfold pk_of. cbn.
  apply Forall_cons in Hw as [(ty & T & Hty) _]. injection T as <-. unfold Str. by destruct (cell row "id").
Qed.

Lemma previous_elem tenant id row s :
  cell row "id" = SStr s ->
  matches [is_ "tenant" (VStr tenant); is_ "active" (VBool true); mkCond "id" ONe (VStr id)] row = true <->
  matches (in_use tenant) row = true /\ s <> id.
Proof.
  intros Hc. unfold matches, in_use. cbn [forallb]. rewrite (cond_text_ne _ _ _ _ Hc), !andb_true_iff, bool_decide_eq_true. tauto.
Qed.

(** A retired row is out of use. *)
Lemma retire_effect tenant txid row0 row row' :
  convertible txid (retire_op row0) -> row_effect txid (retire_op row0) (Some row) = Some row' ->
  matches (in_use tenant) row' = false.
Proof.
  intros Hc He. unfold matches, in_use. cbn [forallb].
  assert (cond_holds row' (is_ "active" (VBool true)) = false) as ->.
  { unfold cond_holds. cbn [is_ c_op c_col c_val].
    by rewrite (effect_cell _ _ _ _ "active" (VBool false) (CInt 8 true) Hc eq_refl He). }
  by rewrite andb_false_r.
Qed.

Lemma retire_key txid row : Str row "id" <> TxIDPlaceholder -> op_key txid (retire_op row) = [SStr (Str row "id")].
Proof. intros Hi. unfold op_key. cbn. by destruct (String.eqb_spec (Str row "id") TxIDPlaceholder). Qed.

(** Row by row: retired when it was selected, else alone. *)
Lemma retired_row tenant txid l k row :
  Forall (fun row => Str row "id" <> TxIDPlaceholder) l -> Forall (convertible txid) (retire_op <$> l) ->
  ((forall x, x ∈ l -> [SStr (Str x "id")] <> k) -> forall o, row_effects txid (retire_op <$> l) "keks" k o = o) /\
  ((exists x, x ∈ l /\ [SStr (Str x "id")] = k) ->
     exists row', row_effects txid (retire_op <$> l) "keks" k (Some row) = Some row' /\ matches (in_use tenant) row' = false).
Proof.
  intros Hp Hconv. rewrite Forall_forall in Hp. split.
  - intros Hk o. apply row_effects_miss. apply Forall_fmap, Forall_forall. intros x Hx _. cbn [compose].
    rewrite retire_key by by apply Hp. by apply Hk.
  - intros (x & Hx & <-). apply (row_effects_hit (fun _ row' => matches (in_use tenant) row' = false)); [done| |].
    + rewrite Forall_fmap in *. apply Forall_forall. intros y Hy. rewrite Forall_forall in Hconv. specialize (Hconv _ Hy).
      intros _ _ row0. cbn [compose] in *. destruct (row_effect txid _ (Some row0)) as [row1|] eqn:He; [|done].
      exists row1. split; [done|]. by eapply retire_effect.
    + apply Exists_exists. exists (retire_op x). split; [by apply list_elem_of_fmap_2|]. split; [done|]. apply retire_key. by apply Hp.
Qed.

Lemma effect_text txid op o row c n s :
  convertible txid op -> Delete op = false -> row_effect txid op o = Some row ->
  obj_get c (Values op) = Some (VStr s) -> column_type (Table op) c = Some (CText n) -> s <> TxIDPlaceholder -> cell row c = SStr s.
Proof.
  intros Hc Hd He Hg Ht Hs. pose proof (effect_cell _ _ _ _ _ _ _ Hc Hd He Hg Ht) as E. rewrite substitute_plain in E by done. by apply E.
Qed.

(** The row an enrolment writes, whatever was filed under its id. *)
Lemma kek_effect k tenant at_ txid o row :
  tenant <> TxIDPlaceholder -> kek_ID k <> TxIDPlaceholder -> kek_Algorithm k <> TxIDPlaceholder ->
  convertible txid (kek_op k tenant at_) -> row_effect txid (kek_op k tenant at_) o = Some row ->
  Str row "algo" = kek_Algorithm k /\ Bytes row "public_key" = kek_PublicKey k /\
  cell row "tenant" = SStr tenant /\ cell row "active" = SInt 1.
Proof.
  intros Ht Hi Ha Hc He. unfold Str, Bytes. split_and!.
  - by rewrite (effect_text _ _ _ _ "algo" 24 (kek_Algorithm k) Hc eq_refl He).
  - by rewrite (effect_cell _ _ _ _ "public_key" (VBinary (kek_PublicKey k)) (CBytes 1024) Hc eq_refl He).
  - by apply (effect_text _ _ _ _ "tenant" 64 tenant Hc eq_refl He).
  - by rewrite (effect_cell _ _ _ _ "active" (VBool true) (CInt 8 true) Hc eq_refl He).
Qed.

(** The keys an enrolment leaves: the one enrolled in use, and no other
    for that tenant. *)
Lemma enrolled_table (k : KEK) (tenant : string) (at_ : Z) (txid : string) (keks keks' : table) (l : list Row) :
  wf_table "keks" keks -> tenant <> TxIDPlaceholder -> kek_ID k <> TxIDPlaceholder -> kek_Algorithm k <> TxIDPlaceholder ->
  (forall key row, keks !! key = Some row -> Str row "id" <> TxIDPlaceholder) ->
  (forall row, row ∈ l <-> row ∈ rows keks /\
     matches [is_ "tenant" (VStr tenant); is_ "active" (VBool true); mkCond "id" ONe (VStr (kek_ID k))] row = true) ->
  Forall (convertible txid) (kek_op k tenant at_ :: (retire_op <$> l)) ->
  (forall key, keks' !! key = row_effects txid (kek_op k tenant at_ :: (retire_op <$> l)) "keks" key (keks !! key)) ->
  (exists row, keks' !! [SStr (kek_ID k)] = Some row /\ row_effect txid (kek_op k tenant at_) (keks !! [SStr (kek_ID k)]) = Some row) /\
  (forall key row, key <> [SStr (kek_ID k)] -> keks' !! key = Some row -> matches (in_use tenant) row = false).
Proof.
  intros W Ht Hi Ha Hp Hl Hconv Hk. apply Forall_cons in Hconv as [Hc Hconv].
  assert (op_key txid (kek_op k tenant at_) = [SStr (kek_ID k)]) as Hkey.
  { unfold op_key. cbn. by destruct (String.eqb_spec (kek_ID k) TxIDPlaceholder). }
  assert (forall x, x ∈ l -> keks !! [SStr (Str x "id")] = Some x /\ matches (in_use tenant) x = true /\ Str x "id" <> kek_ID k) as Hsel.
  { intros x Hx. apply Hl in Hx as [Hin Hm]. apply rows_elem in Hin as [k' Hrow]. destruct (filed_kek _ _ _ W Hrow) as [-> Hcell].
    by apply (previous_elem _ _ _ _ Hcell) in Hm as [? ?]. }
  assert (Forall (fun row => Str row "id" <> TxIDPlaceholder) l) as Hpl.
  { apply Forall_forall. intros x Hx. destruct (Hsel _ Hx) as [Hrow _]. by eapply Hp. }
  split.
  - rewrite Hk. unfold row_effects. cbn [fold_left]. rewrite decide_True by done.
    destruct (row_effect txid (kek_op k tenant at_) (keks !! [SStr (kek_ID k)])) as [row|] eqn:He; [|done]. exists row. split; [|done].
    apply (proj1 (retired_row tenant txid l [SStr (kek_ID k)] ∅ Hpl Hconv)). intros x Hx [= Hid]. by destruct (Hsel _ Hx) as (_ & _ & ?).
  - intros key row Hne Hrow. rewrite Hk in Hrow. unfold row_effects in Hrow. cbn [fold_left] in Hrow.
    rewrite decide_False in Hrow by (rewrite Hkey; intros [_ ?]; congruence).
    change (row_effects txid (retire_op <$> l) "keks" key (keks !! key) = Some row) in Hrow.
    destruct (keks !! key) as [old|] eqn:Hold.
    + destruct (filed_kek _ _ _ W Hold) as [-> Hcell]. destruct (retired_row tenant txid l [SStr (Str old "id")] old Hpl Hconv) as [Hmiss Hhit].
      destruct (matches (in_use tenant) old) eqn:Hm.
      * destruct Hhit as (row' & Hr & ?); [|congruence]. exists old. split; [|done]. apply Hl. split; [apply rows_elem; by eexists|].
        apply (previous_elem _ _ _ _ Hcell). split; [done|]. congruence.
      * rewrite Hmiss in Hrow; [congruence|]. intros x Hx [= Hid]. destruct (Hsel _ Hx) as (Hx' & Hmx & _). rewrite Hid in Hx'. congruence.
    + rewrite (proj1 (retired_row tenant txid l key ∅ Hpl Hconv)) in Hrow; [done|]. intros x Hx <-. by destruct (Hsel _ Hx) as [? _]; congruence.
Qed.

Lemma ParseKEK_fields id algo public kek :
  ParseKEK id algo public = Ok kek ->
  kek_ID kek = id /\ kek_Algorithm kek = algo /\ kek_PublicKey kek = public /\ (algo = AlgoX25519 \/ algo = AlgoRSAOAEP).
Proof.
  unfold ParseKEK. intros E. destruct (String.eqb_spec algo AlgoX25519) as [->|_].
  - destruct (x25519_check public); [done|]. injection E as <-. by repeat split; left.
  - destruct (String.eqb_spec algo AlgoRSAOAEP) as [->|_]; [|done]. destruct (rsa_bits public); [|done]. res_inv. by repeat split; right.
Qed.

Lemma enrol_ops_wf k tenant at_ l : ops_wf (kek_op k tenant at_ :: (retire_op <$> l)).
Proof.
  intros txid. apply Forall_cons_2; [built|]. apply Forall_fmap, Forall_forall. intros row _. cbn [compose]. built.
Qed.
Lemma enrol_ops_keks k tenant at_ l : Forall (fun op => Table op <> "dek_keys") (kek_op k tenant at_ :: (retire_op <$> l)).
Proof. apply Forall_cons_2; [done|]. by apply Forall_fmap, Forall_forall. Qed.

(** The key in use, when there is one row for it. *)
Lemma only_active (tenant : string) (keks : table) (key : list sqlval) (row : Row) (kek : KEK) (w : world) :
  answers_reads (visible w) -> visible w !! "keks" = Some keks -> keks !! key = Some row -> matches (in_use tenant) row = true ->
  (forall key' row', key' <> key -> keks !! key' = Some row' -> matches (in_use tenant) row' = false) ->
  ParseKEK (Str row "id") (Str row "algo") (Bytes row "public_key") = Ok kek ->
  activeKEK tenant w = (Ok (Some kek), w).
Proof.
  intros A Hm Hrow Hin Honly Hk. unfold activeKEK, query_one, query, run_stmt, mbind, M_bind. change [is_ "tenant" (VStr tenant); is_ "active" (VBool true)] with (in_use tenant).
  assert (panics (SSelect "keks" (in_use tenant) (Some (mkOrder "enrolled_at" true)) (Some 1%nat)) = false) as -> by done.
  rewrite A by by eexists. rewrite Hm. cbn -[select_rows].
  assert (head (select_rows (in_use tenant) (Some (mkOrder "enrolled_at" true)) (Some 1%nat) keks) = Some row) as Hh.
  { unfold select_rows. set (f := filter _ _). set (s := merge_sort _ f).
    assert (forall x, x ∈ s <-> x = row) as Hs.
    { intros x. subst s f. rewrite merge_sort_Permutation, list_elem_of_filter, sql_scan_perm, rows_elem. split.
      - intros [Hx [k' Hk']]. destruct (base.decide (k' = key)) as [->|Hne]; [congruence|]. rewrite (Honly _ _ Hne Hk') in Hx. done.
      - intros ->. split; [done|]. by eexists. }
    destruct s as [|x s]; [by destruct (not_elem_of_nil row); apply Hs|]. cbn. f_equal. apply Hs. apply list_elem_of_here. }
  destruct (select_rows _ _ _ _) as [|x l]; [done|]. injection Hh as ->. unfold mret, M_ret, lift. cbn. by rewrite Hk.
Qed.
End enrolment.

(** C22. An enrolled customer key is the key in use. Enrolling is for those
    who may manage keys, and takes a public key its algorithm accepts.
    When the enrolment lands, the ledger moves one version, the row under
    the key's id holds that key for the caller's tenant, and [activeKEK],
    from which every new data key takes its recovery wrap, answers exactly
    it: every other key of the tenant was retired in the same commit, so no
    row but this one is an active key of the tenant. The keys that exist
    are not wrapped again. *)
Theorem enrolled_key_active `{Runtime} `{GoFormats} (p : Principal) (id algo key64 : string) (w w' : world) (t : Transaction) (keks : table) :
  commit_moves_one -> store_wf w -> txn w = None -> committed w !! "keks" = Some keks -> answers_reads (committed w') ->
  p_Tenant p <> TxIDPlaceholder -> id <> TxIDPlaceholder ->
  (forall key row, keks !! key = Some row -> Str row "id" <> TxIDPlaceholder) ->
  EnrolKEK p id algo key64 w = (Ok t, w') -> version w' <> version w ->
  Can p PermKeys = true /\
  exists public kek, base64_decode key64 = Some public /\ ParseKEK id algo public = Ok kek /\
    version w' = to_uint64 (version w + 1) /\
    committed w' !! "dek_keys" = committed w !! "dek_keys" /\
    (exists keks' row, committed w' !! "keks" = Some keks' /\ keks' !! [SStr id] = Some row /\
       cell row "tenant" = SStr (p_Tenant p) /\ cell row "active" = SInt 1 /\
       ParseKEK (Str row "id") (Str row "algo") (Bytes row "public_key") = Ok kek /\
       forall key' row', key' <> [SStr id] -> keks' !! key' = Some row' -> matches (in_use (p_Tenant p)) row' = false) /\
    activeKEK (p_Tenant p) w' = (Ok (Some kek), w').
Proof.
  intros Hone W Ht Hm A Hte Hid Hp E Hmove. unfold EnrolKEK in E.
  apply M_bind_Ok in E as (u & w1 & Eg & E). apply guard_Ok in Eg as [Hcan ->]. apply negb_false_iff in Hcan.
  apply M_bind_Ok in E as (public & w1 & El & E). apply lift_Ok in El as [Hpub ->]. apply of_option_Ok in Hpub.
  apply M_bind_Ok in E as (kek & w1 & El & E). apply lift_Ok in El as [Hkek ->].
  split; [done|]. exists public, kek. do 2 (split; [done|]). destruct (ParseKEK_fields _ _ _ _ Hkek) as (Hki & Hka & Hkp & Halgo).
  apply Do_inv in E as (w1 & E & ->). unfold enrol_tx in E.
  apply M_bind_Ok in E as (at_ & wn & En & E). pose proof (ro_now _ _ _ En) as Hs.
  apply M_bind_Ok in E as (l & wl & Eq & E). apply select_elem in Eq as (-> & m & Hl & Hin).
  pose proof Hs as (Hc & Hver & _ & Htn & _). rewrite visible_closed, Hc, Hm in Hl by congruence. injection Hl as <-.
  pose proof (proj1 (keeps_commit _ _ _ _ _ (store_wf_same _ _ Hs W) E)) as Wc.
  apply (commit_lands _ _ w) in E as [Hsame|L]; [by destruct Hmove; destruct Hsame as [(_ & <- & _) _]| |done..|by apply enrol_ops_wf].
  split; [cbn; by rewrite (landed_version _ _ _ _ _ L), Hver|]. split.
  { cbn [committed set_txn]. rewrite (landed_other _ _ _ _ _ "dek_keys" L); [by rewrite Hc|done|done|apply enrol_ops_keks]. }
  destruct (landed_row _ _ _ _ _ "keks" keks L) as (keks' & Hm' & Hk); [done|done|by rewrite Hc|].
  assert (kek_Algorithm kek <> TxIDPlaceholder) as Hal by (rewrite Hka; by destruct Halgo as [-> | ->]).
  assert (Forall (convertible (tx_TxID t)) (kek_op kek (p_Tenant p) at_ :: (retire_op <$> l))) as Hconv.
  { by destruct L as (_ & _ & _ & _ & _ & rr & _ & _ & _ & _ & _ & ?). }
  destruct (enrolled_table kek (p_Tenant p) at_ (tx_TxID t) keks keks' l) as [(row & Hrow & He) Hothers]; try done.
  1: exact (proj1 W _ _ Hm). 1: congruence. 
  destruct (filed_kek _ _ _ (Wc _ _ Hm') Hrow) as [[= Hid'] _]. apply Forall_cons in Hconv as [Hc1 _].
  destruct (kek_effect kek _ _ _ _ _ Hte ltac:(congruence) Hal Hc1 He) as (E1 & E2 & E3 & E4).
  assert (ParseKEK (Str row "id") (Str row "algo") (Bytes row "public_key") = Ok kek) as Hpk by (by rewrite <- Hid', E1, E2, Hki, Hka, Hkp).
  split; [exists keks', row; rewrite <- Hki; by split_and!|].
  apply (only_active _ keks' [SStr (kek_ID kek)] row); [done|done|done| |done|done].
  unfold matches, in_use. cbn [forallb]. rewrite (cond_text _ _ _ _ E3), bool_decide_eq_true_2 by done.
  unfold cond_holds. cbn [is_ c_op c_col c_val]. by rewrite E4.
Qed.

(** ** An enrolment *)
Section enrolment_witness.
#[local] Existing Instance plain_runtime.
#[local] Existing Instance plain_formats.

Definition a_kek (id tenant : string) (at_ : Z) : Row :=
  list_to_map [("id", SStr id); ("tenant", SStr tenant); ("algo", SStr AlgoX25519); ("public_key", SStr "0123456789abcdef0123456789abcdef");
    ("enrolled_at", SInt at_); ("active", SInt 1); ("txid", SStr "t0")].
(** A register on which tenant [t] has a key and tenant [u] another. *)
Definition held_keks : table := <[[SStr "old"] := a_kek "old" "t" 1]> {[ [SStr "theirs"] := a_kek "theirs" "u" 2 ]}.
Definition keyed_world : world := mkWorld (<["keks" := held_keks]> empty_tables) 3 "root 3" None ∅ None 0 0 [] ∅ 0.
Definition keyholder : Principal := mkPrincipal "kim" "" "" "t" ["keys"] "keys" false {[ PermKeys ]}.
Definition new_key64 : string := base64_encode "an x25519 public key, 32 bytes..".

Lemma held_keks_whole : whole "keks" held_keks.
Proof. apply (bool_decide_unpack _). vm_compute. exact I. Qed.
Lemma keyed_world_wf : store_wf keyed_world.
Proof.
  split; [|done]. apply wf_db_insert; [apply empty_tables_wf|]. apply whole_wf; [|apply held_keks_whole].
  apply (bool_decide_unpack _). vm_compute. exact I.
Qed.

Lemma enrolled_key_active_witness : exists t w', EnrolKEK keyholder "new" AlgoX25519 new_key64 keyed_world = (Ok t, w') /\
  exists kek, activeKEK "t" w' = (Ok (Some kek), w').
Proof.
  destruct (runs_ok (EnrolKEK keyholder "new" AlgoX25519 new_key64 keyed_world)) as (t & w' & E & Hw); [vm_compute; reflexivity|].
  assert (version (snd (EnrolKEK keyholder "new" AlgoX25519 new_key64 keyed_world)) = 4) as Hv by (vm_compute; reflexivity).
  rewrite <- Hw in Hv. exists t, w'. split; [exact E|].
  destruct (@enrolled_key_active plain_runtime plain_formats keyholder "new" AlgoX25519 new_key64 keyed_world w' t held_keks
    plain_moves_one keyed_world_wf eq_refl ltac:(reflexivity) (plain_answers _) ltac:(discriminate) ltac:(discriminate)) as [_ (public & kek & _ & _ & _ & _ & _ & Ha)].
  - intros key row Hrow. unfold held_keks in Hrow. apply lookup_insert_Some in Hrow as [[_ <-]|[_ Hrow]]; [discriminate|].
    apply lookup_singleton_Some in Hrow as [_ <-]. discriminate.
  - exact E.
  - rewrite Hv. discriminate.
  - by exists kek.
Defined.

(** The id a key is filed under is not tied to its tenant: enrolling under
    an id that another tenant uses takes that key out of use there, and new
    data keys of that tenant get no recovery wrap from then on. *)
Example enrolment_crosses_tenants :
  option_map kek_ID (default None (match fst (activeKEK "u" keyed_world) with Ok o => Some o | Err _ => None end)) = Some "theirs" /\
  fst (activeKEK "u" (snd (EnrolKEK keyholder "theirs" AlgoX25519 new_key64 keyed_world))) = Ok None.
Proof. split; vm_compute; reflexivity. Qed.
End enrolment_witness.
