(* ===== verification/Standby.v ===== *)
(** * Export and the warm standby ([internal/register/admin.go],
    [cmd/register/standby.go])

    The register exports the leaves of its ledger in pages; a standby
    pulls the pages, rebuilds the tree and checks that its root is the one
    it copied from. *)

From S2P Require Import Prelude GoStrings Float64 Encoding Canon Json SqlText Sql Rbac JsonSchema Pack Model World Commit Byok Records Anchors Checkpoints Ranges Admin.
Local Open Scope Z_scope.

Record ExportLeaf := mkExportLeaf { el_Path : string; el_Value : string }.
Record ExportChunk := mkChunk {
  ec_Version : Z;
  ec_Root : string;
  ec_Leaves : list ExportLeaf;
  ec_Done : bool;
  ec_Next : string;
  ec_Anchor : option SignedCheckpoint;
}.

(** The leaves of a tree past a path, in path order. Paths are 32 bytes,
    so 33 bytes of ones are past them all. *)
Definition path_end : string := of_bytes (repeat "255"%char 33).
Definition from_path (after : option string) : string := match after with None => "" | Some h => h +:+ String "000" "" end.
Definition leaves_after (m : gmap string string) (after : option string) : list (string * string) := range m (from_path after) path_end.

(** The ledger as a tree of leaves, a path and a value each. The laws are
    what the ledger documents: a page of the current version is the next
    leaves in path order, empty only when it is the last, and the last
    leaves nothing out; restoring leaves files them under their paths and
    makes the root that of the tree; stamping sets the version alone. *)
Class Replication `{Runtime} := {
  leaves_of : world -> gmap string string;
  tree_root : gmap string string -> string;
  snapshot_leaves : world -> Z -> option string -> Z -> res (list (string * string) * bool);
  restore_leaves : list (string * string) -> M unit;
  stamp_version : Z -> M unit;
  leaf_width : forall w p v, leaves_of w !! p = Some v -> len p = 32;
  snapshot_page : forall w after n ls done, 0 < n -> snapshot_leaves w (version w) after n = Ok (ls, done) ->
    ls = take (Z.to_nat n) (leaves_after (leaves_of w) after) /\
    (if done then drop (Z.to_nat n) (leaves_after (leaves_of w) after) = [] else ls <> []);
  restore_files : forall ls w w', Forall (fun kv : string * string => len kv.1 = 32) ls -> restore_leaves ls w = (Ok tt, w') ->
    leaves_of w' = foldl (fun m kv => <[kv.1 := kv.2]> m) (leaves_of w) ls /\ root w' = tree_root (leaves_of w');
  stamp_only : forall v w w', stamp_version v w = (Ok tt, w') -> leaves_of w' = leaves_of w /\ root w' = root w /\ version w' = v;
  session_aside : forall t w, leaves_of (set_txn t w) = leaves_of w;
}.

Record StandbyState := mkStandbyState {
  ss_Primary : string;
  ss_PrimaryVersion : Z;
  ss_PrimaryRoot : string;
  ss_LocalVersion : Z;
  ss_LocalRoot : string;
  ss_Leaves : Z;
  ss_Pages : Z;
  ss_Healthy : bool;
  ss_Error : string;
  ss_Anchor : option (Z * string * string);
}.

Section standby.
Context `{Runtime} `{GoFormats} `{!Ledger} `{!Replication}.
Variable r : Register.

(** ** Export *)

Definition start_after (after : string) : res (option string) :=
  if String.eqb after "" then Ok None
  else
    match hex_decode after with
    | Some raw => if len raw =? 32 then Ok (Some raw) else Err (Errorf "the resume position must be a 32-byte hex path" [])
    | None => Err (Errorf "the resume position must be a 32-byte hex path" [])
    end.
Definition export_leaf (kv : string * string) : ExportLeaf := mkExportLeaf (hex_encode kv.1) (base64_encode kv.2).
Definition export_page (startAfter : option string) (limit : Z) : M ExportChunk :=
  at_ ← current;
  w ← gets (fun w => w);
  page ← lift (snapshot_leaves w at_.2 startAfter (clampLimit limit));
  mret (mkChunk at_.2 at_.1 (export_leaf <$> page.1) page.2 (match last page.1 with Some kv => hex_encode kv.1 | None => "" end) None).
Definition with_anchor (anchor : option SignedCheckpoint) (c : ExportChunk) : ExportChunk :=
  mkChunk (ec_Version c) (ec_Root c) (ec_Leaves c) (ec_Done c) (ec_Next c) anchor.
Definition Export (p : Principal) (after : string) (limit : Z) : M ExportChunk :=
  _ ← guard_ (negb (Can p PermAdmin)) (Errorf "%s may not export the register" [Acting p]);
  startAfter ← lift (start_after after);
  out ← Do (export_page startAfter limit);
  anchor ← LatestCheckpoint;
  mret (with_anchor anchor out).

(** ** Import *)

Definition import_leaf (l : ExportLeaf) : res (string * string) :=
  raw ← of_option (hex_decode (el_Path l)) (Errorf "register: import: bad leaf path" []);
  _ ← refuse_if (negb (len raw =? 32)) (Errorf "register: import: bad leaf path" []);
  value ← of_option (base64_decode (el_Value l)) (Wrapf "register: import: bad leaf value: %w" [] (Errorf "illegal base64 data" []));
  Ok (raw, value).
Definition import_tx (chunk : ExportChunk) : M unit :=
  leaves ← lift (collect (import_leaf <$> ec_Leaves chunk));
  _ ← (match leaves with [] => mret tt | _ => wrapping "register: import: %w" [] (restore_leaves leaves) end);
  if negb (ec_Done chunk) then mret tt
  else
    _ ← wrapping "register: import: stamp version: %w" [] (stamp_version (ec_Version chunk));
    at_ ← current;
    guard_ (negb (String.eqb at_.1 (ec_Root chunk)))
      (Errorf "register: import: restored root %s does not match the source root %s" [at_.1; ec_Root chunk]).
Definition Import (chunk : ExportChunk) : M unit := Do (import_tx chunk).

(** ** The pull

    [fetch] is the primary's answer over HTTP to a resume position. The
    loop of [pullOnce] follows it page by page; [None] when the fuel, the
    number of pages, runs out. The clock readings of the state reported
    are left out of it. *)
Variable primaryURL : string.
Variable fetch : string -> res ExportChunk.

Fixpoint pull_pages (fuel : nat) (after : string) (pages leaves : Z) : M (option (ExportChunk * Z * Z)) :=
  match fuel with
  | O => mret None
  | S fuel =>
      chunk ← lift (fetch after);
      _ ← Import chunk;
      let pages := pages + 1 in
      let leaves := leaves + Z.of_nat (length (ec_Leaves chunk)) in
      if ec_Done chunk then mret (Some (chunk, pages, leaves))
      else
        _ ← guard_ (String.eqb (ec_Next chunk) "") (Errorf "the primary returned no resume position and did not finish" []);
        pull_pages fuel (ec_Next chunk) pages leaves
  end.

Definition pulled_state (last : ExportChunk) (pages leaves : Z) (status : Status) : StandbyState :=
  let healthy := String.eqb (st_Root status) (ec_Root last) in
  mkStandbyState primaryURL (ec_Version last) (ec_Root last) (st_LedgerVersion status) (st_Root status) leaves pages healthy
    (if healthy then "" else "the restored root does not match the primary's")
    ((fun sc => (cp_Version (sc_Checkpoint sc), cp_Root (sc_Checkpoint sc), sc_KeyID sc)) <$> ec_Anchor last).

Definition pullOnce (fuel : nat) : M (option StandbyState) :=
  pulled ← pull_pages fuel "" 0 0;
  match pulled with
  | None => mret None
  | Some (last, pages, leaves) => status ← Status_ r; mret (Some (pulled_state last pages leaves status))
  end.
End standby.
