(* ===== verification/StandbyCorrect.v ===== *)
(** * A standby catches up

    While the primary stands still a pull ends, and leaves the standby with
    the primary's leaves, and beside them whatever it held that the primary
    does not hold: an import files leaves and takes none away. So the pull
    succeeds when that union is the primary's tree, and otherwise fails on
    its last page, every time. *)

From S2P Require Import Prelude GoStrings Float64 Encoding Canon Json SqlText Sql Rbac JsonSchema Pack Model World Concrete Commit Byok Records Landing Anchors Checkpoints Ranges CheckpointsCorrect Admin Standby RecordsCorrect.
Local Open Scope Z_scope.

(** ** Leaves and paths *)

Lemma before_ones n : forall k, (String.length k <= n)%nat -> String.leb (of_bytes (repeat "255"%char (S n))) k = false.
Proof.
  induction n as [|n IH]; intros [|c k] Hk; try done; cbn in Hk; try lia.
  unfold String.leb in *. cbn [repeat of_bytes String.compare] in *. rewrite ascii_compare. change (byte_Z "255") with 255.
  pose proof (byte_Z_range c). destruct (Z.compare_spec 255 (byte_Z c)); [|lia|done]. apply IH. lia.
Qed.

Lemma path_in_range k : len k = 32 -> in_range "" path_end k = true.
Proof.
  intros Hk. unfold in_range. apply andb_true_iff. split; [by destruct k|]. apply negb_true_iff. apply (before_ones 32). unfold len in Hk. lia.
Qed.

Definition filed (m : gmap string string) (ls : list (string * string)) : gmap string string :=
  foldl (fun m kv => <[kv.1 := kv.2]> m) m ls.

Lemma filed_other ls : forall m k, k ∉ ls.*1 -> filed m ls !! k = m !! k.
Proof.
  induction ls as [|x ls IH]; intros m k Hk; [done|]. cbn in Hk. apply not_elem_of_cons in Hk as [H1 H2].
  cbn. unfold filed in IH. rewrite IH by done. by rewrite lookup_insert_ne.
Qed.
Lemma filed_elem ls : forall m k v, NoDup ls.*1 -> (k, v) ∈ ls -> filed m ls !! k = Some v.
Proof.
  induction ls as [|x ls IH]; intros m k v Hn Hk; [by apply elem_of_nil in Hk|]. cbn in Hn. apply NoDup_cons in Hn as [Hx Hn].
  apply elem_of_cons in Hk as [<-|Hk]; [|by apply IH]. cbn. change (filed (<[k := v]> m) ls !! k = Some v).
  rewrite filed_other by done. apply lookup_insert_eq.
Qed.

Lemma take_nodup {A B} (l : list (A * B)) n : NoDup l.*1 -> NoDup (take n l).*1.
Proof. intros Hn. rewrite <- (take_drop n l), fmap_app in Hn. by apply NoDup_app in Hn as [Hn _]. Qed.

(** Paths are 32 bytes. *)
Definition wide (ls : list (string * string)) : Prop := Forall (fun kv => len kv.1 = 32) ls.

(** How far a pull of [m] has come on a standby that held [had]: it holds
    no path that neither has, and every leaf of the two, the primary's
    before its own, that is not still to come. *)
Definition caught_up (m had have : gmap string string) (after : option string) : Prop :=
  (forall k, is_Some (have !! k) -> is_Some ((m ∪ had) !! k)) /\
  (forall k v, (m ∪ had) !! k = Some v -> (k, v) ∉ leaves_after m after -> have !! k = Some v).

Lemma caught_up_page m had have after n :
  caught_up m had have after ->
  caught_up m had (filed have (take n (leaves_after m after))) after /\
  (forall k v, (m ∪ had) !! k = Some v -> (k, v) ∉ drop n (leaves_after m after) ->
     filed have (take n (leaves_after m after)) !! k = Some v).
Proof.
  intros [H1 H2]. set (l := leaves_after m after).
  assert (NoDup l.*1) as Hn by apply range_nodup.
  assert (forall k v, (k, v) ∈ take n l -> (m ∪ had) !! k = Some v) as Hin.
  { intros k v Hk. apply subseteq_take in Hk. apply range_elem in Hk as [Hk _]. by apply lookup_union_Some_l. }
  assert (forall k v, (m ∪ had) !! k = Some v -> (k, v) ∉ drop n l -> filed have (take n l) !! k = Some v) as H3.
  { intros k v Hk Hd. destruct (decide (k ∈ (take n l).*1)) as [Ht|Ht].
    - apply list_elem_of_fmap in Ht as ([k' v'] & -> & Ht). cbn in *. pose proof (Hin _ _ Ht) as Hl.
      assert (v' = v) as -> by congruence. by apply filed_elem; [by apply take_nodup|].
    - rewrite filed_other by done. apply H2; [done|]. fold l. rewrite <- (take_drop n l). rewrite elem_of_app. intros [X|X]; [|done].
      apply Ht. by apply (list_elem_of_fmap_2 fst) in X. }
  split; [split|done].
  - intros k Hk. destruct (decide (k ∈ (take n l).*1)) as [Ht|Ht]; [|rewrite filed_other in Hk by done; by apply H1].
    apply list_elem_of_fmap in Ht as ([k' v'] & -> & Ht). eexists. by apply Hin.
  - intros k v Hk Hl. apply H3; [done|]. intros X. apply Hl. by apply subseteq_drop in X.
Qed.

(** When nothing is still to come, the standby holds the union. *)
Lemma caught_up_all (m had have : gmap string string) : (forall k, is_Some (have !! k) -> is_Some ((m ∪ had) !! k)) ->
  (forall k v, (m ∪ had) !! k = Some v -> have !! k = Some v) -> have = m ∪ had.
Proof.
  intros H1 H2. apply map_eq. intros k. destruct ((m ∪ had) !! k) as [v|] eqn:Hk; [by apply H2|].
  destruct (have !! k) as [v|] eqn:Hh; [|done]. destruct (H1 k) as [? ?]; [by eexists|congruence].
Qed.

(** ** One page *)
Section pages.
Context `{Runtime} `{GoFormats} `{!Ledger} `{!Replication}.

Lemma import_one kv : len kv.1 = 32 -> import_leaf (export_leaf kv) = Ok kv.
Proof.
  intros Hk. unfold import_leaf, export_leaf. cbn [el_Path el_Value]. rewrite hex_roundtrip, base64_roundtrip. unfold mbind. cbn.
  rewrite Hk. by destruct kv.
Qed.
Lemma import_export ls : wide ls -> collect (import_leaf <$> (export_leaf <$> ls)) = Ok ls.
Proof.
  induction 1 as [|kv ls Hk _ IH]; [done|]. rewrite !fmap_cons. cbn [collect]. rewrite import_one by done. unfold mbind. cbn [res_bind].
  by rewrite IH.
Qed.

(** The world after a page, before the last check. *)
Definition restored (ls : list (string * string)) (w w' : world) : Prop :=
  leaves_of w' = filed (leaves_of w) ls /\ (root w = tree_root (leaves_of w) -> root w' = tree_root (leaves_of w')).

Lemma import_restores ls w :
  wide ls ->
  (forall ls w, wide ls -> exists w', restore_leaves ls w = (Ok tt, w')) ->
  exists w', (match ls with [] => mret tt | _ => wrapping "register: import: %w" [] (restore_leaves ls) end) w = (Ok tt, w') /\ restored ls w w'.
Proof.
  intros Hw Hr. destruct ls as [|x ls]; [by exists w|]. destruct (Hr (x :: ls) w Hw) as [w' E]. exists w'. split.
  - unfold wrapping. by rewrite E.
  - apply restore_files in E as [E1 E2]; [by split|done].
Qed.

(** What a page leaves, and the answer: the last one is refused when the
    tree it completes does not have the root named. *)
Definition mismatch (root' : string) (chunk : ExportChunk) : error :=
  Errorf "register: import: restored root %s does not match the source root %s" [root'; ec_Root chunk].
Lemma import_page (chunk : ExportChunk) (ls : list (string * string)) (w : world) :
  (forall ls w, wide ls -> exists w', restore_leaves ls w = (Ok tt, w')) -> (forall v w, exists w', stamp_version v w = (Ok tt, w')) ->
  wide ls -> ec_Leaves chunk = export_leaf <$> ls -> root w = tree_root (leaves_of w) ->
  exists w', Import chunk w = (if negb (ec_Done chunk) || String.eqb (root w') (ec_Root chunk) then Ok tt else Err (mismatch (root w') chunk), w') /\
    leaves_of w' = filed (leaves_of w) ls /\ root w' = tree_root (leaves_of w') /\ (ec_Done chunk = true -> version w' = ec_Version chunk).
Proof.
  intros Hr Hs Hw Hl Hroot. unfold Import, Do, import_tx. rewrite Hl. unfold lift at 1, mbind, M_bind. rewrite import_export by done.
  destruct (import_restores ls w Hw Hr) as (w1 & E1 & L1 & R1). cbv beta iota. rewrite E1. specialize (R1 Hroot).
  destruct (ec_Done chunk) eqn:Ed; cbn [negb orb].
  - destruct (Hs (ec_Version chunk) w1) as [w2 E2]. unfold wrapping. rewrite E2. cbn. apply stamp_only in E2 as (L2 & R2 & V2).
    unfold guard_, current, gets. exists (set_txn None w2). cbn [fst root set_txn]. rewrite session_aside, L2, R2, L1. cbn.
    unfold mismatch. split; [by destruct (String.eqb _ _)|]. split; [done|]. by rewrite R1, L1.
  - unfold mret, M_ret. exists (set_txn None w1). rewrite session_aside. by rewrite L1, <- L1.
Qed.

Lemma exported p after limit w startAfter ls done :
  Can p PermAdmin = true -> start_after after = Ok startAfter -> snapshot_leaves w (version w) startAfter (clampLimit limit) = Ok (ls, done) ->
  fst (Export p after limit w) = Ok (mkChunk (version w) (root w) (export_leaf <$> ls) done (match last ls with Some kv => hex_encode kv.1 | None => "" end) (lastCkpt w)).
Proof.
  intros Hc Hs Hp. unfold Export, guard_. rewrite Hc. unfold mbind, M_bind. cbn. rewrite Hs. unfold Do, export_page, current, gets, mbind, M_bind, lift.
  cbn. by rewrite Hp.
Qed.
End pages.

(** The status names the root and the version it was read at. *)
Lemma status_root `{Runtime} `{GoFormats} `{!Ledger} r w status w' :
  Status_ r w = (Ok status, w') -> st_Root status = root w /\ st_LedgerVersion status = version w.
Proof.
  unfold Status_, LatestCheckpoint. rewrite gets_bind. intros E. apply Do_inv in E as (w1 & E & _). unfold current in E. rewrite gets_bind in E.
  m_inv. by cbn.
Qed.

(** ** The whole pull

    The primary stands still in [wp] and answers every page. *)
Section pull.
Context `{Runtime} `{GoFormats} `{!Ledger} `{!Replication}.
Variable (p : Principal) (wp : world).
Hypothesis may_export : Can p PermAdmin = true.
Hypothesis rooted : root wp = tree_root (leaves_of wp).
Hypothesis answers_pages : forall after, exists page, snapshot_leaves wp (version wp) after 500 = Ok page.
Hypothesis restores : forall ls w, wide ls -> exists w', restore_leaves ls w = (Ok tt, w').
Hypothesis stamps : forall v w, exists w', stamp_version v w = (Ok tt, w').

Definition from_primary (after : string) : res ExportChunk := fst (Export p after 500 wp).

Lemma leaf_elem after kv : kv ∈ leaves_after (leaves_of wp) after -> leaves_of wp !! kv.1 = Some kv.2 /\ len kv.1 = 32.
Proof. intros [Hk _]%range_elem. split; [done|]. by eapply leaf_width. Qed.

Lemma pull_ends had fuel : forall after startAfter pages n w,
  (length (leaves_after (leaves_of wp) startAfter) < fuel)%nat -> start_after after = Ok startAfter ->
  caught_up (leaves_of wp) had (leaves_of w) startAfter -> root w = tree_root (leaves_of w) ->
  exists last pages' n' w', leaves_of w' = leaves_of wp ∪ had /\ root w' = tree_root (leaves_of w') /\ version w' = version wp /\
    ec_Root last = root wp /\ ec_Version last = version wp /\ ec_Anchor last = lastCkpt wp /\
    pull_pages from_primary fuel after pages n w =
      (if String.eqb (root w') (root wp) then Ok (Some (last, pages', n')) else Err (mismatch (root w') last), w').
Proof.
  induction fuel as [|fuel IH]; intros after startAfter pages n w Hf Hs Hc Hr; [lia|]. cbn [pull_pages].
  destruct (answers_pages startAfter) as [[ls done_] Hp]. pose proof (snapshot_page _ _ _ _ _ (eq_refl : 0 < 500) Hp) as [Hls Hend].
  assert (wide ls) as Hw.
  { apply Forall_forall. intros kv Hkv. rewrite Hls in Hkv. apply subseteq_take in Hkv. by apply (leaf_elem startAfter). }
  pose proof (caught_up_page _ _ _ _ (Z.to_nat 500) Hc) as [Hc1 Hc2]. rewrite <- Hls in Hc1, Hc2.
  set (chunk := mkChunk (version wp) (root wp) (export_leaf <$> ls) done_ (match last ls with Some kv => hex_encode kv.1 | None => "" end) (lastCkpt wp)).
  assert (from_primary after = Ok chunk) as Hfetch by (by eapply exported).
  destruct (import_page chunk ls w restores stamps Hw eq_refl Hr) as (w1 & E & L1 & R1 & V1).
  unfold lift at 1, mbind, M_bind. rewrite Hfetch, E. cbn [ec_Done ec_Root chunk] in *. destruct done_; cbn [negb orb].
  - exists chunk, (pages + 1), (n + Z.of_nat (length (ec_Leaves chunk))), w1. split.
    { rewrite L1. apply caught_up_all; [apply Hc1|]. intros k v Hk. apply Hc2; [done|]. rewrite Hend. apply not_elem_of_nil. }
    split; [done|]. split; [by apply V1|]. do 3 (split; [done|]). by destruct (String.eqb _ _).
  - destruct (last ls) as [kv|] eqn:El; [|by apply last_None in El]. cbn [chunk ec_Next].
    assert (len kv.1 = 32) as Hkv. { apply last_Some in El as [l1 ->]. unfold wide in Hw; rewrite Forall_app, Forall_singleton in Hw. by destruct Hw. }
    assert (String.eqb (hex_encode kv.1) "" = false) as Hne by (destruct kv as [[|]]; done).
    assert (start_after (hex_encode kv.1) = Ok (Some kv.1)) as Hnext. { unfold start_after. by rewrite Hne, hex_roundtrip, Hkv. }
    rewrite Hls in El. pose proof (range_next _ _ _ _ _ El) as Hrest. fold path_end in Hrest.
    assert (leaves_after (leaves_of wp) (Some kv.1) = drop (Z.to_nat 500) (leaves_after (leaves_of wp) startAfter)) as Hd by done.
    unfold guard_. rewrite Hne. cbn [mret M_ret]. apply (IH _ (Some kv.1)).
    + rewrite Hd, length_drop. rewrite Hls in Hend. destruct (leaves_after (leaves_of wp) startAfter); [done|cbn [length] in *; lia].
    + done.
    + rewrite L1. split; [apply Hc1|]. intros k v Hk Hnot. apply Hc2; [done|]. by rewrite <- Hd.
    + done.
Qed.
End pull.


(** ** A primary and an empty standby *)
Section pull_witness.
#[local] Existing Instance plain_runtime.
#[local] Existing Instance plain_formats.
#[local] Existing Instance plain_ledger.

(** A tree kept beside the tables: what of the backend is filed under
    paths. *)
Definition plain_leaves (w : world) : gmap string string := filter (fun kv => len kv.1 = 32) (backend w).
Definition plain_tree_root (m : gmap string string) : string :=
  hex_encode (plain_hash (Join ((fun kv => kv.1 +:+ kv.2) <$> range m "" path_end) "")).
Definition plain_rerooted (w : world) : world := set_ledger (committed w) (version w) (plain_tree_root (plain_leaves w)) w.
Definition plain_snapshot (w : world) (v : Z) (after : option string) (n : Z) : res (list (string * string) * bool) :=
  let l := leaves_after (plain_leaves w) after in
  Ok (take (Z.to_nat n) l, Nat.leb (length l) (Z.to_nat n)).
Definition plain_restore (ls : list (string * string)) : M unit := fun w =>
  (Ok tt, plain_rerooted (set_backend (filed (backend w) ls) w)).
Definition plain_stamp (v : Z) : M unit := fun w => (Ok tt, set_ledger (committed w) v (root w) w).

Lemma plain_filed ls : forall m, wide ls -> filter (fun kv : string * string => len kv.1 = 32) (filed m ls) = filed (filter (fun kv => len kv.1 = 32) m) ls.
Proof.
  induction ls as [|[k v] ls IH]; intros m Hw; [done|]. apply Forall_cons in Hw as [Hk Hw]. cbn in *.
  change (filter (fun kv : string * string => len kv.1 = 32) (filed (<[k := v]> m) ls) = filed (<[k := v]> (filter (fun kv => len kv.1 = 32) m)) ls).
  rewrite IH by done. f_equal. by rewrite map_filter_insert_True.
Qed.

#[program] Definition plain_replication : Replication := {|
  leaves_of := plain_leaves;
  tree_root := plain_tree_root;
  snapshot_leaves := plain_snapshot;
  restore_leaves := plain_restore;
  stamp_version := plain_stamp;
|}.
Next Obligation. intros w q v [_ Hq]%map_lookup_filter_Some. done. Qed.
Next Obligation.
  intros w after n ls done_ Hn [= <- <-]. split; [done|]. destruct (Nat.leb_spec (length (leaves_after (plain_leaves w) after)) (Z.to_nat n)) as [Hle|Hlt].
  - by apply drop_ge.
  - intros Ht. apply (f_equal length) in Ht. rewrite length_take in Ht. cbn in Ht. lia.
Qed.
Next Obligation.
  intros ls w w' Hw [= <-]. split; [|done]. unfold plain_leaves at 1. cbn. unfold plain_leaves. by rewrite plain_filed.
Qed.
Next Obligation. intros v w w' [= <-]. done. Qed.
Next Obligation. done. Qed.
#[local] Existing Instance plain_replication.

Definition operator : Principal := mkPrincipal "op" "" "" "t" ["operator"] "operator" false {[ PermAdmin ]}.
Definition a_path (n : nat) : string := bytes_le 32 (Z.of_nat n).
Definition primary_world : world :=
  plain_rerooted (set_backend (list_to_map ((fun n => (a_path n, "leaf " +:+ itoa (Z.of_nat n))) <$> seq 0 3)) (set_ledger empty_tables 9 "" fresh_world)).
Definition standby_world : world := plain_rerooted fresh_world.

Definition demo_fetch (after : string) : res ExportChunk := fst (Export operator after 500 primary_world).
Lemma standby_empty : leaves_of standby_world = ∅.
Proof. exact (map_filter_empty _). Qed.

(** A standby that holds a leaf the primary has since deleted holds it for
    good, and no pull of it succeeds again. *)
Definition stale_world : world := plain_rerooted (set_backend (list_to_map [(a_path 7, "deleted since")]) fresh_world).
Example stale_standby :
  let pull := pullOnce demo_register "https://primary" demo_fetch 4 in
  is_ok (fst (pull stale_world)) = false /\ is_ok (fst (pull (snd (pull stale_world)))) = false /\
  leaves_of (snd (pull stale_world)) !! a_path 7 = Some "deleted since".
Proof. vm_compute. split_and!; reflexivity. Qed.

(** Three leaves, in one page, and the version of the primary. *)
Example standby_demo :
  (match fst (pullOnce demo_register "https://primary" demo_fetch 4 standby_world) with
   | Ok (Some state) => Some (ss_Leaves state, ss_Pages state, ss_LocalVersion state, ss_Healthy state)
   | _ => None
   end) = Some (3, 1, 9, true).
Proof. vm_compute. reflexivity. Qed.
End pull_witness.
