(* ===== verification/Tokens.v ===== *)
(** * Bearer tokens ([internal/auth/oidc.go])

    A caller is who a token says, when the identity provider's published
    keys verify it. The key set is fetched over HTTP and kept for five
    minutes; the development verifier reads its tokens as they are. *)

From S2P Require Import Prelude GoStrings Float64 Encoding Canon Json Rbac Model World.
Local Open Scope Z_scope.

(** [auth.Identity] as a verifier returns it: what the role model reads of
    it ([Rbac.Identity]), the issuer and the claims. *)
Record VerifiedIdentity := mkVerifiedIdentity {
  vi_Identity : Identity;
  vi_Issuer : string;
  vi_Claims : object;
}.

(** [strings.SplitN(s, sep, n)] for a one-byte separator. *)
Fixpoint SplitN1 (n : nat) (s : string) (c : ascii) : list string :=
  match n with
  | O => []
  | S O => [s]
  | S n => match IndexByte s c with None => [s] | Some i => str_take i s :: SplitN1 n (str_drop (S i) s) c end
  end.

(** ** The development verifier *)

Definition DevVerify (token : string) : res VerifiedIdentity :=
  if negb (HasPrefix token "dev:") then Err (Errorf "auth: development verifier expects 'dev:<sub>:<display>:<roles>'" [])
  else
    let parts := SplitN1 3 (TrimPrefix token "dev:") ":" in
    let sub := default "" (parts !! 0%nat) in
    if String.eqb sub "" then Err (Errorf "auth: development token has no subject" [])
    else
      let display := default "" (parts !! 1%nat) in
      let roles := match parts !! 2%nat with Some r => if String.eqb r "" then [] else Split1 r "," | None => [] end in
      Ok (mkVerifiedIdentity (mkIdentity sub display "" roles []) "dev://privasys.id" []).

(** ** JSON of a stranger

    The members a field takes, [null] aside. *)
Definition null (v : value) : bool := match v with VNull => true | _ => false end.
Definition members (k : string) (m : object) : list value :=
  snd <$> List.filter (fun kv => String.eqb (fold_name kv.1) k && negb (null kv.2)) m.
Definition read_str (k : string) (m : object) : res string :=
  l ← collect (as_str <$> members k m); Ok (default "" (last l)).

(** [base64.RawURLEncoding.DecodeString]. *)
Definition rawurl_decode (s : string) : option string :=
  let bs := List.filter (fun a => negb (is_newline a)) (bytes_of s) in
  if Z.of_nat (length bs) mod 4 =? 1 then None else decode_raw 6 base64_url (of_bytes bs).
Definition rawurl (fmt s : string) : res string :=
  of_option (rawurl_decode s) (Wrapf fmt [] (Errorf "illegal base64 data" [])).

(** ** Published keys *)

Record jwk := mkJwk {
  k_Kty : string; k_Kid : string; k_Alg : string; k_Use : string;
  k_N : string; k_E : string; k_Crv : string; k_X : string; k_Y : string;
}.
Definition decode_jwk (v : value) : res jwk :=
  m ← as_obj v;
  kty ← read_str "kty" m; kid ← read_str "kid" m; alg ← read_str "alg" m; use_ ← read_str "use" m;
  n ← read_str "n" m; e ← read_str "e" m; crv ← read_str "crv" m; x ← read_str "x" m; y ← read_str "y" m;
  Ok (mkJwk kty kid alg use_ n e crv x y).

(** What the process around a verifier supplies: the clock in nanoseconds
    and the answers to HTTP requests, each by the number of the request or
    reading; the signature schemes and digests of the Go library; and the
    order in which Go ranges over a map. *)
Class Provider `{Crypto} := {
  time_ns : nat -> Z;
  http_get : nat -> string -> res (Z * string);
  sha384 : string -> string;
  sha512 : string -> string;
  rsa_VerifyPKCS1v15 : Z -> Z -> string -> string -> string -> option error;   (* n, e, hash, digest, signature *)
  ecdsa_Verify : string -> Z -> Z -> string -> Z -> Z -> bool;                 (* curve, x, y, digest, r, s *)
  range_map : gmap string jwk -> list (string * jwk);
  range_map_perm : forall m, range_map m ≡ₚ map_to_list m;
}.

(** The verifier: its configuration, and the state its methods share. *)
Record JWKSVerifier := mkVerifier { v_issuer : string; v_audience : string }.
Record KeyCache := mkKeyCache { kc_keys : gmap string jwk; kc_fetchedAt : Z; kc_tick : nat }.
Definition NewJWKSVerifier (issuer audience : string) : JWKSVerifier * KeyCache :=
  (mkVerifier (TrimRight1 "/" issuer) audience, mkKeyCache ∅ 0 0).

Definition T (A : Type) : Type := KeyCache -> res A * KeyCache.
#[export] Instance T_ret : MRet T := fun _ a st => (Ok a, st).
#[export] Instance T_bind : MBind T := fun _ _ k m st =>
  match m st with (Ok a, st') => k a st' | (Err e, st') => (Err e, st') end.
Definition pure_ {A} (x : res A) : T A := fun st => (x, st).
Definition wrapping_ {A} (fmt : string) (args : list string) (m : T A) : T A := fun st =>
  match m st with (Ok a, st') => (Ok a, st') | (Err e, st') => (Err (Wrapf fmt args e), st') end.
Definition advance (st : KeyCache) : KeyCache := mkKeyCache (kc_keys st) (kc_fetchedAt st) (S (kc_tick st)).

(** A big-endian number: [big.Int.SetBytes], and an exponent gathered in an
    [int]. *)
Definition SetBytes (s : string) : Z := fold_left (fun n a => n * 256 + byte_Z a) (bytes_of s) 0.
Definition exponent (s : string) : Z := fold_left (fun e a => to_int64 (to_int64 (Z.shiftl e 8) + byte_Z a)) (bytes_of s) 0.

Section tokens.
Context `{Provider}.

(** ** Signatures *)

Definition verifyRSA (alg : string) (key : jwk) (signingInput sig : string) : res unit :=
  _ ← refuse_if (negb (String.eqb (k_Kty key) "RSA")) (Errorf "expected an RSA key, got %s" [k_Kty key]);
  nb ← rawurl "%w" (k_N key);
  eb ← rawurl "%w" (k_E key);
  digest ← (if String.eqb alg "RS256" then Ok ("SHA256", sha256 signingInput)
            else if String.eqb alg "RS384" then Ok ("SHA384", sha384 signingInput)
            else if String.eqb alg "RS512" then Ok ("SHA512", sha512 signingInput)
            else Err (Errorf "unsupported RSA algorithm %q" [alg]));
  match rsa_VerifyPKCS1v15 (SetBytes nb) (exponent eb) digest.1 digest.2 sig with
  | Some e => Err e
  | None => Ok tt
  end.

Definition verifyEC (key : jwk) (signingInput sig : string) : res unit :=
  _ ← refuse_if (negb (String.eqb (k_Kty key) "EC")) (Errorf "expected an EC key, got %s" [k_Kty key]);
  xb ← rawurl "%w" (k_X key);
  yb ← rawurl "%w" (k_Y key);
  curve ← (if String.eqb (k_Crv key) "P-256" then Ok (32, sha256 signingInput)
           else if String.eqb (k_Crv key) "P-384" then Ok (48, sha384 signingInput)
           else Err (Errorf "unsupported curve %q" [k_Crv key]));
  _ ← refuse_if (negb (len sig =? curve.1 * 2)) (Errorf "signature is %d bytes, expected %d" [itoa (len sig); itoa (curve.1 * 2)]);
  let n := Z.to_nat curve.1 in
  refuse_if (negb (ecdsa_Verify (k_Crv key) (SetBytes xb) (SetBytes yb) curve.2 (SetBytes (str_take n sig)) (SetBytes (str_drop n sig))))
    (Errorf "signature does not verify" []).

Definition verifySignature (alg : string) (key : jwk) (signingInput sig : string) : res unit :=
  if HasPrefix alg "RS" then verifyRSA alg key signingInput sig
  else if HasPrefix alg "ES" then verifyEC key signingInput sig
  else Err (Errorf "unsupported algorithm %q" [alg]).

(** ** Fetching the keys *)
Variable v : JWKSVerifier.

Definition time_Now : T Z := fun st => (Ok (time_ns (kc_tick st)), advance st).
Definition get (url : string) : T string := fun st =>
  (resp ← http_get (kc_tick st) url;
   if negb (resp.1 =? 200) then Err (Errorf "status %d" [itoa resp.1]) else Ok (str_take (Z.to_nat (2 ^ 20)) resp.2), advance st).

Definition jwks_uri (body : string) : res string :=
  match (doc ← parse_raw body; m ← as_obj doc; read_str "jwks_uri" m) with
  | Err e => Err (Wrapf "discovery parse: %w" [] e)
  | Ok uri => if String.eqb uri "" then Err (Errorf "discovery: no jwks_uri" []) else Ok uri
  end.
Definition discover : T string :=
  body ← wrapping_ "discovery: %w" [] (get (v_issuer v +:+ "/.well-known/openid-configuration"));
  pure_ (jwks_uri body).

Definition as_list (v : value) : res (list value) := match v with VArr l => Ok l | _ => Err (type_error "keys") end.
Definition decode_keys (body : string) : res (list jwk) :=
  doc ← parse_raw body; m ← as_obj doc; ls ← collect (as_list <$> members "keys" m); collect (decode_jwk <$> default [] (last ls)).
Definition key_set (body : string) : res (gmap string jwk) :=
  match decode_keys body with
  | Err e => Err (Wrapf "key set parse: %w" [] e)
  | Ok ks => if bool_decide (ks = []) then Err (Errorf "key set is empty" [])
             else Ok (fold_left (fun m k => <[k_Kid k := k]> m) ks ∅)
  end.
Definition fetch (uri : string) : T (gmap string jwk) :=
  body ← wrapping_ "key set: %w" [] (get uri);
  pure_ (key_set body).

(** A look into the cache, as it is made before and again after the lock. *)
Definition five_minutes : Z := 5 * 60 * 10 ^ 9.
Definition cached (kid : string) : T (option jwk) := fun st =>
  if bool_decide (kc_keys st = ∅) then (Ok None, st)
  else
    let now := time_ns (kc_tick st) in
    (Ok (if now - kc_fetchedAt st <? five_minutes then kc_keys st !! kid else None), advance st).
Definition remember (keys : gmap string jwk) : T unit := fun st =>
  (Ok tt, mkKeyCache keys (time_ns (kc_tick st)) (S (kc_tick st))).

Definition suits (alg : string) (k : jwk) : bool :=
  String.eqb (k_Alg k) alg || (String.eqb (k_Use k) "sig" && String.eqb (k_Alg k) "").
Definition choose (keys : gmap string jwk) (kid alg : string) : option jwk :=
  match keys !! kid with
  | Some k => Some k
  | None => if String.eqb kid "" then head (List.filter (suits alg) (range_map keys).*2) else None
  end.
Definition refresh (kid alg : string) : T jwk :=
  uri ← discover;
  keys ← fetch uri;
  _ ← remember keys;
  pure_ (of_option (choose keys kid alg) (Errorf "key %q is not in the published key set" [kid])).
Definition signingKey (kid alg : string) : T jwk :=
  hit ← cached kid;
  match hit with
  | Some k => mret k
  | None => hit ← cached kid; match hit with Some k => mret k | None => refresh kid alg end
  end.

(** ** Claims *)

Definition str_claim (k : string) (m : object) : string := match obj_get k m with Some (VStr s) => s | _ => "" end.
Definition strings_of (l : list value) : list string := omap (fun v => match v with VStr s => Some s | _ => None end) l.
Definition rolesClaim (claims : object) : list string :=
  (match obj_get "roles" claims with Some (VArr l) => strings_of l | _ => [] end)
  ++ (match obj_get "realm_access" claims with
      | Some (VObj ra) => match obj_get "roles" ra with Some (VArr l) => strings_of l | _ => [] end
      | _ => []
      end).
Definition audienceMatches (claims : object) (expected : string) : bool :=
  match obj_get "aud" claims with
  | Some (VStr aud) => String.eqb aud expected
  | Some (VArr l) => existsb (String.eqb expected) (strings_of l)
  | _ => false
  end.

Record header := mkHeader { h_Alg : string; h_Kid : string }.
Definition decode_header (raw : string) : res header :=
  doc ← parse_raw raw; m ← as_obj doc; alg ← read_str "alg" m; kid ← read_str "kid" m; Ok (mkHeader alg kid).
Definition decode_claims (raw : string) : res object := doc ← Unmarshal raw; as_obj doc.
Definition wrap_err {A} (fmt : string) (r : res A) : res A := match r with Ok a => Ok a | Err e => Err (Wrapf fmt [] e) end.

(** The checks on claims, at [now] in seconds when a token says when it
    ends; the clock is read only then. *)
Definition token_identity (claims : object) : res VerifiedIdentity :=
  let email := str_claim "email" claims in
  let name := str_claim "name" claims in
  let display := if String.eqb name "" then email else name in
  _ ← refuse_if (String.eqb (str_claim "sub" claims) "") (Errorf "auth: token has no subject" []);
  Ok (mkVerifiedIdentity (mkIdentity (str_claim "sub" claims) display email (rolesClaim claims) []) (v_issuer v) claims).
Definition expires (claims : object) : option float64 := match obj_get "exp" claims with Some (VFloat f) => Some f | _ => None end.
Definition check_claims (claims : object) : T unit :=
  _ ← pure_ (refuse_if (negb (String.eqb (str_claim "iss" claims) (v_issuer v)))
               (Errorf "auth: issuer %q is not %q" [str_claim "iss" claims; v_issuer v]));
  _ ← pure_ (refuse_if (negb (String.eqb (v_audience v) "") && negb (audienceMatches claims (v_audience v)))
               (Errorf "auth: token is not for audience %q" [v_audience v]));
  match expires claims with
  | None => mret tt
  | Some exp => now ← time_Now; pure_ (refuse_if (int64_of_float exp <? now / 10 ^ 9) (Errorf "auth: token expired" []))
  end.

Definition Verify (token : string) : T VerifiedIdentity :=
  match SplitN1 3 token "." with
  | [p0; p1; p2] =>
      headerJSON ← pure_ (rawurl "auth: header decode: %w" p0);
      hdr ← pure_ (wrap_err "auth: header parse: %w" (decode_header headerJSON));
      key ← wrapping_ "auth: key lookup: %w" [] (signingKey (h_Kid hdr) (h_Alg hdr));
      sig ← pure_ (rawurl "auth: signature decode: %w" p2);
      _ ← pure_ (wrap_err "auth: signature: %w" (verifySignature (h_Alg hdr) key (p0 +:+ "." +:+ p1) sig));
      claimsJSON ← pure_ (rawurl "auth: claims decode: %w" p1);
      claims ← pure_ (wrap_err "auth: claims parse: %w" (decode_claims claimsJSON));
      _ ← check_claims claims;
      pure_ (token_identity claims)
  | _ => pure_ (Err (Errorf "auth: malformed token" []))
  end.
End tokens.
