(* ===== verification/TokensCorrect.v ===== *)
(** * Which tokens are accepted

    A token the verifier accepts was signed, over the very bytes the claims
    are read from, by a key its issuer publishes, for this issuer and
    audience, and has not passed the end it names. *)

From S2P Require Import Prelude GoStrings Float64 Encoding Canon Json Rbac Model World Concrete GoJson Tokens.
Local Open Scope Z_scope.

(** ** The parts of a token *)

Lemma token_parts token p0 p1 p2 :
  SplitN1 3 token "." = [p0; p1; p2] ->
  token = p0 +:+ "." +:+ p1 +:+ "." +:+ p2 /\ ("."%char ∉ bytes_of p0) /\ ("."%char ∉ bytes_of p1).
Proof.
  cbn. destruct (IndexByte token ".") as [i|] eqn:Ei; [|done]. apply IndexByte_Some in Ei as [E1 N1].
  destruct (IndexByte (str_drop (S i) token) ".") as [j|] eqn:Ej; [|done]. apply IndexByte_Some in Ej as [E2 N2].
  intros [= <- <- <-]. split; [|done]. rewrite E1 at 1. by rewrite E2 at 1.
Qed.

(** ** Published keys *)
Section published.
Context `{Provider}.
Variable v : JWKSVerifier.

(** The key set the issuer published when requests [i] and [i + 1] were
    answered. *)
Definition fetched (i : nat) (keys : gmap string jwk) : Prop :=
  exists body uri body', http_get i (v_issuer v +:+ "/.well-known/openid-configuration") = Ok (200, body) /\
    jwks_uri (str_take (Z.to_nat (2 ^ 20)) body) = Ok uri /\
    http_get (S i) uri = Ok (200, body') /\ key_set (str_take (Z.to_nat (2 ^ 20)) body') = Ok keys.

(** The cache is empty, or one key set whole with the time it came. *)
Definition cache_ok (st : KeyCache) : Prop :=
  kc_keys st = ∅ \/
  exists i, fetched i (kc_keys st) /\ kc_fetchedAt st = time_ns (S (S i)) /\ (S (S i) < kc_tick st)%nat.

(** A key published now, or no longer ago than the cache keeps keys. *)
Definition current_key (from to_ : nat) (kid alg : string) (k : jwk) : Prop :=
  exists i keys, fetched i keys /\ choose keys kid alg = Some k /\
    ((from <= i < to_)%nat \/ exists j, (from <= j < to_)%nat /\ time_ns j - time_ns (S (S i)) < five_minutes).

Lemma get_inv url st x st' : get url st = (x, st') ->
  st' = advance st /\ forall body, x = Ok body -> exists whole, http_get (kc_tick st) url = Ok (200, whole) /\ body = str_take (Z.to_nat (2 ^ 20)) whole.
Proof.
  unfold get. intros [= <- <-]. split; [done|]. intros body E. destruct (http_get _ _) as [[code whole]|e]; [|done].
  cbn [mbind res_bind fst snd] in E. destruct (Z.eqb_spec code 200) as [->|]; [|done]. cbn [negb] in E. injection E as <-. by exists whole.
Qed.

Lemma refresh_inv kid alg st x st' : cache_ok st -> refresh v kid alg st = (x, st') ->
  cache_ok st' /\ (kc_tick st <= kc_tick st')%nat /\ forall k, x = Ok k -> current_key (kc_tick st) (kc_tick st') kid alg k.
Proof.
  intros C E. assert (forall st0, kc_keys st0 = kc_keys st -> kc_fetchedAt st0 = kc_fetchedAt st -> (kc_tick st <= kc_tick st0)%nat -> cache_ok st0) as Hkeep.
  { intros st0 E1 E2 Hle. unfold cache_ok. rewrite E1, E2. destruct C as [C|(i & F & T & Hi)]; [by left|right]. exists i. do 2 (split; [done|]). lia. }
  unfold refresh, discover, fetch, wrapping_, pure_, mbind, T_bind in E.
  destruct (get (v_issuer v +:+ "/.well-known/openid-configuration") st) as [r1 st1] eqn:E1. apply get_inv in E1 as [-> H1].
  destruct r1 as [body|e]; [|injection E as <- <-; split; [apply Hkeep; [done|done|cbn; lia]|]; split; [cbn; lia|done]].
  destruct (jwks_uri body) as [uri|e] eqn:Eu; [|injection E as <- <-; split; [apply Hkeep; [done|done|cbn; lia]|]; split; [cbn; lia|done]].
  destruct (get uri (advance st)) as [r2 st2] eqn:E2. apply get_inv in E2 as [-> H2].
  destruct r2 as [body'|e]; [|injection E as <- <-; split; [apply Hkeep; [done|done|cbn; lia]|]; split; [cbn; lia|done]].
  destruct (key_set body') as [keys|e] eqn:Ek; [|injection E as <- <-; split; [apply Hkeep; [done|done|cbn; lia]|]; split; [cbn; lia|done]].
  destruct (H1 _ eq_refl) as (w1 & G1 & ->), (H2 _ eq_refl) as (w2 & G2 & ->). cbn in E. injection E as <- <-.
  assert (fetched (kc_tick st) keys) as F by (by exists w1, uri, w2).
  split; [right; exists (kc_tick st); cbn; split; [done|]; split; [done|lia]|]. split; [cbn; lia|].
  intros k Hk. apply of_option_Ok in Hk. exists (kc_tick st), keys. do 2 (split; [done|]). left. cbn. lia.
Qed.

Lemma cached_inv kid st o st' : cache_ok st -> cached kid st = (Ok o, st') ->
  cache_ok st' /\ (kc_tick st <= kc_tick st')%nat /\ forall alg k, o = Some k -> current_key (kc_tick st) (kc_tick st') kid alg k.
Proof.
  intros C. unfold cached. case_bool_decide as He; intros [= <- <-]; [done|].
  destruct C as [C|(i & F & T & Hi)]; [done|]. split; [right; exists i; cbn; split; [done|]; split; [done|lia]|]. split; [cbn; lia|].
  intros alg k Hk. destruct (Z.ltb_spec (time_ns (kc_tick st) - kc_fetchedAt st) five_minutes) as [Hlt|]; [|done].
  exists i, (kc_keys st). split; [done|]. split; [unfold choose; by rewrite Hk|]. right. exists (kc_tick st). cbn. rewrite T in Hlt. split; [lia|done].
Qed.

Lemma current_key_mono a b c d kid alg k : (c <= a)%nat -> (b <= d)%nat -> current_key a b kid alg k -> current_key c d kid alg k.
Proof.
  intros H1 H2 (i & keys & F & Hc & [Hi|(j & Hj & Ht)]); exists i, keys; do 2 (split; [done|]); [left; lia|right]. exists j. split; [lia|done].
Qed.

Lemma signingKey_inv kid alg st x st' : cache_ok st -> signingKey v kid alg st = (x, st') ->
  cache_ok st' /\ (kc_tick st <= kc_tick st')%nat /\ forall k, x = Ok k -> current_key (kc_tick st) (kc_tick st') kid alg k.
Proof.
  intros C E. unfold signingKey, mbind, T_bind in E.
  assert (forall st, exists o st', cached kid st = (Ok o, st')) as Hcached.
  { intros s. unfold cached. case_bool_decide; by eexists _, _. }
  destruct (Hcached st) as (o1 & st1 & E1). rewrite E1 in E. apply (cached_inv _ _ _ _ C) in E1 as (C1 & L1 & K1).
  destruct o1 as [k1|]; [injection E as <- <-; do 2 (split; [done|]); intros k [= <-]; by apply K1|].
  destruct (Hcached st1) as (o2 & st2 & E2). rewrite E2 in E. apply (cached_inv _ _ _ _ C1) in E2 as (C2 & L2 & K2).
  destruct o2 as [k2|].
  - injection E as <- <-. split; [done|]. split; [lia|]. intros k [= <-]. eapply current_key_mono; [..|by apply K2]; lia.
  - apply (refresh_inv _ _ _ _ _ C2) in E as (C3 & L3 & K3). split; [done|]. split; [lia|]. intros k Hk. eapply current_key_mono; [..|by apply K3]; lia.
Qed.
End published.

(** ** The claims of an accepted token *)
Section accepted.
Context `{Provider}.
Variable v : JWKSVerifier.

(** What a signature check amounts to: the key is of the kind the
    algorithm names, and its scheme verifies. *)
Definition signed (alg : string) (key : jwk) (input sig : string) : Prop :=
  (k_Kty key = "RSA" /\ exists n e h digest, rawurl_decode (k_N key) = Some n /\ rawurl_decode (k_E key) = Some e /\
     (alg, h, digest) ∈ [("RS256", "SHA256", sha256 input); ("RS384", "SHA384", sha384 input); ("RS512", "SHA512", sha512 input)] /\
     rsa_VerifyPKCS1v15 (SetBytes n) (exponent e) h digest sig = None) \/
  (HasPrefix alg "ES" = true /\ k_Kty key = "EC" /\ exists x y (size : nat) digest,
     rawurl_decode (k_X key) = Some x /\ rawurl_decode (k_Y key) = Some y /\
     (k_Crv key, size, digest) ∈ [("P-256", 32%nat, sha256 input); ("P-384", 48%nat, sha384 input)] /\
     len sig = 2 * Z.of_nat size /\
     ecdsa_Verify (k_Crv key) (SetBytes x) (SetBytes y) digest (SetBytes (str_take size sig)) (SetBytes (str_drop size sig)) = true).

Lemma rawurl_Ok fmt s x : rawurl fmt s = Ok x <-> rawurl_decode s = Some x.
Proof. apply of_option_Ok. Qed.

Lemma wrap_err_Ok {A} fmt (r : res A) a : wrap_err fmt r = Ok a <-> r = Ok a.
Proof. destruct r; naive_solver. Qed.

Lemma verifyRSA_signed alg key input sig u : verifyRSA alg key input sig = Ok u -> signed alg key input sig.
Proof.
  unfold verifyRSA. intros E. res_inv. rewrite rawurl_Ok in *. bool_hyps.
  left. split; [done|].
  match goal with H : rawurl_decode (k_N key) = Some ?n, H' : rawurl_decode (k_E key) = Some ?e |- _ => exists n, e end.
  destruct (String.eqb_spec alg "RS256") as [->|_]; [|destruct (String.eqb_spec alg "RS384") as [->|_];
    [|destruct (String.eqb_spec alg "RS512") as [->|_]; [|done]]]; res_inv; cbn [fst snd] in *;
    match goal with H : (match rsa_VerifyPKCS1v15 _ _ ?h ?d _ with _ => _ end) = _ |- _ => exists h, d; destruct (rsa_VerifyPKCS1v15 _ _ _ _ _) eqn:?; [done|] end;
    (split; [done|]; split; [done|]; split; [set_solver|done]).
Qed.

Lemma verifyEC_signed alg key input sig u : HasPrefix alg "ES" = true -> verifyEC key input sig = Ok u -> signed alg key input sig.
Proof.
  unfold verifyEC. intros Ha E. res_inv. rewrite rawurl_Ok in *. bool_hyps.
  right. do 2 (split; [done|]).
  match goal with H : rawurl_decode (k_X key) = Some ?n, H' : rawurl_decode (k_Y key) = Some ?e |- _ => exists n, e end.
  destruct (String.eqb_spec (k_Crv key) "P-256") as [Hc|_]; [|destruct (String.eqb_spec (k_Crv key) "P-384") as [Hc|_]; [|done]]; res_inv; cbn [fst snd] in *;
    [exists 32%nat, (sha256 input)|exists 48%nat, (sha384 input)]; rewrite Hc in *;
    (do 2 (split; [done|]); split; [set_solver|]; split; [|done]);
    lia.
Qed.

Lemma verifySignature_signed alg key input sig u : verifySignature alg key input sig = Ok u -> signed alg key input sig.
Proof.
  unfold verifySignature. intros E. destruct (HasPrefix alg "RS"); [by eapply verifyRSA_signed|].
  destruct (HasPrefix alg "ES") eqn:Ha; [by eapply verifyEC_signed|done].
Qed.

(** What is checked of the claims, and when. *)
Definition claims_hold (from to_ : nat) (claims : object) : Prop :=
  str_claim "iss" claims = v_issuer v /\ (v_audience v = "" \/ audienceMatches claims (v_audience v) = true) /\
  (forall exp, expires claims = Some exp -> exists j, (from <= j < to_)%nat /\ time_ns j / 10 ^ 9 <= int64_of_float exp).

Lemma cache_ok_advance st : cache_ok v st -> cache_ok v (advance st).
Proof. intros [C|(i & F & T & Hi)]; [by left|right]. exists i. cbn. do 2 (split; [done|]). lia. Qed.

Lemma check_claims_inv claims st x st' : cache_ok v st -> check_claims v claims st = (x, st') ->
  cache_ok v st' /\ (kc_tick st <= kc_tick st')%nat /\ (x = Ok tt -> claims_hold (kc_tick st) (kc_tick st') claims).
Proof.
  intros C E. unfold check_claims, pure_, mbind, T_bind in E.
  destruct (String.eqb_spec (str_claim "iss" claims) (v_issuer v)) as [Hi|]; cbn in E; [|by injection E as <- <-].
  destruct (negb (String.eqb (v_audience v) "") && negb (audienceMatches claims (v_audience v))) eqn:Ha; cbn in E; [by injection E as <- <-|].
  assert (v_audience v = "" \/ audienceMatches claims (v_audience v) = true) as Haud.
  { apply andb_false_iff in Ha as [Ha|Ha]; apply negb_false_iff in Ha; [left; by apply String.eqb_eq|by right]. }
  unfold claims_hold. destruct (expires claims) as [exp|]; [|injection E as <- <-; split_and!; [done|done|intros _; by split_and!]].
  cbn in E. injection E as <- <-. split; [by apply cache_ok_advance|]. split; [cbn; lia|]. intros Hx. do 2 (split; [done|]). intros exp' [= <-].
  exists (kc_tick st). cbn. split; [lia|]. apply refuse_if_Ok in Hx. by apply Z.ltb_ge.
Qed.

Lemma token_identity_Ok claims id : token_identity v claims = Ok id ->
  vi_Issuer id = v_issuer v /\ vi_Claims id = claims /\ id_Sub (vi_Identity id) = str_claim "sub" claims /\ id_Sub (vi_Identity id) <> "" /\
  id_Email (vi_Identity id) = str_claim "email" claims /\ id_Roles (vi_Identity id) = rolesClaim claims /\ id_Granted (vi_Identity id) = [].
Proof.
  unfold token_identity. intros E. apply bind_Ok_inv in E as (u & E1 & E). apply refuse_if_Ok, String.eqb_neq in E1. by injection E as <-.
Qed.
(** A key asked for by name is the one published under that name. *)
Lemma key_set_named body keys : key_set body = Ok keys -> forall kid k, keys !! kid = Some k -> k_Kid k = kid.
Proof.
  unfold key_set. destruct (decode_keys body) as [ks|]; [|done]. case_bool_decide; [done|]. intros [= <-].
  enough (forall ks (m : gmap string jwk), (forall kid k, m !! kid = Some k -> k_Kid k = kid) ->
    forall kid k, fold_left (fun m k => <[k_Kid k := k]> m) ks m !! kid = Some k -> k_Kid k = kid) as X.
  { apply X. intros kid k. by rewrite lookup_empty. }
  clear. induction ks as [|y ks IH]; intros m Hm; [done|]. cbn. apply IH. intros kid k.
  rewrite lookup_insert_Some. intros [[<- <-]|[_ ?]]; [done|by apply Hm].
Qed.
Lemma current_key_named from to_ kid alg k : kid <> "" -> current_key v from to_ kid alg k -> k_Kid k = kid.
Proof.
  intros Hk (i & keys & (? & ? & ? & _ & _ & _ & Hs) & Hc & _). unfold choose in Hc. destruct (keys !! kid) as [k0|] eqn:E.
  - injection Hc as ->. by eapply key_set_named.
  - by destruct (String.eqb_spec kid "").
Qed.

Lemma T_bind_inv {A B} (m : T A) (k : A -> T B) st x st' : (m ≫= k) st = (x, st') ->
  (exists e, m st = (Err e, st') /\ x = Err e) \/ (exists a st1, m st = (Ok a, st1) /\ k a st1 = (x, st')).
Proof. unfold mbind, T_bind. destruct (m st) as [[a|e] st1]; intros E; [right; by exists a, st1|left]. injection E as <- <-. by exists e. Qed.
End accepted.

(** C10. A token is accepted only on the word of its issuer. Whatever the
    token and the answers of the network, the cache of keys stays one key
    set the issuer published. If an identity comes back, the token is three
    parts without a dot in the first two; its signature verifies, under the
    RSA or elliptic curve scheme its header names and over exactly the
    first two parts, with a key of that kind that the issuer published
    within the last five minutes, under the name asked for when one is
    named; its claims name this issuer, this audience when one is
    configured, a subject, and no end that had passed; and the identity
    holds what the signed claims say, with no role of the register's own. *)
Theorem token_accepted `{Provider} (v : JWKSVerifier) (token : string) (st st' : KeyCache) (x : res VerifiedIdentity) :
  cache_ok v st -> Verify v token st = (x, st') ->
  cache_ok v st' /\
  forall id, x = Ok id -> exists p0 p1 p2 hraw hdr key sig craw claims,
    token = p0 +:+ "." +:+ p1 +:+ "." +:+ p2 /\ ("."%char ∉ bytes_of p0) /\ ("."%char ∉ bytes_of p1) /\
    rawurl_decode p0 = Some hraw /\ decode_header hraw = Ok hdr /\
    current_key v (kc_tick st) (kc_tick st') (h_Kid hdr) (h_Alg hdr) key /\ (h_Kid hdr <> "" -> k_Kid key = h_Kid hdr) /\
    rawurl_decode p2 = Some sig /\ signed (h_Alg hdr) key (p0 +:+ "." +:+ p1) sig /\
    rawurl_decode p1 = Some craw /\ decode_claims craw = Ok claims /\ claims_hold v (kc_tick st) (kc_tick st') claims /\
    vi_Issuer id = v_issuer v /\ vi_Claims id = claims /\ id_Sub (vi_Identity id) = str_claim "sub" claims /\ id_Sub (vi_Identity id) <> "" /\
    id_Email (vi_Identity id) = str_claim "email" claims /\ id_Roles (vi_Identity id) = rolesClaim claims /\ id_Granted (vi_Identity id) = [].
Proof.
  intros C E. unfold Verify in E. destruct (SplitN1 3 token ".") as [|p0 [|p1 [|p2 [|]]]] eqn:Ep; try (by injection E as <- <-).
  apply token_parts in Ep as (Ht & Hd0 & Hd1).
  apply T_bind_inv in E as [(e & [= _ <-] & ->)|(hraw & st1 & [= Hh <-] & E)]; [done|].
  apply T_bind_inv in E as [(e & [= _ <-] & ->)|(hdr & st1 & [= Hp <-] & E)]; [done|].
  assert (forall y st1, wrapping_ "auth: key lookup: %w" [] (signingKey v (h_Kid hdr) (h_Alg hdr)) st = (y, st1) ->
    cache_ok v st1 /\ (kc_tick st <= kc_tick st1)%nat /\ forall k, y = Ok k -> current_key v (kc_tick st) (kc_tick st1) (h_Kid hdr) (h_Alg hdr) k) as Hkey.
  { intros y st1. unfold wrapping_. destruct (signingKey _ _ _ st) as [y0 st0] eqn:E0. apply (signingKey_inv _ _ _ _ _ _ C) in E0 as (C0 & L0 & K0).
    destruct y0; intros [= <- <-]; (split; [done|]; split; [done|]); [done|by intros]. }
  apply T_bind_inv in E as [(e & E0 & ->)|(key & st1 & E0 & E)]; destruct (Hkey _ _ E0) as (C1 & L1 & K1); [done|]. specialize (K1 _ eq_refl).
  apply T_bind_inv in E as [(e & [= _ <-] & ->)|(sig & st2 & [= Hs <-] & E)]; [done|].
  apply T_bind_inv in E as [(e & [= _ <-] & ->)|(u & st2 & [= Hv <-] & E)]; [done|].
  apply T_bind_inv in E as [(e & [= _ <-] & ->)|(craw & st2 & [= Hc <-] & E)]; [done|].
  apply T_bind_inv in E as [(e & [= _ <-] & ->)|(claims & st2 & [= Hcl <-] & E)]; [done|].
  apply T_bind_inv in E as [(e & E0' & ->)|([] & st2 & E0' & E)]; destruct (check_claims_inv v _ _ _ _ C1 E0') as (C2 & L2 & K2); [done|].
  specialize (K2 eq_refl). injection E as <- <-. split; [done|]. intros id Hid. exists p0, p1, p2, hraw, hdr, key, sig, craw, claims.
  rewrite rawurl_Ok in Hh, Hs, Hc. rewrite wrap_err_Ok in Hp. rewrite wrap_err_Ok in Hv. rewrite wrap_err_Ok in Hcl. apply verifySignature_signed in Hv.
  assert (current_key v (kc_tick st) (kc_tick st2) (h_Kid hdr) (h_Alg hdr) key) as K3 by (eapply current_key_mono; [..|exact K1]; lia).
  do 7 (split; [done || (intros; by eapply current_key_named)|]). do 4 (split; [done|]). split; [|by apply token_identity_Ok].
  destruct K2 as (I & A & X). split; [done|]. split; [done|]. intros exp Hx. destruct (X exp Hx) as (j & Hj & ?). exists j. split; [lia|done].
Qed.

(** ** A provider and its tokens *)
Section token_witness.
#[local] Existing Instance plain_crypto.

Definition demo_jwk : string :=
  MarshalStrings [("kty", "RSA"); ("kid", "k1"); ("alg", "RS256"); ("use", "sig"); ("n", base64_rawurl "modulus"); ("e", base64_rawurl "e")].
Definition demo_answer (url : string) : res (Z * string) :=
  if HasSuffix url "/.well-known/openid-configuration" then Ok (200, MarshalStrings [("jwks_uri", "https://id.example/keys")])
  else Ok (200, "{" +:+ goString "keys" +:+ ":[" +:+ demo_jwk +:+ "]}").
(** A scheme in which the digest is the signature. *)
#[program] Definition demo_provider : Provider := {|
  time_ns n := (1700000000 + Z.of_nat n) * 10 ^ 9;
  http_get _ url := demo_answer url;
  sha384 s := s;
  sha512 s := s;
  rsa_VerifyPKCS1v15 _ _ _ digest sig := if String.eqb sig digest then None else Some (Errorf "crypto/rsa: verification error" []);
  ecdsa_Verify _ _ _ _ _ _ := false;
  range_map m := map_to_list m;
|}.
Next Obligation. done. Qed.
#[local] Existing Instance demo_provider.

Definition demo_token (alg : string) (claims : string) : string :=
  let input := base64_rawurl (MarshalStrings [("alg", alg); ("kid", "k1")]) +:+ "." +:+ base64_rawurl claims in
  input +:+ "." +:+ base64_rawurl (sha256 input).
Definition demo_claims (iss : string) (exp : string) : string :=
  "{" +:+ goString "iss" +:+ ":" +:+ goString iss +:+ "," +:+ goString "sub" +:+ ":" +:+ goString "ann" +:+ "," +:+ goString "aud" +:+ ":["
  +:+ goString "register" +:+ "]" +:+ exp +:+ "}".
Definition until (seconds : string) : string := "," +:+ goString "exp" +:+ ":" +:+ seconds.
Definition demo_verifier : JWKSVerifier * KeyCache := NewJWKSVerifier "https://id.example/" "register".
Definition verified (token : string) : res VerifiedIdentity := fst (Verify demo_verifier.1 token demo_verifier.2).
Definition good_token : string := demo_token "RS256" (demo_claims "https://id.example" (until "1700000900")).

Lemma token_accepted_witness : exists id st', Verify demo_verifier.1 good_token demo_verifier.2 = (Ok id, st') /\
  cache_ok demo_verifier.1 st' /\ id_Sub (vi_Identity id) <> "" /\ vi_Issuer id = "https://id.example".
Proof.
  destruct (Verify demo_verifier.1 good_token demo_verifier.2) as [x st'] eqn:E.
  assert (is_ok (fst (Verify demo_verifier.1 good_token demo_verifier.2)) = true) as Hok by (vm_compute; reflexivity).
  rewrite E in Hok. cbn [fst] in Hok. destruct x as [id|]; [|discriminate Hok]. exists id, st'. split; [reflexivity|].
  destruct (@token_accepted _ demo_provider demo_verifier.1 good_token demo_verifier.2 st' (Ok id) (or_introl eq_refl) E) as [C Hid]. split; [exact C|].
  destruct (Hid id eq_refl) as (p0 & p1 & p2 & hraw & hdr & key & sig & craw & claims & _ & _ & _ & _ & _ & _ & _ & _ & _ & _ & _ & _ & I & _ & _ & S & _).
  split; [exact S|exact I].
Defined.

(** The end a token names is checked; a token that names none never
    ends. *)
Example expired_refused :
  is_ok (verified (demo_token "RS256" (demo_claims "https://id.example" (until "1699999999")))) = false /\
  is_ok (verified (demo_token "RS256" (demo_claims "https://id.example" ""))) = true.
Proof. split; vm_compute; reflexivity. Qed.

(** An issuer configured with a final slash is kept without it, so a token
    that names its issuer with the slash is refused. *)
Example issuer_with_a_slash : is_ok (verified (demo_token "RS256" (demo_claims "https://id.example/" (until "1700000900")))) = false.
Proof. vm_compute. reflexivity. Qed.

Example symmetric_refused : is_ok (verified (demo_token "HS256" (demo_claims "https://id.example" (until "1700000900")))) = false.
Proof. vm_compute. reflexivity. Qed.

(** Role names carry colons, so only the first two separate fields. *)
Example dev_roles :
  match DevVerify "dev:ann:Ann:register:registrar,admin" with Ok id => id_Roles (vi_Identity id) | Err _ => [] end = ["register:registrar"; "admin"].
Proof. vm_compute. reflexivity. Qed.
End token_witness.
