(* ===== verification/Bootstrap.v ===== *)
(** * Bringing the store in line with the pack ([internal/register/bootstrap.go])

    At every start the query projections, schema versions, retention
    policies and seed records of the pack are reconciled with what the
    store holds. Schemas, policies and the seed land as transactions; the
    projections are tables of the catalogue. *)

From S2P Require Import Prelude GoStrings Float64 Encoding Canon Json SqlText Sql Rbac JsonSchema Pack Model World Commit Byok Records Workflow.
Local Open Scope Z_scope.

(** ** Query projections *)

Definition columnType (jsonType : string) : string :=
  if String.eqb jsonType "integer" then "BIGINT"
  else if String.eqb jsonType "number" then "DOUBLE"
  else if String.eqb jsonType "boolean" then "BOOLEAN"
  else "VARCHAR(191)".

Definition ddl_column (p : Projection) : string := "," +:+ nl +:+ "  " +:+ Ident (pj_Column p) +:+ " " +:+ columnType (pj_Type p) +:+ " NOT NULL".
Definition ddl_index (class : Class_) (p : Projection) : list string :=
  let on := " INDEX " +:+ Ident (QueryTable class +:+ "_" +:+ pj_Column p) +:+ " ON " +:+ Ident (QueryTable class) +:+ " (" +:+ Ident (pj_Column p) +:+ ")" in
  if pj_Unique p then ["CREATE UNIQUE" +:+ on] else if pj_Indexed p then ["CREATE" +:+ on] else [].
Definition projectionDDL (class : Class_) : string * list string :=
  let ps := Projections (Compiled class) in
  ("CREATE TABLE " +:+ Ident (QueryTable class) +:+ " (" +:+ nl
   +:+ "  object_id VARCHAR(96) PRIMARY KEY," +:+ nl
   +:+ "  tenant VARCHAR(64) NOT NULL," +:+ nl
   +:+ "  status VARCHAR(32) NOT NULL," +:+ nl
   +:+ "  updated_at BIGINT NOT NULL" +:+ Join (ddl_column <$> ps) "" +:+ nl +:+ ")",
   ("CREATE INDEX " +:+ Ident (QueryTable class +:+ "_scope") +:+ " ON " +:+ Ident (QueryTable class) +:+ " (tenant, status)")
     :: concat (ddl_index class <$> ps)).

Section bootstrap.
Context `{Runtime} `{GoFormats}.
Variable r : Register.

Definition fingerprint (parts : list string) : string := hex_encode (sha256 (Join parts nl)).
Definition fingerprintOf (class : Class_) : string :=
  let d := projectionDDL class in fingerprint (d.1 :: d.2).

Definition registryValue (key : string) : M string :=
  row ← select_one "registry" [is_ "k" (VStr key)];
  mret (match row with Some row => Bytes row "v" | None => "" end).

(** One object of a class, into the class's new query table. *)
Definition repopulate_one (class : Class_) (obj : Row) : M unit :=
  row ← query_one (SSelect "record_versions" [is_ "object_id" (VStr (Str obj "id")); is_ "version" (VInt (Uint obj "head_version"))] None None);
  match row with
  | None => mret tt
  | Some row =>
      if Bool row "pruned" then mret tt
      else
        stored ← wrapping "register: rebuild projection for %s: %w" [Str obj "id"] (lift (decode_stored (Bytes row "payload")));
        applyOne "" (projectionOps class (Str obj "tenant") (Str obj "id") (Str obj "status") (Int obj "updated_at") (sp_Clear stored))
  end.
Definition repopulateProjection (class : Class_) : M unit :=
  objects ← query (SSelect "objects" [is_ "class" (VStr (c_Name class))] None None);
  each (repopulate_one class) objects.

(** A [CREATE INDEX]: it changes no row, and outside a transaction it is a
    commit of its own. *)
Definition exec_index (text : string) : M unit := fun w =>
  match run_stmt (visible w) (SQuery text) with
  | Err e => (Err e, w)
  | Ok _ => (Ok tt, match txn w with Some _ => w | None => publish (committed w) w end)
  end.
Definition rebuild_projection (present : bool) (class : Class_) : M unit :=
  _ ← (if present then wrapping "register: replace projection for %s: %w" [c_Name class] (exec (SDropTable (QueryTable class))) else mret tt);
  _ ← wrapping "register: projection for %s: %w" [c_Name class] (exec (SCreateTable (QueryTable class)));
  _ ← each (fun idx => wrapping "register: projection index for %s: %w" [c_Name class] (exec_index idx)) (projectionDDL class).2;
  repopulateProjection class.
Definition ensure_projection (tables : gset string) (class : Class_) : M unit :=
  have ← registryValue ("projection:" +:+ c_Name class);
  let present := bool_decide (QueryTable class ∈ tables) in
  if present && String.eqb have (fingerprintOf class) then mret tt else rebuild_projection present class.
(** [Tx.Tables] is read once for all classes. *)
Definition ensureProjections : M unit :=
  Do (tables ← gets (fun w => dom (visible w)); each (ensure_projection tables) (pk_Classes (pk r))).

(** ** Schemas *)

(** [canon.Marshal(json.RawMessage(class.Schema))]. *)
Definition schema_doc (class : Class_) : res string := v ← parse_raw (c_SchemaDoc class); Marshal v.
Definition current_schema (class : Class_) : M (option Row) :=
  query_one (SSelect "schemas" [is_ "class" (VStr (c_Name class)); is_ "active" (VBool true)] (Some (mkOrder "version" true)) (Some 1%nat)).

Definition schema_op (class : Class_) (id doc : string) (version at_ : Z) : WriteOp :=
  upsert "schemas" [("id", VStr id)]
    [("class", VStr (c_Name class)); ("version", VInt version); ("active", VBool true); ("doc", VBinary doc);
     ("created_at", VInt at_); ("txid", VStr TxIDPlaceholder)].
Definition fingerprint_op (class : Class_) (at_ : Z) : WriteOp :=
  upsert "registry" [("k", VStr ("projection:" +:+ c_Name class))] [("v", VBinary (fingerprintOf class)); ("updated_at", VInt at_)].
Definition deactivate_op (row : Row) : WriteOp := upsert "schemas" [("id", VStr (Str row "id"))] [("active", VBool false)].
Definition next_version (current : option Row) : Z := match current with None => 1 | Some row => to_uint64 (Uint row "version" + 1) end.
Definition schema_id (class : Class_) (version : Z) : string := c_Name class +:+ "@" +:+ itoa version.
Definition schema_ops (class : Class_) (doc : string) (current : option Row) (at_ : Z) : list WriteOp :=
  [schema_op class (schema_id class (next_version current)) doc (next_version current) at_; fingerprint_op class at_]
  ++ match current with Some row => [deactivate_op row] | None => [] end.
Definition schema_env (class : Class_) (current : option Row) (at_ : Z) : Envelope :=
  let id := schema_id class (next_version current) in
  mkEnvelope KindSchemaRegister (opt_Tenant (opts r)) (c_Name class) id [] (systemAuthor (opts r) ("pack " +:+ pk_Name (pk r))) at_
    ("Register schema " +:+ id +:+ nl +:+ nl +:+ "Pack " +:+ pk_Name (pk r) +:+ " " +:+ pk_Version (pk r) +:+ "." +:+ nl
     +:+ "Query projection fingerprint " +:+ str_take 16 (fingerprintOf class) +:+ ".")
    (match current with Some row => [mkRef RefSupersedes (Str row "id")] | None => [] end).
Definition unchanged (current : option Row) (doc : string) : bool :=
  match current with Some row => String.eqb (Bytes row "doc") doc | None => false end.
Definition registerSchema (class : Class_) : M unit :=
  Do (doc ← lift (schema_doc class);
      current ← current_schema class;
      if unchanged current doc then mret tt
      else
        at_ ← now;
        _ ← commit (schema_env class current at_) (schema_ops class doc current at_);
        mret tt).
Definition registerSchemas : M unit := each registerSchema (pk_Classes (pk r)).

(** ** Retention policies *)

(** [canon.Marshal(policy)]. *)
Definition policy_doc (policy : RetentionPolicy) : res string :=
  Marshal (VObj ([("id", VStr (r_ID policy)); ("title", VStr (r_Title policy)); ("class", VStr (r_Class policy));
                  ("window_days", VInt (r_WindowDays policy)); ("scope", VStr (r_Scope policy))]
                 ++ (if r_Erasure policy then [("erasure", VBool true)] else []))).
Definition policy_op (policy : RetentionPolicy) (doc : string) (version at_ : Z) : WriteOp :=
  upsert "policies" [("id", VStr (r_ID policy))]
    [("kind", VStr "retention"); ("tenant", VStr (opt_Tenant (opts r))); ("class", VStr (r_Class policy)); ("version", VInt version);
     ("active", VBool true); ("doc", VBinary doc); ("created_at", VInt at_); ("txid", VStr TxIDPlaceholder)].
Definition policy_env (policy : RetentionPolicy) (version at_ : Z) : Envelope :=
  mkEnvelope KindPolicySet (opt_Tenant (opts r)) (r_Class policy) "" [] (systemAuthor (opts r) ("pack " +:+ pk_Name (pk r))) at_
    ("Set retention policy " +:+ r_ID policy +:+ " v" +:+ itoa version +:+ nl +:+ nl
     +:+ r_Title policy +:+ ": keep " +:+ r_Scope policy +:+ " versions of " +:+ r_Class policy +:+ " for " +:+ itoa (r_WindowDays policy) +:+ " days.") [].
Definition registerPolicy (policy : RetentionPolicy) : M unit :=
  Do (doc ← lift (policy_doc policy);
      current ← select_one "policies" [is_ "id" (VStr (r_ID policy))];
      if unchanged current doc then mret tt
      else
        let version := next_version current in
        at_ ← now;
        _ ← commit (policy_env policy version at_) [policy_op policy doc version at_];
        mret tt).
Definition registerPolicies : M unit := each registerPolicy (pk_Retention (pk r)).

(** ** Seed *)

Definition resolve_value (refs : gmap string string) (v : value) : value :=
  match v with
  | VStr s => if HasPrefix s "@" then match refs !! TrimPrefix s "@" with Some id => VStr id | None => v end else v
  | _ => v
  end.
Definition resolveRefs (payload : object) (refs : gmap string string) : object := (fun kv => (kv.1, resolve_value refs kv.2)) <$> payload.

Definition seed_objects : list SeedObject := match pk_Seed (pk r) with Some s => s.2 | None => [] end.
Definition seed_marker : string := "seed:" +:+ pk_Name (pk r) +:+ ":" +:+ pk_Version (pk r).
Definition seed_env (class : Class_) (objectID message : string) (at_ : Z) : Envelope :=
  mkEnvelope KindRecordCreate (opt_Tenant (opts r)) (c_Name class) "" [objectID] (systemAuthor (opts r) "pack seed") at_ (clip message MaxSummary) [].
Definition seed_one (refs : gmap string string) (i : Z) (seed : SeedObject) : M (gmap string string) :=
  class ← lift (of_option (Class (pk r) (so_Class seed)) (Errorf "panic: nil class" []));
  at_ ← now;
  let message := if String.eqb (so_Message seed) "" then "Seed " +:+ so_Class seed +:+ " record " +:+ itoa (i + 1) else so_Message seed in
  made ← wrapping "register: seed object %d: %w" [itoa i]
           (createOps r (newWriteCtx (opt_Tenant (opts r)) at_) class (resolveRefs (so_Payload seed) refs) (so_Status seed));
  _ ← wrapping "register: seed object %d: %w" [itoa i] (commit (seed_env class made.1.1 message at_) made.1.2);
  mret (if String.eqb (so_Ref seed) "" then refs else <[so_Ref seed := made.1.1]> refs).
Fixpoint seed_from (i : Z) (seeds : list SeedObject) (refs : gmap string string) : M (gmap string string) :=
  match seeds with [] => mret refs | seed :: seeds => refs ← seed_one refs i seed; seed_from (i + 1) seeds refs end.
Definition marker_env (at_ : Z) : Envelope :=
  mkEnvelope KindPackSeed (opt_Tenant (opts r)) "" "" [] (systemAuthor (opts r) ("pack " +:+ pk_Name (pk r))) at_
    (composeMessage (clip ("Seed pack " +:+ pk_Name (pk r) +:+ " " +:+ pk_Version (pk r)) MaxSummary)
       (itoa (Z.of_nat (length seed_objects)) +:+ " demonstration records written once, on a register that held none.")) [].
Definition marker_op (value : string) (at_ : Z) : WriteOp :=
  upsert "registry" [("k", VStr seed_marker)] [("v", VBinary value); ("updated_at", VInt at_)].
Definition seed_tx : M unit :=
  done_ ← registryValue seed_marker;
  if negb (String.eqb done_ "") then mret tt
  else
    _ ← seed_from 0 seed_objects ∅;
    at_ ← now;
    stamp ← now;
    _ ← commit (marker_env at_) [marker_op (format_rfc3339 stamp) at_];
    mret tt.
Definition applySeed : M unit := match seed_objects with [] => mret tt | _ => Do seed_tx end.

Definition reconcilePack : M unit :=
  _ ← ensureProjections; _ ← registerSchemas; _ ← registerPolicies; applySeed.
End bootstrap.
