(* ===== verification/BootstrapCorrect.v ===== *)
(** * Reconciling with the pack

    A schema that changed becomes the version in force, once; those before
    it keep what they said. *)

From S2P Require Import Prelude GoStrings Float64 Encoding Canon Json Decimal SqlText Sql Rbac JsonSchema Pack Model World Concrete Commit Replay Byok GoJson Records RecordsCorrect Landing Workflow WorkflowCorrect Identities Retention RetentionCorrect QueriesCorrect AdminCorrect Bootstrap.
Local Open Scope Z_scope.

(** ** The newest row of a selection *)
Section newest.
#[local] Existing Instance order_le_total.
Context `{Runtime}.

Definition versioned (row : Row) (v : Z) : Prop := cell row "version" = SInt v.

Lemma newest_first a b v1 v2 : versioned a v1 -> versioned b v2 -> order_le (mkOrder "version" true) a b -> v2 <= v1.
Proof.
  unfold versioned, order_le. cbn [o_col o_desc]. intros -> ->. cbn. destruct (Z.compare_spec v1 v2); intros Hx; try lia; naive_solver.
Qed.

Lemma newest_head x l :
  Sorted (order_le (mkOrder "version" true)) (x :: l) -> Forall (fun row => exists v, versioned row v) (x :: l) ->
  forall y vx vy, y ∈ x :: l -> versioned x vx -> versioned y vy -> vy <= vx.
Proof.
  intros Hs Hf y vx vy Hy Hx Hvy. apply elem_of_cons in Hy as [->|Hy]; [unfold versioned in *; rewrite Hx in Hvy; injection Hvy; lia|].
  revert x vx Hs Hf Hx. induction l as [|z l IH]; intros x vx Hs Hf Hx; [by apply elem_of_nil in Hy|].
  apply Sorted_inv in Hs as [Hs Hxz]. apply HdRel_inv in Hxz. apply Forall_cons in Hf as [_ Hf]. pose proof Hf as Hf'. apply Forall_cons in Hf' as [(vz & Hz) _].
  pose proof (newest_first _ _ _ _ Hx Hz Hxz). apply elem_of_cons in Hy as [->|Hy].
  - unfold versioned in *. rewrite Hz in Hvy. injection Hvy. lia.
  - specialize (IH Hy z vz Hs Hf Hz). lia.
Qed.

Definition newest (c : where_) (m : table) : option Row := head (select_rows c (Some (mkOrder "version" true)) (Some 1%nat) m).

(** What the newest row is of, and when it is the row given. *)
Lemma newest_list c m : exists s, newest c m = head s /\ Sorted (order_le (mkOrder "version" true)) s /\
  forall row, row ∈ s <-> matches c row = true /\ row ∈ rows m.
Proof.
  unfold newest, select_rows. set (f := filter _ _). exists (merge_sort (order_le (mkOrder "version" true)) f). split_and!.
  - by destruct (merge_sort _ f).
  - apply (Sorted_merge_sort (order_le (mkOrder "version" true))).
  - intros row. unfold f. by rewrite merge_sort_Permutation, list_elem_of_filter, sql_scan_perm.
Qed.

Lemma newest_None c m : newest c m = None -> forall row, row ∈ rows m -> matches c row = false.
Proof.
  destruct (newest_list c m) as (s & -> & _ & Hs). intros Hh row Hrow. destruct s; [|done]. destruct (matches c row) eqn:E; [|done].
  destruct (not_elem_of_nil row). by apply Hs.
Qed.

Lemma newest_Some c m row v :
  (forall row, row ∈ rows m -> matches c row = true -> exists v, versioned row v) -> newest c m = Some row -> versioned row v ->
  row ∈ rows m /\ matches c row = true /\ forall y vy, y ∈ rows m -> matches c y = true -> versioned y vy -> vy <= v.
Proof.
  intros Hv. destruct (newest_list c m) as (s & -> & Hsort & Hs). destruct s as [|x s]; [done|]. intros [= ->] Hrow.
  assert (row ∈ row :: s) as Hin by apply list_elem_of_here. apply Hs in Hin as [Hm Hin]. split; [done|]. split; [done|].
  intros y vy Hy Hmy Hvy. eapply (newest_head row s); [done| |by apply Hs|done|done].
  apply Forall_forall. intros z Hz. apply Hs in Hz as [? ?]. by apply Hv.
Qed.

Lemma newest_is c m row v :
  (forall row, row ∈ rows m -> matches c row = true -> exists v, versioned row v) ->
  row ∈ rows m -> matches c row = true -> versioned row v ->
  (forall y vy, y ∈ rows m -> matches c y = true -> versioned y vy -> y = row \/ vy < v) -> newest c m = Some row.
Proof.
  intros Hv Hin Hm Hrow Hless. destruct (newest c m) as [x|] eqn:E; [|by rewrite (newest_None _ _ E row Hin) in Hm].
  destruct (newest_list c m) as (s & E' & _ & Hs). rewrite E in E'. destruct s as [|x' s]; [done|]. injection E' as ->.
  assert (x' ∈ x' :: s) as Hx by apply list_elem_of_here. apply Hs in Hx as [Hmx Hx]. destruct (Hv x' Hx Hmx) as [vx Hvx].
  destruct (newest_Some _ _ _ _ Hv E Hvx) as (_ & _ & Hle). specialize (Hle row v Hin Hm Hrow).
  destruct (Hless x' vx Hx Hmx Hvx) as [->|?]; [done|lia].
Qed.
End newest.

(** ** Registering a schema *)
Section schemas.
Context `{Runtime} `{GoFormats}.

(** The rows of a class are filed under its name and their version, as
    [registerSchema] files them. *)
Definition schemas_filed (class : Class_) (m : table) : Prop :=
  forall k row, m !! k = Some row -> Str row "class" = c_Name class -> Str row "id" = schema_id class (Uint row "version").

Definition in_force (class : Class_) : where_ := [is_ "class" (VStr (c_Name class)); is_ "active" (VBool true)].

Lemma in_force_class class row s : cell row "class" = SStr s -> matches (in_force class) row = true -> s = c_Name class /\ Str row "class" = c_Name class.
Proof.
  intros Hc. unfold matches, in_force. cbn [forallb]. rewrite (cond_text _ _ _ _ Hc), andb_true_iff, bool_decide_eq_true. intros [-> _].
  split; [done|]. unfold Str. by rewrite Hc.
Qed.

Lemma schema_id_inj class v1 v2 : schema_id class v1 = schema_id class v2 -> v1 = v2.
Proof.
  unfold schema_id. intros E. apply (f_equal bytes_of) in E. rewrite !bytes_of_app in E. do 2 apply app_inv_head in E.
  apply (f_equal of_bytes) in E. rewrite !of_bytes_of in E. by apply itoa_inj.
Qed.
Lemma schema_id_plain class v : schema_id class v <> TxIDPlaceholder.
Proof.
  intros E. apply (f_equal bytes_of) in E. unfold schema_id in E. rewrite !bytes_of_app in E.
  assert ("@"%char ∈ bytes_of TxIDPlaceholder) as Hin. { rewrite <- E, !elem_of_app. right. left. apply list_elem_of_here. }
  revert Hin. apply (bool_decide_unpack (not ("@"%char ∈ bytes_of TxIDPlaceholder))). vm_compute. exact I.
Qed.

Lemma schema_key class doc v at_ txid : op_key txid (schema_op class (schema_id class v) doc v at_) = [SStr (schema_id class v)].
Proof. unfold op_key. cbn. by destruct (String.eqb_spec (schema_id class v) TxIDPlaceholder) as [E|_]; [destruct (schema_id_plain class v E)|]. Qed.
Lemma deactivate_key txid row v class : Str row "id" = schema_id class v -> op_key txid (deactivate_op row) = [SStr (schema_id class v)].
Proof. unfold op_key. cbn. intros ->. by destruct (String.eqb_spec (schema_id class v) TxIDPlaceholder) as [E|_]; [destruct (schema_id_plain class v E)|]. Qed.

(** What the entries of a registration do to one row of [schemas]. *)
Lemma schemas_effects class doc current at_ txid k o :
  (forall row, current = Some row -> Str row "id" = schema_id class (Uint row "version") /\ Uint row "version" <> next_version current) ->
  row_effects txid (schema_ops class doc current at_) "schemas" k o =
    if base.decide (k = [SStr (schema_id class (next_version current))]) then row_effect txid (schema_op class (schema_id class (next_version current)) doc (next_version current) at_) o
    else match current with
         | Some row => if base.decide (k = [SStr (schema_id class (Uint row "version"))]) then row_effect txid (deactivate_op row) o else o
         | None => o
         end.
Proof.
  intros Hc. set (v := next_version current). unfold schema_ops. rewrite row_effects_app. fold v.
  assert (forall o, row_effects txid [schema_op class (schema_id class v) doc v at_; fingerprint_op class at_] "schemas" k o =
    if base.decide (k = [SStr (schema_id class v)]) then row_effect txid (schema_op class (schema_id class v) doc v at_) o else o) as ->.
  { intros o'. unfold row_effects. cbn [fold_left]. rewrite schema_key. destruct (base.decide (k = _)) as [->|Hn].
    - rewrite decide_False by (intros [X _]; discriminate X). by rewrite decide_True.
    - rewrite decide_False by (intros [X _]; discriminate X). by rewrite decide_False by (intros [_ X]; congruence). }
  destruct current as [row|]; [|by destruct (base.decide _)]. destruct (Hc row eq_refl) as [Hid Hne]. fold v in Hne. unfold row_effects at 1. cbn [fold_left].
  rewrite (deactivate_key _ _ _ _ Hid). destruct (base.decide (k = [SStr (schema_id class v)])) as [->|Hn].
  - rewrite decide_False; [done|]. intros [_ [= X]]. by apply schema_id_inj in X.
  - destruct (base.decide (k = [SStr (schema_id class (Uint row "version"))])) as [->|Hn2]; [by rewrite decide_True|].
    rewrite decide_False; [done|]. intros [_ X]. congruence.
Qed.

Lemma schema_effect class doc v at_ txid o row :
  c_Name class <> TxIDPlaceholder -> convertible txid (schema_op class (schema_id class v) doc v at_) ->
  row_effect txid (schema_op class (schema_id class v) doc v at_) o = Some row ->
  cell row "class" = SStr (c_Name class) /\ cell row "active" = SInt 1 /\ versioned row v /\ Bytes row "doc" = doc.
Proof.
  intros Hn Hc He. unfold versioned, Bytes. split_and!.
  - by apply (effect_text _ _ _ _ "class" 64 _ Hc eq_refl He).
  - by rewrite (effect_cell _ _ _ _ "active" (VBool true) (CInt 8 true) Hc eq_refl He).
  - by rewrite (effect_cell _ _ _ _ "version" (VInt v) (CInt 32 false) Hc eq_refl He).
  - by rewrite (effect_cell _ _ _ _ "doc" (VBinary doc) (CBytes 16777215) Hc eq_refl He).
Qed.

Lemma deactivate_effect txid row0 row row' :
  convertible txid (deactivate_op row0) -> row_effect txid (deactivate_op row0) (Some row) = Some row' ->
  cell row' "active" = SInt 0 /\ forall c, c <> "active" -> row' !! c = row !! c.
Proof.
  intros Hc He. split.
  - by rewrite (effect_cell _ _ _ _ "active" (VBool false) (CInt 8 true) Hc eq_refl He).
  - intros c Hn. apply (effect_keeps _ _ _ _ c He). cbn. by rewrite (proj2 (String.eqb_neq _ _)).
Qed.
Lemma filed_schema m k row : wf_table "schemas" m -> m !! k = Some row -> k = [SStr (Str row "id")].
Proof.
  intros W Hk. destruct (W _ _ Hk) as [-> Hw]. unfold pk_of. cbn.
  apply Forall_cons in Hw as [(ty & T & Hty) _]. injection T as <-. unfold Str. by destruct (cell row "id").
Qed.

Lemma full_version m k row : full_rows "schemas" m -> m !! k = Some row -> versioned row (Uint row "version") /\ 0 <= Uint row "version" < 2 ^ 32.
Proof.
  intros F Hk. destruct (full_int _ _ "version" 32 false (F _ _ Hk) eq_refl) as (v & Hc & Hb). unfold versioned, Uint. rewrite Hc.
  unfold int_min, int_max in Hb. destruct (Z.ltb_spec v 0); [lia|]. split; [done|lia].
Qed.

(** The row in force, and the version after it. *)
Lemma current_row class m row : full_rows "schemas" m -> schemas_filed class m -> newest (in_force class) m = Some row ->
  row ∈ rows m /\ matches (in_force class) row = true /\ Str row "id" = schema_id class (Uint row "version") /\
  next_version (Some row) = Uint row "version" + 1 /\
  forall y vy, y ∈ rows m -> matches (in_force class) y = true -> versioned y vy -> vy <= Uint row "version".
Proof.
  intros F Hf Hn. destruct (newest_list (in_force class) m) as (s & E & _ & Hs). rewrite Hn in E. destruct s as [|x s]; [done|]. injection E as <-.
  assert (row ∈ row :: s) as Hin by apply list_elem_of_here. apply Hs in Hin as [Hm Hin]. apply rows_elem in Hin as [k Hk].
  destruct (full_version _ _ _ F Hk) as [Hv Hb]. destruct (full_text _ _ "class" 64 (F _ _ Hk) eq_refl) as (c & Hc & _).
  destruct (newest_Some (in_force class) m row (Uint row "version")) as (Hin & _ & Hle); [|done|done|].
  { intros y Hy _. apply rows_elem in Hy as [k' Hk']. eexists. by eapply full_version. }
  split; [done|]. split; [done|]. split; [eapply Hf; [exact Hk|by eapply in_force_class]|]. split; [|done].
  cbn [next_version]. unfold to_uint64. rewrite Z.mod_small; lia.
Qed.

Lemma current_filed class m current : full_rows "schemas" m -> schemas_filed class m -> newest (in_force class) m = current ->
  forall row, current = Some row -> Str row "id" = schema_id class (Uint row "version") /\ Uint row "version" <> next_version current.
Proof. intros F Hf Hn row ->. destruct (current_row _ _ _ F Hf Hn) as (_ & _ & ? & -> & _). split; [done|lia]. Qed.

(** The schemas that were there, after the entries of a registration. *)
Lemma older_schema (class : Class_) (doc : string) (current : option Row) (at_ : Z) (txid : string) (m : table) (k : list sqlval) (old : Row) :
  wf_table "schemas" m -> full_rows "schemas" m -> schemas_filed class m -> newest (in_force class) m = current ->
  Forall (convertible txid) (schema_ops class doc current at_) -> m !! k = Some old -> k <> [SStr (schema_id class (next_version current))] ->
  exists row', row_effects txid (schema_ops class doc current at_) "schemas" k (Some old) = Some row' /\
    (forall c, c <> "active" -> row' !! c = old !! c) /\
    (matches (in_force class) row' = true -> row' = old /\ Uint old "version" < next_version current).
Proof.
  intros W F Hf Hcur Hconv Ho Hne. rewrite schemas_effects by by eapply current_filed. rewrite decide_False by done.
  destruct current as [row0|] eqn:Ec.
  - destruct (current_row _ _ _ F Hf Hcur) as (_ & _ & Hid & Hn & Hle). destruct (base.decide _) as [->|Hne2].
    + assert (convertible txid (deactivate_op row0)) as Hc.
      { rewrite Forall_forall in Hconv. apply Hconv. unfold schema_ops. rewrite elem_of_app. right. apply list_elem_of_here. }
      destruct (row_effect txid (deactivate_op row0) (Some old)) as [row'|] eqn:Er; [|done]. destruct (deactivate_effect _ _ _ _ Hc Er) as [H1 H2].
      exists row'. split; [done|]. split; [done|]. unfold matches, in_force. cbn [forallb]. unfold cond_holds at 2. cbn [is_ c_op c_col c_val]. rewrite H1.
      by rewrite !andb_false_r.
    + exists old. split; [done|]. split; [done|]. intros Hm. split; [done|].
      destruct (full_version _ _ _ F Ho) as [Hv _]. specialize (Hle old _ ltac:(apply rows_elem; by eexists) Hm Hv). lia.
  - exists old. split; [done|]. split; [done|]. intros Hm. rewrite (newest_None _ _ Hcur old) in Hm; [done|]. apply rows_elem. by eexists.
Qed.

Lemma absent_stays (class : Class_) (doc : string) (current : option Row) (at_ : Z) (txid : string) (m : table) (k : list sqlval) :
  wf_table "schemas" m -> full_rows "schemas" m -> schemas_filed class m -> newest (in_force class) m = current ->
  m !! k = None -> k <> [SStr (schema_id class (next_version current))] ->
  row_effects txid (schema_ops class doc current at_) "schemas" k None = None.
Proof.
  intros W F Hf Hcur Ho Hne. rewrite schemas_effects by by eapply current_filed. rewrite decide_False by done.
  destruct current as [row0|]; [|done]. destruct (base.decide _) as [->|]; [|done].
  destruct (current_row _ _ _ F Hf Hcur) as (Hin & _ & Hid & _). apply rows_elem in Hin as [k0 Hk0].
  rewrite (filed_schema _ _ _ W Hk0), Hid in Hk0. congruence.
Qed.

Lemma registered_table (class : Class_) (doc : string) (current : option Row) (at_ : Z) (txid : string) (m m' : table) :
  wf_table "schemas" m -> full_rows "schemas" m -> schemas_filed class m -> c_Name class <> TxIDPlaceholder ->
  newest (in_force class) m = current -> Forall (convertible txid) (schema_ops class doc current at_) ->
  (forall k, m' !! k = row_effects txid (schema_ops class doc current at_) "schemas" k (m !! k)) ->
  (exists row, m' !! [SStr (schema_id class (next_version current))] = Some row /\ newest (in_force class) m' = Some row /\ Bytes row "doc" = doc) /\
  (forall k row, m !! k = Some row -> k <> [SStr (schema_id class (next_version current))] ->
     exists row', m' !! k = Some row' /\ forall c, c <> "active" -> row' !! c = row !! c).
Proof.
  intros W F Hf Hcn Hcur Hconv Hk.
  assert (forall k old, m !! k = Some old -> k <> [SStr (schema_id class (next_version current))] -> exists row', m' !! k = Some row' /\
    (forall c, c <> "active" -> row' !! c = old !! c) /\ (matches (in_force class) row' = true -> row' = old /\ Uint old "version" < next_version current)) as Hold.
  { intros k old Ho Hne. rewrite Hk, Ho. by eapply older_schema. }
  split; [|intros k old Ho Hne; destruct (Hold k old Ho Hne) as (row' & ? & ? & _); by exists row'].
  assert (convertible txid (schema_op class (schema_id class (next_version current)) doc (next_version current) at_)) as Hc1 by (by apply Forall_cons in Hconv as [? _]).
  pose proof (Hk [SStr (schema_id class (next_version current))]) as Hrow.
  rewrite schemas_effects, decide_True in Hrow by (done || by eapply current_filed).
  destruct (row_effect txid (schema_op _ _ _ _ _) _) as [row|] eqn:He; [|done]. destruct (schema_effect _ _ _ _ _ _ _ Hcn Hc1 He) as (R1 & R2 & R3 & R4).
  exists row. split; [done|]. split; [|done].
  assert (forall y, y ∈ rows m' -> matches (in_force class) y = true -> y = row \/ versioned y (Uint y "version") /\ Uint y "version" < next_version current) as Hy.
  { intros y Hy Hm. apply rows_elem in Hy as [k Hyk]. destruct (base.decide (k = [SStr (schema_id class (next_version current))])) as [->|Hne]; [left; congruence|right].
    destruct (m !! k) as [old|] eqn:Ho.
    - destruct (Hold k old Ho Hne) as (row' & Hr' & _ & Hact). assert (y = row') as -> by congruence. destruct (Hact Hm) as [-> Hlt].
      split; [by eapply full_version|done].
    - rewrite Hk, Ho, (absent_stays class doc current at_ txid m k) in Hyk by done. done. }
  apply (newest_is _ _ _ (next_version current)).
  - intros y Hin Hm. destruct (Hy y Hin Hm) as [->|[? _]]; by eexists.
  - apply rows_elem. by eexists.
  - unfold matches, in_force. cbn [forallb]. rewrite (cond_text _ _ _ _ R1), bool_decide_eq_true_2 by done.
    unfold cond_holds. cbn [is_ c_op c_col c_val]. by rewrite R2.
  - done.
  - intros y vy Hin Hm Hvy. destruct (Hy y Hin Hm) as [->|[Hv Hlt]]; [by left|right]. unfold versioned in *. rewrite Hv in Hvy. by injection Hvy as <-.
Qed.
End schemas.

Section registration.
Context `{Runtime} `{GoFormats}.

Lemma schema_ops_wf class doc current at_ : ops_wf (schema_ops class doc current at_).
Proof.
  intros txid. unfold schema_ops. apply Forall_app. split.
  - apply Forall_cons_2; [built|]. apply Forall_cons_2; [built|apply Forall_nil_2].
  - destruct current; [|apply Forall_nil_2]. apply Forall_cons_2; [built|apply Forall_nil_2].
Qed.

Lemma current_schema_Ok class w o w' : current_schema class w = (Ok o, w') ->
  w' = w /\ exists m, visible w !! "schemas" = Some m /\ o = newest (in_force class) m.
Proof.
  unfold current_schema, query_one. intros E. apply M_bind_Ok in E as (l & w1 & E & E'). apply M_ret_inv in E' as [[= ->] ->].
  apply select_Ok in E as (-> & m & Hm & ->). split; [done|]. by exists m.
Qed.
Lemma current_schema_total class w m : answers_reads (visible w) -> visible w !! "schemas" = Some m ->
  current_schema class w = (Ok (newest (in_force class) m), w).
Proof.
  intros A Hm. unfold current_schema, query_one, query, run_stmt, mbind, M_bind. change (panics _) with false. rewrite A by by eexists. rewrite Hm.
  reflexivity.
Qed.

(** A registered schema is not registered again. *)
Lemma registerSchema_again r class w m row doc :
  txn w = None -> answers_reads (committed w) -> committed w !! "schemas" = Some m -> schema_doc class = Ok doc ->
  newest (in_force class) m = Some row -> Bytes row "doc" = doc -> registerSchema r class w = (Ok tt, w).
Proof.
  intros Ht A Hm Hd Hn Hb. rewrite <- (visible_closed w Ht) in A, Hm. unfold registerSchema, Do, lift, mbind, M_bind. rewrite Hd.
  rewrite (current_schema_total _ _ _ A Hm), Hn. cbn [unchanged]. rewrite Hb, String.eqb_refl. unfold mret, M_ret. f_equal. destruct w. cbn in Ht. by rewrite Ht.
Qed.
End registration.

(** C26. A pack's schema comes into force, once. When [registerSchema]
    succeeds, either nothing landed, or the ledger moved one version and
    the schema in force for the class (the newest active one, which new
    records are validated under) is the pack's, in canonical form, filed
    under the class and the version after the one before; every schema
    that was there is as it was, save that one may no longer be active, so
    a record written under it still points at the same rules; and starting
    again with the same pack registers nothing. When nothing changed and
    nothing landed, it was the pack's already. *)
Theorem schema_registered `{Runtime} `{GoFormats} (r : Register) (class : Class_) (w w' : world) (m : table) :
  commit_moves_one -> store_wf w -> txn w = None -> committed w !! "schemas" = Some m -> full_rows "schemas" m -> schemas_filed class m ->
  c_Name class <> TxIDPlaceholder -> answers_reads (committed w') ->
  registerSchema r class w = (Ok tt, w') ->
  exists doc, schema_doc class = Ok doc /\
    (version w' <> version w ->
      version w' = to_uint64 (version w + 1) /\
      exists m' row, committed w' !! "schemas" = Some m' /\ newest (in_force class) m' = Some row /\
        m' !! [SStr (schema_id class (next_version (newest (in_force class) m)))] = Some row /\ Bytes row "doc" = doc /\
        (forall k old, m !! k = Some old -> k <> [SStr (schema_id class (next_version (newest (in_force class) m)))] ->
           exists old', m' !! k = Some old' /\ forall c, c <> "active" -> old' !! c = old !! c) /\
        registerSchema r class w' = (Ok tt, w')) /\
    (unchanged (newest (in_force class) m) doc = true -> same_ledger w w').
Proof.
  intros Hone W Ht Hm F Hf Hcn A E. unfold registerSchema in E. apply Do_inv in E as (w1 & E & ->).
  apply M_bind_Ok in E as (doc & wd & El & E). apply lift_Ok in El as [Hdoc ->]. exists doc. split; [done|].
  apply M_bind_Ok in E as (current & wc & Ec & E). apply current_schema_Ok in Ec as (-> & m0 & Hm0 & ->).
  rewrite visible_closed, Hm in Hm0 by done. injection Hm0 as <-. set (current := newest (in_force class) m) in *.
  destruct (unchanged current doc) eqn:Eu; [apply M_ret_inv in E as [_ ->]; split; [done|intros _; apply set_txn_ledger]|].
  split; [|done]. intros Hmove. apply M_bind_Ok in E as (at_ & wn & En & E). pose proof (ro_now _ _ _ En) as Hs.
  apply M_bind_Ok in E as (t & wt & E & E'). apply M_ret_inv in E' as [_ ->]. pose proof Hs as (Hc & Hver & _ & Htn & _).
  apply (commit_lands _ _ w) in E as [Hsame|L]; [by destruct Hmove; destruct Hsame as [(_ & <- & _) _]| |done..|by apply schema_ops_wf].
  cbn [version committed set_txn]. rewrite (landed_version _ _ _ _ _ L), Hver. split; [done|].
  destruct (landed_row _ _ _ _ _ "schemas" m L) as (m' & Hm' & Hk); [done|done|by rewrite Hc|].
  destruct (registered_table class doc current at_ (tx_TxID t) m m') as [(row & R1 & R2 & R3) Hold]; try done.
  - exact (proj1 W _ _ Hm).
  - by destruct L as (_ & _ & _ & _ & _ & rr & _ & _ & _ & _ & _ & ?).
  - exists m', row. do 5 (split; [done|]). by apply (registerSchema_again r class _ m' row doc).
Qed.

(** ** A pack with a seed *)
Section bootstrap_witness.
#[local] Existing Instance plain_runtime.
#[local] Existing Instance plain_formats.

Definition seeded_pack (version : string) (status : string) : Pack :=
  mkPack "demo" "Demo" version "t" [] [demo_person] [] [] []
    (Some ("demo", [mkSeedObject "person" "ann" "" [("code", VStr "c1"); ("email", VStr "ann@x"); ("name", VStr "Ann")] "Ann";
                    mkSeedObject "person" "" status [("code", VStr "c2"); ("email", VStr "bob@x"); ("name", VStr "Bob")] "Bob"])) empty_model.
Definition seeded_register (version status : string) : Register :=
  mkRegister (seeded_pack version status) (mkOptions "r" "t" "" "") (mkMaterial "master" "signer" "key").
Definition started (version status : string) (w : world) : res unit * world := reconcilePack (seeded_register version status) w.
Definition persons (w : world) : nat := match committed w !! "objects" with Some m => size m | None => 0 end.

Lemma no_schemas : schemas_filed demo_person ∅ /\ full_rows "schemas" ∅.
Proof. split; intros k row; by rewrite lookup_empty. Qed.

Lemma schema_registered_witness : exists w' doc m' row,
  registerSchema (seeded_register "1" "") demo_person fresh_world = (Ok tt, w') /\ schema_doc demo_person = Ok doc /\
  committed w' !! "schemas" = Some m' /\ newest (in_force demo_person) m' = Some row /\ Bytes row "doc" = doc /\
  registerSchema (seeded_register "1" "") demo_person w' = (Ok tt, w').
Proof.
  destruct (runs_ok (registerSchema (seeded_register "1" "") demo_person fresh_world)) as ([] & w' & E & Hw); [vm_compute; reflexivity|].
  assert (version (snd (registerSchema (seeded_register "1" "") demo_person fresh_world)) = 2) as Hv by (vm_compute; reflexivity).
  rewrite <- Hw in Hv. destruct no_schemas as [H1 H2].
  destruct (@schema_registered plain_runtime plain_formats (seeded_register "1" "") demo_person fresh_world w' ∅ plain_moves_one fresh_world_wf eq_refl
    ltac:(reflexivity) H2 H1 ltac:(discriminate) (plain_answers _) E) as (doc & Hdoc & Hmove & _).
  destruct Hmove as (_ & m' & row & Hm & Hn & _ & Hb & _ & Hagain); [rewrite Hv; discriminate|].
  exists w', doc, m', row. split; [exact E|]. split; [exact Hdoc|]. split; [exact Hm|]. split; [exact Hn|]. split; [exact Hb|exact Hagain].
Defined.

(** A first start makes the tables, registers the schema and writes the
    seed; the next one, with the same pack, changes nothing. *)
Example starts_once :
  let w := snd (started "1" "" fresh_world) in
  (fst (started "1" "" fresh_world), persons w, version w) = (Ok tt, 2%nat, 7) /\
  (fst (started "1" "" w), version (snd (started "1" "" w))) = (Ok tt, 7).
Proof. split; vm_compute; reflexivity. Qed.

(** The seed is written once for each version of the pack, not once on a
    register that held none: with a new version it is tried again, and
    where its class has a natural key the register does not start. *)
Example new_version_seeds_again :
  let w := snd (started "1" "" fresh_world) in is_ok (fst (started "2" "" w)) = false.
Proof. vm_compute. reflexivity. Qed.

(** Each seed record lands in a commit of its own and the marker after
    them all. A seed that fails half-way leaves the first records without
    the marker, and the corrected pack cannot be started on them. *)
Example half_a_seed_stays :
  let w := snd (started "1" "nonsense" fresh_world) in
  is_ok (fst (started "1" "nonsense" fresh_world)) = false /\ persons w = 1%nat /\ is_ok (fst (started "1" "" w)) = false.
Proof. split_and!; vm_compute; reflexivity. Qed.
End bootstrap_witness.
