(* ===== verification/Requests.v ===== *)
(** * Requests and refusals ([internal/api/api.go])

    What a handler reads of an HTTP request (its query, its headers, the
    path values, a JSON body decoded strictly into typed fields) and how
    an error of the register becomes a status code. *)

From S2P Require Import Prelude GoStrings Float64 Encoding Canon Json Sql Rbac Model World Checkpoints Tokens.
Local Open Scope Z_scope.

(** A request as [net/http] hands it over: the path in segments, unescaped
    (the router redirects a path that is not clean), the raw query, header
    fields under their canonical names, and the body. *)
Record Request := mkRequest {
  rq_Method : string;
  rq_Path : list string;
  rq_Query : string;
  rq_Header : list (string * string);
  rq_Host : string;
  rq_ContentLength : Z;
  rq_Body : string;
}.
Definition Header (r : Request) (k : string) : string := default "" (assoc k (rq_Header r)).

(** ** URLs *)

(** [url.PathUnescape] and [url.QueryUnescape]; [None] for a bad escape. *)
Fixpoint url_unescape (plus : bool) (s : string) : option string :=
  match s with
  | EmptyString => Some ""
  | String "%" (String a (String b s)) =>
      match hex_val a, hex_val b, url_unescape plus s with
      | Some x, Some y, Some t => Some (String (Z_byte (x * 16 + y)) t)
      | _, _, _ => None
      end
  | String "%" _ => None
  | String a s => (fun t => String (if plus && Ascii.eqb a "+" then " "%char else a) t) <$> url_unescape plus s
  end.
Definition PathUnescape := url_unescape false.
Definition QueryUnescape := url_unescape true.

(** [strings.Cut] at one byte. *)
Definition Cut (s : string) (c : ascii) : string * string :=
  match IndexByte s c with Some i => (str_take i s, str_drop (S i) s) | None => (s, "") end.

(** [url.ParseQuery], errors dropped as [URL.Query] drops them: the
    parameters in order, as often as they are written. *)
Definition query_pair (piece : string) : option (string * string) :=
  if Contains piece ";" || String.eqb piece "" then None
  else let '(k, v) := Cut piece "=" in
       k ← QueryUnescape k; v ← QueryUnescape v; Some (k, v).
Definition ParseQuery (raw : string) : list (string * string) := omap query_pair (Split1 raw "&").
Definition param (r : Request) (name : string) : string := default "" (assoc name (ParseQuery (rq_Query r))).

Definition intParam (r : Request) (name : string) (fallback : Z) : Z :=
  let v := param r name in
  if String.eqb v "" then fallback else match ParseInt64 v with (n, true) => n | _ => fallback end.
Definition int64Param (r : Request) (name : string) : Z := fst (ParseInt64 (param r name)).
Definition boolParam `{GoUnicode} (r : Request) (name : string) : bool :=
  containsString ["1"; "true"; "yes"] (ToLower (param r name)).

(** [matchParams]: the first value of every [match.] parameter. *)
Definition matchParams (q : list (string * string)) : gmap string string :=
  foldr (fun kv m => if HasPrefix kv.1 "match." then <[TrimPrefix kv.1 "match." := kv.2]> m else m) ∅ q.

Definition actingRole (r : Request) : string :=
  let role := Header r "X-Register-Role" in if String.eqb role "" then param r "role" else role.

(** [assertedProfile]. *)
Definition plain_rune (c : Z) : bool := (32 <? c) && (c <? 127).
Definition control_rune (c : Z) : bool := (c <? 32) || ((127 <=? c) && (c <? 160)).
Definition asserted_email (raw : string) : string :=
  let email := TrimSpace raw in
  if (254 <? len email) || negb (Nat.eqb (length (List.filter (fun a => Ascii.eqb a "@") (bytes_of email))) 1)
     || negb (forallb plain_rune (runes email)) then "" else email.
Definition asserted_name (raw : string) : string :=
  match PathUnescape (TrimSpace raw) with
  | Some decoded => if valid_utf8 decoded && forallb (fun c => negb (control_rune c)) (runes decoded) then TrimSpace decoded else ""
  | None => ""
  end.
Definition assertedProfile (r : Request) : string * string :=
  (asserted_email (Header r "X-Privasys-Email"), asserted_name (Header r "X-Privasys-Name")).

(** ** Bodies

    [decode] reads the first JSON value of the first four MiB of the body
    into a struct, and refuses a member no field is named for. A field is
    written as its kind; what was read is a [value] per field, [VNull] for
    a field that was not set. *)
Inductive kind := KString | KBool | KInt | KUint | KBoolPtr | KStrings | KMap | KStringMap | KRefs | KAny.

Definition mismatch : error := Errorf "json: cannot unmarshal value into Go struct field" [].
Definition string_element (v : value) : res value :=
  match v with VNull => Ok (VStr "") | VStr s => Ok (VStr s) | _ => Err mismatch end.
Definition merge (old : value) (m : object) : value :=
  VObj (fold_left (fun acc kv => obj_set kv.1 kv.2 acc) m (match old with VObj o => o | _ => [] end)).

(** A decoded struct: what each of its fields holds. One member goes to
    the field it is named for, which knows its kind and what it already
    holds. *)
Definition body := gmap string value.
Definition field (b : body) (name : string) : value := default VNull (b !! name).
Definition lookup_field {A} (fields : list (string * A)) (name : string) : option A :=
  snd <$> List.find (fun f => String.eqb f.1 (fold_name name)) fields.
Definition fill {K} (asg : K -> value -> value -> res value) (fs : list (string * K)) (b : body) (member : string * value) : res body :=
  match lookup_field fs member.1 with
  | None => Err (Errorf "json: unknown field %q" [member.1])
  | Some k => v ← asg k (field b (fold_name member.1)) member.2; Ok (<[fold_name member.1 := v]> b)
  end.
Fixpoint fill_all {K} (asg : K -> value -> value -> res value) (fs : list (string * K)) (ms : list (string * value)) (b : body) : res body :=
  match ms with [] => Ok b | m :: ms => b ← fill asg fs b m; fill_all asg fs ms b end.

Definition assign_string (_ : unit) (old v : value) : res value :=
  match v with VNull => Ok old | VStr s => Ok (VStr s) | _ => Err mismatch end.
Definition ref_element (v : value) : res value :=
  match v with
  | VNull => Ok (VObj [])
  | VObj m => b ← fill_all assign_string [("type", tt); ("target", tt)] m ∅;
              Ok (VObj [("type", field b "type"); ("target", field b "target")])
  | _ => Err mismatch
  end.
Definition assign (k : kind) (old v : value) : res value :=
  match k, v with
  | (KString | KBool | KInt | KUint), VNull => Ok old
  | (KBoolPtr | KStrings | KMap | KStringMap | KRefs | KAny), VNull => Ok VNull
  | KString, VStr s => Ok (VStr s)
  | (KBool | KBoolPtr), VBool b => Ok (VBool b)
  | KInt, VNumber s => match ParseInt64 s with (n, true) => Ok (VInt n) | _ => Err mismatch end
  | KUint, VNumber s => match ParseUint64 s with Some n => Ok (VInt n) | None => Err mismatch end
  | KStrings, VArr l => l' ← collect (map string_element l); Ok (VArr l')
  | KMap, VObj m => m' ← floatify (VObj m); Ok (merge old match m' with VObj m' => m' | _ => [] end)
  | KStringMap, VObj m =>
      m' ← collect (map (fun kv => s ← string_element kv.2; Ok (kv.1, s)) m); Ok (merge old m')
  | KRefs, VArr l => l' ← collect (map ref_element l); Ok (VArr l')
  | KAny, _ => floatify v
  | _, _ => Err mismatch
  end.

(** The members of the object [s] opens, as they are written. *)
Fixpoint read_members (fuel : nat) (s : string) : option (list (string * value)) :=
  match fuel with
  | O => None
  | S fuel =>
      match parse_string (skip_ws s) with
      | None => None
      | Some (k, r) =>
          r ← expect ":" r;
          '(v, r) ← parse_value (2 * String.length r + 2) r;
          match skip_ws r with
          | String "," r => (fun l => (k, v) :: l) <$> read_members fuel r
          | String "}" _ => Some [(k, v)]
          | _ => None
          end
      end
  end.
Definition first_object (s : string) : res (list (string * value)) :=
  let syntax := Errorf "unexpected EOF" [] in
  match skip_ws s with
  | String "{" r =>
      match skip_ws r with
      | String "}" _ => Ok []
      | _ => of_option (read_members (String.length r) r) syntax
      end
  | s => match parse_value (2 * String.length s + 2) s with
         | Some (VNull, _) => Ok []
         | Some _ => Err mismatch
         | None => Err syntax
         end
  end.

Definition fields := list (string * kind).
Definition limited (n : Z) (s : string) : string := if len s <=? n then s else str_take (Z.to_nat n) s.
Definition max_body : Z := 4 * 2 ^ 20.
Definition decode_body (fs : fields) (raw : string) : res body :=
  match (ms ← first_object (limited max_body raw); fill_all assign fs ms ∅) with
  | Ok b => Ok b
  | Err e => Err (Wrapf "request body: %w" [] e)
  end.

(** A document read leniently: a member no field is named for is passed
    over, and so, when [stop] is not set, is one of the wrong type. *)
Fixpoint fill_known (stop : bool) (fs : fields) (ms : list (string * value)) (b : body) : res body :=
  match ms with
  | [] => Ok b
  | m :: ms =>
      match lookup_field fs m.1, fill assign fs b m with
      | None, _ => fill_known stop fs ms b
      | Some _, Ok b => fill_known stop fs ms b
      | Some _, Err e => if stop then Err e else fill_known stop fs ms b
      end
  end.
Definition read_document (fs : fields) (raw : string) : res body := ms ← first_object raw; fill_known true fs ms ∅.

Definition str_field (b : body) (name : string) : string := match field b name with VStr s => s | _ => "" end.
Definition bool_field (b : body) (name : string) : bool := match field b name with VBool x => x | _ => false end.
Definition int_field (b : body) (name : string) : Z := match field b name with VInt z => z | _ => 0 end.
Definition strings_field (b : body) (name : string) : list string := match field b name with VArr l => strings_of l | _ => [] end.
Definition map_field (b : body) (name : string) : object := match field b name with VObj m => m | _ => [] end.
Definition string_map_field (b : body) (name : string) : list (string * string) :=
  omap (fun kv : string * value => match kv.2 with VStr s => Some (kv.1, s) | _ => None end) (map_field b name).
Definition refs_field (b : body) (name : string) : list Ref :=
  match field b name with
  | VArr l => map (fun v => match v with VObj m => mkRef (str_claim "type" m) (str_claim "target" m) | _ => mkRef "" "" end) l
  | _ => []
  end.

(** ** Refusals *)

(** The text of an error: its format with its arguments in their places
    and, at [%w], the text of the error it wraps. *)
Fixpoint render_text `{GoUnicode} (fmt : string) (args : list string) (inner : string) : string :=
  match fmt with
  | EmptyString => ""
  | String "%" (String "w" rest) => inner +:+ render_text rest args inner
  | String "%" (String "%" rest) => String "%" (render_text rest args inner)
  | String "%" (String verb rest) =>
      let a := default "" (head args) in
      (if Ascii.eqb verb "q" then strconv_Quote a else a) +:+ render_text rest (tail args) inner
  | String a rest => String a (render_text rest args inner)
  end.
Fixpoint error_text `{GoUnicode} (e : error) : string :=
  match e with
  | Errorf fmt args => render_text fmt args ""
  | Wrapf fmt args inner => render_text fmt args (error_text inner)
  | PruneError id version policy => "register: " +:+ id +:+ " version " +:+ itoa version +:+ " was pruned per policy " +:+ policy
  | ErrInvite => "this invitation is not valid: it may have been used, withdrawn, or have expired"
  | ErrNoRole => "no register role: the caller holds none of this register's roles"
  end.

Definition forbidden_text (t : string) : bool :=
  Contains t "may not" || Contains t "separation of duties" || Contains t "is not a proposing role"
  || Contains t "only the proposer" || (Contains t "only " && Contains t "can answer").
Definition missing_text (t : string) : bool :=
  Contains t "is not registered" || Contains t "no such"
  || existsb (HasPrefix t) ["no workflow named"; "no class named"; "no query named"; "no proposal"; "no transaction";
                            "no retention policy"; "no key for scope"].
Definition conflict_text (t : string) : bool :=
  existsb (Contains t) ["already registered"; "already been erased"; "is not awaiting"; "is not waiting"; "is the only member"].

(** [classify]. *)
Definition classify `{GoUnicode} (e : error) : Z * string :=
  match root_cause e with
  | PruneError _ _ _ => (410, "the content was removed under a retention policy; the record and its history remain")
  | ErrInvite => (410, "")
  | _ =>
      let t := error_text e in
      if forbidden_text t then (403, "") else if missing_text t then (404, "") else if conflict_text t then (409, "") else (400, "")
  end.
