(* ===== verification/PackFile.v ===== *)
(** * Pack documents ([internal/pack/pack.go])

    [Load] decodes a pack document into the declarations [validate]
    checks. [encoding/json] decodes by the Go type: into a pointer, a
    struct, a slice, a map or a scalar, each with what it already holds
    (a member given twice is decoded into the same place). A shape is such
    a type; decoding works on the text, since a [json.RawMessage] keeps
    its own. *)

From S2P Require Import Prelude GoStrings Float64 Encoding Canon Json Rbac JsonSchema Pack Model World Tokens Requests.
Local Open Scope Z_scope.

(** ** Reading a text in parts *)

(** The first value of [s]: its own text, and what follows. *)
Definition read_item (s : string) : option (string * string) :=
  let s := skip_ws s in
  match parse_value (2 * String.length s + 2) s with
  | Some (_, rest) => Some (str_take (String.length s - String.length rest) s, rest)
  | None => None
  end.
Fixpoint read_items (fuel : nat) (s : string) : option (list string) :=
  match fuel with
  | O => None
  | S fuel =>
      '(v, r) ← read_item s;
      match skip_ws r with
      | String "," r => cons v <$> read_items fuel r
      | String "]" _ => Some [v]
      | _ => None
      end
  end.
(** The elements of the array [s] is, and the members of the object. *)
Definition read_array (s : string) : option (list string) :=
  match skip_ws s with
  | String "[" r => match skip_ws r with String "]" _ => Some [] | _ => read_items (S (String.length r)) r end
  | _ => None
  end.
Fixpoint read_pairs (fuel : nat) (s : string) : option (list (string * string)) :=
  match fuel with
  | O => None
  | S fuel =>
      '(k, r) ← parse_string (skip_ws s);
      r ← expect ":" r;
      '(v, r) ← read_item r;
      match skip_ws r with
      | String "," r => cons (k, v) <$> read_pairs fuel r
      | String "}" _ => Some [(k, v)]
      | _ => None
      end
  end.
Definition read_object (s : string) : option (list (string * string)) :=
  match skip_ws s with
  | String "{" r => match skip_ws r with String "}" _ => Some [] | _ => read_pairs (S (String.length r)) r end
  | _ => None
  end.
Definition read_scalar (s : string) : option value := fst <$> parse_value (2 * String.length s + 2) s.
Definition is_null (s : string) : bool := HasPrefix (skip_ws s) "null".

(** ** Go values *)

Inductive shape :=
  | TString | TBool | TInt
  | TMap                                   (* map[string]any *)
  | TRaw                                   (* json.RawMessage *)
  | TSlice (element : shape)
  | TPointer (target : shape)
  | TStruct (fields : list (string * shape)).

(** A slice has its elements and, up to its capacity, those it held
    before and [encoding/json] decodes into again. *)
Inductive govalue :=
  | GString (s : string) | GBool (b : bool) | GInt (z : Z)
  | GMap (m : object)
  | GRaw (text : option string)
  | GSlice (elements beyond : list govalue)
  | GPointer (target : option govalue)
  | GStruct (fields : list (string * govalue)).

Fixpoint zero (t : shape) : govalue :=
  match t with
  | TString => GString "" | TBool => GBool false | TInt => GInt 0
  | TMap => GMap [] | TRaw => GRaw None | TSlice _ => GSlice [] [] | TPointer _ => GPointer None
  | TStruct fs => GStruct (map (fun f => (f.1, zero f.2)) fs)
  end.

Definition member (g : govalue) (name : string) : option govalue :=
  match g with GStruct fs => snd <$> List.find (fun f => String.eqb f.1 name) fs | _ => None end.
Definition set_member (name : string) (v : govalue) (g : govalue) : govalue :=
  match g with
  | GStruct fs => GStruct (map (fun f => if String.eqb f.1 name then (f.1, v) else f) fs)
  | _ => g
  end.

(** ** Decoding *)

Abbreviation decoder := (govalue -> string -> res govalue).

(** The elements of an array over what the slice holds, [blank] past it. *)
Fixpoint decode_elements (d : decoder) (blank : govalue) (held : list govalue) (items : list string) : res (list govalue) :=
  match items with
  | [] => Ok []
  | item :: items =>
      v ← d (default blank (head held)) item;
      l ← decode_elements d blank (tail held) items;
      Ok (v :: l)
  end.
(** The members of an object into the fields they are named for; a member
    no field is named for is refused, or passed over when decoding is not
    strict. *)
Definition find_field {A} (fs : list (string * A)) (name : string) : option (string * A) :=
  List.find (fun f => String.eqb f.1 (fold_name name)) fs.
Fixpoint decode_members (strict : bool) (fs : list (string * decoder)) (ms : list (string * string)) (g : govalue) : res govalue :=
  match ms with
  | [] => Ok g
  | (k, text) :: ms =>
      match find_field fs k with
      | None => if strict then Err (Errorf "json: unknown field %q" [k]) else decode_members strict fs ms g
      | Some (name, d) =>
          v ← d (default (GString "") (member g name)) text;
          decode_members strict fs ms (set_member name v g)
      end
  end.

Fixpoint decode_as (strict : bool) (t : shape) : decoder := fun old text =>
  match t with
  | TString => if is_null text then Ok old else match read_scalar text with Some (VStr s) => Ok (GString s) | _ => Err mismatch end
  | TBool => if is_null text then Ok old else match read_scalar text with Some (VBool b) => Ok (GBool b) | _ => Err mismatch end
  | TInt =>
      if is_null text then Ok old
      else match read_scalar text with
           | Some (VNumber s) => match ParseInt64 s with (n, true) => Ok (GInt n) | _ => Err mismatch end
           | _ => Err mismatch
           end
  | TMap =>
      if is_null text then Ok (GMap [])
      else match read_scalar text with
           | Some (VObj m) =>
               m' ← floatify (VObj m);
               Ok (GMap (match merge (VObj (match old with GMap o => o | _ => [] end)) (match m' with VObj m' => m' | _ => [] end) with
                         | VObj o => o | _ => [] end))
           | _ => Err mismatch
           end
  | TRaw => Ok (GRaw (Some text))
  | TSlice element =>
      if is_null text then Ok (GSlice [] [])
      else match read_array text with
           | None => Err mismatch
           | Some [] => Ok (GSlice [] [])
           | Some items =>
               let held := match old with GSlice l beyond => l ++ beyond | _ => [] end in
               l ← decode_elements (decode_as strict element) (zero element) held items;
               Ok (GSlice l (drop (length items) held))
           end
  | TPointer target =>
      if is_null text then Ok (GPointer None)
      else v ← decode_as strict target (match old with GPointer (Some g) => g | _ => zero target end) text; Ok (GPointer (Some v))
  | TStruct fs =>
      if is_null text then Ok old
      else match read_object text with
           | None => Err mismatch
           | Some ms => decode_members strict (map (fun f => (f.1, decode_as strict f.2)) fs) ms old
           end
  end.

(** [Decoder.Decode] with [DisallowUnknownFields]: the first value of the
    document, whose syntax is checked before any of it is decoded. *)
Definition Decode (t : shape) (doc : string) : res govalue :=
  match read_item doc with
  | None => Err (Errorf "unexpected EOF" [])
  | Some (text, _) => decode_as true t (zero t) text
  end.
(** [json.Unmarshal]: the whole document is one value, and decoding is not
    strict. *)
Definition Unmarshal_as (t : shape) (doc : string) : res govalue :=
  _ ← parse_raw doc; decode_as false t (zero t) doc.

(** ** Strictness

    A text that decodes names nothing but declared fields, at any depth. *)
Fixpoint names_known (t : shape) (text : string) : Prop :=
  match t with
  | TSlice element => is_null text = false -> exists items, read_array text = Some items /\ Forall (names_known element) items
  | TPointer target => is_null text = false -> names_known target text
  | TStruct fs =>
      is_null text = false -> exists ms, read_object text = Some ms /\
      Forall (fun m => match find_field (map (fun f => (f.1, names_known f.2)) fs) m.1 with Some f => f.2 m.2 | None => False end) ms
  | _ => True
  end.

Fixpoint shape_ind' (P : shape -> Prop)
    (Hs : P TString) (Hb : P TBool) (Hi : P TInt) (Hm : P TMap) (Hr : P TRaw)
    (Hl : forall e, P e -> P (TSlice e)) (Hp : forall e, P e -> P (TPointer e))
    (Hf : forall fs, Forall (fun f => P f.2) fs -> P (TStruct fs)) (t : shape) : P t :=
  match t with
  | TString => Hs | TBool => Hb | TInt => Hi | TMap => Hm | TRaw => Hr
  | TSlice e => Hl e (shape_ind' P Hs Hb Hi Hm Hr Hl Hp Hf e)
  | TPointer e => Hp e (shape_ind' P Hs Hb Hi Hm Hr Hl Hp Hf e)
  | TStruct fs => Hf fs ((fix go l : Forall (fun f => P f.2) l :=
      match l with
      | [] => List.Forall_nil _
      | f :: l => List.Forall_cons _ f l (shape_ind' P Hs Hb Hi Hm Hr Hl Hp Hf f.2) (go l)
      end) fs)
  end.

Lemma find_field_map {A B} (g : A -> B) (fs : list (string * A)) k :
  find_field (map (fun f => (f.1, g f.2)) fs) k = (fun f => (f.1, g f.2)) <$> find_field fs k.
Proof.
  unfold find_field. induction fs as [|[n x] fs IH]; [done|]. cbn [map List.find fst snd].
  destruct (String.eqb n (fold_name k)); [done|exact IH].
Qed.
Lemma find_field_elem {A} (fs : list (string * A)) k f : find_field fs k = Some f -> f ∈ fs /\ f.1 = fold_name k.
Proof.
  unfold find_field. intros E. apply List.find_some in E as [Hin Hk]. split; [by apply list_elem_of_In|by apply String.eqb_eq].
Qed.

Lemma decode_elements_items d blank items : forall held l,
  decode_elements d blank held items = Ok l -> Forall (fun item => exists old g, d old item = Ok g) items.
Proof.
  induction items as [|item items IH]; intros held l E; cbn in E; [constructor|]. res_inv. constructor; [by eauto|]. by eapply IH.
Qed.
Lemma decode_members_items fs ms : forall g g', decode_members true fs ms g = Ok g' ->
  Forall (fun m => exists f old v, find_field fs m.1 = Some f /\ f.2 old m.2 = Ok v) ms.
Proof.
  induction ms as [|[k text] ms IH]; intros g g' E; cbn in E; [constructor|].
  destruct (find_field fs k) as [[name d]|] eqn:Ef; [|done]. res_inv. constructor; [|by eapply IH]. cbn. eauto.
Qed.

Lemma decoded_names t : forall old text g, decode_as true t old text = Ok g -> names_known t text.
Proof.
  induction t as [| | | | |e IH|e IH|fs IH] using shape_ind'; intros old text g E; try exact I; cbn [decode_as] in E; cbn [names_known]; intros Hn; rewrite Hn in E.
  - destruct (read_array text) as [[|item items]|]; [|..|done]; eexists; split; [done|constructor|done|].
    res_inv. match goal with H : decode_elements _ _ _ _ = _ |- _ => apply decode_elements_items in H end.
    eapply Forall_impl; [done|]. cbn. intros y (o & g' & Hy). by eapply IH.
  - res_inv. by eapply IH.
  - destruct (read_object text) as [ms|]; [|done]. exists ms. split; [done|]. apply decode_members_items in E.
    eapply Forall_impl; [exact E|]. cbn. intros [k x] (f & o & v & Hf & Hv).
    rewrite (find_field_map (decode_as true)) in Hf. rewrite (find_field_map names_known).
    cbn [fst snd] in Hf, Hv |- *.
    destruct (find_field fs k) as [[n t]|] eqn:Ef; [|done]. injection Hf as <-. cbn [fmap option_fmap option_map fst snd] in Hv |- *.
    apply find_field_elem in Ef as [Hin _]. rewrite Forall_forall in IH. by eapply (IH _ Hin).
Qed.

(** ** The fields of a pack *)

Definition text_fields (l : list string) : list (string * shape) := map (fun n => (n, TString)) l.
Definition TStrings : shape := TSlice TString.
Definition role_shape : shape :=
  TStruct (text_fields ["name"; "title"; "summary"]
           ++ [("oidc_roles", TStrings); ("permissions", TStrings); ("pii", TBool); ("incompatible_with", TStrings)]).
Definition class_shape : shape :=
  TStruct (text_fields ["name"; "title"; "natural_key"] ++ [("statuses", TStrings)] ++ text_fields ["initial_status"; "encryption"]
           ++ [("schema", TRaw)]).
Definition evidence_shape : shape := TStruct (text_fields ["key"; "title"] ++ [("required", TBool)]).
Definition counterparty_shape : shape := TStruct (text_fields ["field"; "prompt"]).
Definition condition_shape : shape := TStruct (text_fields ["id"; "description"; "sql"; "expect"; "on_fail"; "message"]).
Definition effect_shape : shape :=
  TStruct (text_fields ["type"; "class"; "target"; "status"]
           ++ [("payload", TMap); ("match", TMap); ("set", TMap); ("optional", TBool)]).
Definition workflow_shape : shape :=
  TStruct (text_fields ["name"; "title"; "class"; "action"]
           ++ [("propose_roles", TStrings); ("approve_roles", TStrings); ("independence", TBool); ("evidence", TSlice evidence_shape);
               ("counterparty", TPointer counterparty_shape); ("conditions", TSlice condition_shape); ("auto_approve", TBool);
               ("message", TString); ("effects", TSlice effect_shape); ("status", TString); ("input", TRaw)]).
Definition param_shape : shape :=
  TStruct (text_fields ["name"; "title"; "type"] ++ [("required", TBool); ("default", TString)]).
Definition query_shape : shape :=
  TStruct (text_fields ["name"; "title"; "description"] ++ [("roles", TStrings); ("sql", TString); ("params", TSlice param_shape)]).
Definition policy_shape : shape :=
  TStruct (text_fields ["id"; "title"; "class"] ++ [("window_days", TInt); ("scope", TString); ("erasure", TBool)]).
Definition seed_object_shape : shape :=
  TStruct (text_fields ["class"; "ref"; "status"] ++ [("payload", TMap); ("message", TString)]).
Definition seed_shape : shape := TStruct [("message", TString); ("objects", TSlice seed_object_shape)].
Definition pack_shape : shape :=
  TStruct (text_fields ["name"; "title"; "version"; "description"; "tenant"]
           ++ [("roles", TSlice role_shape); ("classes", TSlice (TPointer class_shape)); ("workflows", TSlice (TPointer workflow_shape));
               ("queries", TSlice (TPointer query_shape)); ("retention", TSlice (TPointer policy_shape)); ("seed", TPointer seed_shape)]).

(** ** From what was decoded to the declarations *)

Definition text_of_ (g : govalue) (name : string) : string := match member g name with Some (GString s) => s | _ => "" end.
Definition flag_of (g : govalue) (name : string) : bool := match member g name with Some (GBool b) => b | _ => false end.
Definition int_of (g : govalue) (name : string) : Z := match member g name with Some (GInt z) => z | _ => 0 end.
Definition map_of (g : govalue) (name : string) : object := match member g name with Some (GMap m) => m | _ => [] end.
Definition raw_of (g : govalue) (name : string) : option string := match member g name with Some (GRaw t) => t | _ => None end.
Definition list_of {A} (f : govalue -> A) (g : govalue) (name : string) : list A :=
  match member g name with Some (GSlice l _) => map f l | _ => [] end.
Definition pointer_of {A} (f : govalue -> A) (g : govalue) : option A :=
  match g with GPointer (Some g) => Some (f g) | _ => None end.
Definition strings_in (g : govalue) (name : string) : list string :=
  list_of (fun v => match v with GString s => s | _ => "" end) g name.

Definition to_role (g : govalue) : RoleSpec :=
  mkRoleSpec (text_of_ g "name") (text_of_ g "title") (text_of_ g "summary") (strings_in g "oidc_roles") (strings_in g "permissions")
    (flag_of g "pii") (strings_in g "incompatible_with").
Definition to_class (g : govalue) : Class_ :=
  mkClass (text_of_ g "name") (text_of_ g "title") (text_of_ g "natural_key") (strings_in g "statuses") (text_of_ g "initial_status")
    (text_of_ g "encryption") (default "" (raw_of g "schema")) None.
Definition to_evidence (g : govalue) : Evidence := mkEvidence (text_of_ g "key") (text_of_ g "title") (flag_of g "required").
Definition to_counterparty (g : govalue) : Counterparty := mkCounterparty (text_of_ g "field") (text_of_ g "prompt").
Definition to_condition (g : govalue) : Condition :=
  mkCondition (text_of_ g "id") (text_of_ g "description") (text_of_ g "sql") (text_of_ g "expect") (text_of_ g "on_fail") (text_of_ g "message").
Definition to_effect (g : govalue) : Effect :=
  mkEffect (text_of_ g "type") (text_of_ g "class") (text_of_ g "target") (text_of_ g "status") (map_of g "payload") (map_of g "match")
    (map_of g "set") (flag_of g "optional").
Definition to_workflow (g : govalue) : Workflow :=
  mkWorkflow (text_of_ g "name") (text_of_ g "title") (text_of_ g "class") (text_of_ g "action") (strings_in g "propose_roles")
    (strings_in g "approve_roles") (flag_of g "independence") (list_of to_evidence g "evidence")
    (member g "counterparty" ≫= pointer_of to_counterparty) (list_of to_condition g "conditions") (flag_of g "auto_approve")
    (text_of_ g "message") (list_of to_effect g "effects") (text_of_ g "status") (raw_of g "input") None.
Definition to_param (g : govalue) : QueryParam :=
  mkQueryParam (text_of_ g "name") (text_of_ g "title") (text_of_ g "type") (flag_of g "required") (text_of_ g "default").
Definition to_query (g : govalue) : NamedQuery :=
  mkNamedQuery (text_of_ g "name") (strings_in g "roles") (text_of_ g "sql") (list_of to_param g "params").
Definition to_policy (g : govalue) : RetentionPolicy :=
  mkRetentionPolicy (text_of_ g "id") (text_of_ g "title") (text_of_ g "class") (int_of g "window_days") (text_of_ g "scope") (flag_of g "erasure").
Definition to_seed_object (g : govalue) : SeedObject :=
  mkSeedObject (text_of_ g "class") (text_of_ g "ref") (text_of_ g "status") (map_of g "payload") (text_of_ g "message").
Definition to_seed (g : govalue) : string * list SeedObject := (text_of_ g "message", list_of to_seed_object g "objects").

(** A decoded pack: the declarations the code holds by pointer may be nil. *)
Record Declared := mkDeclared {
  dc_pack : Pack;
  dc_Classes : list (option Class_);
  dc_Workflows : list (option Workflow);
  dc_Queries : list (option NamedQuery);
  dc_Retention : list (option RetentionPolicy);
}.
Definition to_declared (g : govalue) : Declared :=
  mkDeclared
    (mkPack (text_of_ g "name") (text_of_ g "title") (text_of_ g "version") (text_of_ g "tenant") (list_of to_role g "roles") [] [] [] []
       (member g "seed" ≫= pointer_of to_seed) empty_model)
    (list_of (pointer_of to_class) g "classes") (list_of (pointer_of to_workflow) g "workflows")
    (list_of (pointer_of to_query) g "queries") (list_of (pointer_of to_policy) g "retention").

(** ** Validation over pointers

    [validate] reads a name of every declaration it ranges over; on a nil
    one the program panics. *)
Section load.
Context `{GoFormats}.

Definition nil_panic : error := Errorf "panic: invalid memory address or nil pointer dereference" [].
Fixpoint add_present {A} (f : list A -> A -> res A) (seen : list A) (l : list (option A)) : res (list A) :=
  match l with
  | [] => Ok seen
  | None :: _ => Err nil_panic
  | Some x :: l => y ← f seen x; add_present f (seen ++ [y]) l
  end.

Definition validate_declared (d : Declared) : res Pack :=
  let p := dc_pack d in
  _ ← refuse_if (negb (nameRe (pk_Name p))) (Errorf "pack: name %q must match %s" [pk_Name p]);
  _ ← refuse_if (String.eqb (pk_Version p) "") (Errorf "pack: version is required" []);
  _ ← refuse_if (match dc_Classes d with [] => true | _ => false end) (Errorf "pack: no classes declared" []);
  m ← match NewModel (pk_Roles p) with Ok m => Ok m | Err e => Err (Wrapf "pack: %w" [] e) end;
  classes ← add_present validate_class [] (dc_Classes d);
  _ ← check_all (check_references classes) classes;
  workflows ← add_present (validate_workflow m classes) [] (dc_Workflows d);
  queries ← add_present (validate_query m) [] (dc_Queries d);
  retention ← add_present (validate_policy classes) [] (dc_Retention d);
  _ ← (match pk_Seed p with
       | None => Ok tt
       | Some (_, objects) =>
           check_all (fun io => refuse_if (negb (known c_Name classes (so_Class io.2)))
             (Errorf "pack: seed object %d targets unknown class %q" [itoa io.1; so_Class io.2])) (indexed 0 objects)
       end);
  Ok (mkPack (pk_Name p) (pk_Title p) (pk_Version p) (pk_Tenant p) (pk_Roles p) classes workflows queries retention (pk_Seed p) m).

Definition Load_pack (doc : string) : res Pack :=
  match Decode pack_shape doc with
  | Err e => Err (Wrapf "pack: %w" [] e)
  | Ok g => validate_declared (to_declared g)
  end.

(** ** What loads *)

(** The declarations themselves, when none is nil. *)
Definition declarations (d : Declared) : option Pack :=
  classes ← mapM id (dc_Classes d); workflows ← mapM id (dc_Workflows d);
  queries ← mapM id (dc_Queries d); retention ← mapM id (dc_Retention d);
  let p := dc_pack d in
  Some (mkPack (pk_Name p) (pk_Title p) (pk_Version p) (pk_Tenant p) (pk_Roles p) classes workflows queries retention (pk_Seed p) empty_model).

Lemma mapM_id_Some {A} (l : list (option A)) l' : mapM id l = Some l' <-> l = Some <$> l'.
Proof.
  rewrite mapM_Some. split.
  - intros Hl. induction Hl as [|x y l l' Hx _ IH]; [done|]. cbn in *. by rewrite Hx, IH.
  - intros ->. induction l' as [|y l' IH]; by constructor.
Qed.
Lemma add_present_Some {A} (f : list A -> A -> res A) l : forall seen, add_present f seen (Some <$> l) = add_each f seen l.
Proof. induction l as [|x l IH]; intros seen; [done|]. cbn. destruct (f seen x); cbn; [apply IH|done]. Qed.
Lemma add_present_Ok {A} (f : list A -> A -> res A) l : forall seen out,
  add_present f seen l = Ok out -> exists l', l = Some <$> l'.
Proof.
  induction l as [|[x|] l IH]; intros seen out E; cbn in E; [by exists []| |done].
  res_inv. match goal with H : add_present _ _ _ = _ |- _ => apply IH in H as [l' ->] end. by exists (x :: l').
Qed.
Lemma add_present_nil {A} (f : list A -> A -> res A) l : None ∈ l -> forall seen, exists e, add_present f seen l = Err e.
Proof.
  intros Hin seen. destruct (add_present f seen l) as [out|e] eqn:E; [|by eexists].
  exfalso. apply add_present_Ok in E as [l' ->]. apply list_elem_of_fmap in Hin as (? & ? & _). done.
Qed.

Lemma res_bind_ext {A B} (m m' : res A) (f f' : A -> res B) : m = m' -> (forall a, f a = f' a) -> mbind f m = mbind f' m'.
Proof. intros -> Hf. destruct m'; cbn; [apply Hf|done]. Qed.

(** On declarations none of which is nil the validation of a document is
    the validation of the pack. *)
Lemma validate_declared_present d p : declarations d = Some p -> validate_declared d = validate_pack p.
Proof.
  unfold declarations. intros E.
  destruct (mapM id (dc_Classes d)) as [cs|] eqn:E1; [|done]. destruct (mapM id (dc_Workflows d)) as [ws|] eqn:E2; [|done].
  destruct (mapM id (dc_Queries d)) as [qs|] eqn:E3; [|done]. destruct (mapM id (dc_Retention d)) as [rs|] eqn:E4; [|done].
  cbn in E. injection E as <-. apply mapM_id_Some in E1, E2, E3, E4.
  unfold validate_declared, validate_pack. rewrite E1, E2, E3, E4.
  cbn [pk_Name pk_Title pk_Version pk_Tenant pk_Roles pk_Classes pk_Workflows pk_Queries pk_Retention pk_Seed].
  assert ((match Some <$> cs with [] => true | _ => false end) = (match cs with [] => true | _ => false end)) as -> by by destruct cs.
  repeat (apply res_bind_ext; [by rewrite ?add_present_Some|intros ?]). done.
Qed.
Lemma validate_declared_Ok d p : validate_declared d = Ok p -> exists q, declarations d = Some q /\ validate_pack q = Ok p.
Proof.
  intros E. pose proof E as E'. unfold validate_declared in E. cbv zeta in E. res_inv.
  repeat match goal with H : add_present _ _ _ = Ok _ |- _ => apply add_present_Ok in H as [? ?] end.
  eexists. split; [|erewrite <- validate_declared_present; [exact E'|]].
  all: unfold declarations; repeat match goal with H : _ = Some <$> _ |- _ => apply mapM_id_Some in H; rewrite H end; reflexivity.
Qed.

Lemma load_Ok_inv doc p : Load_pack doc = Ok p ->
  exists text rest g q, read_item doc = Some (text, rest) /\ decode_as true pack_shape (zero pack_shape) text = Ok g /\
    declarations (to_declared g) = Some q /\ validate_pack q = Ok p.
Proof.
  unfold Load_pack, Decode. destruct (read_item doc) as [[text rest]|]; [|done].
  destruct (decode_as true pack_shape (zero pack_shape) text) as [g|] eqn:Eg; [|done].
  intros E. apply validate_declared_Ok in E as (q & Hq & Hv). by exists text, rest, g, q.
Qed.

(** C25. A pack document that loads is strict and sound. Every name in it,
    at any depth, is a field the register knows, so that a misspelt rule is
    refused and not ignored; no declaration in it is nil; and the pack it
    gives is one the register can run (coherent roles; classes encrypted
    exactly when they mark personal data, which reaches neither natural
    keys nor projected columns; references, workflows, queries and policies
    over classes and roles that exist; names distinct). Only the first
    value of the document counts: what follows it is not read. *)
Theorem loaded_pack_sound doc p : Load_pack doc = Ok p ->
  pack_sound p /\
  (exists text rest, read_item doc = Some (text, rest) /\ names_known pack_shape text /\
    forall doc' rest', read_item doc' = Some (text, rest') -> Load_pack doc' = Ok p).
Proof.
  intros E. pose proof E as (text & rest & g & q & Hi & Hd & Hq & Hv)%load_Ok_inv. split; [by eapply validated_pack_sound|].
  exists text, rest. split; [done|]. split; [by eapply decoded_names|]. intros doc' rest' Hm.
  unfold Load_pack, Decode in E |- *. by rewrite Hi in E; rewrite Hm.
Qed.

(** A document with a nil class does not load: past the checks before it,
    the program panics. *)
Lemma nil_class_panics doc g : Decode pack_shape doc = Ok g -> None ∈ dc_Classes (to_declared g) ->
  exists e, Load_pack doc = Err e.
Proof.
  intros Hd Hin. unfold Load_pack. rewrite Hd. destruct (validate_declared (to_declared g)) as [p|e] eqn:E; [|by eexists].
  exfalso. apply validate_declared_Ok in E as (q & Hq & _). unfold declarations in Hq.
  destruct (mapM id (dc_Classes (to_declared g))) as [cs|] eqn:Ec; [|done]. apply mapM_id_Some in Ec. rewrite Ec in Hin.
  apply list_elem_of_fmap in Hin as (? & ? & _). done.
Qed.
End load.

(** ** Small documents *)
Definition demo_doc : string := dquote
  "{'name':'demo','version':'1','roles':[{'name':'clerk','oidc_roles':['c'],'permissions':['read','propose']}],'classes':[{'name':'person','statuses':['active'],'initial_status':'active','schema':{'type':'object','properties':{'name':{'type':'string'}}}}],'workflows':null} and more".
Definition nil_doc : string := dquote
  "{'name':'demo','version':'1','roles':[{'name':'clerk','oidc_roles':['c'],'permissions':['read']}],'classes':[null]}".
Definition stray_doc : string := dquote "{'name':'demo','version':'1','roles':[],'classes':[{'name':'person','statusses':['active']}]}".
(** A field given twice: the second array is decoded over the first. *)
Definition twice_doc : string := dquote "{'name':'a','roles':[{'name':'x','pii':true},{'name':'y'}],'roles':[{'title':'X'}]}".

Section documents.
#[local] Existing Instance plain_formats.

Lemma loaded_pack_sound_witness : exists p, Load_pack demo_doc = Ok p /\ pack_sound p.
Proof.
  destruct (Load_pack demo_doc) as [p|e] eqn:E; [|exfalso; vm_compute in E; discriminate E].
  exists p. split; [reflexivity|]. exact (proj1 (loaded_pack_sound demo_doc p E)).
Defined.
Example nil_doc_panics : Load_pack nil_doc = Err nil_panic.
Proof. vm_compute. reflexivity. Qed.
Example stray_doc_refused : Load_pack stray_doc = Err (Wrapf "pack: %w" [] (Errorf "json: unknown field %q" ["statusses"])).
Proof. vm_compute. reflexivity. Qed.
Example twice_doc_merges :
  match Decode pack_shape twice_doc with
  | Ok g => map (fun r => (rs_Name r, rs_Title r, rs_PII r)) (list_of to_role g "roles")
  | Err _ => []
  end = [("x", "X", true)].
Proof. vm_compute. reflexivity. Qed.
End documents.
