(* ===== verification/Mail.v ===== *)
(** * The email sender ([internal/mail/mail.go])

    An installation's settings and how a configure call completes them,
    the text of an invitation, and the two requests that send it: one for
    an access token, which is kept until it is about to expire, and one
    that carries the message. *)

From S2P Require Import Prelude GoStrings Float64 Encoding Canon Json Sql GoJson Rbac Model World Checkpoints Workflow Tokens Requests.
Local Open Scope Z_scope.

Record Settings := mkSettings {
  ms_TenantID : string;
  ms_ClientID : string;
  ms_ClientSecret : string;
  ms_Sender : string;
  ms_BaseURL : string;
  ms_Office : string;
  ms_Organisation : string;
  ms_SignInMethod : string;
  ms_SupportEmail : string;
  ms_Production : bool;
}.
#[export] Instance Settings_eq_dec : EqDecision Settings.
Proof. solve_decision. Defined.
Definition no_settings : Settings := mkSettings "" "" "" "" "" "" "" "" "" false.

(** What lies outside: the clock in nanoseconds and the answers to POST
    requests ([None]: not reached), each by the number of the reading or
    request; the address grammar of [net/mail] (address and display name);
    the template engine and the entities of HTML. *)
Class Outbox := {
  mail_ns : nat -> Z;
  http_post : nat -> string -> list (string * string) -> string -> option (Z * string);
  ParseAddress : string -> option (string * string);
  template_execute : string -> object -> res string;
  html_Unescape : string -> string;
}.

Definition first (a b : string) : string := if String.eqb a "" then b else a.
(** [Settings.Merge]: [s] over what is held. *)
Definition Merge (s held : Settings) : Settings :=
  mkSettings (first (ms_TenantID s) (ms_TenantID held)) (first (ms_ClientID s) (ms_ClientID held))
    (first (ms_ClientSecret s) (ms_ClientSecret held)) (first (ms_Sender s) (ms_Sender held))
    (first (ms_BaseURL s) (ms_BaseURL held)) (first (ms_Office s) (ms_Office held))
    (first (ms_Organisation s) (ms_Organisation held)) (first (ms_SignInMethod s) (ms_SignInMethod held))
    (first (ms_SupportEmail s) (ms_SupportEmail held)) (ms_Production s || ms_Production held).

Record Invitation := mkInvitation {
  ml_To : string;
  ml_Name : string;
  ml_Organisation : string;
  ml_RoleTitle : string;
  ml_RoleSummary : string;
  ml_Link : string;
  ml_ExpiresAt : Z;
  ml_Reminder : bool;
}.
(** A [Mailer]: its settings and template, and the token it keeps. *)
Record Mailer := mkMailer {
  mr_settings : Settings;
  mr_invitation : string;
  mr_token : string;
  mr_expires : Z;
  mr_tick : nat;
}.

(** ** Text *)

(** The subject: what the first [<title>] of a page holds. *)
Fixpoint index_text (s p : string) : option nat :=
  if HasPrefix s p then Some 0%nat
  else match s with EmptyString => None | String _ s => S <$> index_text s p end.
Definition page_title (page : string) : option string :=
  i ← index_text page "<title>";
  let rest := str_drop (i + 7) page in
  j ← index_text rest "</title>"; Some (str_take j rest).

(** [time.Format("2 January 2006")]. *)
Definition month_name (m : Z) : string :=
  nth (Z.to_nat (m - 1)) ["January"; "February"; "March"; "April"; "May"; "June"; "July"; "August"; "September";
                          "October"; "November"; "December"] "".
Definition format_long_date (t : Z) : string :=
  let '(y, m, d) := civil_of_days (t / 86400) in itoa d +:+ " " +:+ month_name m +:+ " " +:+ pad 4 (itoa y).

(** [url.PathEscape] and [url.QueryEscape]. *)
Definition hex_upper (n : Z) : ascii := if n <? 10 then Z_byte (48 + n) else Z_byte (55 + n).
Definition unreserved (a : ascii) : bool :=
  let c := byte_Z a in
  ((97 <=? c) && (c <=? 122)) || ((65 <=? c) && (c <=? 90)) || ((48 <=? c) && (c <=? 57))
  || existsb (Ascii.eqb a) ["-"; "_"; "."; "~"]%char.
Fixpoint escape (query : bool) (s : string) : string :=
  match s with
  | EmptyString => ""
  | String a s =>
      let rest := escape query s in
      if unreserved a || (negb query && existsb (Ascii.eqb a) ["$"; "&"; "+"; ":"; "="; "@"]%char) then String a rest
      else if query && Ascii.eqb a " " then String "+" rest
      else String "%" (String (hex_upper (byte_Z a / 16)) (String (hex_upper (byte_Z a mod 16)) rest))
  end.
Definition PathEscape := escape false.
Definition QueryEscape := escape true.
(** [url.Values.Encode] of single values, in key order. *)
Definition form_encode (form : list (string * string)) : string :=
  Join (map (fun kv => QueryEscape kv.1 +:+ "=" +:+ QueryEscape kv.2) form) "&".

Section mail.
Context `{Outbox}.

(** ** Settings *)

Definition plainAddress (s : string) : bool :=
  match ParseAddress s with Some (address, name) => String.eqb address s && String.eqb name "" | None => false end.
Definition ValidAddress (s : string) : bool := (len s <=? 254) && plainAddress s.
Definition Validate (s : Settings) : res unit :=
  if String.eqb (ms_TenantID s) "" || String.eqb (ms_ClientID s) "" || String.eqb (ms_ClientSecret s) ""
  then Err (Errorf "mail: tenant_id, client_id and client_secret are all needed" [])
  else if negb (plainAddress (ms_Sender s)) then Err (Errorf "mail: sender must be an email address" [])
  else refuse_if (negb (HasPrefix (ms_BaseURL s) "https://")) (Errorf "mail: base_url must be https" []).

(** [mail.New], of the template file as it was read. *)
Definition New (s : Settings) (template : res string) : res Mailer :=
  _ ← Validate s;
  match template with
  | Err e => Err (Wrapf "mail: %w" [] e)
  | Ok t => Ok (mkMailer s t "" 0 0)
  end.

(** ** An invitation *)

Definition page_values (s : Settings) (inv : Invitation) : object :=
  let base := TrimRight1 "/" (ms_BaseURL s) in
  [("BaseURL", VStr base); ("AcceptURL", VStr (base +:+ ml_Link inv)); ("RecipientName", VStr (ml_Name inv));
   ("InvitedBy", VStr (ms_Office s)); ("RoleTitle", VStr (ml_RoleTitle inv)); ("RoleSummary", VStr (ml_RoleSummary inv));
   ("OrganisationName", VStr (first (ml_Organisation inv) (ms_Organisation s))); ("OrganisationAdmin", VBool false);
   ("SignInMethod", VStr (ms_SignInMethod s)); ("SupportEmail", VStr (ms_SupportEmail s));
   ("ExpiresOn", VStr (format_long_date (ml_ExpiresAt inv))); ("Reminder", VBool (ml_Reminder inv));
   ("TestNotice", VBool (negb (ms_Production s)))].
Definition render_page (m : Mailer) (inv : Invitation) : res (string * string) :=
  match template_execute (mr_invitation m) (page_values (mr_settings m) inv) with
  | Err e => Err (Wrapf "mail: %w" [] e)
  | Ok page =>
      match page_title page with
      | None => Err (Errorf "mail: the invitation template has no title" [])
      | Some title => Ok (html_Unescape (TrimSpace title), page)
      end
  end.

(** ** The two requests *)

Definition step_clock (m : Mailer) : Mailer := mkMailer (mr_settings m) (mr_invitation m) (mr_token m) (mr_expires m) (S (mr_tick m)).
Definition keep_token (token : string) (expires : Z) (m : Mailer) : Mailer :=
  mkMailer (mr_settings m) (mr_invitation m) token expires (mr_tick m).
Definition token_form (s : Settings) : string :=
  form_encode [("client_id", ms_ClientID s); ("client_secret", ms_ClientSecret s); ("grant_type", "client_credentials");
               ("scope", "https://graph.microsoft.com/.default")].
Definition token_answer (answer : string) : res (string * Z) :=
  match read_document [("access_token", KString); ("expires_in", KInt); ("error", KString)] (limited (2 ^ 20) answer) with
  | Err _ => Err (Errorf "mail: the Microsoft sign-in gave an unreadable answer" [])
  | Ok b =>
      if String.eqb (str_field b "access_token") ""
      then Err (Errorf "mail: the Microsoft sign-in refused the app registration: %s" [str_field b "error"])
      else Ok (str_field b "access_token", int_field b "expires_in")
  end.
Definition ask_token (m : Mailer) : res string * Mailer :=
  let url := "https://login.microsoftonline.com/" +:+ PathEscape (ms_TenantID (mr_settings m)) +:+ "/oauth2/v2.0/token" in
  match http_post (mr_tick m) url [("Content-Type", "application/x-www-form-urlencoded")] (token_form (mr_settings m)) with
  | None => (Err (Errorf "mail: the Microsoft sign-in could not be reached" []), step_clock m)
  | Some (_, answer) =>
      match token_answer answer with
      | Err e => (Err e, step_clock m)
      | Ok (token, seconds) =>
          let now := mail_ns (S (mr_tick m)) in
          (Ok token, keep_token token (now + to_int64 (to_int64 (seconds - 60) * 10 ^ 9)) (step_clock (step_clock m)))
      end
  end.
Definition accessToken (m : Mailer) : res string * Mailer :=
  if String.eqb (mr_token m) "" then ask_token m
  else if mail_ns (mr_tick m) <? mr_expires m then (Ok (mr_token m), step_clock m)
  else ask_token (step_clock m).

(** The error's code of a refusal, when its body can be read; what is of
    the wrong type is passed over. *)
Definition error_members (ms : list (string * value)) : object :=
  ms ≫= (fun kv => match kv.2 with VObj m => if String.eqb (fold_name kv.1) "error" then m else [] | _ => [] end).
Definition graphCode (answer : string) : string :=
  match (ms ← first_object (limited (2 ^ 16) answer); fill_known false [("code", KString)] (error_members ms) ∅) with
  | Ok b => str_field b "code"
  | Err _ => ""
  end.
Definition message_of (to subject page : string) : value :=
  VObj [("message", VObj [("body", VObj [("content", VStr page); ("contentType", VStr "HTML")]);
                          ("subject", VStr subject);
                          ("toRecipients", VArr [VObj [("emailAddress", VObj [("address", VStr to)])]])]);
        ("saveToSentItems", VBool false)].
Definition send (to subject page : string) (m : Mailer) : res unit * Mailer :=
  match accessToken m with
  | (Err e, m) => (Err e, m)
  | (Ok token, m) =>
      match go_json (message_of to subject page) with
      | Err e => (Err e, m)
      | Ok payload =>
          let url := "https://graph.microsoft.com/v1.0/users/" +:+ PathEscape (ms_Sender (mr_settings m)) +:+ "/sendMail" in
          (match http_post (mr_tick m) url [("Authorization", "Bearer " +:+ token); ("Content-Type", "application/json")] payload with
           | None => Err (Errorf "mail: Microsoft Graph could not be reached" [])
           | Some (status, answer) =>
               if status =? 202 then Ok tt
               else Err (Errorf "mail: Microsoft Graph refused the message: %d %s" [itoa status; graphCode answer])
           end, step_clock m)
      end
  end.
Definition SendInvitation (inv : Invitation) (m : Mailer) : res unit * Mailer :=
  if negb (ValidAddress (ml_To inv)) then (Err (Errorf "mail: not a usable address" []), m)
  else match render_page m inv with
       | Err e => (Err e, m)
       | Ok (subject, page) => send (ml_To inv) subject page m
       end.

(** ** Facts *)

(** A call that names nothing keeps what is held, and what a call names it
    sets: completing settings over several calls never loses a field. *)
Lemma first_idem a b : first (first a b) b = first a b.
Proof. unfold first. destruct (String.eqb a "") eqn:E; [by destruct (String.eqb b "")|by rewrite E]. Qed.
Lemma Merge_held held : Merge no_settings held = held.
Proof. by destruct held. Qed.
Lemma Merge_again s held : Merge s (Merge s held) = Merge s held.
Proof.
  unfold Merge; cbn. f_equal; try (unfold first; case_match; done). by destruct (ms_Production s).
Qed.

(** A token that has not expired is used again: no request is made for it,
    and the mailer keeps it. *)
Lemma token_kept m : mr_token m <> "" -> mail_ns (mr_tick m) < mr_expires m -> accessToken m = (Ok (mr_token m), step_clock m).
Proof. intros Ht%String.eqb_neq Hc%Z.ltb_lt. unfold accessToken. by rewrite Ht, Hc. Qed.

(** Nothing is asked of the network for an address that is not one. *)
Lemma refused_address inv m : ValidAddress (ml_To inv) = false -> exists e, SendInvitation inv m = (Err e, m).
Proof. intros Hv. unfold SendInvitation. rewrite Hv. by eexists. Qed.
End mail.
