(* ===== verification/Hooks.v ===== *)
(** * Webhooks ([internal/webhook/webhook.go])

    The dispatcher: a bounded queue of events, a worker that posts each to
    the subscribers it concerns, three tries at most, and the outcomes
    kept in memory. Nothing here reaches the ledger. *)

From S2P Require Import Prelude GoStrings Float64 Encoding Canon Json SqlText Sql GoJson Model World Commit.
Local Open Scope Z_scope.

Definition EventTransaction := "transaction.committed".
Definition EventCheckpoint := "checkpoint.issued".

Record job := mkJob { jb_event : string; jb_tenant : string; jb_id : string; jb_payload : string }.
Record Delivery := mkDelivery {
  dl_Webhook : string;
  dl_Event : string;
  dl_ID : string;
  dl_Status : string;
  dl_Error : string;
  dl_Finished : Z;
}.
(** What a dispatcher keeps: its queue, the outcomes oldest first, and the
    number of the next request or reading of the clock. *)
Record Dispatcher := mkDispatcher { dp_queue : list job; dp_deliveries : list Delivery; dp_tick : nat }.
Definition New_Dispatcher : Dispatcher := mkDispatcher [] [] 0.
Definition queue_capacity : nat := 256.
Definition maxDeliveries : nat := 200.

(** What lies outside: the status a subscriber answers a POST with, by the
    number of the request, or why it was not reached; the text
    [http.NewRequest] refuses a URL with; whether the dispatcher is being
    closed when a retry would wait; and the clock. *)
Class Subscribers := {
  bad_url : string -> option string;
  hook_post : nat -> string -> list (string * string) -> string -> Z + string;
  closing : nat -> bool;
  hook_clock : nat -> Z;
}.

(** ** Queueing *)

(** A map's members are printed in key order. *)
Fixpoint sort_maps (v : value) : value :=
  match v with
  | VObj m =>
      let m' := map (fun kv => (kv.1, sort_maps kv.2)) m in
      VObj (map (fun k => (k, default VNull (obj_get k m'))) (sort_strings (obj_keys m')))
  | VArr l => VArr (map sort_maps l)
  | _ => v
  end.
Definition op_json (o : WriteOp) : value :=
  op_value (mkWriteOp (Table o) (match sort_maps (VObj (Key o)) with VObj m => m | _ => [] end)
              (match sort_maps (VObj (Values o)) with VObj m => m | _ => [] end) (Delete o)).
Definition tx_json (t : Transaction) : value :=
  VObj ([("seq", VInt (tx_Seq t)); ("txid", VStr (tx_TxID t)); ("envelope", env_value (tx_Envelope t));
         ("write_set", match tx_WriteSet t with [] => VNull | ops => VArr (map op_json ops) end); ("state", VStr (tx_State t));
         ("root_before", VStr (tx_RootBefore t)); ("version_before", VInt (tx_VersionBefore t))]
        ++ (if tx_VersionAfter t =? 0 then [] else [("version_after", VInt (tx_VersionAfter t))])).
Definition job_of (n : note) : option job :=
  match n with
  | TransactionCommitted tx =>
      match go_json (VObj [("event", VStr EventTransaction); ("transaction", tx_json tx)]) with
      | Ok payload => Some (mkJob EventTransaction (Tenant (tx_Envelope tx)) (tx_TxID tx) payload)
      | Err _ => None
      end
  | CheckpointIssued sc =>
      match go_json (VObj [("checkpoint", signed_value sc); ("event", VStr EventCheckpoint)]) with
      | Ok payload => Some (mkJob EventCheckpoint "" ("checkpoint-" +:+ itoa (cp_Version (sc_Checkpoint sc))) payload)
      | Err _ => None
      end
  end.
(** A full queue drops the notification. *)
Definition enqueue (j : job) (d : Dispatcher) : Dispatcher :=
  if Nat.ltb (length (dp_queue d)) queue_capacity
  then mkDispatcher (dp_queue d ++ [j]) (dp_deliveries d) (dp_tick d) else d.
Definition Notify (n : note) (d : Dispatcher) : Dispatcher := match job_of n with Some j => enqueue j d | None => d end.

(** ** Delivering *)
Section deliver.
Context `{Runtime} `{!Subscribers}.

Definition concerns (j : job) (row : Row) : bool :=
  negb (negb (String.eqb (jb_tenant j) "") && negb (String.eqb (Str row "tenant") "") && negb (String.eqb (Str row "tenant") (jb_tenant j)))
  && negb (negb (String.eqb (Str row "events") "") && negb (Contains (Str row "events") (jb_event j))).
Definition hook_headers (secret : string) (j : job) : list (string * string) :=
  [("Content-Type", "application/json"); ("X-Register-Event", jb_event j); ("X-Register-Delivery", jb_id j);
   ("X-Register-Signature", "sha256=" +:+ hex_encode (hmac_sha256 secret (jb_payload j)))].

(** The attempts that are left, after one that ended with [last]. *)
Fixpoint attempts (n : nat) (url secret : string) (j : job) (last : string) (t : nat) : (string * string) * nat :=
  match n with
  | O => (("failed", last), t)
  | S n =>
      let again last := if closing t then (("failed", last), S t) else attempts n url secret j last (S t) in
      match hook_post t url (hook_headers secret j) (jb_payload j) with
      | inl status => if status <? 300 then (("delivered", ""), S t) else again ("status " +:+ itoa status)
      | inr why => again why
      end
  end.
Definition post (url secret : string) (j : job) (t : nat) : (string * string) * nat :=
  match bad_url url with Some why => (("failed", why), t) | None => attempts 3 url secret j "" t end.

Definition keep_last {A} (n : nat) (l : list A) : list A := drop (length l - n) l.
Definition record (webhook : string) (j : job) (outcome : string * string) (d : Dispatcher) : Dispatcher :=
  let entry := mkDelivery webhook (jb_event j) (jb_id j) outcome.1 outcome.2 (hook_clock (dp_tick d)) in
  mkDispatcher (dp_queue d) (keep_last maxDeliveries (dp_deliveries d ++ [entry])) (S (dp_tick d)).
Definition deliver_row (j : job) (d : Dispatcher) (row : Row) : Dispatcher :=
  if concerns j row then
    let '(outcome, t) := post (Str row "url") (Bytes row "secret") j (dp_tick d) in
    record (Str row "id") j outcome (mkDispatcher (dp_queue d) (dp_deliveries d) t)
  else d.
Definition subscribers : M (list Row) := query (SSelect "webhooks" [is_ "active" (VBool true)] None None).
Definition deliver (j : job) (d : Dispatcher) : M Dispatcher :=
  rows ← attempt subscribers;
  mret (match rows with Some rows => fold_left (deliver_row j) rows d | None => d end).

(** One turn of the worker. *)
Definition turn (d : Dispatcher) : M Dispatcher :=
  match dp_queue d with
  | [] => mret d
  | j :: queue => deliver j (mkDispatcher queue (dp_deliveries d) (dp_tick d))
  end.
(** [Dispatcher.Deliveries]: newest first. *)
Definition Deliveries (d : Dispatcher) : list Delivery := reverse (dp_deliveries d).

(** ** What holds of every dispatcher

    A dispatcher starts empty, is told of commits and checkpoints, and its
    worker takes turns over whatever the store holds by then. *)
Inductive running : Dispatcher -> Prop :=
  | running_new : running New_Dispatcher
  | running_note n d : running d -> running (Notify n d)
  | running_turn d w d' w' : running d -> turn d w = (Ok d', w') -> running d'.

Definition outcome_sound (o : string * string) : Prop := o = ("delivered", "") \/ o.1 = "failed".
Definition delivery_sound (e : Delivery) : Prop := outcome_sound (dl_Status e, dl_Error e).
Record bounded (d : Dispatcher) : Prop := {
  bd_queue : (length (dp_queue d) <= queue_capacity)%nat;
  bd_deliveries : (length (dp_deliveries d) <= maxDeliveries)%nat;
  bd_outcomes : Forall delivery_sound (dp_deliveries d);
}.

Lemma attempts_sound url secret j : forall n last t, outcome_sound (attempts n url secret j last t).1.
Proof.
  induction n as [|n IH]; intros last t; cbn; [by right|].
  destruct (hook_post _ _ _ _) as [status|why]; [destruct (status <? 300); [by left|]|]; destruct (closing t); try (by right); apply IH.
Qed.
Lemma post_sound url secret j t : outcome_sound (post url secret j t).1.
Proof. unfold post. destruct (bad_url url); [by right|]. apply attempts_sound. Qed.

Lemma keep_last_length {A} n (l : list A) : (length (keep_last n l) <= n)%nat.
Proof. unfold keep_last. rewrite length_drop. lia. Qed.
Lemma Forall_keep_last {A} (P : A -> Prop) n l : Forall P l -> Forall P (keep_last n l).
Proof. apply Forall_drop. Qed.

Lemma bounded_deliver_row j d row : bounded d -> bounded (deliver_row j d row).
Proof.
  intros [Hq Hd Ho]. unfold deliver_row. destruct (concerns j row); [|done].
  pose proof (post_sound (Str row "url") (Bytes row "secret") j (dp_tick d)) as Hs.
  destruct (post _ _ _ _) as [outcome t]. split; cbn [record dp_queue dp_deliveries].
  - done.
  - apply keep_last_length.
  - apply Forall_keep_last, Forall_app. split; [done|]. apply Forall_singleton. by destruct outcome.
Qed.
Lemma bounded_rows j rows : forall d, bounded d -> bounded (fold_left (deliver_row j) rows d).
Proof. induction rows as [|row rows IH]; intros d Hd; [done|]. by apply IH, bounded_deliver_row. Qed.
Lemma bounded_Notify n d : bounded d -> bounded (Notify n d).
Proof.
  intros [Hq Hd Ho]. unfold Notify. destruct (job_of n) as [j|]; [|done]. unfold enqueue. case_match eqn:E; [|done].
  apply Nat.ltb_lt in E. split; cbn; [rewrite length_app; cbn; lia|done..].
Qed.

Lemma ro_deliver j d : ro (deliver j d).
Proof. unfold deliver, subscribers. ro_tac. Qed.
Lemma ro_turn d : ro (turn d).
Proof. unfold turn. destruct (dp_queue d); [apply ro_ret|apply ro_deliver]. Qed.

Lemma bounded_turn d w d' w' : bounded d -> turn d w = (Ok d', w') -> bounded d'.
Proof.
  intros [Hq Hd Ho] E. unfold turn in E. destruct (dp_queue d) as [|j queue] eqn:Eq.
    apply M_ret_inv in E as [[= ->] ->]. split; [by rewrite Eq|done..].
  - unfold deliver in E. apply M_bind_Ok in E as (rows & w1 & _ & E). apply M_ret_inv in E as [[= ->] ->].
    assert (bounded (mkDispatcher queue (dp_deliveries d) (dp_tick d))) as Hb by (split; cbn in *; [lia|done..]).
    destruct rows; [by apply bounded_rows|done].
Qed.

(** However long a dispatcher runs and whatever its subscribers answer,
    at most 256 events wait, at most the last 200 outcomes are kept, and
    each says the event was delivered or that it failed; and a turn of its
    worker leaves the ledger as it was: no subscriber's answer is ever part
    of the register's state. *)
Lemma dispatcher_bounded d w r w' : running d -> turn d w = (r, w') ->
  bounded d /\ length (Deliveries d) = length (dp_deliveries d) /\ same_db w w'.
Proof.
  intros Hr Et. split; [|split].
  - clear Et. induction Hr as [|n d _ IH|d v d' v' _ IH E]; [|by apply bounded_Notify|by eapply bounded_turn].
    split; cbn; [lia|lia|constructor].
  - apply length_reverse.
  - by eapply ro_turn.
Qed.
End deliver.
