(* ===== verification/Api.v ===== *)
(** * The HTTP interface ([internal/api])

    Who is calling, what their role permits, and one handler per endpoint
    over the calls of the register. A request is one step of a [system]:
    the register's world, the verifier's key cache, the email sender and
    the server's own position in its lifecycle. Answers are typed; their
    rendering as JSON is not modelled. The pages beside the interface are
    not modelled either: a request no endpoint matches is theirs. *)

From S2P Require Import Prelude GoStrings Float64 Encoding Canon Json SqlText Sql GoJson Model World Commit Rbac JsonSchema Pack Records.
From S2P Require Import Workflow Identities Members Retention Anchors Checkpoints Auditing Queries Admin Standby Tokens Requests Mail Hooks.
Local Open Scope Z_scope.

Definition StateAwaitingConfiguration := "awaiting_configuration".
Definition StateReady := "ready".
Definition StateFailed := "failed".

(** [auth.Verifier]: one of the two implementations. *)
Inductive Verifier := DevVerifier | OIDC (v : JWKSVerifier).

(** What changes while a server runs. *)
Record system := mkSystem {
  sy_world : world;
  sy_keys : KeyCache;
  sy_state : string;
  sy_failure : string;
  sy_reg : option (Register * Verifier);
  sy_mailer : option Mailer;
  sy_standby : option object;                 (* what Standby reports; None: no such callback *)
  sy_deliveries : option (list Delivery);     (* what Deliveries reports *)
}.
(** What does not: the fields of [Server] set before it listens. *)
Record Server := mkServer {
  sv_Version : string;
  sv_Name : string;
  sv_Manifest : string;
  sv_TrustSession : bool;
  sv_ClientID : string;
  sv_AppID : string;
  sv_SignInProviders : list string;
  sv_Join : option string;                    (* the adopter site, by its join page *)
  sv_Configure : option (string -> system -> res (Register * Verifier) * system);
  sv_ConfigureMail : option (string -> system -> res string * system);
}.

(** [auth.Identity] as a handler sees it. *)
Record Caller := mkCaller { cl_Identity : Identity; cl_Assurance : string }.

Inductive answer :=
  | AHealth (state failure : string)
  | AReadiness
  | AScript (text : string)
  | AVersion (version name : string)
  | AManifest (document : string)
  | AConfigured (status : string) (admins_added : option Z) (invite : option (string * string)) (mail : option string)
      (register : option Status)
  | AStatus (s : Status)
  | AMe (c : Caller) (tenant : string) (member : res Principal) (titles : list (string * string))
  | AMembers (members : list Member) (roles : list RoleSpec)
  | ATransaction (t : Transaction)
  | AInvites (l : list Invite)
  | AInvite (inv : Invite) (link : option string) (email email_error : string)
  | AInvitation (role title label : string) (expires : Z)
  | ARedeemed (role : string) (t : Transaction)
  | APack (p : Pack) (classes : list (Class_ * list string * list Projection)) (workflows : list (Workflow * bool * bool))
      (roles : list RoleSpec)
  | ARecords (l : list ObjectSummary)
  | ARecord (v : RecordView)
  | AHistory (l : list HistoryEntry)
  | ATasks (l : list Task)
  | ATask (t : Task)
  | AOutcome (o : Outcome)
  | ALog (l : list Transaction)
  | ATransactionDetail (d : TransactionDetail)
  | AQueries (l : list NamedQuery)
  | ARows (l : list Row)
  | AEvidence (b : EvidenceBundle)
  | ACheckpoints (l : list SignedCheckpoint)
  | ACheckpoint (c : option SignedCheckpoint)
  | AKey (id public : string)
  | AHorizons (l : list PruneHorizon)
  | APruned (r : PruneResult)
  | AErased (r : ErasureResult)
  | ARecovery (m : RecoveryMaterial)
  | AExport (c : ExportChunk)
  | AStandby (report : object)
  | AWebhook (h : Webhook) (t : Transaction)
  | AWebhooks (l : list Webhook) (deliveries : option (list Delivery))
  | ALookup (bundle : EvidenceBundle) (record : option RecordView)
  | ASummaries (l : list (string * Z * string * string * string * string * string * Z))
  | ALineage (r : LineageReport)
  | ARoots (r : RootRange)
  | AChanges (t : Transition)
  | AVerified (from : Z)
  | AAudit (r : AuditResult).
Inductive reply :=
  | Answer (a : answer)
  | Refusal (message detail : string).
Record Response := mkResponse { rs_status : Z; rs_reply : reply }.

(** ** Steps of a system *)
Definition H (A : Type) : Type := system -> res A * system.
#[export] Instance H_ret : MRet H := fun _ a s => (Ok a, s).
#[export] Instance H_bind : MBind H := fun _ _ k m s => match m s with (Ok a, s') => k a s' | (Err e, s') => (Err e, s') end.
#[export] Instance H_fmap : FMap H := fun _ _ f m => a ← m; mret (f a).
Definition set_world (w : world) (s : system) : system :=
  mkSystem w (sy_keys s) (sy_state s) (sy_failure s) (sy_reg s) (sy_mailer s) (sy_standby s) (sy_deliveries s).
Definition set_keys (k : KeyCache) (s : system) : system :=
  mkSystem (sy_world s) k (sy_state s) (sy_failure s) (sy_reg s) (sy_mailer s) (sy_standby s) (sy_deliveries s).
Definition set_mailer (m : option Mailer) (s : system) : system :=
  mkSystem (sy_world s) (sy_keys s) (sy_state s) (sy_failure s) (sy_reg s) m (sy_standby s) (sy_deliveries s).
Definition from_res {A} (r : res A) : H A := fun s => (r, s).
(** A call of the register, and one of the verifier. *)
Definition on {A} (m : M A) : H A := fun s => let '(r, w) := m (sy_world s) in (r, set_world w s).
Definition look {A} (f : system -> A) : H A := fun s => (Ok (f s), s).
Definition with_keys {A} (t : T A) : H A := fun s => let '(r, k) := t (sy_keys s) in (r, set_keys k s).
Definition wrapping_H {A} (fmt : string) (args : list string) (m : H A) : H A := fun s =>
  match m s with (Ok a, s') => (Ok a, s') | (Err e, s') => (Err (Wrapf fmt args e), s') end.

(** [Server.Ready] and [Server.Fail]. *)
Definition Ready (reg : Register) (v : Verifier) (s : system) : system :=
  mkSystem (sy_world s) (sy_keys s) StateReady "" (Some (reg, v)) (sy_mailer s) (sy_standby s) (sy_deliveries s).
Definition FailWith (text : string) (s : system) : system :=
  mkSystem (sy_world s) (sy_keys s) StateFailed text (sy_reg s) (sy_mailer s) (sy_standby s) (sy_deliveries s).
(** [Server.register]: the register, when the server is ready. *)
Definition running_register (s : system) : option (Register * Verifier) :=
  if String.eqb (sy_state s) StateReady then sy_reg s else None.

(** A path pattern, and the values it binds. *)
Inductive segment := Lit (s : string) | Wild (name : string).
Fixpoint match_path (pattern : list segment) (path : list string) : option (list (string * string)) :=
  match pattern, path with
  | [], [] => Some []
  | Lit l :: pattern, s :: path => if String.eqb l s then match_path pattern path else None
  | Wild name :: pattern, s :: path => if String.eqb s "" then None else (fun b => (name, s) :: b) <$> match_path pattern path
  | _, _ => None
  end.
Definition match_method (pattern method : string) : bool :=
  String.eqb pattern method || (String.eqb pattern "GET" && String.eqb method "HEAD").
Definition wild_name (s : string) : option string :=
  match s with
  | String "{" rest => Some (str_take (String.length rest - 1) rest)
  | _ => None
  end.
(** The pattern as the router is given it: a method and a path. *)
Definition segments_of (path : string) : list segment :=
  map (fun s => match wild_name s with Some n => Wild n | None => Lit s end) (Split1 (str_drop 1 path) "/").

(** What a handler is called with. *)
Record request := mkCall {
  ca_Request : Request;
  ca_Path : list (string * string);
  ca_Register : Register;
  ca_Caller : Caller;
  ca_Tenant : string;
}.
Definition PathValue (c : request) (name : string) : string := default "" (assoc name (ca_Path c)).

Section api.
Context `{Runtime} `{GoFormats} `{!Ledger} `{!Replication} `{!Provider} `{!Outbox}.
Variable parse_float : string -> option float64.
Variable ledger_prune : tables -> Z -> res Z.
Variable sv : Server.

(** ** Who is calling *)

Definition Verify_ (v : Verifier) (token : string) : T VerifiedIdentity :=
  match v with DevVerifier => pure_ (DevVerify token) | OIDC v => Verify v token end.
Definition session_caller (reg : Register) (r : Request) (sub : string) : H Caller :=
  if 256 <? len sub then from_res (Err (Errorf "the session subject is malformed" []))
  else
    let level := Header r "X-Privasys-Attestation-Level" in
    let assurance := if containsString ["verified"; "unverified"] level then level else "" in
    let '(email, name) := assertedProfile r in
    profile ← wrapping_H "identity lookup: %w" [] (on (SeeIdentity reg sub email name));
    mret (mkCaller (mkIdentity sub (pf_Name profile) (pf_Email profile) [] []) assurance).
Definition token_caller (v : Verifier) (r : Request) : H Caller :=
  let authorization := Header r "Authorization" in
  if negb (HasPrefix authorization "Bearer ") then from_res (Err (Errorf "sign in, or present a bearer token" []))
  else id ← with_keys (Verify_ v (TrimPrefix authorization "Bearer ")); mret (mkCaller (vi_Identity id) "").
Definition by_session (r : Request) : bool := sv_TrustSession sv && negb (String.eqb (TrimSpace (Header r "X-Privasys-Sub")) "").
Definition tenant_of (reg : Register) (r : Request) : string :=
  let t := Header r "X-Register-Tenant" in if String.eqb t "" then opt_Tenant (opts reg) else t.
Definition with_granted (c : Caller) (granted : list string) (display : string) : Caller :=
  let id := cl_Identity c in
  mkCaller (mkIdentity (id_Sub id) (if String.eqb (id_Display id) "" then display else id_Display id) (id_Email id) (id_Roles id) granted)
    (cl_Assurance c).
Definition identify (reg : Register) (v : Verifier) (r : Request) : H (Caller * string) :=
  c ← (if by_session r then session_caller reg r (TrimSpace (Header r "X-Privasys-Sub")) else token_caller v r);
  let tenant := tenant_of reg r in
  g ← wrapping_H "membership lookup: %w" [] (on (GrantedRoles tenant (id_Sub (cl_Identity c))));
  mret (with_granted c g.1 g.2, tenant).

(** ** Wrapping a handler *)

Definition refuse (status : Z) (message detail : string) : Response := mkResponse status (Refusal message detail).
Definition respond (r : res answer) : Response :=
  match r with
  | Ok a => mkResponse 200 (Answer a)
  | Err e => let '(status, detail) := classify e in refuse status (error_text e) detail
  end.
Definition not_ready (s : system) : Response := refuse 503 ("register is " +:+ sy_state s) (sy_failure s).
Definition model_of (reg : Register) : RoleModel := pk_model (pk reg).
Definition principal_of (reg : Register) (c : Caller) (tenant : string) (r : Request) : res Principal :=
  Resolve (model_of reg) (cl_Identity c) tenant (actingRole r).
(** [wrap]: only for a caller who holds a role. *)
Definition wrap_ (h : request -> Principal -> H answer) (path : list (string * string)) (r : Request) (s : system) : Response * system :=
  match running_register s with
  | None => (not_ready s, s)
  | Some (reg, v) =>
      match identify reg v r s with
      | (Err e, s) => (refuse 401 "not authenticated" (error_text e), s)
      | (Ok (c, tenant), s) =>
          match principal_of reg c tenant r with
          | Err ErrNoRole => (refuse 403 "no register role" (error_text ErrNoRole), s)
          | Err e => (refuse 403 "not authorised" (error_text e), s)
          | Ok p => let '(a, s) := h (mkCall r path reg c tenant) p s in (respond a, s)
          end
      end
  end.
(** [wrapCaller]: for anyone the register can identify. *)
Definition wrapCaller (h : request -> res Principal -> H answer) (path : list (string * string)) (r : Request) (s : system) : Response * system :=
  match running_register s with
  | None => (not_ready s, s)
  | Some (reg, v) =>
      match identify reg v r s with
      | (Err e, s) => (refuse 401 "not authenticated" (error_text e), s)
      | (Ok (c, tenant), s) =>
          let '(a, s) := h (mkCall r path reg c tenant) (principal_of reg c tenant r) s in (respond a, s)
      end
  end.

Definition decode (fs : fields) (c : request) : H body := from_res (decode_body fs (rq_Body (ca_Request c))).
(** A body that may be left out. *)
Definition decode_if_sent (fs : fields) (c : request) : H body := if 0 <? rq_ContentLength (ca_Request c) then decode fs c else mret ∅.
Definition whole_version (c : request) : H Z :=
  from_res (of_option (ParseUint64 (PathValue c "version")) (Errorf "the version must be a whole number" [])).

(** ** Status and membership *)

Definition status (c : request) (p : Principal) : H answer := AStatus <$> on (Status_ (ca_Register c)).
Definition role_titles (reg : Register) (p : Principal) : list (string * string) :=
  omap (fun name => (fun spec => (name, rs_Title spec)) <$> Role (model_of reg) name) (p_Roles p).
Definition me (c : request) (p : res Principal) : H answer :=
  mret (AMe (ca_Caller c) (ca_Tenant c) p match p with Ok p => role_titles (ca_Register c) p | Err _ => [] end).
Definition listMembers (c : request) (p : Principal) : H answer :=
  l ← on (Members_ (ca_Register c) p); mret (AMembers l (Roles (model_of (ca_Register c)))).
Definition grantMember (c : request) (p : Principal) : H answer :=
  b ← decode [("sub", KString); ("role", KString); ("display", KString); ("reason", KString)] c;
  t ← on (GrantRole (ca_Register c) p (str_field b "sub") (str_field b "role") (str_field b "display") (str_field b "reason"));
  mret (ATransaction t).
Definition revokeMember (c : request) (p : Principal) : H answer :=
  t ← on (RevokeRole (ca_Register c) p (PathValue c "sub") (PathValue c "role") (param (ca_Request c) "reason"));
  mret (ATransaction t).

Definition inviteLink (id secret : string) : string :=
  match sv_Join sv with
  | Some join => if String.eqb join "" then "/#/join/" +:+ id +:+ "/" +:+ secret else join +:+ "/" +:+ id +:+ "#" +:+ secret
  | None => "/#/join/" +:+ id +:+ "/" +:+ secret
  end.
Definition role_title (reg : Register) (role : string) : string :=
  match Role (model_of reg) role with Some spec => first (rs_Title spec) role | None => role end.
Definition InvitationEmail (reg : Register) (inv : Invite) (to : InviteRecipient) (reminder : bool) : Invitation :=
  mkInvitation (ir_Email to) (ir_Name to) (ir_Organisation to) (role_title reg (iv_Role inv))
    (match Role (model_of reg) (iv_Role inv) with Some spec => rs_Summary spec | None => "" end)
    (inviteLink (iv_ID inv) (ir_Secret to)) (iv_ExpiresAt inv) reminder.
(** [time.Duration(days) * 24 * time.Hour]. *)
Definition days (n : Z) : Z := to_int64 (to_int64 (n * 24) * (3600 * second)).

Definition send_mail (inv : Invitation) (m : Mailer) : H (res unit) := fun s =>
  let '(r, m) := SendInvitation inv m in (Ok r, set_mailer (Some m) s).
Definition emailInvite (c : request) (p : Principal) (role label : string) (validDays : Z) (to : InviteRecipient) : H answer :=
  _ ← from_res (refuse_if (negb (String.eqb label "")) (Errorf "an emailed invitation has no label: the name it is for is sealed" []));
  _ ← from_res (refuse_if (negb (ValidAddress (ir_Email to))) (Errorf "that is not a usable email address" []));
  mailer ← look sy_mailer;
  mailer ← from_res (of_option mailer (Errorf "this register has no email sender configured; issue a link instead" []));
  inv ← on (CreateEmailedInvite (ca_Register c) p role (days validDays) to);
  let to := with_secret to inv.2 in
  sent ← send_mail (InvitationEmail (ca_Register c) inv.1 to false) mailer;
  mret match sent with
       | Ok _ => AInvite inv.1 None "sent" ""
       | Err e => AInvite inv.1 (Some (inviteLink (iv_ID inv.1) inv.2)) "failed" (error_text e)
       end.
Definition createInvite_ (c : request) (p : Principal) : H answer :=
  b ← decode [("role", KString); ("label", KString); ("valid_days", KInt); ("email", KString); ("name", KString); ("organisation", KString)] c;
  if negb (String.eqb (str_field b "email") "")
  then emailInvite c p (str_field b "role") (str_field b "label") (int_field b "valid_days")
         (mkRecipient (TrimSpace (str_field b "email")) (TrimSpace (str_field b "name")) (TrimSpace (str_field b "organisation")) "")
  else inv ← on (CreateInvite (ca_Register c) p (str_field b "role") (str_field b "label") (days (int_field b "valid_days")));
       mret (AInvite inv.1 (Some (inviteLink (iv_ID inv.1) inv.2)) "" "").
Definition listInvites (c : request) (p : Principal) : H answer := AInvites <$> on (Invites p).
Definition revokeInvite (c : request) (p : Principal) : H answer := ATransaction <$> on (RevokeInvite p (PathValue c "id")).
Definition checkInvite (c : request) (p : res Principal) : H answer :=
  b ← decode [("secret", KString)] c;
  inv ← on (CheckInvite (ca_Tenant c) (PathValue c "id") (str_field b "secret"));
  mret (AInvitation (iv_Role inv) (role_title (ca_Register c) (iv_Role inv)) (iv_Label inv) (iv_ExpiresAt inv)).
Definition redeemInvite (c : request) (p : res Principal) : H answer :=
  b ← decode [("secret", KString)] c;
  r ← on (RedeemInvite (ca_Register c) (ca_Tenant c) (id_Sub (cl_Identity (ca_Caller c))) (PathValue c "id") (str_field b "secret"));
  mret (ARedeemed (iv_Role r.1) r.2).
Definition packDocument (c : request) (p : Principal) : H answer :=
  let pack := pk (ca_Register c) in
  mret (APack pack (map (fun k => (k, PIIFields (Compiled k), Projections (Compiled k))) (pk_Classes pack))
          (map (fun w => (w, CanOn p PermPropose (w_Name w), CanOn p PermApprove (w_Name w))) (pk_Workflows pack)) (Roles (pk_model pack))).

(** ** Records, workflows and the log *)

Definition listRecords (c : request) (p : Principal) : H answer :=
  let r := ca_Request c in
  l ← on (ListObjects (ca_Register c) p
        (mkListFilter (param r "class") (param r "status") (matchParams (ParseQuery (rq_Query r))) (param r "q") (param r "order")
           (boolParam r "desc") (intParam r "limit" 50) (intParam r "offset" 0)));
  mret (ARecords l).
Definition getRecord (c : request) (p : Principal) : H answer := ARecord <$> on (GetObject (ca_Register c) p (PathValue c "id")).
Definition getRecordVersion (c : request) (p : Principal) : H answer :=
  v ← whole_version c; ARecord <$> on (GetVersion (ca_Register c) p (PathValue c "id") v).
Definition recordHistory (c : request) (p : Principal) : H answer := AHistory <$> on (History (ca_Register c) p (PathValue c "id")).

Definition listTasks (c : request) (p : Principal) : H answer :=
  ATasks <$> on (Tasks (ca_Register c) p (param (ca_Request c) "state") (intParam (ca_Request c) "limit" 50)).
Definition getTask (c : request) (p : Principal) : H answer := ATask <$> on (Task_ (ca_Register c) p (PathValue c "id")).
Definition propose_fields : fields :=
  [("object_id", KString); ("payload", KMap); ("evidence", KStringMap); ("message", KString); ("body", KString); ("refs", KRefs)].
Definition propose_request (b : body) : ProposeRequest :=
  mkProposeRequest (str_field b "object_id") (map_field b "payload")
    (match field b "evidence" with VObj _ => Some (string_map_field b "evidence") | _ => None end)
    (str_field b "message") (str_field b "body") (refs_field b "refs").
Definition propose (c : request) (p : Principal) : H answer :=
  b ← decode propose_fields c; AOutcome <$> on (Propose (ca_Register c) p (PathValue c "name") (propose_request b)).
Definition accept (c : request) (p : Principal) : H answer :=
  b ← decode [("accept", KBool); ("reason", KString)] c;
  AOutcome <$> on (Accept (ca_Register c) p (PathValue c "id") (bool_field b "accept") (str_field b "reason")).
Definition decide_ (c : request) (p : Principal) : H answer :=
  b ← decode [("approve", KBool); ("reason", KString); ("message", KString); ("body", KString); ("refs", KRefs)] c;
  AOutcome <$> on (Decide (ca_Register c) p (PathValue c "id")
    (mkDecision (bool_field b "approve") (str_field b "reason") (str_field b "message") (str_field b "body") (refs_field b "refs"))).
Definition withdraw (c : request) (p : Principal) : H answer :=
  b ← decode [("reason", KString)] c; AOutcome <$> on (Withdraw (ca_Register c) p (PathValue c "id") (str_field b "reason")).

Definition log_ (c : request) (p : Principal) : H answer :=
  let r := ca_Request c in
  ALog <$> on (Log p (mkLogFilter (param r "class") (param r "object_id") (param r "author") (param r "role") (param r "kind")
                        (param r "ref_type") (param r "target") (int64Param r "from") (int64Param r "to")
                        (intParam r "limit" 50) (intParam r "offset" 0))).
Definition transaction (c : request) (p : Principal) : H answer := ATransactionDetail <$> on (Transaction_ p (PathValue c "txid")).
Definition listQueries (c : request) (p : Principal) : H answer := mret (AQueries (pk_Queries (pk (ca_Register c)))).
Definition params_of (b : body) : gmap string string := list_to_map (string_map_field b "params").
Definition runQuery (c : request) (p : Principal) : H answer :=
  b ← decode_if_sent [("params", KStringMap)] c;
  ARows <$> on (RunQuery (ca_Register c) parse_float p (PathValue c "name") (params_of b)).

(** ** Proofs and checkpoints *)

Definition recordProof (c : request) (p : Principal) : H answer :=
  v ← whole_version c; AEvidence <$> on (RecordEvidence (ca_Register c) p (PathValue c "id") v).
Definition naturalKeyProof (c : request) (p : Principal) : H answer :=
  key ← from_res (of_option (PathUnescape (PathValue c "key")) (Errorf "the key is not valid" []));
  AEvidence <$> on (NaturalKeyEvidence (ca_Register c) p (PathValue c "class") key).
Definition listCheckpoints (c : request) (p : Principal) : H answer :=
  ACheckpoints <$> on (Checkpoints p (intParam (ca_Request c) "limit" 50)).
Definition latestCheckpoint (c : request) (p : Principal) : H answer :=
  _ ← from_res (refuse_if (negb (Can p PermCheckpoints)) (Errorf "%s may not read checkpoints" [Acting p]));
  cp ← on LatestCheckpoint;
  cp ← from_res (of_option cp (Errorf "no checkpoint has been issued yet" []));
  mret (ACheckpoint (Some cp)).
Definition checkpointKey_ (c : request) (p : Principal) : H answer :=
  mret (AKey (VerificationKey (ca_Register c)).1 (VerificationKey (ca_Register c)).2).
Definition issueCheckpoint_ (c : request) (p : Principal) : H answer :=
  _ ← from_res (refuse_if (negb (Can p PermCheckpoints)) (Errorf "%s may not issue checkpoints" [Acting p]));
  b ← decode_if_sent [("reason", KString)] c;
  ACheckpoint <$> on (IssueCheckpoint (ca_Register c) (first (str_field b "reason") ReasonManual)).

(** ** Retention, keys and operations *)

Definition horizons (c : request) (p : Principal) : H answer := AHorizons <$> on (Horizons (ca_Register c) p).
Definition prune (c : request) (p : Principal) : H answer :=
  b ← decode [("policy_id", KString); ("object_id", KString); ("message", KString); ("dry_run", KBool); ("collect_history", KBool)] c;
  APruned <$> on (Prune (ca_Register c) ledger_prune p
    (mkPruneRequest (str_field b "policy_id") (str_field b "object_id") (str_field b "message") (bool_field b "dry_run") (bool_field b "collect_history"))).
Definition erase (c : request) (p : Principal) : H answer :=
  b ← decode [("object_id", KString); ("policy_id", KString); ("reason", KString); ("message", KString)] c;
  AErased <$> on (Erase (ca_Register c) p
    (mkErasureRequest (str_field b "object_id") (str_field b "policy_id") (str_field b "reason") (str_field b "message"))).
Definition eraseProfile (c : request) (p : Principal) : H answer :=
  b ← decode [("sub", KString); ("reason", KString)] c; ATransaction <$> on (EraseProfile p (str_field b "sub") (str_field b "reason")).
Definition enrolKey (c : request) (p : Principal) : H answer :=
  b ← decode [("id", KString); ("algo", KString); ("public_key", KString)] c;
  ATransaction <$> on (EnrolKEK p (str_field b "id") (str_field b "algo") (str_field b "public_key")).
Definition recoveryWrap (c : request) (p : Principal) : H answer :=
  scope ← from_res (of_option (PathUnescape (PathValue c "scope")) (Errorf "the scope is not valid" []));
  ARecovery <$> on (RecoveryWrap p scope).

Definition export (c : request) (p : Principal) : H answer :=
  AExport <$> on (Export p (param (ca_Request c) "after") (intParam (ca_Request c) "limit" 200)).
Definition standby (c : request) (p : Principal) : H answer :=
  _ ← from_res (refuse_if (negb (Can p PermAdmin) && negb (Can p PermExplorer)) (Errorf "%s may not read the standby report" [Acting p]));
  AStandby ∘ default [("role", VStr "active")] <$> look sy_standby.
Definition addWebhook (c : request) (p : Principal) : H answer :=
  b ← decode [("id", KString); ("url", KString); ("events", KStrings); ("active", KBoolPtr)] c;
  let active := match field b "active" with VBool a => a | _ => true end in
  r ← on (SetWebhook p (mkWebhook (str_field b "id") "" (str_field b "url") (strings_field b "events") active 0 ""));
  mret (AWebhook r.1 r.2).
Definition listWebhooks (c : request) (p : Principal) : H answer :=
  l ← on (Webhooks p); AWebhooks l <$> look sy_deliveries.

(** ** Tools *)

Definition toolLookup (c : request) (p : Principal) : H answer :=
  b ← decode [("class", KString); ("natural_key", KString)] c;
  bundle ← on (NaturalKeyEvidence (ca_Register c) p (str_field b "class") (str_field b "natural_key"));
  match eb_Present bundle, obj_get "object_id" (eb_Row bundle) with
  | true, Some (VStr id) => view ← on (GetObject (ca_Register c) p id); mret (ALookup bundle (Some view))
  | _, _ => mret (ALookup bundle None)
  end.
Definition toolPropose (c : request) (p : Principal) : H answer :=
  b ← decode (("workflow", KString) :: propose_fields) c;
  AOutcome <$> on (Propose (ca_Register c) p (str_field b "workflow") (propose_request b)).
Definition summarise (e : Transaction) : string * Z * string * string * string * string * string * Z :=
  let env := tx_Envelope e in
  (tx_TxID e, tx_Seq e, Kind env, au_Sub (env_Author env), au_Role (env_Author env), format_rfc3339 (Timestamp env), Summary env, tx_VersionAfter e).
Definition toolLog (c : request) (p : Principal) : H answer :=
  b ← decode_if_sent [("class", KString); ("object_id", KString); ("kind", KString); ("limit", KInt)] c;
  l ← on (Log p (mkLogFilter (str_field b "class") (str_field b "object_id") "" "" (str_field b "kind") "" "" 0 0 (int_field b "limit") 0));
  mret (ASummaries (map summarise l)).
Definition toolQuery (c : request) (p : Principal) : H answer :=
  b ← decode [("name", KString); ("params", KStringMap)] c;
  ARows <$> on (RunQuery (ca_Register c) parse_float p (str_field b "name") (params_of b)).
Definition toolStatus (c : request) (p : Principal) : H answer := AStatus <$> on (Status_ (ca_Register c)).
Definition toolCheckpoint (c : request) (p : Principal) : H answer := issueCheckpoint_ c p.

(** ** Audit *)

Definition lineage (c : request) (p : Principal) : H answer := ALineage <$> on (Lineage p).
Definition auditRoots (c : request) (p : Principal) : H answer :=
  ARoots <$> on (Roots p (to_uint64 (int64Param (ca_Request c) "from")) (to_uint64 (int64Param (ca_Request c) "to"))).
Definition auditChanges (c : request) (p : Principal) : H answer :=
  v ← whole_version c; AChanges <$> on (ChangesAt p v (boolParam (ca_Request c) "values")).
Definition auditVerify (c : request) (p : Principal) : H answer :=
  b ← decode_if_sent [("from_version", KUint); ("from_head", KString)] c;
  _ ← on (VerifyLineage p (int_field b "from_version") (str_field b "from_head"));
  mret (AVerified (int_field b "from_version")).
Definition auditClose (c : request) (p : Principal) : H answer :=
  b ← decode [("from_version", KUint); ("from_head", KString); ("collect", KBool); ("message", KString)] c;
  AAudit <$> on (Audit (ca_Register c) p
    (mkAuditRequest (int_field b "from_version") (str_field b "from_head") (bool_field b "collect") (str_field b "message"))).

(** ** The routes of the register proper *)

Inductive endpoint :=
  | ForMembers (h : request -> Principal -> H answer)
  | ForCallers (h : request -> res Principal -> H answer).
Definition routes : list (string * string * endpoint) :=
  [("GET", "/api/v1/status", ForMembers status);
   ("GET", "/api/v1/pack", ForMembers packDocument);
   ("GET", "/api/v1/me", ForCallers me);
   ("POST", "/api/v1/invites/{id}/check", ForCallers checkInvite);
   ("POST", "/api/v1/invites/{id}/redeem", ForCallers redeemInvite);
   ("GET", "/api/v1/invites", ForMembers listInvites);
   ("POST", "/api/v1/invites", ForMembers createInvite_);
   ("DELETE", "/api/v1/invites/{id}", ForMembers revokeInvite);
   ("GET", "/api/v1/members", ForMembers listMembers);
   ("POST", "/api/v1/members", ForMembers grantMember);
   ("DELETE", "/api/v1/members/{sub}/{role}", ForMembers revokeMember);
   ("GET", "/api/v1/records", ForMembers listRecords);
   ("GET", "/api/v1/records/{id}", ForMembers getRecord);
   ("GET", "/api/v1/records/{id}/history", ForMembers recordHistory);
   ("GET", "/api/v1/records/{id}/versions/{version}", ForMembers getRecordVersion);
   ("GET", "/api/v1/tasks", ForMembers listTasks);
   ("GET", "/api/v1/tasks/{id}", ForMembers getTask);
   ("POST", "/api/v1/workflows/{name}/propose", ForMembers propose);
   ("POST", "/api/v1/tasks/{id}/accept", ForMembers accept);
   ("POST", "/api/v1/tasks/{id}/decide", ForMembers decide_);
   ("POST", "/api/v1/tasks/{id}/withdraw", ForMembers withdraw);
   ("GET", "/api/v1/log", ForMembers log_);
   ("GET", "/api/v1/log/{txid}", ForMembers transaction);
   ("GET", "/api/v1/queries", ForMembers listQueries);
   ("POST", "/api/v1/queries/{name}", ForMembers runQuery);
   ("GET", "/api/v1/proofs/records/{id}/{version}", ForMembers recordProof);
   ("GET", "/api/v1/proofs/natural-keys/{class}/{key}", ForMembers naturalKeyProof);
   ("GET", "/api/v1/checkpoints", ForMembers listCheckpoints);
   ("GET", "/api/v1/checkpoints/latest", ForMembers latestCheckpoint);
   ("GET", "/api/v1/checkpoints/key", ForMembers checkpointKey_);
   ("POST", "/api/v1/checkpoints", ForMembers issueCheckpoint_);
   ("GET", "/api/v1/audit/lineage", ForMembers lineage);
   ("GET", "/api/v1/audit/roots", ForMembers auditRoots);
   ("GET", "/api/v1/audit/changes/{version}", ForMembers auditChanges);
   ("POST", "/api/v1/audit/verify", ForMembers auditVerify);
   ("POST", "/api/v1/audit/close", ForMembers auditClose);
   ("GET", "/api/v1/retention", ForMembers horizons);
   ("POST", "/api/v1/retention/prune", ForMembers prune);
   ("POST", "/api/v1/retention/erase", ForMembers erase);
   ("POST", "/api/v1/retention/erase-profile", ForMembers eraseProfile);
   ("POST", "/api/v1/keys", ForMembers enrolKey);
   ("GET", "/api/v1/keys/{scope}/recovery-wrap", ForMembers recoveryWrap);
   ("GET", "/api/v1/export", ForMembers export);
   ("GET", "/api/v1/standby", ForMembers standby);
   ("POST", "/api/v1/webhooks", ForMembers addWebhook);
   ("GET", "/api/v1/webhooks", ForMembers listWebhooks);
   ("POST", "/tools/lookup", ForMembers toolLookup);
   ("POST", "/tools/propose", ForMembers toolPropose);
   ("POST", "/tools/log", ForMembers toolLog);
   ("POST", "/tools/query", ForMembers toolQuery);
   ("POST", "/tools/status", ForMembers toolStatus);
   ("POST", "/tools/checkpoint", ForMembers toolCheckpoint)].
Definition run_endpoint (e : endpoint) : list (string * string) -> Request -> system -> Response * system :=
  match e with ForMembers h => wrap_ h | ForCallers h => wrapCaller h end.
Definition route_match {A} (r : Request) (route : string * string * A) : option (A * list (string * string)) :=
  if match_method route.1.1 (rq_Method r) then (fun b => (route.2, b)) <$> match_path (segments_of route.1.2) (rq_Path r) else None.
Definition find_route {A} (rs : list (string * string * A)) (r : Request) : option (A * list (string * string)) :=
  head (omap (route_match r) rs).
(** A request to the register proper; [None]: none of its endpoints. *)
Definition serve_api (r : Request) (s : system) : option (Response * system) :=
  '(e, path) ← find_route routes r; Some (run_endpoint e path r s).
End api.
