(* ===== verification/Gate.v ===== *)
(** * What is always available ([internal/api/handlers.go])

    The health and readiness probes, the page's configuration, the version
    and the manifest, and the configure call, which brings a register up
    or, on one that is serving, names administrators and completes the
    email sender. *)

From S2P Require Import Prelude GoStrings Float64 Encoding Canon Json SqlText Sql GoJson Model World Commit Rbac JsonSchema Pack Records.
From S2P Require Import Workflow Identities Members Retention Anchors Checkpoints Auditing Queries Admin Standby Tokens Requests Mail Hooks Api.
Local Open Scope Z_scope.

(** ** Probes *)

Definition reply_json (status : Z) (a : answer) : Response := mkResponse status (Answer a).
Definition health (s : system) : Response := reply_json 200 (AHealth (sy_state s) (sy_failure s)).
Definition readiness (s : system) : Response :=
  if negb (String.eqb (sy_state s) StateReady) then refuse 503 ("register is " +:+ sy_state s) (sy_failure s)
  else reply_json 200 AReadiness.

(** [hostRe]: a name of 1 to 253 letters, digits, dots and hyphens that
    begins and ends with a letter or digit, and a port of 1 to 5 digits. *)
Definition host_alnum (a : ascii) : bool := let c := byte_Z a in ((97 <=? c) && (c <=? 122)) || ((48 <=? c) && (c <=? 57)).
Definition host_char (a : ascii) : bool := host_alnum a || Ascii.eqb a "." || Ascii.eqb a "-".
Definition port_ok (s : string) : bool :=
  (1 <=? len s) && (len s <=? 5) && forallb (fun a => match digit_val a with Some _ => true | None => false end) (bytes_of s).
Definition name_ok (s : string) : bool :=
  match bytes_of s, reverse (bytes_of s) with
  | a :: _, z :: _ => host_alnum a && host_alnum z && forallb host_char (bytes_of s) && (len s <=? 253)
  | _, _ => false
  end.
Definition hostRe (s : string) : bool :=
  match IndexByte s ":" with
  | None => name_ok s
  | Some i => name_ok (str_take i s) && port_ok (str_drop (S i) s)
  end.

Section gate.
Context `{Runtime} `{GoFormats} `{!Ledger} `{!Replication} `{!Provider} `{!Outbox}.
Variable sv : Server.

Definition set_if (c : bool) (k : string) (v : value) : object := if c then [(k, v)] else [].
(** The document of [appConfig], its members in key order. *)
Definition app_document (r : Request) (host : string) : object :=
  [("appHost", VStr host)]
  ++ set_if (negb (String.eqb (sv_AppID sv) "")) "appId" (VStr (sv_AppID sv))
  ++ set_if (negb (String.eqb (sv_ClientID sv) "")) "clientId" (VStr (sv_ClientID sv))
  ++ set_if (String.eqb (Header r "X-Privasys-Transport") "direct") "direct" (VBool true)
  ++ [("environment", VStr (if HasSuffix (Cut host ":").1 ".test.privasys.org" then "test" else "production"));
      ("name", VStr (sv_Name sv))]
  ++ set_if (negb (bool_decide (sv_SignInProviders sv = []))) "providers" (VArr (map VStr (sv_SignInProviders sv)))
  ++ [("session", VBool (sv_TrustSession sv)); ("version", VStr (sv_Version sv))].
Definition appConfig (r : Request) : Response :=
  let host := ToLower (rq_Host r) in
  if negb (hostRe host) then refuse 400 "bad host" ""
  else let cfg := match go_json (VObj (app_document r host)) with Ok t => t | Err _ => "" end in
       reply_json 200 (AScript ("window.__REGISTER__=" +:+ cfg +:+ ";" +:+ nl)).
Definition version_ : Response := reply_json 200 (AVersion (sv_Version sv) (sv_Name sv)).
Definition manifest : Response :=
  if String.eqb (sv_Manifest sv) "" then refuse 404 "no manifest is baked into this build" ""
  else reply_json 200 (AManifest (sv_Manifest sv)).

(** ** The first administrators *)

Record admin_doc := mkAdminDoc { ad_Admins : string; ad_Invite : bool; ad_Role : string }.
(** What is of the wrong type is passed over; a text that is not JSON says nothing. *)
Definition read_admins (document : string) : admin_doc :=
  let b := match (_ ← parse_raw document; ms ← first_object document;
                  fill_known false [("admins", KString); ("admin_invite", KAny); ("admin_role", KString)] ms ∅) with
           | Ok b => b
           | Err _ => ∅
           end in
  mkAdminDoc (str_field b "admins")
    (match field b "admin_invite" with VBool x => x | VStr t => String.eqb t "true" | _ => false end) (str_field b "admin_role").

Definition add_admin (reg : Register) (role : string) (added : Z) (sub : string) : M Z :=
  let sub := TrimSpace sub in
  if String.eqb sub "" then mret added
  else
    held ← GrantedRoles (opt_Tenant (opts reg)) sub;
    if containsString held.1 role then mret added
    else _ ← wrapping "admin %q: %w" [sub] (BootstrapMember reg sub role); mret (added + 1).
Definition first_invite (reg : Register) (role : string) : M (option (string * string)) :=
  administered ← Administered reg;
  if (administered : bool) then mret None
  else inv ← wrapping "admin invite: %w" [] (BootstrapInvite reg role (24 * 3600 * second));
       mret (Some (inviteLink sv (iv_ID inv.1) inv.2, role)).
Definition bootstrapMembers (reg : Register) (document : string) : M (option Z * option (string * string)) :=
  let doc := read_admins document in
  if String.eqb (ad_Admins doc) "" && negb (ad_Invite doc) then mret (None, None)
  else
    role ← lift (if String.eqb (ad_Role doc) "" then MembersRole reg else Ok (ad_Role doc));
    added ← fold (add_admin reg role) (Split1 (ad_Admins doc) ",") 0;
    invite ← (if ad_Invite doc then first_invite reg role else mret None);
    mret (Some added, invite).

(** ** Configuring *)

Definition configureMail (document : string) : H (option string) :=
  match sv_ConfigureMail sv with
  | None => mret None
  | Some f => state ← f document; mret (if String.eqb state "" then None else Some state)
  end.
(** The members and the sender, which every configure call may name. *)
Definition configure_people (reg : Register) (document : string) : H (option Z * option (string * string) * option string) :=
  people ← on (bootstrapMembers reg document);
  mail ← configureMail document;
  mret (people, mail).
Definition refused (e : error) : Response := refuse 400 "configuration refused" (error_text e).
Definition configure_running (reg : Register) (document : string) (s : system) : Response * system :=
  match configure_people reg document s with
  | (Err e, s) => (refused e, s)
  | (Ok (people, mail), s) => (reply_json 200 (AConfigured "already_configured" people.1 people.2 mail None), s)
  end.
Definition configure_first (f : string -> system -> res (Register * Verifier) * system) (document : string) (s : system) : Response * system :=
  match f document s with
  | (Err e, s) => (refused e, FailWith (error_text e) s)
  | (Ok (reg, v), s) =>
      match configure_people reg document s with
      | (Err e, s) => (refused e, FailWith (error_text e) s)
      | (Ok (people, mail), s) =>
          match on (Status_ reg) (Ready reg v s) with
          | (Err e, s) => (refuse 500 "configured, but the register would not report" (error_text e), s)
          | (Ok st, s) => (reply_json 200 (AConfigured "configured" people.1 people.2 mail (Some st)), s)
          end
      end
  end.
Definition configure (r : Request) (s : system) : Response * system :=
  match sv_Configure sv with
  | None => (refuse 501 "this build cannot be configured over HTTP" "", s)
  | Some f =>
      if max_body <? len (rq_Body r) then (refuse 400 "could not read the configuration" "http: request body too large", s)
      else match running_register s with
           | Some (reg, _) => configure_running reg (rq_Body r) s
           | None => configure_first f (rq_Body r) s
           end
  end.

(** ** The server *)

Definition public_routes : list (string * string * (Request -> system -> Response * system)) :=
  [("GET", "/health", fun _ s => (health s, s));
   ("GET", "/readiness", fun _ s => (readiness s, s));
   ("GET", "/app-config.js", fun r s => (appConfig r, s));
   ("GET", "/version", fun _ s => (version_, s));
   ("GET", "/privasys.json", fun _ s => (manifest, s));
   ("POST", "/configure", configure)].
Variable parse_float : string -> option float64.
Variable ledger_prune : tables -> Z -> res Z.
Definition Handler (r : Request) (s : system) : option (Response * system) :=
  match find_route public_routes r with
  | Some (f, _) => Some (f r s)
  | None => serve_api parse_float ledger_prune sv r s
  end.
End gate.
