(* ===== verification/Within.v ===== *)
(** * Calls within a relation

    A relation on worlds that every step beside the tables respects
    ([Aside]) is respected by a whole call when it is by the commits the
    call makes. The logic here proves that along the structure of a call,
    for the register's calls and for handlers over them. *)

From S2P Require Import Prelude GoStrings Float64 Encoding Canon Json SqlText Sql GoJson Model World Commit Rbac JsonSchema Pack Byok Records Landing.
From S2P Require Import Workflow WorkflowCorrect Identities Members MembersMoves Retention Anchors Checkpoints Auditing Queries QueriesCorrect Admin Standby Tokens Requests Mail Hooks Api.
Local Open Scope Z_scope.

Class Aside (R : relation world) := {
  aside_preorder :: PreOrder R;
  aside_same : forall w w', same_db w w' -> R w w';
  aside_txn : forall w, R w (set_txn None w);
  aside_lastCkpt : forall c w, R w (set_lastCkpt c w);
  aside_notes : forall l w, R w (set_notes l w);
  aside_backend : forall b w, R w (set_backend b w);
  aside_horizon : forall v w, R w (set_horizon v w);
}.

Definition within (R : relation world) {A} (m : M A) : Prop := forall w r w', m w = (r, w') -> R w w'.
Definition within_H (R : relation world) {A} (h : H A) : Prop := forall s r s', h s = (r, s') -> R (sy_world s) (sy_world s').

(** The two relations of interest: the store stays well formed, and the
    ledger's content, version and root stay as they are. *)
Definition same_tables (w w' : world) : Prop := committed w' = committed w /\ version w' = version w /\ root w' = root w.
#[export] Instance same_tables_aside : Aside same_tables.
Proof.
  split; try done.
  - split; [done|]. intros x y z (A1 & A2 & A3) (B1 & B2 & B3). unfold same_tables. split_and!; congruence.
  - intros w w' (Hc & Hv & Hr & _). done.
Qed.

Section kept.
Context `{Runtime}.
Definition kept (w w' : world) : Prop := store_wf w -> store_wf w'.
Lemma store_wf_aside w w' : committed w' = committed w -> (txn w' = txn w \/ txn w' = None) -> kept w w'.
Proof. intros Hc [Ht|Ht] [W1 W2]; split; rewrite ?Hc, ?Ht; done. Qed.
#[export] Instance kept_aside : Aside kept.
Proof.
  split; try (intros; apply store_wf_aside; [done|by auto]).
  - split; [by intros w W|]. intros x y z Hxy Hyz W. by apply Hyz, Hxy.
  - intros w w' Hs W. by eapply store_wf_same.
Qed.
Lemma within_keeps {A} (m : M A) : keeps m -> within kept m.
Proof. intros Hm w r w' E W. by eapply Hm. Qed.
End kept.

Section logic.
Context {R : relation world} `{!Aside R}.

Lemma within_ro {A} (m : M A) : ro m -> within R m.
Proof. intros Hm w r w' E. by eapply aside_same, Hm. Qed.
Lemma within_bind {A B} (m : M A) (k : A -> M B) : within R m -> (forall a, within R (k a)) -> within R (m ≫= k).
Proof.
  intros Hm Hk w r w' E. unfold mbind, M_bind in E. destruct (m w) as [[a|e] w1] eqn:Em.
  - etrans; [by eapply Hm|by eapply Hk].
  - injection E as <- <-. by eapply Hm.
Qed.
Lemma within_Do {A} (m : M A) : within R m -> within R (Do m).
Proof. intros Hm w r w' E. unfold Do in E. destruct (m w) as [x w1] eqn:Em. injection E as <- <-. etrans; [by eapply Hm|apply aside_txn]. Qed.
Lemma within_attempt {A} (m : M A) : within R m -> within R (attempt m).
Proof. intros Hm w r w' E. unfold attempt in E. destruct (m w) as [[a|e] w1] eqn:Em; injection E as <- <-; by eapply Hm. Qed.
Lemma within_wrapping {A} fmt args (m : M A) : within R m -> within R (wrapping fmt args m).
Proof. intros Hm w r w' E. unfold wrapping in E. destruct (m w) as [[a|e] w1] eqn:Em; injection E as <- <-; by eapply Hm. Qed.
Lemma within_each {A} (f : A -> M unit) l : (forall x, within R (f x)) -> within R (each f l).
Proof. intros Hf. induction l as [|x l IH]; [apply within_ro, ro_ret|]. by apply within_bind. Qed.
Lemma within_traverse {A B} (f : A -> M B) l : (forall x, within R (f x)) -> within R (traverse f l).
Proof.
  intros Hf. induction l as [|x l IH]; [apply within_ro, ro_ret|]. apply within_bind; [done|].
  intros y. apply within_bind; [done|]. intros ys. apply within_ro, ro_ret.
Qed.
Lemma within_fold {A B} (f : B -> A -> M B) l : (forall b x, within R (f b x)) -> forall acc, within R (fold f l acc).
Proof. intros Hf. induction l as [|x l IH]; intros acc; [apply within_ro, ro_ret|]. by apply within_bind. Qed.
Lemma within_step (f : world -> world) : (forall w, R w (f w)) -> within R (modify f).
Proof. intros Hf w r w' [= <- <-]. apply Hf. Qed.
Lemma within_step_fun (f : world -> world) : (forall w, R w (f w)) -> within R (fun w => (Ok tt, f w)).
Proof. apply within_step. Qed.

Lemma within_H_res {A} (r : res A) : within_H R (from_res r).
Proof. intros s x s' [= <- <-]. done. Qed.
Lemma within_H_ret {A} (a : A) : within_H R (mret a : H A).
Proof. apply (within_H_res (Ok a)). Qed.
Lemma within_H_look {A} (f : system -> A) : within_H R (look f).
Proof. intros s x s' [= <- <-]. done. Qed.
Lemma within_H_bind {A B} (m : H A) (k : A -> H B) : within_H R m -> (forall a, within_H R (k a)) -> within_H R (m ≫= k).
Proof.
  intros Hm Hk s r s' E. unfold mbind, H_bind in E. destruct (m s) as [[a|e] s1] eqn:Em.
  - etrans; [by eapply Hm|by eapply Hk].
  - injection E as <- <-. by eapply Hm.
Qed.
Lemma within_H_fmap {A B} (f : A -> B) (m : H A) : within_H R m -> within_H R (f <$> m).
Proof. intros Hm. apply within_H_bind; [done|]. intros a. apply within_H_ret. Qed.
Lemma within_H_on {A} (m : M A) : within R m -> within_H R (on m).
Proof. intros Hm s r s' E. unfold on in E. destruct (m (sy_world s)) as [x w] eqn:Em. injection E as <- <-. by eapply Hm. Qed.
Lemma within_H_wrapping {A} fmt args (m : H A) : within_H R m -> within_H R (wrapping_H fmt args m).
Proof. intros Hm s r s' E. unfold wrapping_H in E. destruct (m s) as [[a|e] s1] eqn:Em; injection E as <- <-; by eapply Hm. Qed.
Lemma within_H_keys {A} (t : T A) : within_H R (with_keys t).
Proof. intros s r s' E. unfold with_keys in E. destruct (t (sy_keys s)). injection E as <- <-. done. Qed.
Lemma within_H_mail `{!GoFormats} `{!Outbox} inv m : within_H R (send_mail inv m).
Proof. intros s r s' E. unfold send_mail in E. destruct (SendInvitation inv m). injection E as <- <-. done. Qed.
End logic.

(** Calls that recurse over a list, or that write what is beside the
    tables. *)
Section calls.
Context `{Runtime} `{!GoFormats}.
Context {R : relation world} `{!Aside R}.
Lemma within_history r p class rows previous : within R (history_entries r p class previous rows).
Proof. apply within_ro, ro_versions. Qed.
Lemma within_evaluate conds ctx blockers : within R (evaluate conds ctx blockers).
Proof. apply within_ro, ro_evaluate. Qed.
End calls.

Create HintDb within.
#[export] Hint Extern 2 (within kept _) => (apply within_keeps; solve [eauto 3 with keeps nocore]) : within.
#[export] Hint Extern 3 (within _ _) => (apply within_ro; solve [eauto 3 with ro nocore]) : within.

Ltac head_of m := match m with ?f _ => head_of f | _ => m end.
(** A statement chosen by the request is a read whatever is chosen. *)
Ltac unfold_read st := let h := head_of st in unfold h; repeat case_match; reflexivity.
Ltac within_step_tac :=
  match goal with
  | |- forall _, _ => intro
  | |- within _ (modify _) =>
      apply within_step; intros; first [apply aside_lastCkpt | apply aside_notes | apply aside_backend | apply aside_horizon]
  | |- within _ (fun _ => _) =>
      apply within_step_fun; intros; first [apply aside_lastCkpt | apply aside_notes | apply aside_backend | apply aside_horizon]
  | |- within _ _ => solve [eauto 3 with within nocore]
  | |- within_H _ (mret _) => apply within_H_ret
  | |- within_H _ (from_res _) => apply within_H_res
  | |- within_H _ (look _) => apply within_H_look
  | |- within_H _ (with_keys _) => apply within_H_keys
  | |- within_H _ (send_mail _ _) => apply within_H_mail
  | |- within _ (history_entries _ _ _ _ _) => apply within_history
  | |- within _ (evaluate _ _ _) => apply within_evaluate
  | |- within _ (@mbind M _ _ _ _ _) => apply within_bind
  | |- within_H _ (@mbind H _ _ _ _ _) => apply within_H_bind
  | |- within_H _ (@fmap H _ _ _ _ _) => apply within_H_fmap
  | |- within_H _ (on _) => apply within_H_on
  | |- within_H _ (wrapping_H _ _ _) => apply within_H_wrapping
  | |- within _ (Do _) => apply within_Do
  | |- within _ (attempt _) => apply within_attempt
  | |- within _ (wrapping _ _ _) => apply within_wrapping
  | |- within _ (each _ _) => apply within_each
  | |- within _ (traverse _ _) => apply within_traverse
  | |- within _ (fold _ _ _) => apply within_fold
  | |- within _ (when _ _) => unfold when
  | |- within _ (match ?x with _ => _ end) => destruct x
  | |- within_H _ (match ?x with _ => _ end) => destruct x
  | |- within _ (let _ := _ in _) => cbv zeta
  | |- within_H _ (let _ := _ in _) => cbv zeta
  | |- within _ (query ?st) => apply within_ro, ro_query; unfold_read st
  | |- within _ ?m => let h := head_of m in unfold h
  | |- within_H _ ?m => let h := head_of m in unfold h
  end.
Ltac within_tac := repeat within_step_tac.

(** ** Every endpoint *)
Section endpoints.
Context `{Runtime} `{GoFormats} `{!Ledger} `{!Replication} `{!Provider} `{!Outbox}.
Variable parse_float : string -> option float64.
Variable ledger_prune : tables -> Z -> res Z.
Variable sv : Server.

Definition endpoint_within (R : relation world) (e : endpoint) : Prop :=
  match e with
  | ForMembers h => forall c p, within_H R (h c p)
  | ForCallers h => forall c p, within_H R (h c p)
  end.
Lemma endpoints_kept : Forall (fun route => endpoint_within kept route.2) (routes parse_float ledger_prune sv).
Proof. unfold routes. repeat (apply Forall_cons; split; [cbn [snd endpoint_within]; within_tac|]). apply Forall_nil. done. Qed.
Lemma endpoints_read :
  Forall (fun route => route.1.1 = "GET" -> endpoint_within same_tables route.2) (routes parse_float ledger_prune sv).
Proof.
  unfold routes.
  repeat (apply Forall_cons; split; [intros E; first [discriminate E | clear E; cbn [snd endpoint_within]; within_tac]|]). by apply Forall_nil.
Qed.
End endpoints.
