(* ===== verification/ApiCorrect.v ===== *)
(** * What the HTTP interface guarantees

    Every request keeps the store well formed; a request with a bearer
    token changes the register only for a caller whose token was verified
    and who holds a role, or who redeems an invitation; and no two
    endpoints answer the same request. *)

From S2P Require Import Prelude GoStrings Float64 Encoding Canon Json SqlText Sql GoJson Model World Concrete Commit Rbac JsonSchema Pack Byok Records Landing.
From S2P Require Import Workflow Identities Members MembersCorrect Invitations Retention Anchors Checkpoints Auditing Queries Admin Standby StandbyCorrect Tokens TokensCorrect Requests Mail Hooks Api Gate Within.
Local Open Scope Z_scope.

(** ** Routes *)

Definition pattern_matches (r : Request) (p : string * string) : Prop :=
  match_method p.1 (rq_Method r) = true /\ is_Some (match_path (segments_of p.2) (rq_Path r)).
Definition segment_overlap (a b : segment) : bool := match a, b with Lit a, Lit b => String.eqb a b | _, _ => true end.
Fixpoint path_overlap (p q : list segment) : bool :=
  match p, q with
  | [], [] => true
  | a :: p, b :: q => segment_overlap a b && path_overlap p q
  | _, _ => false
  end.
Definition overlap (a b : string * string) : bool :=
  (String.eqb a.1 b.1 || String.eqb a.1 "HEAD" || String.eqb b.1 "HEAD") && path_overlap (segments_of a.2) (segments_of b.2).
Fixpoint apart {A} (f : A -> A -> bool) (l : list A) : bool :=
  match l with [] => true | x :: l => forallb (fun y => negb (f x y)) l && apart f l end.

Lemma path_overlap_match path : forall p q, is_Some (match_path p path) -> is_Some (match_path q path) -> path_overlap p q = true.
Proof.
  induction path as [|s path IH]; intros [|a p] [|b q] [x Hp] [y Hq]; cbn in *; try discriminate; try done;
    try (destruct a; discriminate); try (destruct b; discriminate).
  apply andb_true_iff. split.
  - destruct a, b; cbn; try done. repeat case_match; try discriminate. bool_hyps. subst. apply String.eqb_refl.
  - apply IH; [destruct a|destruct b]; cbn in *; repeat case_match; try discriminate; eauto;
        match goal with H : _ <$> ?m = Some _ |- is_Some ?m => by apply fmap_Some in H as (? & -> & _) end.
Qed.
Lemma overlap_match r a b : pattern_matches r a -> pattern_matches r b -> overlap a b = true.
Proof.
  intros [Ma Pa] [Mb Pb]. unfold overlap. rewrite (path_overlap_match _ _ _ Pa Pb), andb_true_r.
  unfold match_method in *. apply orb_true_iff in Ma, Mb. rewrite !orb_true_iff.
  destruct Ma as [Ma|[Ga Ha]%andb_true_iff], Mb as [Mb|[Gb Hb]%andb_true_iff];
    repeat match goal with H : String.eqb _ _ = true |- _ => apply String.eqb_eq in H end; rewrite !String.eqb_eq; intuition congruence.
Qed.
Lemma apart_lookup {A} (f : A -> A -> bool) l : apart f l = true ->
  forall i j x y, l !! i = Some x -> l !! j = Some y -> f x y = true -> f y x = true -> i = j.
Proof.
  induction l as [|z l IH]; [done|]. cbn [apart]. intros [Hz Hl]%andb_true_iff. rewrite forallb_forall in Hz.
  assert (forall i y, l !! i = Some y -> f z y = true -> False) as Hno.
  { intros i y Hi Hf. apply list_elem_of_lookup_2, list_elem_of_In, Hz in Hi. by rewrite Hf in Hi. }
  intros [|i] [|j] x y Hx Hy Hf Hg; cbn in *; simplify_eq; [done|by exfalso; eapply Hno|by exfalso; eapply Hno|].
  f_equal. by eapply IH.
Qed.

Section api.
Context `{Runtime} `{GoFormats} `{!Ledger} `{!Replication} `{!Provider} `{!Outbox}.
Variable parse_float : string -> option float64.
Variable ledger_prune : tables -> Z -> res Z.
Variable sv : Server.

Definition patterns : list (string * string) := (public_routes sv).*1 ++ (routes parse_float ledger_prune sv).*1.
Lemma patterns_apart : apart overlap patterns = true.
Proof. vm_compute. reflexivity. Qed.

(** No two of the server's fifty-eight endpoints match the same
    request, whatever its method and path: the first that matches is the
    only one, so the order they are registered in does not matter. *)
Lemma routes_unambiguous r i j a b :
  patterns !! i = Some a -> patterns !! j = Some b -> pattern_matches r a -> pattern_matches r b ->
  i = j /\ length patterns = 58%nat.
Proof.
  intros Hi Hj Ha Hb. split; [|reflexivity].
  by eapply (apart_lookup overlap patterns patterns_apart); eauto using overlap_match.
Qed.

(** ** Identifying a caller *)

Lemma within_session {R} `{!Aside R} reg r sub :
  (forall sub email name, within R (SeeIdentity reg sub email name)) -> within_H R (session_caller reg r sub).
Proof.
  intros Hs. unfold session_caller. case_match; [apply within_H_res|]. destruct (assertedProfile r) as [email name].
  apply within_H_bind; [by apply within_H_wrapping, within_H_on|]. intros. apply within_H_ret.
Qed.
Lemma within_token {R} `{!Aside R} v r : within_H R (token_caller v r).
Proof. within_tac. Qed.
Lemma within_identify {R} `{!Aside R} reg v r :
  (by_session sv r = true -> forall sub email name, within R (SeeIdentity reg sub email name)) -> within_H R (identify sv reg v r).
Proof.
  intros Hs. unfold identify. apply within_H_bind.
  - destruct (by_session sv r); [by apply within_session, Hs|apply within_token].
  - intros c. cbv zeta. within_tac.
Qed.

(** ** The store *)

Lemma endpoint_kept e path r s resp s' :
  endpoint_within kept e -> run_endpoint sv e path r s = (resp, s') -> kept (sy_world s) (sy_world s').
Proof.
  intros He E. destruct e as [h|h]; cbn in He, E; unfold wrap_, wrapCaller in E;
    (destruct (running_register s) as [[reg v]|]; [|by injection E as <- <-]);
    destruct (identify sv reg v r s) as [[[c tenant]|e] s1] eqn:Ei;
    (assert (kept (sy_world s) (sy_world s1)) as Hk by (eapply (within_identify reg v r); [intros; within_tac|exact Ei]));
    try (by injection E as <- <-).
  - destruct (principal_of reg c tenant r) as [p|e].
    + destruct (h _ _ s1) as [a s2] eqn:Eh. injection E as <- <-. apply He in Eh. by etrans.
    + destruct e; by injection E as <- <-.
  - destruct (h _ _ s1) as [a s2] eqn:Eh. injection E as <- <-. apply He in Eh. by etrans.
Qed.
Lemma found_route {A} (rs : list (string * string * A)) r e path :
  find_route rs r = Some (e, path) ->
  exists route, route ∈ rs /\ route.2 = e /\ match_method route.1.1 (rq_Method r) = true /\
    match_path (segments_of route.1.2) (rq_Path r) = Some path.
Proof.
  unfold find_route. intros Hh. destruct (omap (route_match r) rs) as [|x l] eqn:Eo; [done|]. cbn in Hh. injection Hh as ->.
  assert ((e, path) ∈ omap (route_match r) rs) as Hin by (rewrite Eo; left). apply list_elem_of_omap in Hin as (route & Hr & Hm).
  unfold route_match in Hm. case_match eqn:Em; [|done]. apply fmap_Some in Hm as (b & Hb & E). injection E as -> ->. by exists route.
Qed.
Lemma serve_api_kept r s resp s' :
  serve_api parse_float ledger_prune sv r s = Some (resp, s') -> kept (sy_world s) (sy_world s').
Proof.
  unfold serve_api. destruct (find_route _ r) as [[e path]|] eqn:Ef; [|done]. intros [= E].
  apply found_route in Ef as (route & Hin & <- & _).
  pose proof (endpoints_kept parse_float ledger_prune sv) as F. rewrite Forall_forall in F. eapply endpoint_kept; [by apply F|done].
Qed.

(** The program around the server: what it is configured with may change
    the store only as the register's calls do. *)
Definition callback_keeps {A} (f : option (string -> system -> res A * system)) : Prop :=
  forall g d s x s', f = Some g -> g d s = (x, s') -> kept (sy_world s) (sy_world s').
Lemma people_kept reg document :
  callback_keeps (sv_ConfigureMail sv) -> within_H kept (configure_people sv reg document).
Proof.
  intros Hm. unfold configure_people. apply within_H_bind; [apply within_H_on; within_tac|]. intros people.
  apply within_H_bind; [|intros; apply within_H_ret]. unfold configureMail. destruct (sv_ConfigureMail sv) as [f|] eqn:Ef; [|apply within_H_ret].
  apply within_H_bind; [|intros; apply within_H_ret]. intros s x s' E. by eapply Hm.
Qed.
Lemma status_kept reg : within_H kept (on (Status_ reg)).
Proof. within_tac. Qed.
Lemma configure_kept r s resp s' :
  callback_keeps (sv_Configure sv) -> callback_keeps (sv_ConfigureMail sv) ->
  configure sv r s = (resp, s') -> kept (sy_world s) (sy_world s').
Proof.
  intros Hc Hm E. unfold configure in E. destruct (sv_Configure sv) as [f|] eqn:Ef; [|by injection E as <- <-].
  case_match; [by injection E as <- <-|]. destruct (running_register s) as [[reg v]|].
  - unfold configure_running in E. destruct (configure_people sv reg (rq_Body r) s) as [[[people mail]|e] s1] eqn:Ep;
      injection E as <- <-; by eapply people_kept in Ep.
  - unfold configure_first in E. destruct (f (rq_Body r) s) as [[[reg v]|e] s1] eqn:E1.
    all: assert (kept (sy_world s) (sy_world s1)) as K1 by (by eapply Hc).
    2: by injection E as <- <-.
    destruct (configure_people sv reg (rq_Body r) s1) as [[[people mail]|e] s2] eqn:Ep.
    all: assert (kept (sy_world s) (sy_world s2)) as K2 by (etrans; [exact K1|by eapply people_kept in Ep]).
    2: by injection E as <- <-.
    destruct (on (Status_ reg) (Ready reg v s2)) as [[st|e] s3] eqn:Es; injection E as <- <-;
      apply status_kept in Es; by etrans.
Qed.

(** The server over a sequence of requests; one that is nobody's here is
    for the pages, which hold no data. *)
Definition serve (s : system) (r : Request) : system :=
  match Handler sv parse_float ledger_prune r s with Some (_, s') => s' | None => s end.
Definition serve_all (rs : list Request) (s : system) : system := fold_left serve rs s.

Lemma serve_kept r s :
  callback_keeps (sv_Configure sv) -> callback_keeps (sv_ConfigureMail sv) -> kept (sy_world s) (sy_world (serve s r)).
Proof.
  intros Hc Hm. unfold serve, Handler. destruct (find_route (public_routes sv) r) as [[f path]|] eqn:Ef.
  - destruct (f r s) as [resp s'] eqn:E. apply found_route in Ef as (route & Hin & <- & _).
    unfold public_routes in Hin. set_unfold in Hin.
    repeat destruct Hin as [->|Hin]; cbn in E; try (by injection E as <- <-); try done. by eapply configure_kept.
  - destruct (serve_api _ _ _ _ _) as [[resp s']|] eqn:E; [|done]. by eapply serve_api_kept.
Qed.


(** ** Who may change the register *)

Lemma callers_read :
  Forall (fun route => match route.2 with
    | ForCallers h => route.1.2 = "/api/v1/invites/{id}/redeem" \/ forall c p, within_H same_tables (h c p)
    | ForMembers _ => True
    end) (routes parse_float ledger_prune sv).
Proof.
  unfold routes.
  repeat (apply Forall_cons; split; [cbn [fst snd]; first [exact I | by left | right; within_tac]|]). by apply Forall_nil.
Qed.
Lemma methods : Forall (fun route => route.1.1 ∈ ["GET"; "POST"; "DELETE"]) (routes parse_float ledger_prune sv).
Proof. unfold routes. repeat (apply Forall_cons; split; [cbn [fst]; set_solver|]). by apply Forall_nil. Qed.

(** A caller identified by a bearer token: what the token says, and the
    roles the register granted, looked up in the tables as they are. *)
Definition admitted (reg : Register) (v : Verifier) (r : Request) (s : system) (c : Caller) : Prop :=
  exists token id keys g w,
    Header r "Authorization" = "Bearer " +:+ token /\ Verify_ v token (sy_keys s) = (Ok id, keys) /\
    GrantedRoles (tenant_of reg r) (id_Sub (vi_Identity id)) (sy_world s) = (Ok g, w) /\
    c = with_granted (mkCaller (vi_Identity id) "") g.1 g.2.
Lemma trim_prefix s p : HasPrefix s p = true -> s = p +:+ TrimPrefix s p.
Proof.
  intros Hp. unfold TrimPrefix. rewrite Hp. revert s Hp. induction p as [|a p IH]; intros s Hp; cbn -[str_drop] in Hp.
  - by rewrite str_drop_0.
  - destruct s as [|b s]; [done|]. apply andb_true_iff in Hp as [->%Ascii.eqb_eq Hp]. cbn [String.length]. rewrite str_drop_S. exact (f_equal (String b) (IH s Hp)).
Qed.
Lemma identify_bearer reg v r s c tenant s1 :
  by_session sv r = false -> identify sv reg v r s = (Ok (c, tenant), s1) -> admitted reg v r s c /\ tenant = tenant_of reg r.
Proof.
  intros Hb E. unfold identify in E. rewrite Hb in E. unfold token_caller in E.
  destruct (HasPrefix (Header r "Authorization") "Bearer ") eqn:Ep; cbn -[HasPrefix] in E; [|done].
  unfold mbind, H_bind, with_keys in E. destruct (Verify_ v _ (sy_keys s)) as [[id|e] keys] eqn:Ev; cbn in E; [|done].
  unfold wrapping_H, on in E. cbn in E. destruct (GrantedRoles _ _ (sy_world s)) as [[g|e] w] eqn:Eg; cbn in E; [|done].
  injection E as <- <- <-. split; [|done]. exists (TrimPrefix (Header r "Authorization") "Bearer "), id, keys, g, w.
  split_and!; try done. by apply trim_prefix.
Qed.

Lemma endpoint_writes e path r s resp s' :
  by_session sv r = false -> run_endpoint sv e path r s = (resp, s') -> ~ same_tables (sy_world s) (sy_world s') ->
  exists reg v c s1, running_register s = Some (reg, v) /\ admitted reg v r s c /\
    same_tables (sy_world s) (sy_world s1) /\
    match e with
    | ForMembers h => exists p, principal_of reg c (tenant_of reg r) r = Ok p /\
        exists x, h (mkCall r path reg c (tenant_of reg r)) p s1 = (x, s')
    | ForCallers h => exists x, h (mkCall r path reg c (tenant_of reg r)) (principal_of reg c (tenant_of reg r) r) s1 = (x, s')
    end.
Proof.
  intros Hb E Hn. destruct e as [h|h]; cbn in E; unfold wrap_, wrapCaller in E;
    (destruct (running_register s) as [[reg v]|] eqn:Er; [|by injection E as <- <-]);
    destruct (identify sv reg v r s) as [[[c tenant]|e] s1] eqn:Ei;
    (assert (same_tables (sy_world s) (sy_world s1)) as Hs by (eapply (within_identify reg v r); [congruence|exact Ei]));
    try (by injection E as <- <-); apply identify_bearer in Ei as [Ha ->]; try done;
    exists reg, v, c, s1; (split_and!; [done..|]).
  - destruct (principal_of reg c (tenant_of reg r) r) as [p|e].
    + exists p. split; [done|]. destruct (h _ _ s1) as [a s2]. injection E as <- <-. by exists a.
    + destruct e; by injection E as <- <-.
  - destruct (h _ _ s1) as [a s2]. injection E as <- <-. by exists a.
Qed.

(** C11. A request with a bearer token that changes the register (its
    tables, its version or its root) is a POST or a DELETE to a server
    that is ready, its token was verified, and its caller either holds a
    role in the tenant it acts in, by the token or by this register's own
    grants, or redeems an invitation. Any other such request, refused or
    answered, leaves the register as it was: reading never writes. *)
Theorem writers_are_known r s resp s' :
  serve_api parse_float ledger_prune sv r s = Some (resp, s') -> by_session sv r = false ->
  ~ same_tables (sy_world s) (sy_world s') ->
  rq_Method r ∈ ["POST"; "DELETE"] /\
  exists reg v c, running_register s = Some (reg, v) /\ admitted reg v r s c /\
    ((exists p, Resolve (model_of reg) (cl_Identity c) (tenant_of reg r) (actingRole r) = Ok p) \/
     (exists id, rq_Path r = ["api"; "v1"; "invites"; id; "redeem"])).
Proof.
  unfold serve_api. destruct (find_route _ r) as [[e path]|] eqn:Ef; [|done]. intros [= E] Hb Hn.
  apply found_route in Ef as (route & Hin & <- & Hm & Hp).
  destruct (endpoint_writes _ _ _ _ _ _ Hb E Hn) as (reg & v & c & s1 & Hr & Ha & Hs & He).
  assert (endpoint_within same_tables route.2 -> False) as Hw.
  { intros Hw. apply Hn. etrans; [exact Hs|]. destruct route.2 as [h|h]; cbn in Hw.
    - destruct He as (p & _ & x & Eh). by eapply Hw.
    - destruct He as (x & Eh). by eapply Hw. }
  pose proof (endpoints_read parse_float ledger_prune sv) as Fr. pose proof methods as Fm. pose proof callers_read as Fc.
  rewrite Forall_forall in Fr, Fm, Fc. specialize (Fr _ Hin). specialize (Fm _ Hin). specialize (Fc _ Hin).
  assert (route.1.1 <> "GET") as Hg by (intros Hg; by apply Hw, Fr).
  split.
  { unfold match_method in Hm. apply orb_true_iff in Hm as [Hm%String.eqb_eq|[Hm%String.eqb_eq _]%andb_true_iff]; [|done].
    rewrite <- Hm. set_solver. }
  exists reg, v, c. split_and!; [done..|]. destruct route.2 as [h|h] eqn:Eh.
  - left. destruct He as (p & Hp' & _). by exists p.
  - right. destruct Fc as [Fc|Fc]; [|by destruct Hw]. rewrite Fc in Hp. clear -Hp.
    change (segments_of "/api/v1/invites/{id}/redeem") with [Lit "api"; Lit "v1"; Lit "invites"; Wild "id"; Lit "redeem"] in Hp.
    destruct (rq_Path r) as [|a [|b [|d [|id [|f [|g l]]]]]]; cbn -[String.eqb] in Hp; repeat case_match; try discriminate;
      bool_hyps; subst; eauto.
Qed.
End api.

(** ** A server at work *)
Section demo.
#[local] Existing Instance plain_runtime.
#[local] Existing Instance plain_formats.
#[local] Existing Instance plain_ledger.
#[local] Existing Instance plain_replication.
#[local] Existing Instance demo_provider.

(** An outbox nothing answers, with addresses that are any text. *)
Definition silent_outbox : Outbox := {|
  mail_ns _ := 0;
  http_post _ _ _ _ := None;
  ParseAddress s := Some (s, "");
  template_execute _ _ := Ok "<title>Invited</title>";
  html_Unescape s := s;
|}.
#[local] Existing Instance silent_outbox.

Definition demo_server : Server := mkServer "1.0" "register" "" false "" "" [] None None None.
Definition serving (reg : Register) (w : world) : system :=
  mkSystem w (mkKeyCache ∅ 0 0) StateReady "" (Some (reg, DevVerifier)) None None None.
Definition json_request (method : string) (path : list string) (bearer text : string) : Request :=
  mkRequest method path "" [("Authorization", "Bearer " +:+ bearer)] "register.test" (len text) text.
Definition redeem_request : Request :=
  json_request "POST" ["api"; "v1"; "invites"; issued_id; "redeem"] "dev:ann" (dquote ("{'secret': '" +:+ issued_secret +:+ "'}")).
Definition no_floats (s : string) : option float64 := None.
Definition no_prune (db : tables) (v : Z) : res Z := Ok 0.
Abbreviation demo_serve := (serve_api no_floats no_prune demo_server).
Definition answered_with (o : option (Response * system)) (status : Z) : bool :=
  match o with Some (resp, _) => rs_status resp =? status | None => false end.
Definition version_after (o : option (Response * system)) : Z := match o with Some (_, s) => version (sy_world s) | None => 0 end.

Example redeemed_over_http :
  (answered_with (demo_serve redeem_request (serving members_register issued_world)) 200,
   version (issued_world), version_after (demo_serve redeem_request (serving members_register issued_world))) = (true, 2, 3).
Proof. vm_compute. reflexivity. Qed.

Lemma writers_are_known_witness : exists resp s',
  demo_serve redeem_request (serving members_register issued_world) = Some (resp, s') /\ version (sy_world s') = 3 /\
  rq_Method redeem_request ∈ ["POST"; "DELETE"].
Proof.
  destruct (demo_serve redeem_request (serving members_register issued_world)) as [[resp s']|] eqn:E.
  2: { exfalso. assert (answered_with (demo_serve redeem_request (serving members_register issued_world)) 200 = true) as Ha
         by (vm_compute; reflexivity). rewrite E in Ha. discriminate Ha. }
  assert (version_after (demo_serve redeem_request (serving members_register issued_world)) = 3) as Hv by (vm_compute; reflexivity).
  rewrite E in Hv. cbn [version_after] in Hv. exists resp, s'. split; [reflexivity|]. split; [exact Hv|].
  refine (proj1 (writers_are_known no_floats no_prune demo_server redeem_request (serving members_register issued_world) resp s' E _ _)).
  - reflexivity.
  - intros (_ & Hs & _). rewrite Hv in Hs. vm_compute in Hs. discriminate Hs.
Defined.


Lemma routes_unambiguous_witness :
  3%nat = 3%nat /\ length (patterns no_floats no_prune demo_server) = 58%nat.
Proof.
  refine (routes_unambiguous no_floats no_prune demo_server (mkRequest "GET" ["version"] "" [] "" 0 "") 3 3 ("GET", "/version") ("GET", "/version")
            eq_refl eq_refl _ _); (split; [reflexivity|eexists; vm_compute; reflexivity]).
Defined.
End demo.
