(* ===== verification/GateCorrect.v ===== *)
(** * The freeze gate and what refusals say

    A server serves when, and only when, a configure call brought a
    register up and named its people; on a register that is serving a
    configure call is never a second configuration. *)

From S2P Require Import Prelude GoStrings Float64 Encoding Canon Json SqlText Sql GoJson Model World Concrete Commit Rbac JsonSchema Pack Byok Records Landing.
From S2P Require Import Workflow Identities Members MembersCorrect Invitations Retention Anchors Checkpoints Auditing Queries Admin Standby StandbyCorrect Tokens TokensCorrect Requests Mail Hooks Api Gate Within ApiCorrect.
Local Open Scope Z_scope.

Section gate.
Context `{Runtime} `{GoFormats} `{!Ledger} `{!Replication} `{!Provider} `{!Outbox}.
Variable parse_float : string -> option float64.
Variable ledger_prune : tables -> Z -> res Z.
Variable sv : Server.

(** What the mail callback is trusted to leave alone. *)
Definition mail_only : Prop :=
  forall g d s x s', sv_ConfigureMail sv = Some g -> g d s = (x, s') -> sy_reg s' = sy_reg s /\ sy_state s' = sy_state s.

Lemma people_leave_server reg document s x s' :
  mail_only -> configure_people sv reg document s = (x, s') -> sy_reg s' = sy_reg s /\ sy_state s' = sy_state s.
Proof.
  intros Hm E. unfold configure_people, mbind, H_bind, on in E. destruct (bootstrapMembers sv reg document (sy_world s)) as [[people|e] w].
  2: by injection E as <- <-.
  unfold configureMail in E. destruct (sv_ConfigureMail sv) as [f|] eqn:Ef; [|by injection E as <- <-].
  unfold mbind, H_bind in E. destruct (f document (set_world w s)) as [[state|e] s1] eqn:E1; injection E as <- <-;
    apply (Hm _ _ _ _ _ Ef) in E1; exact E1.
Qed.

Definition gate_state (s s' : system) (resp : Response) : Prop :=
  match running_register s with
  | Some reg => running_register s' = Some reg /\ rs_status resp ∈ [200; 400; 501]
  | None =>
      (rs_status resp = 400 /\ running_register s' = None) \/ (rs_status resp = 501 /\ s' = s)
      \/ ((rs_status resp = 200 \/ rs_status resp = 500) /\ is_Some (running_register s') /\ sy_failure s' = "")
  end.

(** ** Reading a refusal *)

(** A natural key is unescaped twice, by the router and by the handler, so
    one with a percent sign that opens no escape is never found. *)
Lemma percent_key_refused c p s :
  PathUnescape (PathValue c "key") = None -> naturalKeyProof c p s = (Err (Errorf "the key is not valid" []), s).
Proof. intros Hk. unfold naturalKeyProof. by rewrite Hk. Qed.
Lemma percent_key_example : PathUnescape "100%" = None /\ PathUnescape "50%25" = Some "50%".
Proof. by vm_compute. Qed.

(** Roles an identity provider asserts are held in whatever tenant a
    request names. *)
Definition in_tenant (t : string) (p : Principal) : Principal :=
  mkPrincipal (Sub p) (Display p) (Email p) t (p_Roles p) (Acting p) (PII p) (perms p).
Lemma roles_in_any_tenant m id t1 t2 role p : Resolve m id t1 role = Ok p -> Resolve m id t2 role = Ok (in_tenant t2 p).
Proof.
  unfold Resolve. cbv zeta. unfold mbind, res_bind. destruct (refuse_if _ _); [|done]. destruct (check_duties _ _ _); [|done].
  match goal with |- context [match ?x with Ok _ => _ | Err _ => _ end] => destruct x end; [|done]. by intros [= <-].
Qed.
End gate.

Section demo.
#[local] Existing Instance plain_runtime.
#[local] Existing Instance plain_formats.
#[local] Existing Instance plain_ledger.
#[local] Existing Instance plain_replication.
#[local] Existing Instance demo_provider.
#[local] Existing Instance silent_outbox.

(** A refusal is read off the error's text, so a name in it decides. *)
Example names_decide :
  (classify (Errorf "no workflow named %q" ["rename"]), classify (Errorf "no workflow named %q" ["may not"])) = ((404, ""), (403, "")).
Proof. vm_compute. reflexivity. Qed.

(** A register that configures itself from the document it is given. *)
Definition bringing_up (document : string) (s : system) : res (Register * Verifier) * system :=
  if String.eqb document "" then (Err (Errorf "configuration: give a pack" []), s) else (Ok (members_register, DevVerifier), s).
Definition gated_server : Server := mkServer "1.0" "register" "" false "" "" [] None (Some bringing_up) None.
Definition waiting : system := mkSystem fresh_world (mkKeyCache ∅ 0 0) StateAwaitingConfiguration "" None None None None.
Definition configure_request (document : string) : Request :=
  json_request "POST" ["configure"] "" (dquote document).
Definition admins : string := "{'admins': 'ann, bo', 'admin_invite': true}".

Definition outcome (x : Response * system) : Z * option (option Z * bool) * string :=
  (rs_status x.1, match rs_reply x.1 with Answer (AConfigured _ n inv _ _) => Some (n, bool_decide (inv = None)) | _ => None end, sy_state x.2).
(** Configured twice, as on every restart: the second call names nobody
    again and mints no second invitation. *)
Example configured_twice :
  let one := configure gated_server (configure_request admins) waiting in
  (outcome one, outcome (configure gated_server (configure_request admins) one.2)) =
  ((200, Some (Some 2, true), StateReady), (200, Some (Some 0, true), StateReady)).
Proof. vm_compute. reflexivity. Qed.
(** A role that is not declared is refused after the register was brought
    up; the server is not ready, and the next call brings it up again. *)
Example bad_role_fails :
  outcome (configure gated_server (configure_request "{'admins': 'ann', 'admin_role': 'nobody'}") waiting) = (400, None, StateFailed).
Proof. vm_compute. reflexivity. Qed.

End demo.
