(* ===== verification/Sealed.v ===== *)
(** * Keys on the sealed volume ([internal/keys/keys.go])

    The master secret and the checkpoint signer, made on the first start
    and read back on every later one, and the check value that ties the
    store to one commitment key. *)

From S2P Require Import Prelude GoStrings Float64 Encoding Canon Json Sql Model World Concrete Byok.
Local Open Scope Z_scope.

(** The volume: its files by path, and the position in the entropy stream
    ([crypto/rand], read as in [World.Process]). *)
Record disk := mkDisk { dk_files : gmap string string; dk_rnd : nat }.

(** How the volume may fail: making a directory, reading a file, and
    writing one, which may leave the first bytes of what was written. *)
Class Volume := {
  dir_fault : string -> option error;
  read_fault : string -> option error;
  write_fault : string -> option (error * nat);
}.

Definition V (A : Type) : Type := disk -> res A * disk.
#[export] Instance V_ret : MRet V := fun _ a d => (Ok a, d).
#[export] Instance V_bind : MBind V := fun _ _ k m d => match m d with (Ok a, d') => k a d' | (Err e, d') => (Err e, d') end.

Definition SourceDelivered := "delivered".
Definition SourceDerived := "derived".

Section sealed.
Context `{Crypto} `{!Process} `{!Volume}.

(** [os.ReadFile]: [None] when there is no such file. *)
Definition ReadFile (path : string) : disk -> res (option string) := fun d =>
  match read_fault path with Some e => Err e | None => Ok (dk_files d !! path) end.
Definition WriteFile (path content : string) : V unit := fun d =>
  match write_fault path with
  | Some (e, n) => (Err e, mkDisk (<[path := str_take n content]> (dk_files d)) (dk_rnd d))
  | None => (Ok tt, mkDisk (<[path := content]> (dk_files d)) (dk_rnd d))
  end.
Definition rand_Read (n : nat) : V string := fun d => (Ok (entropy (dk_rnd d) n), mkDisk (dk_files d) (S (dk_rnd d))).
Definition wrapping_V {A} (fmt : string) (args : list string) (m : V A) : V A := fun d =>
  match m d with (Ok a, d') => (Ok a, d') | (Err e, d') => (Err (Wrapf fmt args e), d') end.

Definition loadOrCreate (dir name : string) (size : nat) : V string := fun d =>
  let path := dir +:+ "/" +:+ name in
  match ReadFile path d with
  | Err e => (Err (Wrapf "keys: read %s: %w" [name] e), d)
  | Ok (Some buf) =>
      (if len buf =? Z.of_nat size then Ok buf
       else Err (Errorf "keys: %s is %d bytes, expected %d" [name; itoa (len buf); itoa (Z.of_nat size)]), d)
  | Ok None =>
      (buf ← rand_Read size;
       _ ← wrapping_V "keys: write %s: %w" [name] (WriteFile path buf);
       mret buf : V string) d
  end.

(** [keys.Load]. A signer is held by its seed, as [Byok.Material] does. *)
Definition make_dir (dir : string) : V unit := fun d =>
  (match dir_fault dir with Some e => Err (Wrapf "keys: %w" [] e) | None => Ok tt end, d).
Definition Load (dir : string) : V Material :=
  _ ← make_dir dir;
  master ← loadOrCreate dir "master.key" 32;
  seed ← loadOrCreate dir "checkpoint.ed25519" 32;
  mret (mkMaterial master seed (hex_encode (sha256 (ed25519_public seed)))).

(** ** The commitment key *)

Definition check_value (ck : string) : string := hmac_sha256 ck "register/ck-check/v1".
Definition checkCommitmentKey (dir ck : string) : V unit := fun d =>
  let path := dir +:+ "/ck.check" in
  match ReadFile path d with
  | Err e => (Err (Wrapf "keys: read commitment-key check: %w" [] e), d)
  | Ok None => WriteFile path (check_value ck) d
  | Ok (Some have) =>
      (if String.eqb have (check_value ck) then Ok tt
       else Err (Errorf "keys: the commitment key does not match the one this store was created with; the store is intact, the key is wrong" []), d)
  end.
Definition CommitmentKey (m : Material) (dir : string) (delivered : option string) : V (string * string) :=
  let '(ck, source) := match delivered with
                       | Some ck => (ck, SourceDelivered)
                       | None => (hkdf (mat_Master m) "register/commitment-key/v1", SourceDerived)
                       end in
  _ ← checkCommitmentKey dir ck; mret (ck, source).
Definition Fingerprint (ck : string) : string := sha256 ("register/ck-fingerprint/v1" +:+ ck).

(** ** What the volume guarantees *)

Lemma loadOrCreate_again dir name size d buf d' :
  loadOrCreate dir name size d = (Ok buf, d') ->
  len buf = Z.of_nat size /\ dk_files d' !! (dir +:+ "/" +:+ name) = Some buf /\
  (forall path, path <> dir +:+ "/" +:+ name -> dk_files d' !! path = dk_files d !! path).
Proof.
  unfold loadOrCreate, ReadFile. destruct (read_fault _); [done|]. destruct (dk_files d !! _) as [have|] eqn:Ef.
  - case_match eqn:El; [|done]. intros [= <- <-]. apply Z.eqb_eq in El. done.
  - unfold mbind, V_bind, rand_Read, wrapping_V, WriteFile. destruct (write_fault _) as [[e n]|]; [done|]. cbn.
    intros [= <- <-]. cbn. split_and!.
    + unfold len. by rewrite entropy_length.
    + by rewrite lookup_insert_eq.
    + intros path Hne. by rewrite lookup_insert_ne.
Qed.
Lemma loadOrCreate_found dir name size d buf :
  read_fault (dir +:+ "/" +:+ name) = None -> dk_files d !! (dir +:+ "/" +:+ name) = Some buf -> len buf = Z.of_nat size ->
  loadOrCreate dir name size d = (Ok buf, d).
Proof. intros Hf Hb Hl. unfold loadOrCreate, ReadFile. rewrite Hf, Hb, Hl. by rewrite Z.eqb_refl. Qed.
Lemma loadOrCreate_readable dir name size d buf d' :
  loadOrCreate dir name size d = (Ok buf, d') -> read_fault (dir +:+ "/" +:+ name) = None.
Proof. unfold loadOrCreate, ReadFile. by destruct (read_fault _). Qed.

Lemma paths_differ (dir a b : string) : a <> b -> dir +:+ "/" +:+ a <> dir +:+ "/" +:+ b.
Proof. intros Hab E. by simplify_eq. Qed.

Lemma Load_again dir d m d' d2 : Load dir d = (Ok m, d') ->
  (forall name, name ∈ ["master.key"; "checkpoint.ed25519"] -> dk_files d2 !! (dir +:+ "/" +:+ name) = dk_files d' !! (dir +:+ "/" +:+ name)) ->
  Load dir d2 = (Ok m, d2).
Proof.
  intros E Hd. unfold Load, mbind, V_bind, make_dir in E |- *. destruct (dir_fault dir); [done|].
  destruct (loadOrCreate dir "master.key" 32 d) as [[master|e] d1] eqn:E1; [|done].
  destruct (loadOrCreate dir "checkpoint.ed25519" 32 d1) as [[seed|e] d3] eqn:E3; [|done]. injection E as <- <-.
  pose proof (loadOrCreate_readable _ _ _ _ _ _ E1) as R1. pose proof (loadOrCreate_readable _ _ _ _ _ _ E3) as R3.
  apply loadOrCreate_again in E1 as (L1 & F1 & _), E3 as (L3 & F3 & O3).
  rewrite (loadOrCreate_found dir "master.key" 32 d2 master R1).
  - rewrite (loadOrCreate_found dir "checkpoint.ed25519" 32 d2 seed R3); [done| |done]. rewrite Hd; [done|set_solver].
  - rewrite Hd; [|set_solver]. rewrite O3; [done|]. by apply paths_differ.
  - done.
Qed.

Lemma checked dir ck d u d' : checkCommitmentKey dir ck d = (Ok u, d') ->
  read_fault (dir +:+ "/ck.check") = None /\ dk_files d' !! (dir +:+ "/ck.check") = Some (check_value ck) /\
  (forall path, path <> dir +:+ "/ck.check" -> dk_files d' !! path = dk_files d !! path).
Proof.
  unfold checkCommitmentKey, ReadFile. destruct (read_fault _); [done|]. destruct (dk_files d !! _) as [have|] eqn:Ef.
  - case_match eqn:Eh; [|done]. apply String.eqb_eq in Eh. intros [= <- <-]. by rewrite <- Eh.
  - unfold WriteFile. destruct (write_fault _) as [[e n]|]; [done|]. intros [= <- <-]. cbn. split_and!; [done|by rewrite lookup_insert_eq|].
    intros path Hne. by rewrite lookup_insert_ne.
Qed.

(** C24. Once a register has started with a commitment key, a restart on
    the same volume finds the very same secrets, and only that key opens
    it: any key is accepted exactly when its check value is the one that
    was written, the volume is left as it is either way, and a wrong key is
    told apart from a corrupt store. *)
Theorem key_binds_store dir d m d1 delivered ck source d2 :
  Load dir d = (Ok m, d1) -> CommitmentKey m dir delivered d1 = (Ok (ck, source), d2) ->
  Load dir d2 = (Ok m, d2) /\
  (forall again, exists x, CommitmentKey m dir again d2 = (x, d2) /\
     let ck2 := default (hkdf (mat_Master m) "register/commitment-key/v1") again in
     is_ok x = bool_decide (check_value ck2 = check_value ck)).
Proof.
  intros E1 E2. unfold CommitmentKey in E2. case_match eqn:Ed; simplify_eq. unfold mbind, V_bind in E2.
  destruct (checkCommitmentKey dir _ d1) as [[[]|e] d3] eqn:Ec; [|done]. injection E2 as -> -> ->.
  apply checked in Ec as (Hr & Hf & Ho). split.
  - eapply Load_again; [exact E1|]. intros name Hn. apply Ho. apply (paths_differ dir name "ck.check"). set_solver.
  - intros again. unfold CommitmentKey.
    assert (forall ck2 src, exists x, (_ ← checkCommitmentKey dir ck2; mret (ck2, src) : V (string * string)) d2 = (x, d2) /\
      is_ok x = bool_decide (check_value ck2 = check_value ck)) as Hck.
    { intros ck2 src. unfold mbind, V_bind, checkCommitmentKey, ReadFile. rewrite Hr, Hf.
      destruct (String.eqb_spec (check_value ck) (check_value ck2)) as [Heq|Hne]; eexists; (split; [reflexivity|]); symmetry.
      - by apply bool_decide_eq_true.
      - apply bool_decide_eq_false. congruence. }
    destruct again as [ck2|]; apply Hck.
Qed.
End sealed.

(** ** A volume at work *)
Section demo.
Definition plain_volume : Volume := {| dir_fault _ := None; read_fault _ := None; write_fault _ := None |}.
(** One whose writes stop after four bytes. *)
Definition torn_volume : Volume :=
  {| dir_fault _ := None; read_fault _ := None; write_fault _ := Some (Errorf "no space left on device" [], 4%nat) |}.
Definition blank : disk := mkDisk ∅ 0.
#[local] Existing Instance plain_crypto.
#[local] Existing Instance plain_process.
Definition start (v : Volume) (delivered : option string) : V (Material * (string * string)) :=
  m ← Load "/data/keys"; ck ← CommitmentKey m "/data/keys" delivered; mret (m, ck).

(** A first start that could not finish writing a secret leaves the part
    it wrote, and no later start gets past it. *)
Example torn_write :
  let d := snd (start torn_volume None blank) in
  (is_ok (fst (start torn_volume None blank)), fst (start plain_volume None d)) =
  (false, Err (Errorf "keys: %s is %d bytes, expected %d" ["master.key"; "4"; "32"])).
Proof. vm_compute. reflexivity. Qed.

#[local] Existing Instance plain_volume.
Lemma key_binds_store_witness : exists d1 d2 m ck,
  Load "/data/keys" blank = (Ok m, d1) /\
  CommitmentKey m "/data/keys" (Some "delivered key") d1 = (Ok (ck, SourceDelivered), d2) /\
  Load "/data/keys" d2 = (Ok m, d2).
Proof.
  destruct (Load "/data/keys" blank) as [[m|e] d1] eqn:E1; [|exfalso; vm_compute in E1; discriminate E1].
  assert (exists ck d2, CommitmentKey m "/data/keys" (Some "delivered key") d1 = (Ok (ck, SourceDelivered), d2)) as (ck & d2 & E2).
  { vm_compute in E1. injection E1 as <- <-. eexists _, _. vm_compute. reflexivity. }
  exists d1, d2, m, ck. split; [reflexivity|]. split; [exact E2|].
  exact (proj1 (key_binds_store "/data/keys" blank m d1 (Some "delivered key") ck SourceDelivered d2 E1 E2)).
Defined.
End demo.
