(* ===== verification/App.v ===== *)
(** * The program around the register ([cmd/register], [internal/config], [internal/platform])

    What the process reads from its environment, the verifier and the pack
    it chooses, the email settings it keeps on the volume, the pass over
    open invitations, and the two values it asks the enclave manager to
    put into its certificate. *)

From S2P Require Import Prelude GoStrings Float64 Encoding Canon Json SqlText Sql GoJson Model World Commit Rbac JsonSchema Pack Byok Records.
From S2P Require Import Workflow Identities Members Retention Anchors Checkpoints Auditing Queries Admin Standby Tokens Requests Mail Hooks Api Gate Sealed.
Local Open Scope Z_scope.

(** ** Configuration *)

Record Config := mkConfig {
  cf_Port : Z;
  cf_DataDir : string;
  cf_Name : string;
  cf_ImageDigest : string;
  cf_ManagerURL : string;
  cf_ContainerName : string;
  cf_ContainerToken : string;
  cf_AppID : string;
  cf_Issuer : string;
  cf_Audience : string;
  cf_DevAuth : bool;
  cf_Mode : string;
  cf_PrimaryURL : string;
  cf_SelfConfigure : bool;
  cf_CommitmentKeyHex : string;
  cf_Tenant : string;
  cf_PackPath : string;
  cf_CheckpointInterval : Z;
  cf_StandbyInterval : Z;
  cf_WebDir : string;
  cf_SiteDir : string;
  cf_ClientID : string;
  cf_SignInProviders : list string;
}.
Definition ModeActive := "active".
Definition ModeStandby := "standby".

Section config.
Context `{GoUnicode}.
(** [os.Getenv], [time.ParseDuration] in nanoseconds, and whether [/site]
    is a directory. *)
Variable getenv : string -> string.
Variable ParseDuration : string -> option Z.
Variable site_there : bool.

Definition env (key fallback : string) : string := let v := getenv key in if String.eqb v "" then fallback else v.
Definition truthy (v : string) : bool := containsString ["1"; "true"; "yes"; "on"] (ToLower (TrimSpace v)).
Definition duration (key : string) (fallback : Z) : Z :=
  let v := getenv key in
  if String.eqb v "" then fallback
  else match ParseDuration v with Some d => if d <=? 0 then fallback else d | None => fallback end.
Definition list_setting (v : string) : list string :=
  omap (fun p => let p := TrimSpace p in if String.eqb p "" then None else Some p) (Split1 v ",").

Definition read_port : res Z :=
  let port := getenv "PORT" in
  _ ← refuse_if (String.eqb port "") (Errorf "config: PORT is required (the platform assigns it per app)" []);
  match ParseInt64 port with
  | (n, true) => if (n <=? 0) || (65535 <? n) then Err (Errorf "config: PORT is not a valid port number" []) else Ok n
  | _ => Err (Errorf "config: PORT is not a valid port number" [])
  end.
Definition check_mode (mode primary : string) : res unit :=
  if String.eqb mode ModeActive then Ok tt
  else if String.eqb mode ModeStandby
  then refuse_if (String.eqb primary "") (Errorf "config: REGISTER_MODE=standby needs REGISTER_PRIMARY_URL" [])
  else Err (Errorf "config: REGISTER_MODE must be active or standby" []).
Definition Load_config : res Config :=
  let site := getenv "REGISTER_SITE_DIR" in
  let dev := truthy (getenv "REGISTER_DEV_AUTH") in
  let token := getenv "PRIVASYS_CONTAINER_TOKEN" in
  let mode := env "REGISTER_MODE" ModeActive in
  let primary := getenv "REGISTER_PRIMARY_URL" in
  port ← read_port;
  _ ← refuse_if (dev && negb (String.eqb token "")) (Errorf "config: REGISTER_DEV_AUTH must not be set on the platform" []);
  _ ← check_mode mode primary;
  Ok (mkConfig port (env "REGISTER_DATA_DIR" "/data") (env "REGISTER_NAME" (env "PRIVASYS_CONTAINER_NAME" "register"))
        (getenv "PRIVASYS_IMAGE_DIGEST") (getenv "PRIVASYS_MANAGER_URL") (getenv "PRIVASYS_CONTAINER_NAME") token
        (getenv "PRIVASYS_APP_ID") (env "REGISTER_OIDC_ISSUER" "https://privasys.id") (getenv "REGISTER_OIDC_AUDIENCE") dev mode primary
        (truthy (getenv "REGISTER_SELF_CONFIGURE") || String.eqb mode ModeStandby) (getenv "REGISTER_COMMITMENT_KEY")
        (env "REGISTER_TENANT" "default") (getenv "REGISTER_PACK") (duration "REGISTER_CHECKPOINT_INTERVAL" (24 * 3600 * second))
        (duration "REGISTER_STANDBY_INTERVAL" (30 * second)) (env "REGISTER_WEB_DIR" "/web")
        (if String.eqb site "" && site_there then "/site" else site) (getenv "REGISTER_CLIENT_ID")
        (list_setting (getenv "REGISTER_SIGNIN_PROVIDERS"))).

Definition OnPlatform (c : Config) : bool :=
  negb (String.eqb (cf_ContainerName c) "") && negb (String.eqb (cf_ContainerToken c) "") && negb (String.eqb (cf_ManagerURL c) "").
Definition AppIDHex (raw : string) : string :=
  let id := ToLower (ReplaceAll1 (TrimSpace raw) "-" "") in
  if negb (len id =? 32) then ""
  else if forallb (fun c => ((48 <=? c) && (c <=? 57)) || ((97 <=? c) && (c <=? 102))) (runes id) then id else "".

(** The verifier a configuration chooses, and the fields of the server
    that follow from it ([run] of main.go). *)
Definition verifier (c : Config) : Verifier * KeyCache :=
  if cf_DevAuth c then (DevVerifier, mkKeyCache ∅ 0 0)
  else let '(v, k) := NewJWKSVerifier (cf_Issuer c) (cf_Audience c) in (OIDC v, k).
Definition new_server (c : Config) (version document : string) (join : option string)
    (configure : string -> system -> res (Register * Verifier) * system) (mail : string -> system -> res string * system) : Server :=
  mkServer version (cf_Name c) document (OnPlatform c) (cf_ClientID c) (AppIDHex (cf_AppID c)) (cf_SignInProviders c) join
    (Some configure) (Some mail).

(** [resolvePack], of the pack and the reference a document gives: inline,
    or baked into the image. [base] is [filepath.Base], [baked] what the
    file of a name holds. *)
Definition resolvePack (base : string -> string) (baked : string -> option string) (pack pack_ref : string) : res string :=
  if negb (String.eqb pack "") then Ok pack
  else if String.eqb pack_ref "" then Err (Errorf "configuration: give a pack, or a pack_ref naming one baked into the image" [])
  else if negb (String.eqb (base pack_ref) pack_ref) then Err (Errorf "configuration: pack_ref is a name, not a path" [])
  else of_option (baked pack_ref) (Errorf "configuration: no pack %q is baked into this image" [pack_ref]).
(** The delivered commitment key of a document: 64 hexadecimal digits. *)
Definition delivered_key (text : string) : res (option string) :=
  if String.eqb text "" then Ok None
  else match hex_decode text with
       | Some raw => if len raw =? 32 then Ok (Some raw) else Err (Errorf "configuration: commitment_key must be 64 hex characters" [])
       | None => Err (Errorf "configuration: commitment_key must be 64 hex characters" [])
       end.

(** A configuration that loads is safe to serve with: its port is one,
    bearer tokens go unverified only off the platform (where, in turn, the
    session header is not believed), a standby knows its primary and
    configures itself, and every interval is positive. *)
Lemma config_safe c : Load_config = Ok c ->
  1 <= cf_Port c <= 65535 /\
  ((verifier c).1 = DevVerifier -> OnPlatform c = false) /\
  (cf_Mode c = ModeActive \/ (cf_Mode c = ModeStandby /\ cf_PrimaryURL c <> "" /\ cf_SelfConfigure c = true)) /\
  0 < cf_CheckpointInterval c /\ 0 < cf_StandbyInterval c.
Proof.
  unfold Load_config. cbv zeta. intros E. res_inv.
  unfold verifier, OnPlatform. cbn [cf_Port cf_DevAuth cf_ContainerName cf_ContainerToken cf_ManagerURL cf_Mode cf_PrimaryURL cf_SelfConfigure cf_CheckpointInterval cf_StandbyInterval].
  assert (forall key fallback, 0 < fallback -> 0 < duration key fallback) as Hd.
  { intros key fallback Hf. unfold duration. repeat case_match; try done. bool_hyps. lia. }
  split; [|split; [|split; [|split; by apply Hd]]].
  - unfold read_port in *. res_inv. repeat case_match; try discriminate. res_inv. bool_hyps. lia.
  - match goal with H : truthy _ && _ = false |- _ => destruct (truthy (getenv "REGISTER_DEV_AUTH")); [cbn [andb] in H; rewrite H|done] end.
    intros _. by rewrite andb_false_r.
  - unfold check_mode in *. repeat case_match; try discriminate; bool_hyps; [by left|]. res_inv. bool_hyps. right. split_and!; try done.
    apply orb_true_r.
Qed.
End config.

(** ** The email settings a configure call gives *)

(** [json.Unmarshal] into a struct of text and boolean fields. *)
Definition read_struct (fs : fields) (document : string) : res body :=
  _ ← parse_raw document; ms ← first_object document; fill_known true fs ms ∅.
Definition lift_V {A} (r : res A) : V A := fun d => (r, d).
Definition wrapped {A} (fmt : string) (args : list string) (r : res A) : res A :=
  match r with Ok a => Ok a | Err e => Err (Wrapf fmt args e) end.

Definition setting_names : list string :=
  ["tenant_id"; "client_id"; "client_secret"; "sender"; "base_url"; "office"; "organisation"; "sign_in_method"; "support_email"].
Definition setting_fields (prefix : string) : fields :=
  map (fun n => (prefix +:+ n, KString)) setting_names ++ [(prefix +:+ "production", KBool)].
Definition settings_of (prefix : string) (b : body) : Settings :=
  let s n := str_field b (prefix +:+ n) in
  mkSettings (s "tenant_id") (s "client_id") (s "client_secret") (s "sender") (s "base_url") (s "office") (s "organisation")
    (s "sign_in_method") (s "support_email") (bool_field b (prefix +:+ "production")).
Definition text_member (k v : string) : object := if String.eqb v "" then [] else [(k, VStr v)].
Definition settings_value (s : Settings) : value :=
  VObj ([("tenant_id", VStr (ms_TenantID s)); ("client_id", VStr (ms_ClientID s))]
        ++ text_member "client_secret" (ms_ClientSecret s)
        ++ [("sender", VStr (ms_Sender s)); ("base_url", VStr (ms_BaseURL s))]
        ++ text_member "office" (ms_Office s) ++ text_member "organisation" (ms_Organisation s)
        ++ text_member "sign_in_method" (ms_SignInMethod s) ++ text_member "support_email" (ms_SupportEmail s)
        ++ (if ms_Production s then [("production", VBool true)] else [])).

Section mailing.
Context `{Runtime} `{GoFormats} `{!Ledger} `{!Replication} `{!Provider} `{!Outbox} `{!Volume}.

Definition settings_file (dir : string) : string := dir +:+ "/mail.json".
Definition LoadSettings (dir : string) : V (option Settings) :=
  raw ← (fun d => (wrapped "mail: %w" [] (ReadFile (settings_file dir) d), d));
  match raw with
  | None => mret None
  | Some raw => b ← lift_V (wrapped "mail: %s: %w" ["mail.json"] (read_struct (setting_fields "") raw)); mret (Some (settings_of "" b))
  end.
Definition SaveSettings (dir : string) (s : Settings) : V unit :=
  raw ← lift_V (go_json (settings_value s)); wrapping_V "mail: %w" [] (WriteFile (settings_file dir) raw).

(** [configureMail]: the state it reports, and the sender it stores, when
    it stores one ([Some None]: it takes the sender away). [template] is
    the invitation template as it was read. *)
Definition mail_report (m : res Mailer) : string * option (option Mailer) :=
  match m with Ok m => ("ready", Some (Some m)) | Err e => ("not ready: " +:+ error_text e, Some None) end.
Definition complete_settings (c : Config) (doc : Settings) (held : option Settings) : V Settings :=
  let settings := match held with Some held => Merge doc held | None => doc end in
  _ ← (if bool_decide (doc = no_settings) then mret tt else SaveSettings (cf_DataDir c) settings);
  mret settings.
Definition configureMail_ (c : Config) (template : res string) (document : string) : V (string * option (option Mailer)) :=
  if String.eqb (cf_Mode c) ModeStandby then mret ("", None)
  else
    b ← lift_V (if String.eqb document "" then Ok ∅ else wrapped "configuration: %w" [] (read_struct (setting_fields "mail_") document));
    held ← LoadSettings (cf_DataDir c);
    let doc := settings_of "mail_" b in
    if bool_decide (doc = no_settings) && bool_decide (held = None) then mret ("", None)
    else settings ← complete_settings c doc held; mret (mail_report (New settings template)).

(** ** Passing over the invitations *)

Variable sv : Server.
Variable reg : Register.

Definition remind (m : Mailer) (d : InviteReminder) : H Mailer := fun s =>
  let '(sent, m) := SendInvitation (InvitationEmail sv reg (rem_Invite d) (rem_To d) true) m in
  match sent with
  | Err _ => (Ok m, s)
  | Ok _ => (_ ← on (attempt (MarkReminded reg (iv_ID (rem_Invite d)))); mret m : H Mailer) s
  end.
Fixpoint remind_all (m : Mailer) (due : list InviteReminder) : H Mailer :=
  match due with [] => mret m | d :: due => m ← remind m d; remind_all m due end.
Definition store_mailer (m : Mailer) : H unit := fun s => (Ok tt, set_mailer (Some m) s).
(** [passInvitations]: what went wrong is logged and the pass goes on. *)
Definition passInvitations : H unit :=
  _ ← on (attempt (ForgetExpiredRecipients reg));
  mailer ← look sy_mailer;
  match mailer with
  | None => mret tt
  | Some m =>
      due ← on (attempt (InviteReminders reg));
      match due with
      | None => mret tt
      | Some due => m ← remind_all m due; store_mailer m
      end
  end.

(** ** The deployer's key *)

Definition enrolCustomerKey (tenant id algo publicKey : string) : M unit :=
  let principal := Grant (mkPrincipal "system:configure" "Deployer" "" tenant ["system"] "system" false ∅) [PermKeys] in
  _ ← EnrolKEK principal id algo publicKey; mret tt.
End mailing.

(** ** The enclave manager *)

Definition OIDConfiguration := "1.3.6.1.4.1.65230.5.4.1".
Definition OIDLedgerRoot := "1.3.6.1.4.1.65230.5.4.2".
Record Manager := mkManager { mg_baseURL : string; mg_container : string; mg_token : string }.
(** [parses] is [url.Parse] without its result. *)
Definition NewManager (parses : string -> bool) (url container token : string) : option Manager :=
  if String.eqb url "" || String.eqb container "" || String.eqb token "" then None
  else if parses url then Some (mkManager url container token) else None.

Section manager.
Context `{Crypto} `{!Outbox}.
(** Requests are counted from [t]; the result is the error, if any. *)
Definition SetExtension (m : option Manager) (oid raw : string) (t : nat) : res unit :=
  match m with
  | None => Ok tt
  | Some m =>
      body ← go_json (VObj [("oid", VStr oid); ("value_b64", VStr (base64_encode raw))]);
      let endpoint := mg_baseURL m +:+ "/api/v1/containers/" +:+ PathEscape (mg_container m) +:+ "/attestation-extensions" in
      match http_post t endpoint [("Content-Type", "application/json"); ("Authorization", "Bearer " +:+ mg_token m)] body with
      | None => Err (Wrapf "platform: attestation extension: %w" [] (Errorf "the manager was not reached" []))
      | Some (status, answer) =>
          if status <? 300 then Ok tt
          else Err (Errorf "platform: attestation extension %s: %d %s" [oid; itoa status; limited 4096 answer])
      end
  end.
Definition PublishRoot (m : option Manager) (rootHex : string) (t : nat) : res unit :=
  match hex_decode rootHex with
  | None => Err (Wrapf "platform: root is not hex: %w" [] (Errorf "encoding/hex" []))
  | Some raw => SetExtension m OIDLedgerRoot raw t
  end.
Definition publishConfiguration (m : option Manager) (ck : string) (t : nat) : res unit := SetExtension m OIDConfiguration (Fingerprint ck) t.
End manager.
