(* ===== verification/AppCorrect.v ===== *)
(** * The program around the register: what it does to the store and the volume *)

From S2P Require Import Prelude GoStrings Float64 Encoding Canon Json SqlText Sql GoJson Model World Concrete Commit Rbac JsonSchema Pack Byok Records Landing.
From S2P Require Import Workflow Identities Members MembersCorrect Invitations Retention Anchors Checkpoints Auditing Queries Admin Standby StandbyCorrect Tokens TokensCorrect Requests Mail Hooks Api Gate Within ApiCorrect Sealed App.
Local Open Scope Z_scope.

Section app.
Context `{Runtime} `{GoFormats} `{!Ledger} `{!Replication} `{!Provider} `{!Outbox} `{!Volume}.

(** A pass over the invitations keeps the store well formed, whatever the
    mail service answers; and without a sender it forgets who expired
    invitations were for and does nothing else. *)
Lemma within_remind sv reg m d : within_H kept (remind sv reg m d).
Proof.
  intros s r s' E. unfold remind in E. destruct (SendInvitation _ m) as [[u|e] m']; [|by injection E as <- <-].
  revert E. generalize s r s'. change (within_H kept (_ ← on (attempt (MarkReminded reg (iv_ID (rem_Invite d)))); mret m' : H Mailer)). within_tac.
Qed.
Lemma within_remind_all sv reg due : forall m, within_H kept (remind_all sv reg m due).
Proof. induction due as [|d due IH]; intros m; [apply within_H_ret|]. apply within_H_bind; [apply within_remind|done]. Qed.
Lemma pass_kept sv reg : within_H kept (passInvitations sv reg).
Proof.
  unfold passInvitations. apply within_H_bind; [within_tac|]. intros _. apply within_H_bind; [within_tac|]. intros mailer.
  destruct mailer as [m|]; [|apply within_H_ret]. apply within_H_bind; [within_tac|]. intros [due|]; [|apply within_H_ret].
  apply within_H_bind; [apply within_remind_all|]. intros m' s r s' [= <- <-]. done.
Qed.

(** A standby's configure call never touches the sender's settings. *)
Lemma standby_keeps_settings c template document d :
  cf_Mode c = ModeStandby -> configureMail_ c template document d = (Ok ("", None), d).
Proof. intros Hc. unfold configureMail_. by rewrite Hc. Qed.

(** The recorded settings only grow: whatever a call names, nothing that
    was held and that the call leaves out is lost. *)
Lemma settings_over_held c doc held d s d' : complete_settings c doc (Some held) d = (Ok s, d') -> s = Merge doc held.
Proof.
  unfold complete_settings. unfold mbind, V_bind. match goal with |- context [match ?x with _ => _ end] => destruct x as [[u|e] d1] end; [|done]. by intros [= <- <-].
Qed.
End app.

Section demo.
#[local] Existing Instance plain_runtime.
#[local] Existing Instance plain_formats.
#[local] Existing Instance plain_ledger.
#[local] Existing Instance plain_replication.
#[local] Existing Instance demo_provider.
#[local] Existing Instance silent_outbox.
#[local] Existing Instance plain_volume.

Definition demo_env (key : string) : string :=
  if String.eqb key "PORT" then "8443" else if String.eqb key "REGISTER_DEV_AUTH" then "yes" else "".
Definition no_duration (s : string) : option Z := None.
Definition on_platform (key : string) : string :=
  if String.eqb key "PRIVASYS_CONTAINER_TOKEN" then "token" else demo_env key.
Example refused_on_platform :
  (is_ok (Load_config demo_env no_duration false), Load_config on_platform no_duration false) =
  (true, Err (Errorf "config: REGISTER_DEV_AUTH must not be set on the platform" [])).
Proof. vm_compute. reflexivity. Qed.

Lemma config_safe_witness : exists c, Load_config demo_env no_duration false = Ok c /\ 1 <= cf_Port c <= 65535 /\ OnPlatform c = false.
Proof.
  destruct (Load_config demo_env no_duration false) as [c|e] eqn:E; [|exfalso; vm_compute in E; discriminate E].
  destruct (config_safe demo_env no_duration false c E) as (Hp & Hd & _). exists c. split; [reflexivity|]. split; [exact Hp|].
  apply Hd. vm_compute in E. injection E as <-. reflexivity.
Defined.

(** The secret comes in one call and the rest in another; a restart, and a
    call that names nothing, find them all. *)
Definition demo_config : Config :=
  match Load_config demo_env no_duration false with Ok c => c | Err _ => mkConfig 0 "" "" "" "" "" "" "" "" "" false "" "" false "" "" "" 0 0 "" "" "" [] end.
Definition told (text : string) (d : disk) := configureMail_ demo_config (Ok "<title>t</title>") (dquote text) d.
Definition state_of (x : res (string * option (option Mailer)) * disk) : string := match fst x with Ok (s, _) => s | Err _ => "error" end.
Example settings_over_two_calls :
  let one := told "{'mail_client_secret': 'shh'}" blank in
  let two := told "{'mail_tenant_id': 't', 'mail_client_id': 'c', 'mail_sender': 'a@b.c', 'mail_base_url': 'https://x'}" (snd one) in
  (state_of one, state_of two, state_of (told "{}" (snd two)), state_of (told "" blank)) =
  ("not ready: mail: tenant_id, client_id and client_secret are all needed", "ready", "ready", "").
Proof. vm_compute. reflexivity. Qed.
End demo.
