(* ===== verification/Startup.v ===== *)
(** * Bringing a register up ([internal/store/schema.go],
    [internal/register/register.go], [cmd/register/main.go])

    The layout marker of a data directory, the base tables, what a new
    register does before it serves, and the configure call of the program:
    from the deployer's document to a register, its verifier and its first
    checkpoint. *)

From S2P Require Import Prelude GoStrings Float64 Encoding Canon Json SqlText Sql GoJson Model World Commit Rbac JsonSchema Pack Byok Records.
From S2P Require Import Workflow Identities Members Retention Anchors Checkpoints Auditing Queries Admin Standby Tokens Requests PackFile Mail Hooks Api Gate Sealed App Bootstrap.
Local Open Scope Z_scope.

(** ** The place a register runs in: its volume and its system *)
Record place := mkPlace { pl_disk : disk; pl_system : system }.
Definition P (A : Type) : Type := place -> res A * place.
#[export] Instance P_ret : MRet P := fun _ a p => (Ok a, p).
#[export] Instance P_bind : MBind P := fun _ _ k m p => match m p with (Ok a, p') => k a p' | (Err e, p') => (Err e, p') end.
Definition give {A} (r : res A) : P A := fun p => (r, p).
Definition in_volume {A} (m : V A) : P A := fun p => let '(r, d) := m (pl_disk p) in (r, mkPlace d (pl_system p)).
Definition in_system {A} (m : H A) : P A := fun p => let '(r, s) := m (pl_system p) in (r, mkPlace (pl_disk p) s).
Definition in_store {A} (m : M A) : P A := in_system (on m).

(** ** The layout *)

Definition Layout := "2".
Definition layoutFile := "layout".

(** The indexes of the base tables. *)
Definition base_indexes : list (string * list string) := [
  ("transactions",
    ["CREATE UNIQUE INDEX `tx_txid` ON `transactions` (txid)"; "CREATE INDEX `tx_tenant_time` ON `transactions` (tenant, created_at)";
     "CREATE INDEX `tx_object` ON `transactions` (object_id, seq)"; "CREATE INDEX `tx_state` ON `transactions` (state)";
     "CREATE INDEX `tx_author` ON `transactions` (author_sub)"; "CREATE INDEX `tx_kind` ON `transactions` (kind)"]);
  ("tx_refs", ["CREATE INDEX `ref_target` ON `tx_refs` (target)"; "CREATE INDEX `ref_type` ON `tx_refs` (ref_type)"]);
  ("objects",
    ["CREATE UNIQUE INDEX `obj_natural_key` ON `objects` (tenant, class, natural_key)";
     "CREATE INDEX `obj_class` ON `objects` (tenant, class, status)"; "CREATE INDEX `obj_updated` ON `objects` (updated_at)"]);
  ("natural_keys", ["CREATE INDEX `natkey_object` ON `natural_keys` (object_id)"]);
  ("record_versions", ["CREATE INDEX `rec_txid` ON `record_versions` (txid)"; "CREATE INDEX `rec_scope` ON `record_versions` (enc_scope)"]);
  ("schemas", ["CREATE INDEX `schema_class` ON `schemas` (class, version)"]);
  ("policies", ["CREATE INDEX `policy_scope` ON `policies` (tenant, class, kind)"]);
  ("tasks",
    ["CREATE INDEX `task_state` ON `tasks` (tenant, state, updated_at)"; "CREATE INDEX `task_object` ON `tasks` (object_id)";
     "CREATE INDEX `task_counterparty` ON `tasks` (counterparty, state)"]);
  ("keks", ["CREATE INDEX `kek_tenant` ON `keks` (tenant, active)"]);
  ("dek_keys", ["CREATE INDEX `dek_subject` ON `dek_keys` (tenant, subject)"]);
  ("prune_marks", ["CREATE INDEX `prune_object` ON `prune_marks` (object_id, from_version)"]);
  ("members", ["CREATE INDEX `member_sub` ON `members` (tenant, sub)"])].

Section migrate.
Context `{Runtime} `{!Volume}.

(** [Tx.Tables]. *)
Definition Tables_ : M (gset string) := gets (fun w => dom (visible w)).

Definition create_base (existing : gset string) (t : string) : M unit :=
  if bool_decide (t ∈ existing) then mret tt
  else
    _ ← wrapping "store: create %s: %w" [t] (exec (SCreateTable t));
    each (fun idx => wrapping "store: index on %s: %w" [t] (exec_index idx)) (default [] (assoc t base_indexes)).
Definition clear_identities (existing : gset string) : M unit :=
  if bool_decide ("identities" ∈ existing) then
    _ ← wrapping "store: remove identities: %w" [] (exec (SDropTable "identities"));
    if bool_decide ("members" ∈ existing)
    then wrapping "store: clear member names: %w" [] (exec (SUpdate "members" [("display", VStr "")] []))
    else mret tt
  else mret tt.
Definition migrate_tables : M unit :=
  Do (existing ← Tables_; _ ← each (create_base existing) (baseTables.*1); clear_identities existing).

(** [checkLayout] of the data directory [dir]. *)
Definition layout_refused (dir : string) (what : string) : error :=
  Errorf "store: data directory %s holds table layout %s and this build writes layout %s; point REGISTER_DATA_DIR at a fresh directory or restore from an export"
    [dir; what; Layout].
Definition checkLayout (dir : string) : P unit := fun p =>
  let marker := dir +:+ "/" +:+ layoutFile in
  match ReadFile marker (pl_disk p) with
  | Err e => (Err (Wrapf "store: layout marker: %w" [] e), p)
  | Ok (Some got) => (refuse_if (negb (String.eqb (TrimSpace got) Layout)) (layout_refused dir (TrimSpace got)), p)
  | Ok None =>
      (tables ← in_store (Do Tables_);
       _ ← give (refuse_if (bool_decide ("transactions" ∈ tables)) (layout_refused dir "1 (BLOB payload columns)"));
       in_volume (WriteFile marker (Layout +:+ nl)) : P unit) p
  end.
Definition Migrate (dir : string) : P unit := _ ← checkLayout dir; in_store migrate_tables.
End migrate.

(** ** A new register *)
Section start.
Context `{Runtime} `{GoFormats} `{!Ledger} `{!Volume}.

Definition start_options (p : Pack) (o : Options) : Options :=
  let tenant := if String.eqb (opt_Tenant o) "" then pk_Tenant p else opt_Tenant o in
  mkOptions (opt_Name o) (if String.eqb tenant "" then "default" else tenant) (opt_ImageDigest o) (opt_KeySource o).
(** A new register has no key in its cache, no checkpoint in memory and
    no notifier. *)
Definition forget : M unit := modify (fun w => set_lastCkpt None (set_cache ∅ w)).
Definition quietly {A} (m : M A) : M A := fun w => let '(r, w') := m w in (r, set_notes (notes w) w').
Definition recover (r : Register) : M unit := _ ← replayPending; _ ← reconcilePack r; loadLastCheckpoint.
Definition New_register (dir : string) (p : Pack) (m : Material) (o : Options) : P Register :=
  let r := mkRegister p (start_options p o) m in
  _ ← in_store forget;
  _ ← Migrate dir;
  _ ← in_store (quietly (recover r));
  mret r.
End start.

(** ** The configure call *)

(** [store.Open], given the data directory and the commitment key: the
    ledger's packages open it. What was committed there is what is found,
    and no transaction is open. *)
Class Opener `{Runtime} := {
  open_store : string -> string -> world -> res world;
  open_finds : forall dir ck w w', open_store dir ck w = Ok w' -> committed w' = committed w /\ txn w' = None;
}.

Definition configuration_shape : shape :=
  TStruct [("tenant", TString); ("commitment_key", TString); ("pack", TRaw); ("pack_ref", TString);
           ("customer_kek", TPointer (TStruct (text_fields ["id"; "algo"; "public_key"]))); ("checkpoint_interval", TString)].
Definition read_configuration (document : string) : res govalue :=
  if String.eqb document "" then Ok (zero configuration_shape)
  else wrapped "configuration: %w" [] (Unmarshal_as configuration_shape document).

Section configure.
Context `{Runtime} `{GoFormats} `{!Ledger} `{!Volume} `{!Opener}.
(** [filepath.Base], the packs of the image, [time.ParseDuration]. *)
Variable base : string -> string.
Variable baked : string -> option string.
Variable ParseDuration : string -> option Z.
Variable c : Config.
Variable m : Material.

Definition register_dir : string := cf_DataDir c +:+ "/register".
Definition opened (ck : string) : M unit := fun w =>
  match open_store register_dir ck w with Ok w' => (Ok tt, w') | Err e => (Err e, w) end.
Definition first_non_empty (a b : string) : string := if String.eqb a "" then b else a.
Definition customer_key (doc : govalue) : option (string * string * string) :=
  member doc "customer_kek" ≫= pointer_of (fun k => (text_of_ k "id", text_of_ k "algo", text_of_ k "public_key")).
Definition checkpoint_interval (doc : govalue) : Z :=
  match ParseDuration (text_of_ doc "checkpoint_interval") with
  | Some d => if negb (String.eqb (text_of_ doc "checkpoint_interval") "") && (0 <? d) then d else cf_CheckpointInterval c
  | None => cf_CheckpointInterval c
  end.

(** The pack and the commitment key of a document, and the register they
    give. *)
Definition bring_up (doc : govalue) : P Register :=
  packDoc ← give (resolvePack base baked (default "" (raw_of doc "pack")) (text_of_ doc "pack_ref"));
  loaded ← give (Load_pack packDoc);
  delivered ← give (delivered_key (text_of_ doc "commitment_key"));
  key ← in_volume (CommitmentKey m (cf_DataDir c +:+ "/keys") delivered);
  _ ← in_store (opened key.1);
  New_register register_dir loaded m
    (mkOptions (cf_Name c) (first_non_empty (text_of_ doc "tenant") (cf_Tenant c)) (cf_ImageDigest c) key.2).
(** What follows is logged when it fails. What is published to the enclave
    manager is in App.v; its answers change nothing here. *)
Definition bootstrap_checkpoint (reg : Register) : M unit := _ ← attempt (IssueCheckpoint reg ReasonBootstrap); mret tt.
Definition enrol_customer (doc : govalue) : M unit :=
  match customer_key doc with
  | None => mret tt
  | Some (id, algo, public) =>
      _ ← attempt (enrolCustomerKey (first_non_empty (text_of_ doc "tenant") (cf_Tenant c)) id algo public); mret tt
  end.
(** [application.configure]: the register, its verifier, and the interval
    of its checkpoints. *)
Definition configure_register (document : string) : P (Register * Verifier * Z) :=
  doc ← give (read_configuration document);
  reg ← bring_up doc;
  let '(v, keys) := App.verifier c in
  _ ← in_system (fun s => (Ok tt, set_keys keys s));
  _ ← in_store (bootstrap_checkpoint reg);
  _ ← in_store (enrol_customer doc);
  mret (reg, v, checkpoint_interval doc).

(** [checkpointLoop]: one tick. *)
Definition checkpoint_tick (reg : Register) : M unit := _ ← attempt (IssueCheckpoint reg ReasonScheduled); mret tt.

(** A register that configures itself before it listens ([run]). *)
Definition self_configure (document : res string) : P unit :=
  document ← give document;
  got ← configure_register document;
  in_system (fun s => (Ok tt, Ready got.1.1 got.1.2 s)).
End configure.
