(* ===== verification/StartupCorrect.v ===== *)
(** * What a register that came up has

    The base tables are there, and stay there whatever the register then
    does; the volume is marked with the layout and bound to one key; the
    pack it runs is sound; and a start that finds everything in place
    changes nothing. *)

From S2P Require Import Prelude GoStrings Float64 Encoding Canon Json SqlText Sql GoJson Model World Concrete Commit Rbac JsonSchema Pack Byok Records Landing.
From S2P Require Import Workflow Identities Members Retention Anchors Checkpoints Auditing Queries Admin Standby Tokens Requests PackFile Mail Hooks Api Gate Within Sealed App Bootstrap Startup.
Local Open Scope Z_scope.

(** ** The base tables stay *)
Definition full (db : tables) : Prop := forall t, t ∈ baseTables.*1 -> is_Some (db !! t).

Section full.
Context `{Runtime}.
Definition based (w : world) : Prop := full (committed w) /\ (forall db, txn w = Some db -> full db).
Definition stays_based (w w' : world) : Prop := based w -> based w'.

#[export] Instance stays_based_aside : Aside stays_based.
Proof.
  assert (forall w w', committed w' = committed w -> (txn w' = txn w \/ txn w' = None) -> stays_based w w') as Hs.
  { intros w w' Hc [Ht|Ht] [W1 W2]; split; rewrite ?Hc, ?Ht; done. }
  split; try (intros; apply Hs; [done|by auto]).
  - split; [by intros w W|]. intros x y z Hxy Hyz W. by apply Hyz, Hxy.
  - intros w w' (Hc & _ & _ & Ht & _). apply Hs; [done|by left].
Qed.

Lemma full_insert t tab db : full db -> full (<[t := tab]> db).
Proof. intros Hf t' Ht. destruct (String.eqb_spec t' t) as [->|]; [rewrite lookup_insert_eq; by eexists|rewrite lookup_insert_ne by done; by apply Hf]. Qed.
Lemma run_stmt_full db s l db' : (forall t, s = SDropTable t -> t ∉ baseTables.*1) -> full db -> run_stmt db s = Ok (l, db') -> full db'.
Proof.
  intros Hd Hf E. run_inv E. destruct s; unfold on_table in E; res_inv; try done; try by apply full_insert.
  - case_match; [done|]. injection E as <- <-. by apply full_insert.
  - intros t' Ht. rewrite lookup_delete_ne; [by apply Hf|]. intros <-. by eapply Hd.
Qed.
Lemma based_visible w : based w -> full (visible w).
Proof. intros [Hc Ht]. unfold visible. destruct (txn w) eqn:E; [by apply Ht|done]. Qed.
Lemma based_publish db w : full db -> based (publish db w).
Proof. intros Hf. unfold based. rewrite txn_publish. split; [|done]. unfold publish, set_ledger. by destruct (ledger_commit _ _ _ _). Qed.
Lemma based_query s : (forall t, s = SDropTable t -> t ∉ baseTables.*1) -> within stays_based (query s).
Proof.
  intros Hd w r w' E W. unfold query in E. destruct (run_stmt (visible w) s) as [[l db]|e] eqn:Er; [|by injection E as <- <-].
  pose proof (run_stmt_full _ _ _ _ Hd (based_visible _ W) Er) as F.
  assert (forall open, txn w = Some open -> based (publish open w)) as Hp by (intros; apply based_publish; by apply W).
  assert (based (publish db w)) as Hdb by by apply based_publish.
  destruct W as [Wc Wt].
  destruct s; cbn in E; destruct (txn w) as [open|] eqn:Eo; injection E as <- <-; try done; auto.
  all: first [by split; [done|rewrite ?Eo] | split; [first [by apply Hp|done]|]; cbn; by intros ? [= <-]].
Qed.
End full.

#[export] Hint Extern 1 (within stays_based (query _)) => (apply based_query; intros ? [=]) : within.

Section calls_based.
Context `{Runtime} `{GoFormats} `{!Ledger}.

Lemma based_with_rollback {A} (m : M A) : within stays_based m -> within stays_based (with_rollback m).
Proof.
  intros Hm w r w' E. unfold with_rollback in E. destruct (m w) as [[a|e] w1] eqn:Em; injection E as <- <-; [by eapply Hm|].
  etrans; [by eapply Hm|]. destruct (exec SRollback w1) as [r2 w2] eqn:Er. eapply within_bind; [| |exact Er].
  - apply based_query. intros ? [=].
  - intros ?. apply within_ro, ro_ret.
Qed.
Lemma based_applyOne txid op : within stays_based (applyOne txid op).
Proof. within_tac. Qed.
Lemma based_apply_ops txid ops : forall i, within stays_based (apply_ops txid i ops).
Proof.
  induction ops as [|op ops IH]; intros i; [apply within_ro, ro_ret|]. apply within_bind; [|intros ?; apply IH].
  apply within_wrapping, based_applyOne.
Qed.
Lemma based_apply_refs txid refs : forall i, within stays_based (apply_refs txid i refs).
Proof.
  induction refs as [|x refs IH]; intros i; [apply within_ro, ro_ret|]. apply within_bind; [|intros ?; apply IH].
  apply within_wrapping, based_applyOne.
Qed.
Lemma based_commit_body txid env ops rb vb : within stays_based (commit_body txid env ops rb vb).
Proof.
  unfold commit_body, apply. repeat (apply within_bind; [|intros ?]); try apply based_apply_ops; try apply based_apply_refs; within_tac.
Qed.
Lemma based_commit env ops : within stays_based (commit env ops).
Proof.
  pose proof (based_with_rollback (A := unit)) as Hr. pose proof based_commit_body as Hb. unfold commit.
  repeat (apply within_bind; [|intros ?]); try (apply Hr, Hb); within_tac; apply Hr, Hb.
Qed.
Lemma based_exec_index text : within stays_based (exec_index text).
Proof.
  intros w r w' E W. unfold exec_index in E. destruct (run_stmt _ _) as [[l db]|e]; [|by injection E as <- <-].
  injection E as <- <-. destruct (txn w) eqn:Et; [done|]. apply based_publish. exact (proj1 W).
Qed.
End calls_based.
#[export] Hint Resolve based_commit based_exec_index based_applyOne : within.

(** ** Every step of a start *)

Lemma query_table_is_not_base cl : QueryTable cl ∉ baseTables.*1.
Proof.
  intros Hin. apply list_elem_of_In in Hin.
  assert (forallb (fun n => negb (HasPrefix n "q_")) baseTables.*1 = true) as Ha by reflexivity.
  rewrite forallb_forall in Ha. specialize (Ha _ Hin). unfold QueryTable in Ha. by destruct (c_Name cl).
Qed.

(** What holds of a start holds of it for any relation respected by its
    statements and commits. *)
Section starts.
Context `{Runtime} `{GoFormats} `{!Ledger}.
Context (R : relation world) `{!Aside R}.
Variable within_create : forall t, within R (exec (SCreateTable t)).
Variable within_drop_query : forall cl, within R (exec (SDropTable (QueryTable cl))).
Variable within_mark : forall values cond, within R (exec (SUpdate "transactions" values cond)).
Variable within_index : forall text, within R (exec_index text).
Variable within_applyOne : forall txid op, within R (applyOne txid op).
Variable within_commit : forall env ops, within R (commit env ops).
Variable r : Register.

#[local] Hint Resolve within_create within_drop_query within_mark within_index within_applyOne within_commit : within.

Lemma within_apply_ops txid ops : forall i, within R (apply_ops txid i ops).
Proof. induction ops as [|op ops IH]; intros i; [apply within_ro, ro_ret|]. apply within_bind; [within_tac|intros ?; apply IH]. Qed.
Lemma within_apply_refs txid refs : forall i, within R (apply_refs txid i refs).
Proof. induction refs as [|x refs IH]; intros i; [apply within_ro, ro_ret|]. apply within_bind; [within_tac|intros ?; apply IH]. Qed.
Lemma within_apply txid env ops : within R (apply txid env ops).
Proof. apply within_bind; [apply within_apply_ops|intros ?; apply within_apply_refs]. Qed.
#[local] Hint Resolve within_apply : within.
Lemma within_replayPending : within R replayPending.
Proof. unfold replayPending, replay_one. within_tac. Qed.
Lemma within_ensureProjections : within R (ensureProjections r).
Proof. unfold ensureProjections, ensure_projection, rebuild_projection, repopulateProjection, repopulate_one. within_tac. Qed.
Lemma within_seed_from seeds : forall i refs, within R (seed_from r i seeds refs).
Proof.
  induction seeds as [|seed seeds IH]; intros i refs; [apply within_ro, ro_ret|].
  apply within_bind; [unfold seed_one; within_tac|intros ?; apply IH].
Qed.
#[local] Hint Resolve within_seed_from : within.
Lemma within_reconcilePack : within R (reconcilePack r).
Proof.
  unfold reconcilePack. apply within_bind; [apply within_ensureProjections|intros _].
  unfold registerSchemas, registerSchema, registerPolicies, registerPolicy, applySeed, seed_tx. within_tac.
Qed.
Lemma within_recover : within R (recover r).
Proof.
  unfold recover. apply within_bind; [apply within_replayPending|intros _]. apply within_bind; [apply within_reconcilePack|intros _].
  within_tac.
Qed.
Lemma within_quietly {A} (m : M A) : within R m -> within R (quietly m).
Proof.
  intros Hm w x w' E. unfold quietly in E. destruct (m w) as [y w1] eqn:Em. injection E as <- <-.
  etrans; [by eapply Hm|apply aside_notes].
Qed.
End starts.

(** A world with its base tables, well formed. *)
Section both.
Context `{Runtime} `{GoFormats} `{!Ledger}.
Definition sound_store (w : world) : Prop := store_wf w /\ based w.
Definition stays_sound (w w' : world) : Prop := kept w w' /\ stays_based w w'.
#[export] Instance stays_sound_aside : Aside stays_sound.
Proof.
  split; try (intros; split; first [by apply aside_same | apply aside_txn | apply aside_lastCkpt | apply aside_notes | apply aside_backend | apply aside_horizon]).
  split; [by intros w|]. intros x y z [A1 A2] [B1 B2]. split; by etrans.
Qed.
Lemma within_both {A} (m : M A) : within kept m -> within stays_based m -> within stays_sound m.
Proof. intros Hk Hb w x w' E. split; [by eapply Hk|by eapply Hb]. Qed.
Lemma kept_exec_index text : within kept (exec_index text).
Proof.
  intros w x w' E W. unfold exec_index in E. destruct (run_stmt _ _) as [[l db]|e]; [|by injection E as <- <-].
  injection E as <- <-. destruct (txn w) eqn:Et; [done|]. apply store_wf_publish. exact (proj1 W).
Qed.
Lemma sound_exec s : (forall t, s = SDropTable t -> t ∉ baseTables.*1) -> within stays_sound (exec s).
Proof.
  intros Hd. apply within_both; [apply within_keeps, keeps_exec|]. apply within_bind; [by apply based_query|]. intros ?. apply within_ro, ro_ret.
Qed.
Lemma sound_exec_index text : within stays_sound (exec_index text).
Proof. apply within_both; [apply kept_exec_index|apply based_exec_index]. Qed.
Lemma sound_commit env ops : within stays_sound (commit env ops).
Proof. apply within_both; [apply within_keeps, keeps_commit|apply based_commit]. Qed.
Lemma sound_applyOne txid op : within stays_sound (applyOne txid op).
Proof. apply within_both; [apply within_keeps, keeps_applyOne|apply based_applyOne]. Qed.
Lemma sound_recover r : within stays_sound (quietly (recover r)).
Proof.
  apply within_quietly; [apply _|]. apply within_recover; try apply _; intros;
    first [apply sound_exec_index|apply sound_commit|apply sound_applyOne|apply sound_exec; intros ? [= <-]; apply query_table_is_not_base
          |apply sound_exec; intros ? [=]].
Qed.
End both.
#[export] Hint Resolve sound_commit sound_exec_index : within.

(** ** Migration *)
Section migration.
Context `{Runtime} `{!Volume}.

(** What a statement that succeeds outside a transaction leaves. *)
Lemma exec_outside s w w' : txn w = None -> is_read s = false -> s <> SBegin -> s <> SCommit -> s <> SRollback ->
  exec s w = (Ok tt, w') -> exists l, run_stmt (committed w) s = Ok (l, committed w') /\ txn w' = None.
Proof.
  intros Ht Hr Hb Hc Hk E. unfold exec, mbind, M_bind, query, visible in E. rewrite Ht in E. cbn [default from_option id] in E.
  destruct (run_stmt (committed w) s) as [[l db]|e] eqn:Er; [|done]. exists l.
  destruct s; try done; rewrite ?Hr in E; cbn in E; injection E as <-; split; rewrite ?committed_publish, ?txn_publish; done.
Qed.
Lemma exec_index_outside text w w' : txn w = None -> exec_index text w = (Ok tt, w') -> committed w' = committed w /\ txn w' = None.
Proof.
  intros Ht E. unfold exec_index in E. rewrite Ht in E. destruct (run_stmt _ _) as [[l db]|e]; [|done].
  injection E as <-. by rewrite committed_publish, txn_publish.
Qed.

Lemma create_base_effect existing t w w' : txn w = None -> create_base existing t w = (Ok tt, w') ->
  txn w' = None /\ (t ∈ existing -> w' = w) /\ (t ∉ existing -> committed w !! t = None /\ committed w' = <[t := ∅]> (committed w)).
Proof.
  intros Ht E. unfold create_base in E. case_bool_decide as Hin; [injection E as <-; done|].
  unfold mbind, M_bind, wrapping in E. destruct (exec (SCreateTable t) w) as [[[]|e] w1] eqn:E1; [|done].
  apply exec_outside in E1 as (l & Hr & Ht1); [|done..].
  assert (committed w !! t = None /\ committed w1 = <[t := ∅]> (committed w)) as [Hn Hc].
  { run_inv Hr. destruct (committed w !! t); [done|]. by injection Hr as _ <-. }
  enough (txn w' = None /\ committed w' = committed w1) as [-> ->] by done.
  clear Hr Hn Hc. revert w1 Ht1 E. induction (default [] (assoc t base_indexes)) as [|idx idxs IH]; intros w1 Ht1 E; [by injection E as <-|].
  cbn in E. unfold mbind, M_bind, wrapping in E. destruct (exec_index idx w1) as [[[]|e] w2] eqn:E2; [|done].
  apply exec_index_outside in E2 as [Hc2 Ht2]; [|done]. apply IH in E as [? ->]; done.
Qed.
Lemma each_create existing l : forall w w', txn w = None -> each (create_base existing) l w = (Ok tt, w') ->
  txn w' = None /\ (forall t, t ∈ l -> t ∈ existing \/ is_Some (committed w' !! t)) /\
  (forall t tab, committed w !! t = Some tab -> committed w' !! t = Some tab).
Proof.
  induction l as [|t l IH]; intros w w' Ht E; [injection E as <-; split_and!; [done|intros ? []%elem_of_nil|done]|].
  cbn in E. unfold mbind, M_bind in E. destruct (create_base existing t w) as [[[]|e] w1] eqn:E1; [|done].
  apply create_base_effect in E1 as (Ht1 & He & Hn); [|done]. apply IH in E as (Ht' & Hl & Hk); [|done].
  assert (forall t' tab, committed w !! t' = Some tab -> committed w1 !! t' = Some tab) as Hk1.
  { intros t' tab Hl'. destruct (bool_decide_reflect (t ∈ existing)) as [Hin|Hin]; [by rewrite He|].
    destruct (Hn Hin) as [Hno ->]. rewrite lookup_insert_ne; [done|]. intros ->. congruence. }
  split_and!; [done| |by auto]. intros t' [->|Hin]%elem_of_cons; [|by apply Hl].
  destruct (bool_decide_reflect (t ∈ existing)) as [Hin|Hin]; [by left|right]. destruct (Hn Hin) as [_ Hc].
  exists ∅. apply Hk. by rewrite Hc, lookup_insert_eq.
Qed.
Lemma clear_identities_full existing w w' : txn w = None -> clear_identities existing w = (Ok tt, w') -> full (committed w) ->
  full (committed w').
Proof.
  intros Ht E F. unfold clear_identities in E. case_bool_decide as Hi; [|by injection E as <-].
  unfold mbind, M_bind, wrapping in E. destruct (exec (SDropTable "identities") w) as [[[]|e] w1] eqn:E1; [|done].
  apply exec_outside in E1 as (l & Hr & Ht1); [|done..].
  assert (full (committed w1)) as F1.
  { eapply run_stmt_full; [|exact F|exact Hr]. intros ? [= <-]. apply (bool_decide_unpack _). by vm_compute. }
  case_bool_decide; [|by injection E as <-]. destruct (exec (SUpdate _ _ _) w1) as [[[]|e] w2] eqn:E2; [|done]. injection E as <-.
  apply exec_outside in E2 as (l2 & Hr2 & _); [|done..]. eapply run_stmt_full; [|exact F1|exact Hr2]. intros ? [=].
Qed.

(** A migration leaves every base table there, and the rows of the tables
    there were; only the tables of a layout long gone are cleared. *)
Lemma migrate_full w w' : txn w = None -> migrate_tables w = (Ok tt, w') ->
  based w' /\ (committed w !! "identities" = None -> forall t tab, committed w !! t = Some tab -> committed w' !! t = Some tab).
Proof.
  intros Ht E. unfold migrate_tables, Do, Tables_, gets, mbind, M_bind in E.
  set (existing := dom (visible w)) in E. destruct (each (create_base existing) (baseTables.*1) w) as [[[]|e] w1] eqn:E1; [|done].
  apply each_create in E1 as (Ht1 & Hl & Hk); [|done].
  assert (visible w = committed w) as Hv by (unfold visible; by rewrite Ht).
  assert (full (committed w1)) as F1.
  { intros t Hin. destruct (Hl t Hin) as [He|]; [|done]. unfold existing in He. rewrite Hv in He.
    apply elem_of_dom in He as [tab Htab]. exists tab. by apply Hk. }
  destruct (clear_identities existing w1) as [[[]|e] w2] eqn:E2; [|done]. injection E as <-. split.
  - split; [|done]. cbn. by eapply clear_identities_full.
  - intros Hno t tab Htab. unfold clear_identities in E2. rewrite bool_decide_eq_false_2 in E2; [injection E2 as <-; cbn; by apply Hk|].
    unfold existing. by rewrite Hv, elem_of_dom, Hno; intros [? ?].
Qed.

(** A migration of a store that has its tables does nothing at all. *)
Lemma migrate_again w : based w -> txn w = None -> committed w !! "identities" = None -> migrate_tables w = (Ok tt, w).
Proof.
  intros [F _] Ht Hno. unfold migrate_tables, Do, Tables_, gets, mbind, M_bind.
  assert (visible w = committed w) as -> by (unfold visible; by rewrite Ht).
  assert (forall l, (forall t, t ∈ l -> t ∈ baseTables.*1) -> each (create_base (dom (committed w))) l w = (Ok tt, w)) as He.
  { induction l as [|t l IH]; intros Hl; [done|]. cbn. unfold mbind, M_bind, create_base.
    rewrite bool_decide_eq_true_2; [|apply elem_of_dom, F, Hl; set_solver]. cbn. apply IH. set_solver. }
  rewrite He by done. unfold clear_identities. rewrite bool_decide_eq_false_2; [|by rewrite elem_of_dom, Hno; intros [? ?]].
  cbn. destruct w. cbn in Ht. by rewrite Ht.
Qed.
End migration.

(** ** Steps of a place *)
Section steps.
Context `{Runtime} `{GoFormats} `{!Ledger} `{!Volume}.

Lemma P_bind_Ok {A B} (m : P A) (k : A -> P B) p b p' : (m ≫= k) p = (Ok b, p') -> exists a p1, m p = (Ok a, p1) /\ k a p1 = (Ok b, p').
Proof. unfold mbind, P_bind. destruct (m p) as [[a|e] p1]; [by eauto|done]. Qed.
Lemma give_inv {A} (x : res A) p r p' : give x p = (r, p') -> x = r /\ p' = p.
Proof. by intros [= -> ->]. Qed.
Lemma in_volume_inv {A} (m : V A) p r p' : in_volume m p = (r, p') -> exists d, m (pl_disk p) = (r, d) /\ p' = mkPlace d (pl_system p).
Proof. unfold in_volume. destruct (m (pl_disk p)) as [x d]. intros [= <- <-]. by exists d. Qed.
Lemma in_store_inv {A} (m : M A) p r p' : in_store m p = (r, p') ->
  exists w, m (sy_world (pl_system p)) = (r, w) /\ p' = mkPlace (pl_disk p) (set_world w (pl_system p)).
Proof. unfold in_store, in_system, on. destruct (m _) as [x w]. intros [= <- <-]. by exists w. Qed.

Definition world_of (p : place) : world := sy_world (pl_system p).
(** What a start leaves alone whatever comes of it: the store stays well
    formed, and the server is the server it was. *)
Definition at_rest (p p' : place) : Prop :=
  kept (world_of p) (world_of p') /\
  sy_state (pl_system p') = sy_state (pl_system p) /\ sy_reg (pl_system p') = sy_reg (pl_system p) /\
  sy_mailer (pl_system p') = sy_mailer (pl_system p).
#[export] Instance at_rest_preorder : PreOrder at_rest.
Proof.
  split; [by intros p|]. intros x y z (A1 & A2 & A3 & A4) (B1 & B2 & B3 & B4). unfold at_rest.
  split_and!; [by etrans|congruence..].
Qed.
Definition resting {A} (m : P A) : Prop := forall p r p', m p = (r, p') -> at_rest p p'.
Lemma resting_bind {A B} (m : P A) (k : A -> P B) : resting m -> (forall a, resting (k a)) -> resting (m ≫= k).
Proof.
  intros Hm Hk p r p' E. unfold mbind, P_bind in E. destruct (m p) as [[a|e] p1] eqn:Em.
  - etrans; [by eapply Hm|by eapply Hk].
  - injection E as <- <-. by eapply Hm.
Qed.
Lemma resting_give {A} (x : res A) : resting (give x).
Proof. by intros p r p' [_ ->]%give_inv. Qed.
Lemma resting_ret {A} (a : A) : resting (mret a : P A).
Proof. apply (resting_give (Ok a)). Qed.
Lemma resting_volume {A} (m : V A) : resting (in_volume m).
Proof. by intros p r p' (d & _ & ->)%in_volume_inv. Qed.
Lemma resting_store {A} (m : M A) : within kept m -> resting (in_store m).
Proof. intros Hm p r p' (w & Ew & ->)%in_store_inv. split_and!; [by eapply Hm|done..]. Qed.

Lemma resting_layout dir : resting (checkLayout dir).
Proof.
  intros p r p' E. unfold checkLayout in E. destruct (ReadFile _ _) as [[got|]|e]; [by injection E as <- <-| |by injection E as <- <-].
  revert E. generalize p, r, p'. fold (resting (tables ← in_store (Do Tables_);
    _ ← give (refuse_if (bool_decide ("transactions" ∈ tables)) (layout_refused dir "1 (BLOB payload columns)"));
    in_volume (WriteFile (dir +:+ "/" +:+ layoutFile) (Layout +:+ nl)) : P unit)).
  repeat (apply resting_bind; [|intros ?]); [|apply resting_give|apply resting_volume].
  apply resting_store. apply within_keeps, keeps_Do, keeps_ro. by intros w x w' [= <- <-].
Qed.
Lemma resting_new dir pk_ m o : resting (New_register dir pk_ m o).
Proof.
  unfold New_register, Migrate. cbv zeta.
  repeat (apply resting_bind; [|intros ?]); try apply resting_layout; try apply resting_ret; apply resting_store.
  - intros w x w' [= <- <-] W. exact W.
  - apply within_keeps. unfold migrate_tables. apply keeps_Do. unfold create_base, clear_identities, Tables_.
    keeps_tac. intros w0 y w' W E. by eapply kept_exec_index.
  - intros w x w' E. by apply (sound_recover _ _ _ _ E).
Qed.
End steps.

(** ** The configure call *)
Section comes_up.
Context `{Runtime} `{GoFormats} `{!Ledger} `{!Volume} `{!Opener}.

Lemma layout_Ok dir p u p' : checkLayout dir p = (Ok u, p') ->
  (exists got, dk_files (pl_disk p') !! (dir +:+ "/" +:+ layoutFile) = Some got /\ TrimSpace got = Layout) /\
  (forall path, path <> dir +:+ "/" +:+ layoutFile -> dk_files (pl_disk p') !! path = dk_files (pl_disk p) !! path) /\
  committed (world_of p') = committed (world_of p) /\ (txn (world_of p) = None -> txn (world_of p') = None).
Proof.
  unfold checkLayout, ReadFile. destruct (read_fault _) as [e|]; [done|]. destruct (dk_files _ !! _) as [got|] eqn:Eg.
  - intros [= Er <-]. apply refuse_if_Ok in Er. split_and!; try done. exists got. split; [done|]. by apply String.eqb_eq, negb_false_iff.
  - intros (tables & p1 & (w1 & E1 & ->)%in_store_inv & E)%P_bind_Ok. injection E1 as _ <-.
    apply P_bind_Ok in E as ([] & p2 & [Hr ->]%give_inv & (d & Ed & ->)%in_volume_inv).
    unfold WriteFile in Ed. destruct (write_fault _) as [[e n]|]; [done|]. injection Ed as _ <-. cbn. split_and!; try done.
    + exists (Layout +:+ nl). by rewrite lookup_insert_eq.
    + intros path Hne. by rewrite lookup_insert_ne.
Qed.

Lemma new_Ok dir loaded m o p reg p' : New_register dir loaded m o p = (Ok reg, p') ->
  store_wf (world_of p) -> txn (world_of p) = None ->
  reg = mkRegister loaded (start_options loaded o) m /\ sound_store (world_of p') /\
  (exists got, dk_files (pl_disk p') !! (dir +:+ "/" +:+ layoutFile) = Some got /\ TrimSpace got = Layout) /\
  (forall path, path <> dir +:+ "/" +:+ layoutFile -> dk_files (pl_disk p') !! path = dk_files (pl_disk p) !! path).
Proof.
  intros E W Ht. pose proof (resting_new _ _ _ _ _ _ _ E) as [Hk _]. unfold New_register, Migrate in E.
  apply P_bind_Ok in E as (u & p1 & (w1 & E1 & ->)%in_store_inv & E). injection E1 as _ <-.
  apply P_bind_Ok in E as (u2 & p2 & E2 & E). apply P_bind_Ok in E2 as (u3 & p3 & E3 & (w4 & E4 & ->)%in_store_inv).
  apply layout_Ok in E3 as (Hg & Ho & _ & Ht3). specialize (Ht3 Ht). destruct u2. apply migrate_full in E4 as [Hb _]; [|exact Ht3].
  apply P_bind_Ok in E as (u5 & p5 & (w5 & E5 & ->)%in_store_inv & [= <- <-]).
  split_and!; [done| |exact Hg|exact Ho]. split; [by apply Hk|]. by eapply sound_recover.
Qed.

Lemma start_tenant loaded o : opt_Tenant (start_options loaded o) <> "".
Proof. unfold start_options. cbn [opt_Tenant]. destruct (String.eqb_spec (opt_Tenant o) ""); by case_match eqn:E; [|apply String.eqb_neq in E]. Qed.

Variable base : string -> string.
Variable baked : string -> option string.
Variable ParseDuration : string -> option Z.
Variable c : Config.
Variable m : Material.

Lemma kept_opened ck : within kept (opened c ck).
Proof.
  intros w r w' E. unfold opened in E. destruct (open_store _ _ _) as [w1|] eqn:Eo; injection E as <- <-; [|by intros ?].
  apply open_finds in Eo as [Hc Ht]. apply store_wf_aside; [done|by right].
Qed.
Lemma sound_bootstrap reg : within stays_sound (bootstrap_checkpoint reg).
Proof. unfold bootstrap_checkpoint. within_tac. Qed.
Lemma sound_enrol doc : within stays_sound (enrol_customer c doc).
Proof. unfold enrol_customer, enrolCustomerKey. within_tac. Qed.

Lemma resting_bring_up doc : resting (bring_up base baked c m doc).
Proof.
  unfold bring_up. repeat first [apply resting_new | apply resting_give | apply resting_bind; [|intros ?]]; [apply resting_volume|].
  apply resting_store, kept_opened.
Qed.
Lemma resting_configure document : resting (configure_register base baked ParseDuration c m document).
Proof.
  unfold configure_register. apply resting_bind; [apply resting_give|intros doc]. apply resting_bind; [apply resting_bring_up|intros reg].
  destruct (App.verifier c) as [v keys]. repeat (apply resting_bind; [|intros ?]); try apply resting_ret.
  - intros p r p' E. unfold in_system in E. injection E as <- <-. done.
  - apply resting_store. intros w r w' E. by apply (sound_bootstrap _ _ _ _ E).
  - apply resting_store. intros w r w' E. by apply (sound_enrol _ _ _ _ E).
Qed.

Lemma bring_up_Ok doc p reg p' : bring_up base baked c m doc p = (Ok reg, p') -> store_wf (world_of p) ->
  pack_sound (pk reg) /\ opt_Tenant (opts reg) <> "" /\ sound_store (world_of p') /\
  (exists got, dk_files (pl_disk p') !! (register_dir c +:+ "/" +:+ layoutFile) = Some got /\ TrimSpace got = Layout) /\
  (exists ck w, open_store (register_dir c) ck (world_of p) = Ok w /\
     dk_files (pl_disk p') !! (cf_DataDir c +:+ "/keys/ck.check") = Some (check_value ck)).
Proof.
  intros E W. unfold bring_up in E.
  apply P_bind_Ok in E as (doc_ & p1 & [_ ->]%give_inv & E). apply P_bind_Ok in E as (loaded & p2 & [Hl ->]%give_inv & E).
  apply P_bind_Ok in E as (delivered & p3 & [_ ->]%give_inv & E). apply P_bind_Ok in E as (key & p4 & (d & Ek & ->)%in_volume_inv & E).
  apply P_bind_Ok in E as (u & p5 & (w & Eo & ->)%in_store_inv & E). cbn [pl_system sy_world set_world] in Eo.
  pose proof (kept_opened _ _ _ _ Eo W) as Wo. unfold opened in Eo.
  destruct (open_store (register_dir c) key.1 _) as [wo|] eqn:Eop; [|done]. injection Eo as _ <-.
  pose proof (open_finds _ _ _ _ Eop) as [_ Ht]. apply new_Ok in E as (-> & Hs & Hg & Hf); [|exact Wo|exact Ht].
  cbn [pk opts]. apply load_Ok_inv in Hl as (text & rest & g & q & _ & _ & _ & Hv). split_and!.
  - by eapply validated_pack_sound.
  - apply start_tenant.
  - exact Hs.
  - exact Hg.
  - exists key.1, wo. split; [exact Eop|]. rewrite Hf.
    + unfold CommitmentKey in Ek. destruct (match delivered with Some ck => _ | None => _ end) as [ck source].
      unfold mbind, V_bind in Ek. destruct (checkCommitmentKey _ ck _) as [[u2|e] d2] eqn:Ec; [|done]. injection Ek as <- <-.
      apply checked in Ec as (_ & Hck & _). cbn [pl_disk fst]. by rewrite string_app_assoc in Hck.
    + unfold register_dir. intros Heq. rewrite !string_app_assoc in Heq. by simplify_eq/=.
Qed.
End comes_up.

Section configured.
Context `{Runtime} `{GoFormats} `{!Ledger} `{!Volume} `{!Opener}.
Variable base : string -> string.
Variable baked : string -> option string.
Variable ParseDuration : string -> option Z.
Variable c : Config.
Variable m : Material.

(** C23. What a configure call comes to. Whatever comes of it the store
    stays well formed and the server the server it was. When it gives a
    register, that register runs a sound pack in a named tenant; its store
    has every base table and is well formed; the data directory is marked
    with this build's layout; and the store was opened with the very key
    whose check value the volume holds, so that no later start opens it
    with another. *)
Theorem register_comes_up document p r p' :
  store_wf (world_of p) -> configure_register base baked ParseDuration c m document p = (r, p') ->
  at_rest p p' /\
  forall reg v interval, r = Ok (reg, v, interval) ->
    pack_sound (pk reg) /\ opt_Tenant (opts reg) <> "" /\ sound_store (world_of p') /\
    (exists got, dk_files (pl_disk p') !! (register_dir c +:+ "/" +:+ layoutFile) = Some got /\ TrimSpace got = Layout) /\
    (exists ck w, open_store (register_dir c) ck (world_of p) = Ok w /\
       dk_files (pl_disk p') !! (cf_DataDir c +:+ "/keys/ck.check") = Some (check_value ck)).
Proof.
  intros W E. split; [by eapply resting_configure|]. intros reg v interval ->. unfold configure_register in E.
  apply P_bind_Ok in E as (doc & p1 & [_ ->]%give_inv & E). apply P_bind_Ok in E as (reg' & p2 & Eb & E).
  apply bring_up_Ok in Eb as (Hp & Ht & Hs & Hg & Hk); [|exact W]. destruct (App.verifier c) as [v' keys].
  apply P_bind_Ok in E as (u & p3 & E3 & E). injection E3 as _ <-.
  apply P_bind_Ok in E as (u2 & p4 & (w4 & E4 & ->)%in_store_inv & E).
  apply P_bind_Ok in E as (u3 & p5 & (w5 & E5 & ->)%in_store_inv & [= -> _ _ <-]).
  split_and!; [exact Hp|exact Ht| |exact Hg|exact Hk].
  pose proof (sound_bootstrap _ _ _ _ E4) as [K1 B1]. pose proof (sound_enrol _ _ _ _ _ E5) as [K2 B2].
  destruct Hs as [S1 S2]. split; [exact (K2 (K1 S1))|exact (B2 (B1 S2))].
Qed.

(** The configure call of the HTTP interface, at the volume as it is. *)
Definition configure_at (d : disk) (document : string) (s : system) : res (Register * Verifier) * system :=
  let '(r, p) := configure_register base baked ParseDuration c m document (mkPlace d s) in (fst <$> r, pl_system p).
(** It is one the freeze gate is proved for: it leaves to the server
    whether it serves. *)
Lemma configure_leaves_server d document s x s' : configure_at d document s = (x, s') -> sy_state s' = sy_state s /\ sy_reg s' = sy_reg s.
Proof.
  unfold configure_at. destruct (configure_register _ _ _ _ _ _ _) as [r p] eqn:E. intros [= _ <-].
  apply resting_configure in E as (_ & Hs & Hr & _). done.
Qed.
End configured.

(** ** A start *)
Section demo.
#[local] Existing Instance plain_runtime.
#[local] Existing Instance plain_formats.
#[local] Existing Instance plain_ledger.
#[local] Existing Instance plain_volume.

Definition plain_opener : Opener.
Proof.
  refine {| open_store _ _ w := Ok (set_txn None w) |}. by intros dir ck w w' [= <-].
Defined.
#[local] Existing Instance plain_opener.

(** A fresh directory: no file on the volume and no table in the store. *)
Definition fresh_place : place :=
  mkPlace blank (mkSystem (mkWorld ∅ 0 "root 0" None ∅ None 0 0 [] ∅ 0) (mkKeyCache ∅ 0 0) StateAwaitingConfiguration "" None None None None).
Definition first_config : Config :=
  mkConfig 8443 "/data" "register" "" "" "" "" "" "https://privasys.id" "" true "active" "" false "" "default" "" 1 1 "/web" "" "" [].
Definition first_material : Material := mkMaterial "master" "seed" "kid".
Definition no_base (s : string) : string := s.
Definition no_pack (s : string) : option string := None.
Definition no_interval (s : string) : option Z := None.
Definition document_with (member : string) : string := dquote member +:+ str_take (String.length demo_doc - 9) demo_doc +:+ "}".
Definition first_document : string := document_with "{'tenant':'t','pack':".
Definition other_key : string := hex_encode (of_bytes (repeat "007"%char 32)).
Definition keyed_document : string := document_with ("{'commitment_key':'" +:+ other_key +:+ "','pack':").
Abbreviation first_call := (configure_register no_base no_pack no_interval first_config first_material).

(** It comes up on a fresh directory, with every table and a checkpoint;
    again, it finds the same; with another key, or over a directory of the
    first layout, it does not. *)
Definition outcome_of (x : res (Register * Verifier * Z) * place) : option (string * string) * nat * nat * nat :=
  (match x.1 with Ok (reg, _, _) => Some (opt_Tenant (opts reg), pk_Name (pk reg)) | Err _ => None end,
   size (committed (world_of x.2)), match committed (world_of x.2) !! "transactions" with Some m => size m | None => 0%nat end,
   size (backend (world_of x.2))).
Definition marked (layout : string) (p : place) : place := mkPlace (mkDisk {["/data/register/layout" := layout]} 0) (pl_system p).
Definition refused (x : res (Register * Verifier * Z) * place) : string := match x.1 with Ok _ => "" | Err (Errorf fmt _) => str_take 40 fmt | Err _ => "?" end.
Example starts :
  let one := first_call first_document fresh_place in
  (outcome_of one, outcome_of (first_call first_document one.2), refused (first_call keyed_document one.2),
   refused (first_call first_document (marked "1" fresh_place))) =
  ((Some ("t", "demo"), 18%nat, 1%nat, 1%nat), (Some ("t", "demo"), 18%nat, 1%nat, 1%nat),
   "keys: the commitment key does not match ", "store: data directory %s holds table lay").
Proof. vm_compute. reflexivity. Qed.

Lemma register_comes_up_witness : exists reg v interval p',
  first_call first_document fresh_place = (Ok (reg, v, interval), p') /\ pack_sound (pk reg) /\ sound_store (world_of p').
Proof.
  assert (store_wf (world_of fresh_place)) as W by (split; [intros t tab Ht; discriminate Ht|intros db Hdb; discriminate Hdb]).
  destruct (first_call first_document fresh_place) as [[[[reg v] interval]|e] p'] eqn:E.
  - exists reg, v, interval, p'. split; [reflexivity|].
    destruct (register_comes_up no_base no_pack no_interval first_config first_material _ _ _ _ W E) as [_ Hok].
    destruct (Hok reg v interval eq_refl) as (Hp & _ & Hs & _). split; assumption.
  - exfalso. assert (is_ok (fst (first_call first_document fresh_place)) = true) as Ho by (vm_compute; reflexivity).
    rewrite E in Ho. discriminate Ho.
Defined.
End demo.
