(* ===== verification/Site.v ===== *)
(** * The adopter site ([internal/api/site.go])

    Public pages, shells and static files an image puts in front of the
    register: how their declaration is read and refused, and which
    requests they then answer. Rendering a page and serving a file are not
    modelled. *)

From S2P Require Import Prelude GoStrings Float64 Encoding Canon Json SqlText Sql GoJson Model World Concrete Commit Rbac JsonSchema Pack Records.
From S2P Require Import Workflow Anchors Standby StandbyCorrect Tokens TokensCorrect Requests Mail Api Gate ApiCorrect.
Local Open Scope Z_scope.

Record SitePage := mkSitePage { sp_Path : string; sp_Template : string; sp_Title : string }.
Record SiteShell := mkSiteShell { sh_Prefix : string; sh_Index : string }.
Record SiteStatic := mkSiteStatic { ss_Prefix : string; ss_Dir : string }.
Record Site := mkSite {
  si_Title : string;
  si_Pages : list SitePage;
  si_Shells : list SiteShell;
  si_Static : option SiteStatic;
  si_Console : string;
  si_Join : string;
}.

Definition reservedPaths : list string :=
  ["/health"; "/readiness"; "/app-config.js"; "/version"; "/privasys.json"; "/configure"; "/openapi.yaml"; "/explorer"; "/favicon.svg"].
Definition reservedPrefixes : list string := ["/api/"; "/tools/"; "/assets/"; "/vendor/"; "/brand/"; "/explorer/"].

(** [path.Clean] of a rooted path. *)
Definition clean_step (out : list string) (s : string) : list string :=
  if String.eqb s "" || String.eqb s "." then out else if String.eqb s ".." then tail out else s :: out.
Definition clean_segments (l : list string) : list string := rev (fold_left clean_step l []).
Definition join_path (l : list string) : string := "/" +:+ Join l "/".
Definition Clean (p : string) : string := join_path (clean_segments (Split1 p "/")).

(** ** Reading the declaration *)

(** [json.Decoder] into [Site], refusing unknown members at every level. *)
Inductive site_kind := KText | KPages | KShells | KStatic.
Definition strict_texts (names : list string) (v : value) : res value :=
  match v with
  | VNull => Ok (VObj [])
  | VObj m => b ← fill_all assign_string (map (fun n => (n, tt)) names) m ∅; Ok (VObj (map (fun n => (n, field b n)) names))
  | _ => Err mismatch
  end.
Definition assign_site (k : site_kind) (old v : value) : res value :=
  match k, v with
  | KText, _ => assign_string tt old v
  | _, VNull => Ok VNull
  | KPages, VArr l => l' ← collect (map (strict_texts ["path"; "template"; "title"]) l); Ok (VArr l')
  | KShells, VArr l => l' ← collect (map (strict_texts ["prefix"; "index"]) l); Ok (VArr l')
  | KStatic, VObj _ => strict_texts ["prefix"; "dir"] v
  | _, _ => Err mismatch
  end.
Definition site_fields : list (string * site_kind) :=
  [("title", KText); ("pages", KPages); ("shells", KShells); ("static", KStatic); ("console", KText); ("join", KText)].
Definition objects_of (v : value) : list object :=
  match v with VArr l => map (fun x => match x with VObj m => m | _ => [] end) l | _ => [] end.
Definition site_of (b : body) : Site :=
  mkSite (str_field b "title")
    (map (fun m => mkSitePage (str_claim "path" m) (str_claim "template" m) (str_claim "title" m)) (objects_of (field b "pages")))
    (map (fun m => mkSiteShell (str_claim "prefix" m) (str_claim "index" m)) (objects_of (field b "shells")))
    (match field b "static" with VObj m => Some (mkSiteStatic (str_claim "prefix" m) (str_claim "dir" m)) | _ => None end)
    (first (str_field b "console") "/console") (str_field b "join").

(** ** Refusing a defect *)
Section validate.
(** Whether a path below the site's directory is a file, or a directory;
    a directory may be named with [..] and is resolved by the system. *)
Variable is_file : string -> bool.
Variable is_dir : string -> bool.

(** [claim]: what is claimed so far, and for what. *)
Definition claims := list (string * string).
Definition claim (seen : claims) (what p : string) : res claims :=
  _ ← refuse_if (String.eqb p "" || negb (HasPrefix p "/")) (Errorf "site: %s path %q must start with /" [what; p]);
  _ ← refuse_if (negb (String.eqb p "/") && (HasSuffix p "/" || negb (String.eqb (Clean p) p)))
        (Errorf "site: %s path %q must be clean and carry no trailing slash" [what; p]);
  _ ← refuse_if (containsString reservedPaths p) (Errorf "site: %s path %q is the register's own" [what; p]);
  _ ← refuse_if (existsb (HasPrefix (p +:+ "/")) reservedPrefixes) (Errorf "site: %s path %q is under the register's %s" [what; p]);
  match assoc p seen with
  | Some prev => Err (Errorf "site: %s path %q is already a %s" [what; p; prev])
  | None => Ok ((p, what) :: seen)
  end.
Definition exists_ (rel what : string) : res unit :=
  let clean := Clean ("/" +:+ rel) in
  refuse_if (String.eqb rel "" || HasPrefix clean "/.." || negb (is_file clean)) (Errorf "site: %s %q is not a file under %s" [what; rel]).
Definition claim_page (seen : claims) (p : SitePage) : res claims :=
  seen ← claim seen "page" (sp_Path p);
  _ ← refuse_if (String.eqb (sp_Template p) "" || Contains (sp_Template p) "/" || Contains (sp_Template p) "\")
        (Errorf "site: page %q names template %q; a template is a file name under templates/" [sp_Path p; sp_Template p]);
  Ok seen.
Definition claim_shell (seen : claims) (s : SiteShell) : res claims :=
  _ ← refuse_if (String.eqb (sh_Prefix s) "/") (Errorf "site: a shell may not take the root; declare a page for / instead" []);
  seen ← claim seen "shell" (sh_Prefix s);
  _ ← exists_ (sh_Index s) ("shell " +:+ sh_Prefix s +:+ " index");
  Ok seen.
Fixpoint claim_all {A} (f : claims -> A -> res claims) (l : list A) (seen : claims) : res claims :=
  match l with [] => Ok seen | x :: l => seen ← f seen x; claim_all f l seen end.
Definition check_join (join : string) : res unit :=
  if String.eqb join "" then Ok tt
  else
    _ ← refuse_if (negb (HasPrefix join "/") || HasSuffix join "/" || negb (String.eqb (Clean join) join))
          (Errorf "site: join path %q must be absolute, clean and carry no trailing slash" [join]);
    refuse_if (existsb (HasPrefix (join +:+ "/")) reservedPrefixes) (Errorf "site: join path %q is under the register's %s" [join]).
Definition TrimSlash (s : string) : string := if HasSuffix s "/" then str_take (String.length s - 1) s else s.
Definition claim_static (seen : claims) (st : SiteStatic) : res claims :=
  _ ← refuse_if (String.eqb (ss_Prefix st) "" || negb (HasPrefix (ss_Prefix st) "/") || negb (HasSuffix (ss_Prefix st) "/")
                 || String.eqb (ss_Prefix st) "/") (Errorf "site: static prefix %q must start and end with / and not be the root" [ss_Prefix st]);
  seen ← claim seen "static" (TrimSlash (ss_Prefix st));
  _ ← refuse_if (String.eqb (ss_Dir st) "") (Errorf "site: static dir is empty" []);
  _ ← refuse_if (negb (is_dir (ss_Dir st))) (Errorf "site: static dir %q is not a directory under %s" [ss_Dir st]);
  Ok seen.
Definition validate_site (s : Site) : res claims :=
  seen ← claim [] "console" (si_Console s);
  seen ← claim_all claim_page (si_Pages s) seen;
  seen ← claim_all claim_shell (si_Shells s) seen;
  _ ← check_join (si_Join s);
  match si_Static s with Some st => claim_static seen st | None => Ok seen end.
(** [loadSite], without its templates. *)
Definition loadSite (raw : string) : res Site :=
  match (ms ← first_object raw; fill_all assign_site site_fields ms ∅) with
  | Err e => Err (Wrapf "site: %s: %w" ["site.json"] e)
  | Ok b => _ ← validate_site (site_of b); Ok (site_of b)
  end.
End validate.

(** ** What a site answers *)

(** The patterns [registerSite] registers for one claimed path: a page
    answers its own path, anything else its whole subtree. *)
Definition subtree (what : string) : bool := negb (String.eqb what "page").
Definition path_segments (p : string) : list string := match str_drop 1 p with "" => [] | s => Split1 s "/" end.
Definition site_answers (c : string * string) (path : list string) : bool :=
  let own := path_segments c.1 in
  if subtree c.2 then bool_decide (own `prefix_of` path) else bool_decide (own = path).
(** [siteStatic]: the file below its directory, if one is served. *)
Definition static_path (st : SiteStatic) (path : list string) : option string :=
  let rel := drop (length (path_segments (TrimSlash (ss_Prefix st)))) (clean_segments path) in
  if bool_decide (rel = []) || existsb (fun s => HasPrefix s ".") rel then None else Some (Join rel "/").

(** ** The register's paths stay its own *)

Lemma rev_app_push a acc s : String.rev (String a acc) +:+ s = String.rev acc +:+ String a s.
Proof.
  unfold String.rev. assert (forall acc b, String.rev_app acc b = String.rev_app acc "" +:+ b) as Hr.
  { clear. induction acc as [|x acc IH]; intros b; [done|]. cbn. rewrite IH, (IH (String x "")), string_app_assoc. done. }
  cbn. rewrite (Hr acc (String a "")), string_app_assoc. done.
Qed.
Lemma split_go_cons s c : forall acc, exists x l, split_go acc s c = x :: l.
Proof. induction s as [|a s IH]; intros acc; cbn; [by eexists _, _|]. case_match; [by eexists _, _|apply IH]. Qed.
Lemma Join_split_go s c : forall acc, Join (split_go acc s c) (String c "") = String.rev acc +:+ s.
Proof.
  induction s as [|a s IH]; intros acc; cbn [split_go]; [by rewrite string_app_nil_r|].
  destruct (Ascii.eqb a c) eqn:Ea.
  - apply Ascii.eqb_eq in Ea as ->. specialize (IH ""). destruct (split_go_cons s c "") as (x & l & El). rewrite El in IH |- *.
    cbn [Join] in *. rewrite IH. done.
  - rewrite IH. apply rev_app_push.
Qed.
Lemma Join_Split1 s c : Join (Split1 s c) (String c "") = s.
Proof. unfold Split1. by rewrite Join_split_go. Qed.

Lemma claimed_text p : HasPrefix p "/" = true -> p = "/" +:+ Join (path_segments p) "/".
Proof.
  destruct p as [|a p]; [done|]. cbn [HasPrefix]. intros [<-%Ascii.eqb_eq _]%andb_true_iff. unfold path_segments.
  rewrite str_drop_S, str_drop_0.
  destruct p as [|b p]; [done|]. change ("/" +:+ ?x) with (String "/" x). f_equal. symmetry. apply (Join_Split1 (String b p) "/").
Qed.

(** What every claim passes. *)
Record claimed (p : string) : Prop := {
  cl_rooted : HasPrefix p "/" = true;
  cl_not_own : containsString reservedPaths p = false;
  cl_outside : existsb (HasPrefix (p +:+ "/")) reservedPrefixes = false;
}.
Lemma claim_claimed seen what p seen' : claim seen what p = Ok seen' -> claimed p /\ seen' = (p, what) :: seen.
Proof. unfold claim. intros E. res_inv. case_match; [done|]. res_inv. bool_hyps. done. Qed.
Definition all_claimed (l : claims) : Prop := Forall (fun c => claimed c.1) l.
Lemma claim_all_claimed {A} (f : claims -> A -> res claims) l :
  (forall seen x seen', f seen x = Ok seen' -> all_claimed seen -> all_claimed seen') ->
  forall seen seen', claim_all f l seen = Ok seen' -> all_claimed seen -> all_claimed seen'.
Proof.
  intros Hf. induction l as [|x l IH]; intros seen seen' E Hs; cbn in E; res_inv; [done|]. eapply IH; [done|]. by eapply Hf.
Qed.
Lemma claim_step seen what p seen' : claim seen what p = Ok seen' -> all_claimed seen -> all_claimed seen'.
Proof. intros [Hp ->]%claim_claimed Hs. by constructor. Qed.
Lemma validated_claims is_file is_dir s l : validate_site is_file is_dir s = Ok l -> all_claimed l.
Proof.
  unfold validate_site. intros E. apply bind_Ok_inv in E as (s1 & E1 & E). apply bind_Ok_inv in E as (s2 & E2 & E).
  apply bind_Ok_inv in E as (s3 & E3 & E). apply bind_Ok_inv in E as (u & _ & E).
  assert (all_claimed s3) as H3.
  { eapply claim_all_claimed; [|exact E3|eapply claim_all_claimed; [|exact E2|by eapply claim_step; [exact E1|constructor]]].
    - intros seen x seen' Ex. unfold claim_shell in Ex. res_inv. by eapply claim_step.
    - intros seen x seen' Ex. unfold claim_page in Ex. res_inv. by eapply claim_step. }
  destruct (si_Static s) as [st|]; [|by res_inv]. unfold claim_static in E. res_inv. by eapply claim_step.
Qed.

(** The paths of the register: below /api and /tools, and its own names. *)
Definition registers_path (path : list string) : Prop :=
  match path with [] => False | a :: rest => a = "api" \/ a = "tools" \/ (rest = [] /\ containsString reservedPaths ("/" +:+ a) = true) end.
Definition registers_pattern (p : list segment) : bool :=
  match p with
  | Lit a :: rest => String.eqb a "api" || String.eqb a "tools" || (match rest with [] => containsString reservedPaths ("/" +:+ a) | _ => false end)
  | _ => false
  end.
Lemma registers_match p path : registers_pattern p = true -> is_Some (match_path p path) -> registers_path path.
Proof.
  destruct p as [|[a|] p]; try done. destruct path as [|b path]; intros Hp [x Hm]; cbn in Hm; [done|].
  case_match eqn:Ea; [|done]. apply String.eqb_eq in Ea as ->. cbn in Hp |- *. apply orb_true_iff in Hp as [[Hp|Hp]%orb_true_iff|Hp].
  - apply String.eqb_eq in Hp. by left.
  - apply String.eqb_eq in Hp. by right; left.
  - right; right. destruct p; [|done]. split; [|done]. by destruct path.
Qed.
Lemma answers_registers c path : claimed c.1 -> registers_path path -> site_answers c path = true -> c.1 = "/".
Proof.
  destruct c as [p what]. cbn [fst]. intros [Hr Hn Ho] Hp Ha. pose proof (claimed_text p Hr) as Et.
  assert (path_segments p `prefix_of` path) as [rest Hpre].
  { unfold site_answers in Ha. cbn [fst snd] in Ha. case_match; apply bool_decide_eq_true in Ha; [done|]. by rewrite Ha. }
  destruct (path_segments p) as [|a own] eqn:Es; [exact Et|]. exfalso. rewrite Hpre in Hp. cbn [app registers_path] in Hp.
  assert (exists tail, p +:+ "/" = "/" +:+ a +:+ "/" +:+ tail) as [tail Etail].
  { rewrite Et. destruct own as [|b own]; cbn [Join]; [exists ""|eexists (Join (b :: own) "/" +:+ "/")];
      rewrite ?string_app_assoc; reflexivity. }
  destruct Hp as [->|[->|[Hnil Hin]]].
  - rewrite Etail in Ho. discriminate Ho.
  - rewrite Etail in Ho. discriminate Ho.
  - apply app_nil in Hnil as [-> _]. cbn [Join] in Et. rewrite Et in Hn. by rewrite Hin in Hn.
Qed.

Section own.
Context `{Runtime} `{GoFormats} `{!Ledger} `{!Replication} `{!Provider} `{!Outbox}.
Variable parse_float : string -> option float64.
Variable ledger_prune : tables -> Z -> res Z.
Variable sv : Server.
Abbreviation own_patterns := (patterns parse_float ledger_prune sv).

End own.

(** ** A site at work *)
Section demo.
#[local] Existing Instance plain_runtime.
#[local] Existing Instance plain_formats.
#[local] Existing Instance plain_ledger.
#[local] Existing Instance plain_replication.
#[local] Existing Instance demo_provider.
#[local] Existing Instance silent_outbox.

Definition everywhere (p : string) : bool := true.
Definition declared (text : string) : res Site := loadSite everywhere everywhere (dquote text).
Example refused_sites :
  map is_ok [declared "{'pages': [{'path': '/about', 'template': 'about.html', 'title': 'About'}]}";
             declared "{'pages': [{'path': '/api/v1/me', 'template': 'me.html'}]}";
             declared "{'pages': [{'path': '/version', 'template': 'v.html'}]}";
             declared "{'shells': [{'prefix': '/', 'index': 'index.html'}]}";
             declared "{'pages': [], 'scripts': []}"] = [true; false; false; false; false].
Proof. vm_compute. reflexivity. Qed.

(** A static directory is only asked to be one, wherever it is. *)
Example static_outside :
  is_ok (declared "{'static': {'prefix': '/files/', 'dir': '../../data'}}") = true.
Proof. vm_compute. reflexivity. Qed.
(** A path with braces is a pattern for the router. *)
Example brace_page :
  is_ok (declared "{'pages': [{'path': '/{any}', 'template': 'any.html'}]}") = true /\
  match_path (segments_of "/{any}") ["missing"] = Some [("any", "missing")].
Proof. split; vm_compute; reflexivity. Qed.

End demo.
